(** * larbatch: a shallow embedding of the batch utilities

    This development embeds the pure and stateful parts of the larbatch
    python modules [project_utilities], [larbatch_utilities] and
    [artroot_filter] and proves (or refutes) properties of them.

    Conventions.
    - Python [str] values are modelled as [string]; characters are bytes and
      the character classes ([isspace], [isdigit]) are Python 3's classes
      restricted to ASCII.
    - Python exceptions are values of [exn]; a computation that can raise
      returns a [res].
    - [int] is the built-in of CPython 3.11 and later with its default
      limit of 4300 digits for a decimal literal.
    - Python [set] objects are [gset string]; where the source shares one
      set object between several references, the objects live in a heap
      and are referred to by location. *)

From Stdlib Require Import ZArith Ascii String List Lia.
From Stdlib.Strings Require Byte.
From stdpp Require Import base option list numbers gmap sets strings sorting.

Local Open Scope Z_scope.

(** ** Exceptions and results *)

Inductive exn : Type :=
  | IndexError
  | KeyError
  | ValueError
  | TypeError
  | OSError
  | UnicodeDecodeError
  | RuntimeError (msg : string)
  | IFDHError (cmd : list string) (rc : Z) (jobout joberr : string)
  | ServiceError (msg : string).

Inductive res (A : Type) : Type :=
  | Ok (a : A)
  | Raise (e : exn).
Arguments Ok {A} a.
Arguments Raise {A} e.

Definition res_bind {A B} (m : res A) (f : A -> res B) : res B :=
  match m with
  | Ok a => f a
  | Raise e => Raise e
  end.

Global Instance res_ret : MRet res := fun A a => Ok a.
Global Instance res_mbind : MBind res := fun A B f m => res_bind m f.

Definition is_ok {A} (r : res A) : bool :=
  match r with Ok _ => true | Raise _ => false end.

(** ** Python string primitives *)

Module Py.

(** [str.isspace] on one ASCII character: TAB, LF, VT, FF, CR, the four
    separators FS, GS, RS, US and the blank. *)
Definition isspace (c : ascii) : bool :=
  let n := N_of_ascii c in
  ((9 <=? n)%N && (n <=? 13)%N) || ((28 <=? n)%N && (n <=? 32)%N).

Definition isdigit_char (c : ascii) : bool :=
  let n := N_of_ascii c in (48 <=? n)%N && (n <=? 57)%N.

Definition digit_value (c : ascii) : Z := Z.of_N (N_of_ascii c) - 48.

(** [s.startswith(p)] *)
Fixpoint startswith (s p : string) : bool :=
  match p, s with
  | EmptyString, _ => true
  | String _ _, EmptyString => false
  | String a p', String b s' => if Ascii.eqb a b then startswith s' p' else false
  end.

(** [s[n:]] and [s[:n]] for a non-negative [n] *)
Fixpoint slice_from (n : nat) (s : string) : string :=
  match n, s with
  | O, _ => s
  | S _, EmptyString => EmptyString
  | S k, String _ s' => slice_from k s'
  end.

Fixpoint slice_to (n : nat) (s : string) : string :=
  match n, s with
  | O, _ => EmptyString
  | S _, EmptyString => EmptyString
  | S k, String c s' => String c (slice_to k s')
  end.

(** [s.find(sub)]: lowest index of an occurrence, or -1 *)
Fixpoint index_of (sub s : string) : option nat :=
  if startswith s sub then Some O
  else match s with
       | EmptyString => None
       | String _ s' => S <$> index_of sub s'
       end.

Definition find (s sub : string) : Z :=
  match index_of sub s with
  | Some n => Z.of_nat n
  | None => -1
  end.

(** [s.replace(old, new)]: occurrences are replaced from left to right and
    do not overlap; [skip] counts the characters of a matched occurrence
    that are still to be passed over. *)
Fixpoint replace_go (old new : string) (skip : nat) (s : string) : string :=
  match s with
  | EmptyString => EmptyString
  | String c s' =>
      match skip with
      | S k => replace_go old new k s'
      | O =>
          if startswith s old
          then new +:+ replace_go old new (String.length old - 1) s'
          else String c (replace_go old new O s')
      end
  end.

Fixpoint intersperse (new s : string) : string :=
  match s with
  | EmptyString => EmptyString
  | String c s' => String c (new +:+ intersperse new s')
  end.

Definition replace (s old new : string) : string :=
  match old with
  | EmptyString => new +:+ intersperse new s
  | _ => replace_go old new O s
  end.

(** [s.split()]: the maximal runs of non-blank characters.  [split_aux]
    returns the word that starts at the head of [s] (empty when [s] starts
    with a blank) and the words after it. *)
Definition push_word (w : string) (ws : list string) : list string :=
  match w with
  | EmptyString => ws
  | _ => w :: ws
  end.

Fixpoint split_aux (s : string) : string * list string :=
  match s with
  | EmptyString => (EmptyString, [])
  | String c s' =>
      let '(w, ws) := split_aux s' in
      if isspace c then (EmptyString, push_word w ws) else (String c w, ws)
  end.

Definition split (s : string) : list string :=
  let '(w, ws) := split_aux s in push_word w ws.

(** [s.split(sep)] for a separator of one character *)
Fixpoint split_sep (s : string) (sep : ascii) : list string :=
  match s with
  | EmptyString => [EmptyString]
  | String c s' =>
      if Ascii.eqb c sep then EmptyString :: split_sep s' sep
      else match split_sep s' sep with
           | w :: ws => String c w :: ws
           | [] => [String c EmptyString]
           end
  end.

(** [s.strip()] *)
Fixpoint lstrip (s : string) : string :=
  match s with
  | EmptyString => EmptyString
  | String c s' => if isspace c then lstrip s' else s
  end.

Fixpoint rstrip (s : string) : string :=
  match s with
  | EmptyString => EmptyString
  | String c s' =>
      match rstrip s' with
      | EmptyString => if isspace c then EmptyString else String c EmptyString
      | r => String c r
      end
  end.

Definition strip (s : string) : string := rstrip (lstrip s).

(** [s.isdigit()]: non-empty and made of digits *)
Fixpoint all_digits (s : string) : bool :=
  match s with
  | EmptyString => true
  | String c s' => isdigit_char c && all_digits s'
  end.

Definition isdigit (s : string) : bool :=
  match s with
  | EmptyString => false
  | _ => all_digits s
  end.

(** [int(s)].  What [int] skips at both ends of an ASCII string is the
    blank, TAB, LF, VT, FF and CR; the four separators FS, GS, RS and US,
    which [strip] takes off as well, it does not skip.  Then come an
    optional sign and decimal digits in which single underscores may
    separate digits.  A literal of more than [max_str_digits] digits is
    refused with [ValueError]: the limit of CPython 3.11 and later, at its
    default of 4300 digits. *)
Definition int_isspace (c : ascii) : bool :=
  let n := N_of_ascii c in
  ((9 <=? n)%N && (n <=? 13)%N) || (n =? 32)%N.

Fixpoint int_lstrip (s : string) : string :=
  match s with
  | EmptyString => EmptyString
  | String c s' => if int_isspace c then int_lstrip s' else s
  end.

Fixpoint int_rstrip (s : string) : string :=
  match s with
  | EmptyString => EmptyString
  | String c s' =>
      match int_rstrip s' with
      | EmptyString => if int_isspace c then EmptyString else String c EmptyString
      | r => String c r
      end
  end.

Definition max_str_digits : nat := 4300.

(** The digits of a literal; underscores do not count. *)
Fixpoint count_digits (s : string) : nat :=
  match s with
  | EmptyString => O
  | String c s' => if isdigit_char c then S (count_digits s') else count_digits s'
  end.

Fixpoint int_digits (acc : Z) (after_digit : bool) (s : string) : option Z :=
  match s with
  | EmptyString => if after_digit then Some acc else None
  | String c s' =>
      if isdigit_char c then int_digits (10 * acc + digit_value c) true s'
      else if Ascii.eqb c "_" && after_digit then int_digits acc false s'
      else None
  end.

Definition int (s : string) : res Z :=
  let t := int_rstrip (int_lstrip s) in
  let '(negative, body) :=
    match t with
    | String "-" r => (true, r)
    | String "+" r => (false, r)
    | _ => (false, t)
    end in
  if (max_str_digits <? count_digits body)%nat then Raise ValueError
  else match int_digits 0 false body with
       | Some n => Ok (if negative then - n else n)
       | None => Raise ValueError
       end.

(** ["sep".join(ws)] *)
Fixpoint join (sep : string) (ws : list string) : string :=
  match ws with
  | [] => EmptyString
  | [w] => w
  | w :: ws' => w +:+ sep +:+ join sep ws'
  end.

(** [str + v] where [v] may be [None] *)
Definition add_str (s : string) (v : option string) : res string :=
  match v with
  | Some t => Ok (s +:+ t)
  | None => Raise TypeError
  end.

(** [s.lower()] on ASCII letters *)
Definition lower_char (c : ascii) : ascii :=
  let n := N_of_ascii c in
  if (65 <=? n)%N && (n <=? 90)%N then ascii_of_N (n + 32) else c.

Fixpoint lower (s : string) : string :=
  match s with
  | EmptyString => EmptyString
  | String c s' => String (lower_char c) (lower s')
  end.

(** [s.splitlines()]: a line ends at LF, CR, CR LF, VT, FF, FS, GS or RS *)
Definition islinebreak (c : ascii) : bool :=
  let n := N_of_ascii c in
  ((10 <=? n)%N && (n <=? 13)%N) || ((28 <=? n)%N && (n <=? 30)%N).

Fixpoint splitlines (s : string) : list string :=
  match s with
  | EmptyString => []
  | String c s' =>
      if islinebreak c then
        if Ascii.eqb c "013" && startswith s' (String "010" EmptyString)
        then splitlines s'
        else EmptyString :: splitlines s'
      else match splitlines s' with
           | l :: ls => String c l :: ls
           | [] => [String c EmptyString]
           end
  end.

(** [f.readlines()]: the lines of a text with their line ends kept *)
Fixpoint readlines (s : string) : list string :=
  match s with
  | EmptyString => []
  | String c s' =>
      if Ascii.eqb c "010" then String c EmptyString :: readlines s'
      else match readlines s' with
           | l :: ls => String c l :: ls
           | [] => [String c EmptyString]
           end
  end.

(** ['%d' % n] and ['%o' % n] *)
Definition digit_char (d : N) : ascii := ascii_of_N (48 + d).

Fixpoint digits_go (base : N) (fuel : nat) (n : N) (acc : string) : string :=
  match fuel with
  | O => acc
  | S fuel' =>
      let acc' := String (digit_char (n mod base)) acc in
      if (n / base =? 0)%N then acc' else digits_go base fuel' (n / base) acc'
  end.

Definition format_base (base : N) (n : Z) : string :=
  let body := digits_go base (S (N.to_nat (N.size (Z.abs_N n)))) (Z.abs_N n) EmptyString in
  if n <? 0 then String "-" body else body.

Definition format_d : Z -> string := format_base 10.
Definition format_o : Z -> string := format_base 8.

End Py.

(** ** larbatch_utilities: the ifdh interfaces and dCache paths *)

(** What the wrappers ask of the operating system.  [sys_popen cmd env] is
    the child started by [subprocess.Popen(cmd, ...)] with the environment
    [env], waited for by [wait_for_subprocess] in its thread and read back
    through the queue: it gives the return code and the two captured
    streams, or [None] when [Popen] raises [OSError].  [sys_check_call cmd
    env] tells whether [subprocess.check_call(cmd)] returns rather than
    raises, and [sys_decode] is [bytes.decode()], with [None] for a
    [UnicodeDecodeError]. *)
Definition bytes : Type := list Byte.byte.

Record System : Type := {
  sys_check_call : list string -> gmap string string -> bool;
  sys_gethostname : string;
  sys_getuser : string;
  sys_popen : list string -> gmap string string -> option (Z * bytes * bytes);
  sys_decode : bytes -> option string
}.

(** The process state the wrappers read and write: [os.environ] and the
    module's global [token_ok]. *)
Record proc_state : Type := {
  environ : gmap string string;
  token_ok : bool
}.

Definition set_environ (env : gmap string string) (st : proc_state) : proc_state :=
  {| environ := env; token_ok := token_ok st |}.

Definition set_token_ok (b : bool) (st : proc_state) : proc_state :=
  {| environ := environ st; token_ok := b |}.

(** Computations over the process state that may raise. *)
Definition proc (A : Type) : Type := proc_state -> res A * proc_state.

Global Instance proc_ret : MRet proc := fun A a st => (Ok a, st).
Global Instance proc_mbind : MBind proc := fun A B f m st =>
  match m st with
  | (Ok a, st') => f a st'
  | (Raise e, st') => (Raise e, st')
  end.

Definition proc_raise {A} (e : exn) : proc A := fun st => (Raise e, st).
Definition proc_get : proc proc_state := fun st => (Ok st, st).
Definition proc_modify (f : proc_state -> proc_state) : proc unit :=
  fun st => (Ok (), f st).

Module larbatch_utilities.

Definition get_experiment (sys : System) : proc string :=
  st ← proc_get;
  let exp :=
    match environ st !! "EXPERIMENT" with
    | Some v => v
    | None => match environ st !! "SAM_EXPERIMENT" with
              | Some v => v
              | None => ""
              end
    end in
  let exp :=
    match exp with
    | EmptyString =>
        let hostname := sys_gethostname sys in
        let n := Py.find hostname "gpvm" in
        if 0 <? n then Py.slice_to (Z.to_nat n) hostname else exp
    | _ => exp
    end in
  match exp with
  | EmptyString => proc_raise (RuntimeError "Unable to determine experiment.")
  | _ => mret exp
  end.

Definition get_role (sys : System) : proc string :=
  st ← proc_get;
  match environ st !! "ROLE" with
  | Some v => mret v
  | None =>
      experiment ← get_experiment sys;
      let prouser := experiment +:+ "pro" in
      let user := sys_getuser sys in
      if String.eqb user prouser then mret "Production" else mret "Analysis"
  end.

Definition get_token (sys : System) : proc bool :=
  proc_modify (set_token_ok false);;
  role ← get_role sys;
  let role := Py.lower role in
  experiment ← get_experiment sys;
  let cmd := ["htgettoken"; "-a"; "htvaultprod.fnal.gov"; "-i"; experiment] in
  let cmd := if String.eqb role "production" then cmd ++ ["-r"; role] else cmd in
  st ← proc_get;
  let ok := sys_check_call sys cmd (environ st) in
  proc_modify (set_token_ok ok);;
  mret ok.

Definition test_token (sys : System) : proc bool :=
  st ← proc_get;
  (if token_ok st then mret ()
   else
     let ok := sys_check_call sys ["httokendecode"] (environ st) in
     proc_modify (set_token_ok ok);;
     if ok then mret () else (get_token sys;; mret ()));;
  st ← proc_get;
  mret (token_ok st).

(** [for var in ('X509_USER_CERT', 'X509_USER_KEY'): if var in os.environ:
    save_vars[var] = os.environ[var]; del os.environ[var]] *)
Definition x509_vars : list string := ["X509_USER_CERT"; "X509_USER_KEY"].

Fixpoint unset_vars (vars : list string) (save_vars env : gmap string string)
    : gmap string string * gmap string string :=
  match vars with
  | [] => (save_vars, env)
  | var :: rest =>
      match env !! var with
      | Some v => unset_vars rest (<[var := v]> save_vars) (delete var env)
      | None => unset_vars rest save_vars env
      end
  end.

Definition save_x509 : proc (gmap string string) :=
  st ← proc_get;
  let '(save_vars, env) := unset_vars x509_vars ∅ (environ st) in
  proc_modify (set_environ env);;
  mret save_vars.

(** [for var in list(save_vars.keys()): os.environ[var] = save_vars[var]];
    the keys come in the order in which [save_x509] inserted them. *)
Fixpoint restore_vars (vars : list string) (save_vars env : gmap string string)
    : gmap string string :=
  match vars with
  | [] => env
  | var :: rest =>
      match save_vars !! var with
      | Some v => restore_vars rest save_vars (<[var := v]> env)
      | None => restore_vars rest save_vars env
      end
  end.

Definition restore_x509 (save_vars : gmap string string) : proc unit :=
  proc_modify (fun st => set_environ (restore_vars x509_vars save_vars (environ st)) st).

(** [convert_str] on the [bytes] that the queue holds *)
Definition convert_str (sys : System) (s : bytes) : proc string :=
  match sys_decode sys s with
  | Some t => mret t
  | None => proc_raise UnicodeDecodeError
  end.

(** From [subprocess.Popen] to the three [q.get()]: start the child, wait
    for it in a thread (terminating it after the timeout), then read the
    return code and the converted streams off the queue. *)
Definition run_subprocess (sys : System) (cmd : list string) : proc (Z * string * string) :=
  st ← proc_get;
  match sys_popen sys cmd (environ st) with
  | None => proc_raise OSError
  | Some (rc, out, err) =>
      jobout ← convert_str sys out;
      joberr ← convert_str sys err;
      mret (rc, jobout, joberr)
  end.

(** [if rc != 0: restore; raise IFDHError(cmd, rc, jobout, joberr)] *)
Definition raise_if_failed (save_vars : gmap string string) (cmd : list string)
    (rc : Z) (jobout joberr : string) : proc unit :=
  if negb (rc =? 0) then
    restore_x509 save_vars;;
    proc_raise (IFDHError cmd rc jobout joberr)
  else mret ().

Definition ifdh_cp (sys : System) (source destination : string) : proc unit :=
  test_token sys;;
  save_vars ← save_x509;
  let cmd := ["ifdh"; "cp"; source; destination] in
  '(rc, jobout, joberr) ← run_subprocess sys cmd;
  raise_if_failed save_vars cmd rc jobout joberr;;
  restore_x509 save_vars.

Definition ifdh_ls (sys : System) (path : string) (depth : Z) : proc (list string) :=
  test_token sys;;
  save_vars ← save_x509;
  let cmd := ["ifdh"; "ls"; path; Py.format_d depth] in
  '(rc, jobout, joberr) ← run_subprocess sys cmd;
  raise_if_failed save_vars cmd rc jobout joberr;;
  restore_x509 save_vars;;
  mret (Py.splitlines jobout).

Definition ifdh_ll (sys : System) (path : string) (depth : Z) : proc (list string) :=
  test_token sys;;
  save_vars ← save_x509;
  let cmd := ["ifdh"; "ll"; path; Py.format_d depth] in
  '(rc, jobout, joberr) ← run_subprocess sys cmd;
  raise_if_failed save_vars cmd rc jobout joberr;;
  restore_x509 save_vars;;
  mret (Py.splitlines jobout).

Definition ifdh_mkdir (sys : System) (path : string) : proc unit :=
  test_token sys;;
  save_vars ← save_x509;
  let cmd := ["ifdh"; "mkdir"; path] in
  '(rc, jobout, joberr) ← run_subprocess sys cmd;
  raise_if_failed save_vars cmd rc jobout joberr;;
  restore_x509 save_vars.

Definition ifdh_mkdir_p (sys : System) (path : string) : proc unit :=
  test_token sys;;
  save_vars ← save_x509;
  let cmd := ["ifdh"; "mkdir_p"; path] in
  '(rc, jobout, joberr) ← run_subprocess sys cmd;
  raise_if_failed save_vars cmd rc jobout joberr;;
  restore_x509 save_vars.

Definition ifdh_rmdir (sys : System) (path : string) : proc unit :=
  test_token sys;;
  save_vars ← save_x509;
  let cmd := ["ifdh"; "rmdir"; path] in
  '(rc, jobout, joberr) ← run_subprocess sys cmd;
  raise_if_failed save_vars cmd rc jobout joberr;;
  restore_x509 save_vars.

(** On a non-zero return code [ifdh_chmod] prints a warning and goes on. *)
Definition ifdh_chmod (sys : System) (path : string) (mode : Z) : proc unit :=
  test_token sys;;
  save_vars ← save_x509;
  let cmd := ["ifdh"; "chmod"; Py.format_o mode; path] in
  '(rc, jobout, joberr) ← run_subprocess sys cmd;
  restore_x509 save_vars.

Definition ifdh_mv (sys : System) (src dest : string) : proc unit :=
  test_token sys;;
  save_vars ← save_x509;
  let cmd := ["ifdh"; "mv"; src; dest] in
  '(rc, jobout, joberr) ← run_subprocess sys cmd;
  raise_if_failed save_vars cmd rc jobout joberr;;
  restore_x509 save_vars.

Definition ifdh_rm (sys : System) (path : string) : proc unit :=
  test_token sys;;
  save_vars ← save_x509;
  let cmd := ["ifdh"; "rm"; path] in
  '(rc, jobout, joberr) ← run_subprocess sys cmd;
  raise_if_failed save_vars cmd rc jobout joberr;;
  restore_x509 save_vars.

(** One call of one of the nine interfaces, with its arguments. *)
Inductive ifdh_call : Type :=
  | Call_cp (source destination : string)
  | Call_ls (path : string) (depth : Z)
  | Call_ll (path : string) (depth : Z)
  | Call_mkdir (path : string)
  | Call_mkdir_p (path : string)
  | Call_rmdir (path : string)
  | Call_mv (src dest : string)
  | Call_rm (path : string)
  | Call_chmod (path : string) (mode : Z).

(** The value a call returns: [None] or a list of lines. *)
Definition run_call (sys : System) (c : ifdh_call) : proc (option (list string)) :=
  match c with
  | Call_cp source destination => ifdh_cp sys source destination;; mret None
  | Call_ls path depth => lines ← ifdh_ls sys path depth; mret (Some lines)
  | Call_ll path depth => lines ← ifdh_ll sys path depth; mret (Some lines)
  | Call_mkdir path => ifdh_mkdir sys path;; mret None
  | Call_mkdir_p path => ifdh_mkdir_p sys path;; mret None
  | Call_rmdir path => ifdh_rmdir sys path;; mret None
  | Call_mv src dest => ifdh_mv sys src dest;; mret None
  | Call_rm path => ifdh_rm sys path;; mret None
  | Call_chmod path mode => ifdh_chmod sys path mode;; mret None
  end.

(** The command line a call hands to [subprocess.Popen]. *)
Definition call_cmd (c : ifdh_call) : list string :=
  match c with
  | Call_cp source destination => ["ifdh"; "cp"; source; destination]
  | Call_ls path depth => ["ifdh"; "ls"; path; Py.format_d depth]
  | Call_ll path depth => ["ifdh"; "ll"; path; Py.format_d depth]
  | Call_mkdir path => ["ifdh"; "mkdir"; path]
  | Call_mkdir_p path => ["ifdh"; "mkdir_p"; path]
  | Call_rmdir path => ["ifdh"; "rmdir"; path]
  | Call_mv src dest => ["ifdh"; "mv"; src; dest]
  | Call_rm path => ["ifdh"; "rm"; path]
  | Call_chmod path mode => ["ifdh"; "chmod"; Py.format_o mode; path]
  end.

Definition is_chmod (c : ifdh_call) : bool :=
  match c with Call_chmod _ _ => true | _ => false end.

Definition dcache_server : string := "fndcadoor.fnal.gov".

(** The function has no [return] on the other branch: it yields [None]. *)
Definition dcache_path (path : string) : option string :=
  if Py.startswith path "/pnfs/" && negb (Py.startswith path "/pnfs/fnal.gov/usr/")
  then Some ("/pnfs/fnal.gov/usr/" +:+ Py.slice_from 6 path)
  else None.

Definition xrootd_server_port : string := dcache_server +:+ ":1094".

Definition xrootd_uri (path : string) : res string :=
  if Py.startswith path "/pnfs/"
  then Py.add_str ("root://" +:+ xrootd_server_port) (dcache_path path)
  else Ok path.

Definition gridftp_uri (path : string) : res string :=
  if Py.startswith path "/pnfs/"
  then Py.add_str ("gsiftp://" +:+ dcache_server) (dcache_path path)
  else Ok path.

End larbatch_utilities.

(** ** project_utilities: integer lists and the dimension evaluator *)

(** The SAM web client as the evaluator uses it.  [sam_descDefinitionDict]
    gives the ['dimensions'] entry of a definition's description, and both
    requests raise when the service rejects them. *)
Record SAMWebClient : Type := {
  sam_listFiles : string -> res (list string);
  sam_descDefinitionDict : string -> res string
}.

(** [set.pop()] removes an element of the runtime's choosing. *)
Record SetRuntime : Type := {
  set_pop : gset string -> string;
  set_pop_elem : forall s : gset string, s <> ∅ -> set_pop s ∈ s
}.

(** Python lists that are only appended to are kept in python's order;
    [list_pop] is [l.pop()] and [last_is l s] is [l[-1] == s] on a non-empty
    list.  Lists that python uses purely as stacks ([temp] in [tokenizeRPN],
    [stack] in [listFiles]) are kept top first. *)
Definition list_pop {A} (l : list A) : option (list A * A) :=
  match rev l with
  | [] => None
  | x :: r => Some (rev r, x)
  end.

Definition last_is (l : list string) (s : string) : bool :=
  match list_pop l with
  | Some (_, x) => String.eqb x s
  | None => false
  end.

(** The set objects of the evaluator and the cache that refers to them. *)
Record world : Type := {
  heap : list (gset string);
  samcache : gmap string nat
}.

Definition empty_world : world := {| heap := []; samcache := ∅ |}.

Definition set_at (w : world) (l : nat) : gset string := default ∅ (heap w !! l).

Definition alloc (s : gset string) (w : world) : nat * world :=
  (length (heap w), {| heap := heap w ++ [s]; samcache := samcache w |}).

Definition store (l : nat) (s : gset string) (w : world) : world :=
  {| heap := <[l := s]> (heap w); samcache := samcache w |}.

Definition cache_put (k : string) (l : nat) (w : world) : world :=
  {| heap := heap w; samcache := <[k := l]> (samcache w) |}.

Module project_utilities.

(** *** parseInt *)

Definition sorted (s : gset Z) : list Z := merge_sort Z.le (elements s).

(** [range(lo, hi)] *)
Definition range (lo hi : Z) : list Z := seqZ lo (hi - lo).

Fixpoint parseInt_loop (tokens : list string) (result : gset Z) : res (gset Z) :=
  match tokens with
  | [] => Ok result
  | token :: rest =>
      if Py.isdigit (Py.strip token) then
        n ← Py.int token;
        parseInt_loop rest (result ∪ {[ n ]})
      else
        let limits := Py.split_sep token "-" in
        match limits with
        | [l0; l1] =>
            if Py.isdigit (Py.strip l0) && Py.isdigit (Py.strip l1) then
              lo ← Py.int l0;
              hi ← Py.int l1;
              parseInt_loop rest (result ∪ list_to_set (range lo (hi + 1)))
            else Raise ValueError
        | _ => Raise ValueError
        end
  end.

Definition parseInt (s : string) : res (list Z) :=
  r ← parseInt_loop (Py.split_sep s ",") ∅;
  Ok (sorted r).

(** *** expandDefnames *)

Fixpoint expandDefnames_loop (samweb : SAMWebClient) (words : list string)
    (isdefname : bool) (result : string) : res string :=
  match words with
  | [] => Ok result
  | word :: rest =>
      if isdefname then
        descdim ← sam_descDefinitionDict samweb word;
        if (Py.find descdim " or " <? 0) && (Py.find descdim " minus " <? 0)
        then expandDefnames_loop samweb rest false (result +:+ " defname: " +:+ word)
        else expandDefnames_loop samweb rest false (result +:+ " ( " +:+ descdim +:+ " )")
      else if String.eqb word "defname:" then expandDefnames_loop samweb rest true result
      else expandDefnames_loop samweb rest false (result +:+ " " +:+ word)
  end.

Definition expandDefnames (samweb : SAMWebClient) (dim : string) : res string :=
  expandDefnames_loop samweb (Py.split dim) false "".

(** The loop [while not done: newdim = expandDefnames(dim) ...] at the
    start of [listFiles]; [None] when [fuel] iterations did not reach a
    fixed point. *)
Fixpoint expand_until_fixed (samweb : SAMWebClient) (fuel : nat) (dim : string)
    : option (res string) :=
  match fuel with
  | O => None
  | S fuel' =>
      match expandDefnames samweb dim with
      | Raise e => Some (Raise e)
      | Ok newdim =>
          if String.eqb newdim dim then Some (Ok dim)
          else expand_until_fixed samweb fuel' newdim
      end
  end.

(** *** tokenizeRPN *)

Record tok_state : Type := {
  temp : list string;
  rpn : list string;
  exp : string
}.

(** [if len(exp) > 0: result.append(exp)] *)
Definition flush_exp (exp : string) (result : list string) : list string :=
  match exp with
  | EmptyString => result
  | _ => result ++ [exp]
  end.

(** The [while len(temp) > 0 and not done] loop of the operator case.
    The third comparison is against ['ischildof:'], as in the source. *)
Fixpoint pop_operators (temp result : list string) : list string * list string :=
  match temp with
  | [] => ([], result)
  | last :: temp' =>
      if String.eqb last "(" || String.eqb last "isparentof:("
         || String.eqb last "ischildof:"
      then (last :: temp', result)
      else pop_operators temp' (result ++ [last])
  end.

(** The body shared by the ['isparentof:('] and ['ischildof:('] cases of
    the closing loop; [kw] is ['isparentof:'] or ['ischildof:']. *)
Definition wrap_group (kw : string) (result : list string) : res (list string) :=
  if (length result =? 0)%nat || last_is result "or" || last_is result "minus"
  then Raise (RuntimeError (kw +:+ " parse error"))
  else match list_pop result with
       | Some (result', last) => Ok (result' ++ [kw +:+ "( " +:+ last +:+ " )"])
       | None => Raise IndexError
       end.

(** The [while not done: last = temp.pop() ...] loop of the [')'] case. *)
Fixpoint close_paren (temp result : list string) : res (list string * list string) :=
  match temp with
  | [] => Raise IndexError
  | last :: temp' =>
      if String.eqb last "(" then Ok (temp', result)
      else if String.eqb last "isparentof:(" then
        result' ← wrap_group "isparentof:" result; Ok (temp', result')
      else if String.eqb last "ischildof:(" then
        result' ← wrap_group "ischildof:" result; Ok (temp', result')
      else close_paren temp' (result ++ [last])
  end.

Definition tokenize_word (st : tok_state) (word : string) : res tok_state :=
  if String.eqb word "(" || String.eqb word "isparentof:("
     || String.eqb word "ischildof:(" then
    Ok {| temp := word :: temp st; rpn := flush_exp (exp st) (rpn st); exp := "" |}
  else if String.eqb word "or" || String.eqb word "minus" then
    let '(temp', result') := pop_operators (temp st) (flush_exp (exp st) (rpn st)) in
    Ok {| temp := word :: temp'; rpn := result'; exp := "" |}
  else if String.eqb word ")" then
    '(temp', result') ← close_paren (temp st) (flush_exp (exp st) (rpn st));
    Ok {| temp := temp'; rpn := result'; exp := "" |}
  else
    Ok {| temp := temp st; rpn := rpn st;
          exp := match exp st with
                 | EmptyString => word
                 | e => e +:+ " " +:+ word
                 end |}.

Fixpoint tokenize_loop (words : list string) (st : tok_state) : res tok_state :=
  match words with
  | [] => Ok st
  | word :: rest => st' ← tokenize_word st word; tokenize_loop rest st'
  end.

Definition tokenizeRPN (dim : string) : res (list string) :=
  let n := Py.find dim "with limit" in
  let head := if 0 <=? n then Py.slice_to (Z.to_nat n) dim else dim in
  let tail := if 0 <=? n then Py.slice_from (Z.to_nat n) dim else "" in
  let head := Py.replace head "(" " ( " in
  let head := Py.replace head ")" " ) " in
  let head := Py.replace head "isparentof: " "isparentof:" in
  let head := Py.replace head "ischildof: " "ischildof:" in
  st ← tokenize_loop (Py.split head) {| temp := []; rpn := []; exp := "" |};
  let result := flush_exp (exp st) (rpn st) in
  let result := result ++ temp st in
  Ok (match tail with
      | EmptyString => result
      | _ => result ++ [tail]
      end).

(** *** listFiles *)

(** [while len(stack[-1]) > n: stack[-1].pop()] on the set [s]; [fuel] is
    the size of [s].  The set is returned as the loop left it, also when
    [pop] raised on the empty set. *)
Fixpoint truncate (rt : SetRuntime) (fuel : nat) (n : Z) (s : gset string)
    : res unit * gset string :=
  if Z.of_nat (size s) <=? n then (Ok (), s)
  else match fuel with
       | O => (Raise KeyError, s)
       | S fuel' => truncate rt fuel' n (s ∖ {[ set_pop rt s ]})
       end.

Definition eval_item (samweb : SAMWebClient) (rt : SetRuntime)
    (item : string) (stack : list nat) (w : world) : res (list nat) * world :=
  if String.eqb item "or" then
    match stack with
    | set1 :: set2 :: stack' =>
        let '(union, w') := alloc (set_at w set1 ∪ set_at w set2) w in
        (Ok (union :: stack'), w')
    | _ => (Raise IndexError, w)
    end
  else if String.eqb item "minus" then
    match stack with
    | set1 :: set2 :: stack' =>
        let '(diff, w') := alloc (set_at w set2 ∖ set_at w set1) w in
        (Ok (diff :: stack'), w')
    | _ => (Raise IndexError, w)
    end
  else if Py.startswith item "with limit" then
    match Py.int (Py.slice_from 10 item) with
    | Raise e => (Raise e, w)
    | Ok n =>
        match stack with
        | [] => (Raise IndexError, w)
        | top :: _ =>
            let '(r, s') := truncate rt (size (set_at w top)) n (set_at w top) in
            (_ ← r; Ok stack, store top s' w)
        end
    end
  else
    match samcache w !! item with
    | Some files => (Ok (files :: stack), w)
    | None =>
        match sam_listFiles samweb item with
        | Raise e => (Raise e, w)
        | Ok l =>
            let '(files, w') := alloc (list_to_set l) w in
            (Ok (files :: stack), cache_put item files w')
        end
    end.

Fixpoint eval_rpn (samweb : SAMWebClient) (rt : SetRuntime)
    (items : list string) (stack : list nat) (w : world) : res (list nat) * world :=
  match items with
  | [] => (Ok stack, w)
  | item :: rest =>
      match eval_item samweb rt item stack w with
      | (Ok stack', w') => eval_rpn samweb rt rest stack' w'
      | (Raise e, w') => (Raise e, w')
      end
  end.

(** [listFiles(dim)]; the value returned is the location of the set
    object, and [None] stands for a macro expansion that did not finish
    within [fuel] rounds. *)
Definition listFiles (samweb : SAMWebClient) (rt : SetRuntime) (fuel : nat)
    (dim : string) (w : world) : option (res nat * world) :=
  match samcache w !! dim with
  | Some l => Some (Ok l, w)
  | None =>
      match expand_until_fixed samweb fuel dim with
      | None => None
      | Some (Raise e) => Some (Raise e, w)
      | Some (Ok dim') =>
          match tokenizeRPN dim' with
          | Raise e => Some (Raise e, w)
          | Ok items =>
              match eval_rpn samweb rt items [] w with
              | (Raise e, w') => Some (Raise e, w')
              | (Ok [], w') => Some (Raise IndexError, w')
              | (Ok (top :: _), w') => Some (Ok top, cache_put dim' top w')
              end
          end
      end
  end.

End project_utilities.

(** ** artroot_filter *)

(** The part of ROOT that the filter consults.  A key is known by its name,
    [Get] fetches the object stored under a name, and [TFile_Open] gives
    [None] for the null file that ROOT returns when it cannot open. *)
Record TObject : Type := {
  InheritsFrom : string -> bool
}.

Record TFile : Type := {
  IsOpen : bool;
  IsZombie : bool;
  GetListOfKeys : list string;
  Get : string -> TObject
}.

Record ROOT : Type := {
  TFile_Open : string -> option TFile
}.

Module artroot_filter.

(** The loop over the keys of one file, with its two flags. *)
Fixpoint scan_keys (root : TFile) (keys : list string) (has_events has_db : bool)
    : bool * bool :=
  match keys with
  | [] => (has_events, has_db)
  | objname :: rest =>
      let obj := Get root objname in
      let has_events :=
        if String.eqb objname "Events" && InheritsFrom obj "TTree"
        then true else has_events in
      let has_db :=
        if String.eqb objname "RootFileDB" && InheritsFrom obj "TKey"
        then true else has_db in
      scan_keys root rest has_events has_db
  end.

(** The loop over the lines of standard input; [out] collects what
    [print] wrote, one entry per line printed. *)
Fixpoint main_loop (R : ROOT) (lines : list string) (out : list string) : list string :=
  match lines with
  | [] => out
  | line :: rest =>
      let words := Py.split line in
      match words with
      | [] => main_loop R rest out
      | f :: _ =>
          match TFile_Open R f with
          | Some root =>
              if IsOpen root && negb (IsZombie root) then
                let '(has_events, has_db) :=
                  scan_keys root (GetListOfKeys root) false false in
                if has_events && has_db then main_loop R rest (out ++ [f])
                else main_loop R rest out
              else main_loop R rest out
          | None => main_loop R rest out
          end
      end
  end.

(** [main(argv)] reading the text [stdin]: the lines printed and the
    value returned. *)
Definition main (R : ROOT) (stdin : string) : list string * Z :=
  (main_loop R (Py.readlines stdin) [], 0).

End artroot_filter.

(** * Reference notions

    The notions in which the properties below are stated; none of them is
    used by the embedding above. *)

Definition chars (s : string) : list ascii := list_ascii_of_string s.
Global Arguments chars : simpl never.

(** ** Tokens of an integer list *)

Definition blank (s : string) : Prop :=
  Forall (fun c => Py.isspace c = true) (chars s).

Definition digits (s : string) : Prop :=
  s <> "" /\ Forall (fun c => Py.isdigit_char c = true) (chars s).

(** A digit string, up to blanks around it. *)
Definition padded_digits (t : string) : Prop :=
  exists l d r, t = l +:+ d +:+ r /\ blank l /\ digits d /\ blank r.

(** Two digit strings joined by one hyphen. *)
Definition range_token (t : string) : Prop :=
  exists a b, t = a +:+ "-" +:+ b /\ padded_digits a /\ padded_digits b.

Definition understood (t : string) : Prop := padded_digits t \/ range_token t.

Definition increasing (l : list Z) : Prop := Sorted Z.lt l.

(** The test that [parseInt] applies to one token. *)
Definition token_accepted (token : string) : bool :=
  Py.isdigit (Py.strip token) ||
  match Py.split_sep token "-" with
  | [l0; l1] => Py.isdigit (Py.strip l0) && Py.isdigit (Py.strip l1)
  | _ => false
  end.

(** The blanks that [int] skips, and a digit string that [int] converts:
    only such blanks around it, and no more digits than [int] takes. *)
Definition int_blank (s : string) : Prop :=
  Forall (fun c => Py.int_isspace c = true) (chars s).

Definition int_literal (t : string) : Prop :=
  exists l d r, t = l +:+ d +:+ r /\ int_blank l /\ digits d /\ int_blank r /\
                (String.length d <= Py.max_str_digits)%nat.

(** A token that [parseInt] takes: a digit string that [int] converts, or
    two of them joined by one hyphen. *)
Definition accepted (t : string) : Prop :=
  int_literal t \/
  exists a b, t = a +:+ "-" +:+ b /\ int_literal a /\ int_literal b.

(** A string of [n] digits. *)
Fixpoint many_digits (n : nat) : string :=
  match n with
  | O => EmptyString
  | S n' => String "9" (many_digits n')
  end.

(** ** The ifdh interfaces *)

(** The environment that the child of a wrapper sees. *)
Definition scrub (env : gmap string string) : gmap string string :=
  (larbatch_utilities.unset_vars larbatch_utilities.x509_vars ∅ env).2.

(** What a call returns when it returns. *)
Definition call_value (c : larbatch_utilities.ifdh_call) (jobout : string)
    : option (list string) :=
  match c with
  | larbatch_utilities.Call_ls _ _ | larbatch_utilities.Call_ll _ _ =>
      Some (Py.splitlines jobout)
  | _ => None
  end.

(** Computations that leave [os.environ] as it was, whatever they return. *)
Definition keeps_environ {A} (m : proc A) : Prop :=
  forall st, environ (m st).2 = environ st.

(** A system whose commands all succeed silently, one whose commands all
    end with return code 1, and a process that holds a token and a
    certificate. *)
Definition quiet_system : System := {|
  sys_check_call := fun _ _ => true;
  sys_gethostname := "uboonegpvm01.fnal.gov";
  sys_getuser := "uboonepro";
  sys_popen := fun _ _ => Some (0, [], []);
  sys_decode := fun _ => Some ""
|}.

Definition failing_system : System := {|
  sys_check_call := fun _ _ => true;
  sys_gethostname := "uboonegpvm01.fnal.gov";
  sys_getuser := "uboonepro";
  sys_popen := fun _ _ => Some (1, [], []);
  sys_decode := fun _ => Some ""
|}.

Definition sample_process : proc_state := {|
  environ := {[ "X509_USER_CERT" := "/tmp/x509up_u1000" ]};
  token_ok := true
|}.

(** ** Valid artroot files *)

(** The characters of [s] up to its first blank. *)
Fixpoint word_prefix (s : string) : string :=
  match s with
  | EmptyString => EmptyString
  | String c s' => if Py.isspace c then EmptyString else String c (word_prefix s')
  end.

(** The first word of a line, if the line is not blank. *)
Fixpoint first_word (line : string) : option string :=
  match line with
  | EmptyString => None
  | String c s => if Py.isspace c then first_word s else Some (String c (word_prefix s))
  end.

(** The file has a key [name] and the object stored under it inherits from
    the class [cls]. *)
Definition has_object (root : TFile) (name cls : string) : bool :=
  existsb (String.eqb name) (GetListOfKeys root) && InheritsFrom (Get root name) cls.

Definition is_artroot (R : ROOT) (f : string) : bool :=
  match TFile_Open R f with
  | Some root =>
      IsOpen root && negb (IsZombie root)
      && has_object root "Events" "TTree" && has_object root "RootFileDB" "TKey"
  | None => false
  end.

Definition artroot_files (R : ROOT) (stdin : string) : list string :=
  List.filter (is_artroot R) (omap first_word (Py.readlines stdin)).

(** ** Words and substrings *)

(** A word of a split: not empty and free of blanks. *)
Definition is_word (w : string) : Prop :=
  w <> "" /\ Forall (fun c => Py.isspace c = false) (chars w).

(** [sub] occurs in [s]. *)
Definition contains (s sub : string) : Prop :=
  exists pre post, s = pre +:+ sub +:+ post.

(** [" w1 w2 ... wn"]: every word with one blank before it. *)
Fixpoint spaced (ws : list string) : string :=
  match ws with
  | [] => ""
  | w :: ws' => " " +:+ w +:+ spaced ws'
  end.

(** [" w1 w2 ... wn"] with every word rewritten by [f]. *)
Fixpoint spaced_by (f : string -> string) (ws : list string) : string :=
  match ws with
  | [] => ""
  | w :: ws' => " " +:+ f w +:+ spaced_by f ws'
  end.

(** No occurrence of [old] starts inside [pre] when [rest] follows it. *)
Fixpoint no_start (old rest pre : string) : Prop :=
  match pre with
  | EmptyString => True
  | String _ pre' => Py.startswith (pre +:+ rest) old = false /\ no_start old rest pre'
  end.

(** The text of one word after [tokenizeRPN] has spaced out the
    parentheses, after it has then closed up ['isparentof: '], and after it
    has closed up ['ischildof: ']. *)
Definition spaced_out (t : string) : string :=
  Py.replace (Py.replace t "(" " ( ") ")" " ) ".

Definition closed_up_parent (t : string) : string :=
  if String.eqb t "isparentof:(" then "isparentof:( " else spaced_out t.

Definition closed_up (t : string) : string :=
  if String.eqb t "ischildof:(" then "ischildof:( " else closed_up_parent t.

(** ** One round of macro expansion, word by word *)

(** What [expandDefnames] appends for one word or for one ['defname:'] and
    its name: the word, the clause left as it is, or the description in
    parentheses. *)
Inductive piece : Type :=
  | PWord (w : string)
  | PDef (w : string)
  | PExp (descdim : string).

Definition piece_text (p : piece) : string :=
  match p with
  | PWord w => " " +:+ w
  | PDef w => " defname: " +:+ w
  | PExp d => " ( " +:+ d +:+ " )"
  end.

Definition piece_words (p : piece) : list string :=
  match p with
  | PWord w => [w]
  | PDef w => ["defname:"; w]
  | PExp d => "(" :: Py.split d ++ [")"]
  end.

Fixpoint pieces_text (ps : list piece) : string :=
  match ps with
  | [] => ""
  | p :: ps' => piece_text p +:+ pieces_text ps'
  end.

(** A text that is empty or starts with a blank. *)
Definition detached (s : string) : Prop :=
  s = "" \/ exists t, s = String " " t.

Definition piece_wf (p : piece) : Prop :=
  match p with
  | PWord w | PDef w => is_word w
  | PExp _ => True
  end.

(** A definition is expanded when its description has an [or] or a [minus]
    between blanks. *)
Definition expandable (samweb : SAMWebClient) (w : string) : bool :=
  match sam_descDefinitionDict samweb w with
  | Ok d => negb ((Py.find d " or " <? 0) && (Py.find d " minus " <? 0))
  | Raise _ => false
  end.

Fixpoint pieces (samweb : SAMWebClient) (ws : list string) (isdefname : bool)
    : res (list piece) :=
  match ws with
  | [] => Ok []
  | w :: rest =>
      if isdefname then
        d ← sam_descDefinitionDict samweb w;
        ps ← pieces samweb rest false;
        Ok ((if expandable samweb w then PExp d else PDef w) :: ps)
      else if String.eqb w "defname:" then pieces samweb rest true
      else ps ← pieces samweb rest false; Ok (PWord w :: ps)
  end.

(** The names that follow a ['defname:'] in a list of words. *)
Fixpoint defnames (ws : list string) (isdefname : bool) : list string :=
  match ws with
  | [] => []
  | w :: rest =>
      if isdefname then w :: defnames rest false
      else if String.eqb w "defname:" then defnames rest true
      else defnames rest false
  end.

(** The names that an expanded description brings in. *)
Definition desc_defnames (d : string) : list string :=
  defnames ("(" :: Py.split d ++ [")"]) false.

(** The names that one piece holds for the next round. *)
Definition piece_defnames (p : piece) : list string :=
  match p with
  | PWord _ => []
  | PDef w => [w]
  | PExp d => desc_defnames d
  end.

(** The definitions of the service are ranked when every expanded
    definition refers only to definitions of lower rank: no expanded
    definition leads back to itself. *)
Definition ranked (samweb : SAMWebClient) (rank : string -> nat) : Prop :=
  forall w d, sam_descDefinitionDict samweb w = Ok d -> expandable samweb w = true ->
    forall w', w' ∈ desc_defnames d -> (rank w' < rank w)%nat.

(** Every expandable name among the words is of rank below [n]. *)
Definition rank_below (samweb : SAMWebClient) (rank : string -> nat) (n : nat)
    (ws : list string) : Prop :=
  forall w, w ∈ defnames ws false -> expandable samweb w = true -> (rank w < n)%nat.

(** What a round produces: words other than ['defname:'], clauses of
    definitions that are not expanded, and descriptions of definitions
    that are. *)
Definition piece_from (samweb : SAMWebClient) (ws : list string) (b : bool)
    (p : piece) : Prop :=
  match p with
  | PWord w => w <> "defname:"
  | PDef w => w ∈ defnames ws b /\ expandable samweb w = false /\
              is_ok (sam_descDefinitionDict samweb w) = true
  | PExp d => exists w, w ∈ defnames ws b /\ expandable samweb w = true /\
                        sam_descDefinitionDict samweb w = Ok d
  end.

(** Pieces that a further round leaves as they are. *)
Definition settled (samweb : SAMWebClient) (p : piece) : Prop :=
  match p with
  | PWord w => w <> "defname:"
  | PDef w => expandable samweb w = false /\ is_ok (sam_descDefinitionDict samweb w) = true
  | PExp _ => False
  end.

(** A service with one definition that mentions itself, and a service whose
    definitions are flat. *)
Definition cyclic_samweb : SAMWebClient := {|
  sam_listFiles := fun _ => Ok [];
  sam_descDefinitionDict := fun _ => Ok "defname: X or a"
|}.

Definition flat_samweb : SAMWebClient := {|
  sam_listFiles := fun d =>
    if String.eqb d "A" then Ok ["f1"; "f2"; "f3"]
    else if String.eqb d "B" then Ok ["f3"; "f4"]
    else Ok [];
  sam_descDefinitionDict := fun w =>
    if String.eqb w "AB" then Ok "A or B" else Raise (ServiceError "no such definition")
|}.

(** ** Dimension expressions and their reference semantics *)

Inductive group_kw : Type := IsParentOf | IsChildOf.

Definition kw_text (k : group_kw) : string :=
  match k with
  | IsParentOf => "isparentof:"
  | IsChildOf => "ischildof:"
  end.

Inductive binop : Type := OpOr | OpMinus.

Definition op_text (o : binop) : string :=
  match o with
  | OpOr => "or"
  | OpMinus => "minus"
  end.

(** A dimension: an atomic dimension of one or more words, a group
    [isparentof:( ... )] or [ischildof:( ... )], a dimension in plain
    parentheses, or two dimensions joined by an operator.  Operators have
    equal precedence and associate to the left, so the right operand of an
    operator is never itself an operator application. *)
Inductive expr : Type :=
  | Atom (ws : list string)
  | Group (k : group_kw) (body : expr)
  | Paren (e : expr)
  | Bin (o : binop) (l r : expr).

(** A bare word: no blank and no parenthesis in it, and no group keyword
    inside.  A word of an atomic dimension is a bare word that is not an
    operator. *)
Definition bare (w : string) : bool :=
  negb (String.eqb w "")
  && forallb (fun c => negb (Py.isspace c) && negb (Ascii.eqb c "(") && negb (Ascii.eqb c ")"))
       (chars w)
  && (Py.find w "isparentof:" <? 0) && (Py.find w "ischildof:" <? 0).

Definition plain (w : string) : bool :=
  bare w && negb (String.eqb w "or") && negb (String.eqb w "minus").

(** The words that [tokenizeRPN] tells apart. *)
Definition known_word (t : string) : bool :=
  bare t || String.eqb t "(" || String.eqb t ")"
  || String.eqb t "isparentof:(" || String.eqb t "ischildof:(".

Definition is_operand (e : expr) : bool :=
  match e with Atom _ | Group _ _ => true | _ => false end.

Definition is_term (e : expr) : bool :=
  match e with Bin _ _ _ => false | _ => true end.

Fixpoint well_formed (e : expr) : bool :=
  match e with
  | Atom ws => negb (Nat.eqb (length ws) 0) && forallb plain ws
  | Group _ body => is_operand body && well_formed body
  | Paren e' => well_formed e'
  | Bin _ l r => well_formed l && well_formed r && is_term r
  end.

Fixpoint group_free (e : expr) : bool :=
  match e with
  | Atom _ => true
  | Group _ _ => false
  | Paren e' => group_free e'
  | Bin _ l r => group_free l && group_free r
  end.

(** The words of a dimension as it is written. *)
Fixpoint tokens (e : expr) : list string :=
  match e with
  | Atom ws => ws
  | Group k body => (kw_text k +:+ "(") :: tokens body ++ [")"]
  | Paren e' => "(" :: tokens e' ++ [")"]
  | Bin o l r => tokens l ++ op_text o :: tokens r
  end.

Definition render (e : expr) : string := Py.join " " (tokens e).

(** The text under which an operand is looked up. *)
Fixpoint operand_text (e : expr) : string :=
  match e with
  | Atom ws => Py.join " " ws
  | Group k body => kw_text k +:+ "( " +:+ operand_text body +:+ " )"
  | Paren e' => operand_text e'
  | Bin _ _ r => operand_text r
  end.

(** The dimension in reverse Polish notation, every group one operand. *)
Fixpoint postfix (e : expr) : list string :=
  match e with
  | Atom _ | Group _ _ => [operand_text e]
  | Paren e' => postfix e'
  | Bin o l r => postfix l ++ postfix r ++ [op_text o]
  end.

(** The set a dimension denotes: an operand denotes what the service lists
    for it, [or] is union and [minus] is difference. *)
Fixpoint denote (samweb : SAMWebClient) (e : expr) : res (gset string) :=
  match e with
  | Atom _ | Group _ _ =>
      l ← sam_listFiles samweb (operand_text e); Ok (list_to_set l)
  | Paren e' => denote samweb e'
  | Bin o l r =>
      a ← denote samweb l;
      b ← denote samweb r;
      Ok (match o with OpOr => a ∪ b | OpMinus => a ∖ b end)
  end.

(** ** The tokens of a text *)

Definition is_paren (c : ascii) : bool := Ascii.eqb "(" c || Ascii.eqb ")" c.

(** The tokens of a word: every parenthesis by itself, and the texts
    between parentheses. *)
Fixpoint lex_aux (w : string) : string * list string :=
  match w with
  | EmptyString => (EmptyString, [])
  | String c w' =>
      let '(t, ts) := lex_aux w' in
      if is_paren c then (EmptyString, String c "" :: Py.push_word t ts)
      else (String c t, ts)
  end.

Definition lex (w : string) : list string :=
  let '(t, ts) := lex_aux w in Py.push_word t ts.

(** The tokens of a text: those of its words, in their order. *)
Definition lexed (s : string) : list string := flat_map lex (Py.split s).

(** What one character of a word becomes when [tokenizeRPN] spaces out
    the parentheses. *)
Definition spaced_paren (c : ascii) : string :=
  if Ascii.eqb "(" c then " ( " else if Ascii.eqb ")" c then " ) " else String c "".

(** No [defname:], [isparentof:], [ischildof:] or [with limit] clause. *)
Definition clause_free (e : expr) : Prop :=
  group_free e = true /\ ("defname:" ∉ tokens e) /\ Py.find (render e) "with limit" = -1.

(** ** The state of the tokenizer after a dimension *)

(** The operator still on the stack, the operands and operators already in
    the result, and the atomic dimension being gathered, once the words of
    the dimension have been read. *)
Definition pending (e : expr) : list string :=
  match e with
  | Bin o _ _ => [op_text o]
  | _ => []
  end.

Fixpoint carried (e : expr) : list string :=
  match e with
  | Atom _ => []
  | Group _ _ | Paren _ => postfix e
  | Bin _ l r => postfix l ++ carried r
  end.

Fixpoint current (e : expr) : string :=
  match e with
  | Atom ws => Py.join " " ws
  | Group _ _ | Paren _ => ""
  | Bin _ _ r => current r
  end.

(** An operator stack on which an operator stops at once. *)
Definition blocked (base : list string) : Prop :=
  match base with
  | [] => True
  | x :: _ => x = "("
  end.

(** The four replacements of [tokenizeRPN]. *)
Definition replaced (head : string) : string :=
  Py.replace
    (Py.replace (Py.replace (Py.replace head "(" " ( ") ")" " ) ")
       "isparentof: " "isparentof:")
    "ischildof: " "ischildof:".

(** ** A dimension as it is written *)

(** The parentheses, and the tokens after which the next token may follow
    without a blank: the parentheses and the two group openers. *)
Definition is_paren_token (t : string) : bool :=
  String.eqb t "(" || String.eqb t ")".

Definition ends_open (t : string) : bool :=
  is_paren_token t || String.eqb t "isparentof:(" || String.eqb t "ischildof:(".

(** A text that is empty or starts with a blank of any kind. *)
Definition gapped (s : string) : Prop :=
  s = "" \/ exists c t, s = String c t /\ Py.isspace c = true.

(** [written f b ts s]: the text [s] holds the tokens [ts] in their order,
    each as [f] writes it, with blanks of any kind and number before them,
    between them and after them.  The blanks may be missing before a
    parenthesis, after a parenthesis and after a group opener; [b] tells
    whether they may be missing before the first token. *)
Inductive written (f : string -> string) : bool -> list string -> string -> Prop :=
  | written_nil b g : blank g -> written f b [] g
  | written_cons b g t ts s :
      blank g ->
      (g = "" -> b = true \/ is_paren_token t = true) ->
      written f (ends_open t) ts s ->
      written f b (t :: ts) (g +:+ f t +:+ s).

(** The text [s] writes the tokens [ts]. *)
Definition writes (ts : list string) (s : string) : Prop := written id true ts s.

(** ** The cache of the evaluator *)

(** Every entry of the cache refers to the set that the service lists for
    its key. *)
Definition cache_ok (samweb : SAMWebClient) (w : world) : Prop :=
  forall k l, samcache w !! k = Some l ->
    exists files, sam_listFiles samweb k = Ok files /\ heap w !! l = Some (list_to_set files).

(** No atomic dimension starts with ['with limit']. *)
Fixpoint limit_ok (e : expr) : bool :=
  match e with
  | Atom ws => negb (Py.startswith (Py.join " " ws) "with limit")
  | Group _ _ => true
  | Paren e' => limit_ok e'
  | Bin _ l r => limit_ok l && limit_ok r
  end.

(** ** The limit clause *)

(** The words end with a ['defname:'] that has no name after it. *)
Fixpoint dangling (ws : list string) (isdefname : bool) : bool :=
  match ws with
  | [] => isdefname
  | w :: rest =>
      if isdefname then dangling rest false
      else if String.eqb w "defname:" then dangling rest true
      else dangling rest false
  end.

(** The clause [" with limit N"] that is appended to a dimension. *)
Definition limit_clause (N : string) : string := " with limit " +:+ N.

(** ** A set runtime *)

(** A runtime whose [set.pop] removes the first element in the order of
    [elements]. *)
Lemma first_pop_elem (s : gset string) : s <> ∅ -> default "" (head (elements s)) ∈ s.
Proof.
  intros Hs. destruct (elements s) as [|x l] eqn:E.
  - apply elements_empty_inv, leibniz_equiv in E. contradiction.
  - simpl. apply elem_of_elements. rewrite E. left.
Qed.

Definition first_pop : SetRuntime := {|
  set_pop := fun s => default "" (head (elements s));
  set_pop_elem := first_pop_elem
|}.

(** * Further functions of the modules

    The functions of [larbatch_utilities], [project_utilities] and
    [root_metadata] that the development above does not need, embedded in
    the same way. *)

(** ** Further Python primitives *)

Module PyStr.

(** The backslash, written ['\\'] in the source. *)
Definition backslash : ascii := Ascii.ascii_of_nat 92.

(** [s[i]] for a non-negative [i] *)
Definition getitem (s : string) (i : nat) : res ascii :=
  match String.get i s with
  | Some c => Ok c
  | None => Raise IndexError
  end.

(** [s[-1]], with [None] for the [IndexError] on the empty string *)
Fixpoint last_char (s : string) : option ascii :=
  match s with
  | EmptyString => None
  | String c EmptyString => Some c
  | String _ s' => last_char s'
  end.

(** [s[-n:]] for a positive [n]: the last [n] characters, or all of [s]
    when it is shorter *)
Definition slice_last (n : nat) (s : string) : string :=
  Py.slice_from (String.length s - n) s.

(** [s.endswith(suffix)] *)
Definition endswith (s suffix : string) : bool :=
  (String.length suffix <=? String.length s)%nat
  && String.eqb (Py.slice_from (String.length s - String.length suffix) s) suffix.

(** [s.rfind(c) + 1] for a character [c]: the length of the part of [s] up
    to and including the last [c], or 0 *)
Fixpoint after_last (c : ascii) (s : string) : nat :=
  match s with
  | EmptyString => O
  | String d s' =>
      match after_last c s' with
      | O => if Ascii.eqb d c then 1%nat else O
      | n => S n
      end
  end.

(** [s.rstrip(c)] for a character [c] *)
Fixpoint rstrip_char (c : ascii) (s : string) : string :=
  match s with
  | EmptyString => EmptyString
  | String d s' =>
      match rstrip_char c s' with
      | EmptyString => if Ascii.eqb d c then EmptyString else String d EmptyString
      | r => String d r
      end
  end.

(** [c * n] for a character [c] *)
Fixpoint repeat_char (c : ascii) (n : nat) : string :=
  match n with
  | O => EmptyString
  | S k => String c (repeat_char c k)
  end.

(** [os.path.join(a, b)] of posixpath *)
Definition os_path_join (a b : string) : string :=
  if Py.startswith b "/" then b
  else if String.eqb a "" || endswith a "/" then a +:+ b
  else a +:+ "/" +:+ b.

(** [os.path.dirname(p)] of posixpath:
    [i = p.rfind('/') + 1; head = p[:i];
     if head and head != '/'*len(head): head = head.rstrip('/')] *)
Definition os_path_dirname (p : string) : string :=
  let i := after_last "/" p in
  let head := Py.slice_to i p in
  if negb (String.eqb head "") && negb (String.eqb head (repeat_char "/" (String.length head)))
  then rstrip_char "/" head
  else head.

End PyStr.

(** The constants of the module [stat]. *)
Module stat.

Definition S_IFSOCK : Z := 49152.
Definition S_IFLNK : Z := 40960.
Definition S_IFREG : Z := 32768.
Definition S_IFBLK : Z := 24576.
Definition S_IFDIR : Z := 16384.
Definition S_IFCHR : Z := 8192.
Definition S_IFIFO : Z := 4096.
Definition S_ISUID : Z := 2048.
Definition S_ISGID : Z := 1024.
Definition S_ISVTX : Z := 512.
Definition S_IRUSR : Z := 256.
Definition S_IWUSR : Z := 128.
Definition S_IXUSR : Z := 64.
Definition S_IRGRP : Z := 32.
Definition S_IWGRP : Z := 16.
Definition S_IXGRP : Z := 8.
Definition S_IROTH : Z := 4.
Definition S_IWOTH : Z := 2.
Definition S_IXOTH : Z := 1.

End stat.

(** [zlib.adler32(data, value)]: the two sums of RFC 1950, started from
    the two halves of [value] and kept modulo 65521.  The start values that
    the code passes are 0 and results of [adler32] itself, whose halves
    are below 65521. *)
Module zlib.

Definition BASE : Z := 65521.

Fixpoint adler32_sums (data : list Byte.byte) (s1 s2 : Z) : Z * Z :=
  match data with
  | [] => (s1, s2)
  | b :: rest =>
      let s1 := (s1 + Z.of_N (Byte.to_N b)) mod BASE in
      let s2 := (s2 + s1) mod BASE in
      adler32_sums rest s1 s2
  end.

Definition adler32 (data : list Byte.byte) (value : Z) : Z :=
  let '(s1, s2) := adler32_sums data (Z.land value 65535) (Z.land (Z.shiftr value 16) 65535) in
  Z.lor (Z.shiftl s2 16) s1.

End zlib.

(** ** larbatch_utilities: modes, users and running processes *)

(** What [check_running] and [get_ppid] read of the process and of [/proc]:
    [os_listdir_proc] is [os.listdir('/proc')], [os_stat_uid path] is
    [os.stat(path).st_uid] and [fs_read path] is [open(path).read()], both
    with [None] when the call raises. *)
Record ProcFS : Type := {
  os_getpid : Z;
  os_getuid : Z;
  os_listdir_proc : list string;
  os_stat_uid : string -> option Z;
  fs_read : string -> option string
}.

Module larbatch_utilities_ext.

Import larbatch_utilities.

(** [parse_mode]; every [mode_str[i]] is read when its first comparison is
    made, in the order of the indices. *)
Definition parse_mode (mode_str : string) : res Z :=
  let mode := 0 in
  c ← PyStr.getitem mode_str 0;
  let mode :=
    if Ascii.eqb c "b" then mode + stat.S_IFBLK
    else if Ascii.eqb c "c" then mode + stat.S_IFCHR
    else if Ascii.eqb c "d" then mode + stat.S_IFDIR
    else if Ascii.eqb c "l" then mode + stat.S_IFLNK
    else if Ascii.eqb c "p" then mode + stat.S_IFIFO
    else if Ascii.eqb c "s" then mode + stat.S_IFSOCK
    else if Ascii.eqb c "-" then mode + stat.S_IFREG
    else mode in
  c ← PyStr.getitem mode_str 1;
  let mode := if Ascii.eqb c "r" then mode + stat.S_IRUSR else mode in
  c ← PyStr.getitem mode_str 2;
  let mode := if Ascii.eqb c "w" then mode + stat.S_IWUSR else mode in
  c ← PyStr.getitem mode_str 3;
  let mode :=
    if Ascii.eqb c "x" then mode + stat.S_IXUSR
    else if Ascii.eqb c "s" then mode + stat.S_ISUID + stat.S_IXUSR
    else if Ascii.eqb c "S" then mode + stat.S_ISUID
    else mode in
  c ← PyStr.getitem mode_str 4;
  let mode := if Ascii.eqb c "r" then mode + stat.S_IRGRP else mode in
  c ← PyStr.getitem mode_str 5;
  let mode := if Ascii.eqb c "w" then mode + stat.S_IWGRP else mode in
  c ← PyStr.getitem mode_str 6;
  let mode :=
    if Ascii.eqb c "x" then mode + stat.S_IXGRP
    else if Ascii.eqb c "s" then mode + stat.S_ISGID + stat.S_IXGRP
    else if Ascii.eqb c "S" then mode + stat.S_ISGID
    else mode in
  c ← PyStr.getitem mode_str 7;
  let mode := if Ascii.eqb c "r" then mode + stat.S_IROTH else mode in
  c ← PyStr.getitem mode_str 8;
  let mode := if Ascii.eqb c "w" then mode + stat.S_IWOTH else mode in
  c ← PyStr.getitem mode_str 9;
  let mode :=
    if Ascii.eqb c "x" then mode + stat.S_IXOTH
    else if Ascii.eqb c "t" then mode + stat.S_ISVTX + stat.S_IXOTH
    else if Ascii.eqb c "T" then mode + stat.S_ISVTX
    else mode in
  Ok mode.

Definition get_prouser (sys : System) : proc string :=
  experiment ← get_experiment sys;
  mret (experiment +:+ "pro").

Definition get_user (sys : System) : proc string :=
  role ← get_role sys;
  if String.eqb role "Production" then get_prouser sys
  else mret (sys_getuser sys).

Definition get_ups_products (sys : System) : proc string :=
  experiment ← get_experiment sys;
  mret (experiment +:+ "code").

Definition get_bluearc_server (sys : System) : proc string :=
  experiment ← get_experiment sys;
  mret (experiment +:+ "data:").

(** [os.environ['EXPERIMENT']] raises [KeyError] when the variable is not
    set. *)
Definition nfs_server : proc string :=
  st ← proc_get;
  match environ st !! "EXPERIMENT" with
  | Some v => mret (v +:+ "gpvm01.fnal.gov")
  | None => proc_raise KeyError
  end.

(** [get_ppid]: the loop over the lines of [/proc/<pid>/status]. *)
Fixpoint get_ppid_loop (lines : list string) (result : Z) : res Z :=
  match lines with
  | [] => Ok result
  | line :: rest =>
      if Py.startswith line "PPid:" then
        let words := Py.split line in
        match words with
        | _ :: w1 :: _ =>
            if Py.isdigit w1 then
              result ← Py.int w1;
              get_ppid_loop rest result
            else get_ppid_loop rest result
        | _ => get_ppid_loop rest result
        end
      else get_ppid_loop rest result
  end.

(** [open] raises [OSError] when the status file cannot be read. *)
Definition get_ppid (fs : ProcFS) (pid : Z) : res Z :=
  let statfname := "/proc/" +:+ Py.format_d pid +:+ "/status" in
  match fs_read fs statfname with
  | None => Raise OSError
  | Some text => get_ppid_loop (Py.readlines text) 0
  end.

(** The flags that [check_running] keeps while it reads the words of one
    command line. *)
Record cmd_flags : Type := {
  project : Z;
  xml : Z;
  stage : Z;
  xmlmatch : Z;
  stagematch : Z;
  submit : Z;
  makeup : Z
}.

Definition no_flags : cmd_flags :=
  {| project := 0; xml := 0; stage := 0; xmlmatch := 0; stagematch := 0;
     submit := 0; makeup := 0 |}.

Definition set_project (v : Z) (f : cmd_flags) : cmd_flags :=
  {| project := v; xml := xml f; stage := stage f; xmlmatch := xmlmatch f;
     stagematch := stagematch f; submit := submit f; makeup := makeup f |}.

Definition set_xml (v : Z) (f : cmd_flags) : cmd_flags :=
  {| project := project f; xml := v; stage := stage f; xmlmatch := xmlmatch f;
     stagematch := stagematch f; submit := submit f; makeup := makeup f |}.

Definition set_stage (v : Z) (f : cmd_flags) : cmd_flags :=
  {| project := project f; xml := xml f; stage := v; xmlmatch := xmlmatch f;
     stagematch := stagematch f; submit := submit f; makeup := makeup f |}.

Definition set_xmlmatch (v : Z) (f : cmd_flags) : cmd_flags :=
  {| project := project f; xml := xml f; stage := stage f; xmlmatch := v;
     stagematch := stagematch f; submit := submit f; makeup := makeup f |}.

Definition set_stagematch (v : Z) (f : cmd_flags) : cmd_flags :=
  {| project := project f; xml := xml f; stage := stage f; xmlmatch := xmlmatch f;
     stagematch := v; submit := submit f; makeup := makeup f |}.

Definition set_submit (v : Z) (f : cmd_flags) : cmd_flags :=
  {| project := project f; xml := xml f; stage := stage f; xmlmatch := xmlmatch f;
     stagematch := stagematch f; submit := v; makeup := makeup f |}.

Definition set_makeup (v : Z) (f : cmd_flags) : cmd_flags :=
  {| project := project f; xml := xml f; stage := stage f; xmlmatch := xmlmatch f;
     stagematch := stagematch f; submit := submit f; makeup := v |}.

(** The body of [for word in words]. *)
Definition check_word (xmlname stagename : string) (f : cmd_flags) (word : string)
    : cmd_flags :=
  let f := if PyStr.endswith word "project.py" then set_project 1 f else f in
  let f :=
    if (xml f =? 1) && String.eqb word xmlname then set_xmlmatch 1 f
    else if (stage f =? 1) && String.eqb word stagename then set_stagematch 1 f
    else f in
  let f := set_xml 0 f in
  let f := set_stage 0 f in
  if String.eqb word "--xml" then set_xml 1 f
  else if String.eqb word "--stage" then set_stage 1 f
  else if String.eqb word "--submit" then set_submit 1 f
  else if String.eqb word "--makeup" then set_makeup 1 f
  else f.

Definition check_words (xmlname stagename : string) (words : list string) : cmd_flags :=
  fold_left (check_word xmlname stagename) words no_flags.

(** [project != 0 and submit+makeup != 0 and xmlmatch != 0 and stagematch != 0] *)
Definition flags_match (f : cmd_flags) : bool :=
  negb (project f =? 0) && negb (submit f + makeup f =? 0)
  && negb (xmlmatch f =? 0) && negb (stagematch f =? 0).

(** The body of the [try] for one entry of [/proc]: [true] when the
    process matches, [false] when it does not or when a call raised. *)
Definition check_process (fs : ProcFS) (xmlname stagename pid : string) : bool :=
  let procfile := PyStr.os_path_join "/proc" pid in
  match os_stat_uid fs procfile with
  | None => false
  | Some uid =>
      if uid =? os_getuid fs then
        let cmdfile := PyStr.os_path_join (PyStr.os_path_join "/proc" pid) "cmdline" in
        match fs_read fs cmdfile with
        | None => false
        | Some cmd =>
            let words := Py.split_sep cmd "000" in
            flags_match (check_words xmlname stagename words)
        end
      else false
  end.

(** [while pid > 1: ignore_pids.add(pid); pid = get_ppid(pid)], with
    [None] when [fuel] rounds did not reach the end of the chain. *)
Fixpoint ancestor_pids (fs : ProcFS) (fuel : nat) (pid : Z) (ignore_pids : gset Z)
    : option (res (gset Z)) :=
  if 1 <? pid then
    match fuel with
    | O => None
    | S fuel' =>
        match get_ppid fs pid with
        | Raise e => Some (Raise e)
        | Ok ppid => ancestor_pids fs fuel' ppid (ignore_pids ∪ {[ pid ]})
        end
    end
  else Some (Ok ignore_pids).

(** [for pid in os.listdir('/proc')], left at the first match. *)
Fixpoint check_pids (fs : ProcFS) (xmlname stagename : string) (ignore_pids : gset Z)
    (pids : list string) : res Z :=
  match pids with
  | [] => Ok 0
  | pid :: rest =>
      if Py.isdigit pid then
        n ← Py.int pid;
        if bool_decide (n ∈ ignore_pids) then check_pids fs xmlname stagename ignore_pids rest
        else if check_process fs xmlname stagename pid then Ok 1
        else check_pids fs xmlname stagename ignore_pids rest
      else check_pids fs xmlname stagename ignore_pids rest
  end.

Definition check_running (fs : ProcFS) (fuel : nat) (xmlname stagename : string)
    : option (res Z) :=
  match ancestor_pids fs fuel (os_getpid fs) ∅ with
  | None => None
  | Some (Raise e) => Some (Raise e)
  | Some (Ok ignore_pids) =>
      Some (check_pids fs xmlname stagename ignore_pids (os_listdir_proc fs))
  end.

End larbatch_utilities_ext.

(** ** project_utilities: escapes, directories and the token file *)

(** What the module asks of [larbatch_posix] and of [os]. *)
Record Posix : Type := {
  posix_isdir : string -> bool;
  posix_access : string -> Z -> bool;
  os_path_realpath : string -> string;
  os_path_ismount : string -> bool
}.

Module project_utilities_ext.

Import larbatch_utilities larbatch_utilities_ext.

Definition W_OK : Z := 2.

(** [dollar_escape]: the loop over the characters of [s]. *)
Fixpoint dollar_escape_loop (s result : string) : string :=
  match s with
  | EmptyString => result
  | String c s' =>
      let result :=
        if Ascii.eqb c "$"
           && match PyStr.last_char result with
              | None => true
              | Some d => negb (Ascii.eqb d PyStr.backslash)
              end
        then result +:+ String PyStr.backslash EmptyString
        else result in
      dollar_escape_loop s' (result +:+ String c EmptyString)
  end.

Definition dollar_escape (s : string) : string := dollar_escape_loop s "".

(** [fast_isdir] *)
Definition fast_isdir (px : Posix) (path : string) : bool :=
  if negb (String.eqb (PyStr.slice_last 5 path) ".list")
     && negb (String.eqb (PyStr.slice_last 5 path) ".root")
     && negb (String.eqb (PyStr.slice_last 4 path) ".txt")
     && negb (String.eqb (PyStr.slice_last 4 path) ".fcl")
     && negb (String.eqb (PyStr.slice_last 4 path) ".out")
     && negb (String.eqb (PyStr.slice_last 4 path) ".err")
     && negb (String.eqb (PyStr.slice_last 3 path) ".sh")
     && negb (String.eqb (PyStr.slice_last 5 path) ".stat")
     && posix_isdir px path
  then true else false.

(** [not larbatch_posix.isdir(scratch) or not larbatch_posix.access(scratch, os.W_OK)] *)
Definition unusable (px : Posix) (scratch : string) : bool :=
  negb (posix_isdir px scratch) || negb (posix_access px scratch W_OK).

Definition get_scratch_dir (sys : System) (px : Posix) : proc string :=
  st ← proc_get;
  scratch ←
    match environ st !! "TMPDIR" with
    | Some v => mret v
    | None =>
        match environ st !! "SCRATCH" with
        | Some v => mret v
        | None =>
            experiment ← get_experiment sys;
            user ← get_user sys;
            let scratch := "/scratch/" +:+ experiment +:+ "/" +:+ user in
            if unusable px scratch then
              experiment ← get_experiment sys;
              user ← get_user sys;
              mret ("/exp/" +:+ experiment +:+ "/data/users/" +:+ user)
            else mret scratch
        end
    end;
  if String.eqb scratch "" then proc_raise (RuntimeError "No scratch directory specified.")
  else if unusable px scratch then
    proc_raise (RuntimeError ("Scratch directory " +:+ scratch
                              +:+ " does not exist or is not writeable."))
  else mret scratch.

Definition use_token_auth (fs : ProcFS) : proc unit :=
  st ← proc_get;
  let env := environ st in
  let env := match env !! "BEARER_TOKEN" with
             | Some _ => delete "BEARER_TOKEN" env
             | None => env
             end in
  let tmpdir := default "/tmp" (env !! "TMPDIR") in
  let pid := os_getpid fs in
  let uid := os_getuid fs in
  let token_file_name := "bt_project_py_" +:+ Py.format_d uid +:+ "_" +:+ Py.format_d pid in
  let token_file_path := PyStr.os_path_join tmpdir token_file_name in
  proc_modify (set_environ (<["BEARER_TOKEN_FILE" := token_file_path]> env)).

(** [mountpoint]: the loop [while not os.path.ismount(path)], with [None]
    when [fuel] rounds did not end it. *)
Fixpoint mountpoint_loop (px : Posix) (fuel : nat) (path : string) : option string :=
  if os_path_ismount px path then Some path
  else
    let dir := PyStr.os_path_dirname path in
    if (String.length path <=? String.length dir)%nat then Some dir
    else match fuel with
         | O => None
         | S fuel' => mountpoint_loop px fuel' dir
         end.

Definition mountpoint (px : Posix) (fuel : nat) (path : string) : option string :=
  mountpoint_loop px fuel (os_path_realpath px path).

(** [get_singularity]; [exists] is [os.path.exists] and [abspath] is
    [os.path.abspath]. *)
Definition get_singularity (exists_ : string -> bool) (abspath : string -> string)
    (name : string) : string :=
  let dir := "/cvmfs/singularity.opensciencegrid.org/fermilab" in
  let lcname := Py.lower name in
  if exists_ (abspath name) then abspath name
  else if exists_ (dir +:+ "/" +:+ lcname) then dir +:+ "/" +:+ lcname
  else if exists_ (dir +:+ "/fnal-wn-" +:+ lcname) then dir +:+ "/fnal-wn-" +:+ lcname
  else if exists_ (dir +:+ "/fnal-wn-" +:+ lcname +:+ ":latest")
  then dir +:+ "/fnal-wn-" +:+ lcname +:+ ":latest"
  else "".

End project_utilities_ext.

(** ** root_metadata: checksums *)

Module root_metadata.

(** [convert_1_adler32_to_0_adler32] on the two integers that [int(crc)]
    and [int(filesize)] give. *)
Definition convert_1_adler32_to_0_adler32 (crc filesize : Z) : Z :=
  let size := filesize mod 65521 in
  let s1 := Z.land crc 65535 in
  let s2 := Z.land (Z.shiftr crc 16) 65535 in
  let s1 := (s1 + 65521 - 1) mod 65521 in
  let s2 := (s2 + 65521 - size) mod 65521 in
  Z.shiftl s2 16 + s1.

(** [enstoreChecksum]: the loop [while 1: s = fileobj.read(...)] over the
    blocks that the reads return, up to the first empty one. *)
Fixpoint enstoreChecksum_loop (blocks : list (list Byte.byte)) (crc : Z) : Z :=
  match blocks with
  | [] => crc
  | s :: rest =>
      match s with
      | [] => crc
      | _ => enstoreChecksum_loop rest (zlib.adler32 s crc)
      end
  end.

(** The value returned is the dictionary entry ["crc_value"]. *)
Definition enstoreChecksum (blocks : list (list Byte.byte)) : string :=
  let crc := enstoreChecksum_loop blocks 0 in
  let crc := if crc <? 0 then Z.lor (Z.land crc 2147483647) 2147483648 else crc in
  Py.format_d crc.

End root_metadata.

(** * Further reference notions *)

(** ** File modes *)

(** The character at index [i] of [s] is [c]. *)
Definition char_is (s : string) (i : nat) (c : ascii) : bool :=
  match String.get i s with
  | Some d => Ascii.eqb d c
  | None => false
  end.

(** The file type that the first character of a mode string names. *)
Definition file_type (s : string) : Z :=
  if char_is s 0 "b" then stat.S_IFBLK
  else if char_is s 0 "c" then stat.S_IFCHR
  else if char_is s 0 "d" then stat.S_IFDIR
  else if char_is s 0 "l" then stat.S_IFLNK
  else if char_is s 0 "p" then stat.S_IFIFO
  else if char_is s 0 "s" then stat.S_IFSOCK
  else if char_is s 0 "-" then stat.S_IFREG
  else 0.

(** The ten characters that [ls -l] shows for a mode. *)
Definition type_char (m : Z) : ascii :=
  let t := Z.land m 61440 in
  if t =? stat.S_IFSOCK then "s"
  else if t =? stat.S_IFLNK then "l"
  else if t =? stat.S_IFREG then "-"
  else if t =? stat.S_IFBLK then "b"
  else if t =? stat.S_IFDIR then "d"
  else if t =? stat.S_IFCHR then "c"
  else if t =? stat.S_IFIFO then "p"
  else "?".

Definition perm_char (m : Z) (bit : Z) (c : ascii) : ascii :=
  if Z.testbit m bit then c else "-".

Definition exec_char (m : Z) (bit special : Z) (lower upper : ascii) : ascii :=
  if Z.testbit m special then (if Z.testbit m bit then lower else upper)
  else if Z.testbit m bit then "x" else "-".

Definition mode_string (m : Z) : string :=
  String (type_char m)
    (String (perm_char m 8 "r") (String (perm_char m 7 "w") (String (exec_char m 6 11 "s" "S")
    (String (perm_char m 5 "r") (String (perm_char m 4 "w") (String (exec_char m 3 10 "s" "S")
    (String (perm_char m 2 "r") (String (perm_char m 1 "w") (String (exec_char m 0 9 "t" "T")
    EmptyString))))))))).

(** The seven file types, and a mode made of one of them and twelve
    permission bits. *)
Definition file_types : list Z :=
  [stat.S_IFBLK; stat.S_IFCHR; stat.S_IFDIR; stat.S_IFLNK; stat.S_IFIFO;
   stat.S_IFSOCK; stat.S_IFREG].

Definition known_mode (m : Z) : Prop :=
  exists t p, t ∈ file_types /\ 0 <= p < 4096 /\ m = t + p.

(** The values that the characters of a mode string stand for. *)
Definition type_bits (c : ascii) : Z :=
  if Ascii.eqb c "b" then stat.S_IFBLK
  else if Ascii.eqb c "c" then stat.S_IFCHR
  else if Ascii.eqb c "d" then stat.S_IFDIR
  else if Ascii.eqb c "l" then stat.S_IFLNK
  else if Ascii.eqb c "p" then stat.S_IFIFO
  else if Ascii.eqb c "s" then stat.S_IFSOCK
  else if Ascii.eqb c "-" then stat.S_IFREG
  else 0.

Definition bit_if (c expected : ascii) (v : Z) : Z :=
  if Ascii.eqb c expected then v else 0.

Definition exec_bits (c lower upper : ascii) (xv sv : Z) : Z :=
  if Ascii.eqb c "x" then xv
  else if Ascii.eqb c lower then sv + xv
  else if Ascii.eqb c upper then sv
  else 0.

Definition triad_bits (cr cw cx lower upper : ascii) (rv wv xv sv : Z) : Z :=
  bit_if cr "r" rv + bit_if cw "w" wv + exec_bits cx lower upper xv sv.

(** The bits of the file type and of the three triads, and a number all
    of whose bits are among those of a mask. *)
Definition type_mask : Z := 61440.
Definition user_mask : Z := 2496.
Definition group_mask : Z := 1080.
Definition other_mask : Z := 519.

Definition within (mask x : Z) : Prop := Z.land x mask = x.

(** The value of a mode string of ten characters. *)
Definition mode_value (c0 c1 c2 c3 c4 c5 c6 c7 c8 c9 : ascii) : Z :=
  type_bits c0
  + triad_bits c1 c2 c3 "s" "S" stat.S_IRUSR stat.S_IWUSR stat.S_IXUSR stat.S_ISUID
  + triad_bits c4 c5 c6 "s" "S" stat.S_IRGRP stat.S_IWGRP stat.S_IXGRP stat.S_ISGID
  + triad_bits c7 c8 c9 "t" "T" stat.S_IROTH stat.S_IWOTH stat.S_IXOTH stat.S_ISVTX.

(** ** Escaped dollar signs *)

(** Every dollar sign of [s] has a backslash just before it. *)
Definition escaped (s : string) : Prop :=
  forall pre post, s = pre +:+ String "$" post ->
    exists pre', pre = pre' +:+ String PyStr.backslash EmptyString.

(** The same for a text that follows the character [prev], if any. *)
Fixpoint escaped_after (prev : option ascii) (s : string) : Prop :=
  match s with
  | EmptyString => True
  | String c s' =>
      (c = "$"%char -> prev = Some PyStr.backslash) /\ escaped_after (Some c) s'
  end.

(** [s] with a backslash put before every dollar sign that has none, when
    [s] follows the character [prev]. *)
Fixpoint escape_after (prev : option ascii) (s : string) : string :=
  match s with
  | EmptyString => EmptyString
  | String c s' =>
      let rest := String c (escape_after (Some c) s') in
      if Ascii.eqb c "$"
         && match prev with
            | None => true
            | Some d => negb (Ascii.eqb d PyStr.backslash)
            end
      then String PyStr.backslash rest
      else rest
  end.

(** [s] without its backslashes. *)
Fixpoint without_backslashes (s : string) : string :=
  match s with
  | EmptyString => EmptyString
  | String c s' =>
      if Ascii.eqb c PyStr.backslash then without_backslashes s'
      else String c (without_backslashes s')
  end.

(** ** Systems and environments *)

(** An environment without the two X509 variables. *)
Definition without_x509 (env : gmap string string) : Prop :=
  env !! "X509_USER_CERT" = None /\ env !! "X509_USER_KEY" = None.

(** [sys] with another way of running children. *)
Definition with_popen (sys : System)
    (popen : list string -> gmap string string -> option (Z * bytes * bytes)) : System :=
  {| sys_check_call := sys_check_call sys;
     sys_gethostname := sys_gethostname sys;
     sys_getuser := sys_getuser sys;
     sys_popen := popen;
     sys_decode := sys_decode sys |}.

(** [st] with the variable [var] set to [v]. *)
Definition setenv (var v : string) (st : proc_state) : proc_state :=
  set_environ (<[var := v]> (environ st)) st.

(** A system on which nothing can be run, and a process with both X509
    variables. *)
Definition broken_system : System := {|
  sys_check_call := fun _ _ => false;
  sys_gethostname := "uboonegpvm01.fnal.gov";
  sys_getuser := "alice";
  sys_popen := fun _ _ => None;
  sys_decode := fun _ => None
|}.

Definition x509_process : proc_state := {|
  environ := {[ "X509_USER_CERT" := "/tmp/cert.pem"; "X509_USER_KEY" := "/tmp/key.pem";
                "HOME" := "/home/alice" ]};
  token_ok := false
|}.

(** ** Command lines *)

(** [s] ends with [suffix]. *)
Definition has_suffix (s suffix : string) : Prop := exists pre, s = pre +:+ suffix.

(** The word [a] with the word [b] next after it. *)
Definition adjacent (a b : string) (ws : list string) : Prop :=
  exists pre post, ws = pre ++ a :: b :: post.

Fixpoint adjacentb (a b : string) (ws : list string) : bool :=
  match ws with
  | x :: (y :: _) as rest => String.eqb x a && String.eqb y b || adjacentb a b rest
  | _ => false
  end.

(** The command line of a [project.py] that submits or makes up the stage
    [stagename] of the file [xmlname]. *)
Definition submits (xmlname stagename : string) (words : list string) : Prop :=
  (exists w, w ∈ words /\ has_suffix w "project.py") /\
  ("--submit" ∈ words \/ "--makeup" ∈ words) /\
  adjacent "--xml" xmlname words /\
  adjacent "--stage" stagename words.

(** The flags of [check_running] after the words [ws], said at once. *)
Definition flags_of (xmlname stagename : string) (ws : list string)
    : larbatch_utilities_ext.cmd_flags :=
  {| larbatch_utilities_ext.project :=
       Z.b2z (existsb (fun w => PyStr.endswith w "project.py") ws);
     larbatch_utilities_ext.xml := Z.b2z (last_is ws "--xml");
     larbatch_utilities_ext.stage := Z.b2z (last_is ws "--stage");
     larbatch_utilities_ext.xmlmatch := Z.b2z (adjacentb "--xml" xmlname ws);
     larbatch_utilities_ext.stagematch := Z.b2z (adjacentb "--stage" stagename ws);
     larbatch_utilities_ext.submit := Z.b2z (existsb (fun w => String.eqb w "--submit") ws);
     larbatch_utilities_ext.makeup := Z.b2z (existsb (fun w => String.eqb w "--makeup") ws) |}.

(** The process [pid] of [/proc] is one of this user's and its command
    line submits the stage. *)
Definition submitting_process (fs : ProcFS) (xmlname stagename pid : string) : Prop :=
  os_stat_uid fs ("/proc/" +:+ pid) = Some (os_getuid fs) /\
  exists cmd, fs_read fs ("/proc/" +:+ pid +:+ "/cmdline") = Some cmd /\
              submits xmlname stagename (Py.split_sep cmd "000").

(** A [/proc] with the process 4242 of user 1000, child of process 1, and
    two more processes of that user. *)
Definition sample_procfs : ProcFS := {|
  os_getpid := 4242;
  os_getuid := 1000;
  os_listdir_proc := ["1"; "self"; "4242"; "77"; "88"];
  os_stat_uid := fun path =>
    if String.eqb path "/proc/1" then Some 0
    else if String.eqb path "/proc/4242" || String.eqb path "/proc/77"
            || String.eqb path "/proc/88" then Some 1000
    else None;
  fs_read := fun path =>
    if String.eqb path "/proc/4242/status"
    then Some ("Name: python" +:+ String "010" ("PPid: 1" +:+ String "010" ""))
    else if String.eqb path "/proc/77/cmdline"
    then Some ("vi" +:+ String "000" "notes.txt")
    else if String.eqb path "/proc/88/cmdline"
    then Some ("python" +:+ String "000" ("/bin/project.py" +:+ String "000" ("--xml"
               +:+ String "000" ("a.xml" +:+ String "000" ("--stage" +:+ String "000"
               ("reco" +:+ String "000" "--submit"))))))
    else None
|}.

(** ** The dimension evaluator *)

(** The token [t] of [parseInt] names the number [x]: it is a digit string
    of value [x], or a range whose bounds enclose [x]. *)
Definition token_names (t : string) (x : Z) : Prop :=
  (padded_digits t /\ Py.int t = Ok x) \/
  (exists a b lo hi, t = a +:+ "-" +:+ b /\ padded_digits a /\ padded_digits b /\
     Py.int a = Ok lo /\ Py.int b = Ok hi /\ lo <= x <= hi).

(** Every location the cache holds refers to a set object of the heap. *)
Definition cache_valid (w : world) : Prop :=
  forall k l, samcache w !! k = Some l -> (l < length (heap w))%nat.

(** Every location of the stack refers to a set object of the heap. *)
Definition stack_valid (w : world) (stack : list nat) : Prop :=
  Forall (fun l => (l < length (heap w))%nat) stack.

(** The world [w'] has every set object and every cache key of [w]. *)
Definition world_grows (w w' : world) : Prop :=
  (length (heap w) <= length (heap w'))%nat /\
  dom (samcache w) ⊆ dom (samcache w').

(** The errors of [tokenizeRPN]: an unmatched closing parenthesis and the
    two parse errors of the groups. *)
Definition tokenize_error (e : exn) : Prop :=
  e = IndexError \/ e = RuntimeError "isparentof: parse error" \/
  e = RuntimeError "ischildof: parse error".

(** ** Directories *)

(** A computation that leaves the process as it found it. *)
Definition stateless {A} (m : proc A) : Prop := forall st, (m st).2 = st.

(** The endings for which [fast_isdir] does not ask the file system. *)
Definition file_suffixes : list string :=
  [".list"; ".root"; ".txt"; ".fcl"; ".out"; ".err"; ".sh"; ".stat"].

(** The directory [n] levels above [p], by [os.path.dirname]. *)
Fixpoint ancestor (n : nat) (p : string) : string :=
  match n with
  | O => p
  | S k => ancestor k (PyStr.os_path_dirname p)
  end.

(** The name of the token file of the process of [fs]. *)
Definition token_file_name (fs : ProcFS) : string :=
  "bt_project_py_" +:+ Py.format_d (os_getuid fs) +:+ "_" +:+ Py.format_d (os_getpid fs).

(** A file system with the directories [/], [/exp], [/exp/uboone] and
    [/tmp], of which [/tmp] can be written to; [/] and [/exp] are mount
    points. *)
Definition sample_posix : Posix := {|
  posix_isdir := fun p =>
    String.eqb p "/" || String.eqb p "/exp" || String.eqb p "/exp/uboone"
    || String.eqb p "/tmp";
  posix_access := fun p _ => String.eqb p "/tmp";
  os_path_realpath := fun p => p;
  os_path_ismount := fun p => String.eqb p "/" || String.eqb p "/exp"
|}.

(** ** Checksums *)

(** The bytes that the reads of [enstoreChecksum] deliver: the blocks up to
    the first empty one, joined. *)
Fixpoint read_data (blocks : list (list Byte.byte)) : list Byte.byte :=
  match blocks with
  | [] => []
  | [] :: _ => []
  | s :: rest => s ++ read_data rest
  end.

(** A [/proc] whose status files name no parent. *)
(** A line of the status file whose parent process id has more digits than
    [int] takes. *)
Definition long_ppid (line : string) : bool :=
  Py.startswith line "PPid:" &&
  match Py.split line with
  | _ :: w1 :: _ => Py.isdigit w1 && (Py.max_str_digits <? String.length w1)%nat
  | _ => false
  end.

Definition orphan_procfs : ProcFS := {|
  os_getpid := 1;
  os_getuid := 0;
  os_listdir_proc := ["1"];
  os_stat_uid := fun _ => Some 0;
  fs_read := fun _ => Some ("Name: init" +:+ String "010" "")
|}.

(** * Properties *)

(** ** Strings *)

Section StringFacts.
Implicit Types (s t p q : string) (c : ascii).

Lemma append_nil_l s : "" +:+ s = s.
Proof. reflexivity. Qed.

Lemma append_cons c s t : String c s +:+ t = String c (s +:+ t).
Proof. reflexivity. Qed.

Lemma append_nil_r s : s +:+ "" = s.
Proof. induction s as [|c s IH]; [done | by rewrite append_cons, IH]. Qed.

Lemma append_assoc s t p : (s +:+ t) +:+ p = s +:+ (t +:+ p).
Proof. induction s as [|c s IH]; [done | by rewrite !append_cons, IH]. Qed.

Lemma length_append s t : String.length (s +:+ t) = (String.length s + String.length t)%nat.
Proof. induction s as [|c s IH]; [done | by rewrite append_cons; simpl; rewrite IH]. Qed.

Lemma startswith_nil s : Py.startswith s "" = true.
Proof. by destruct s. Qed.

Lemma startswith_cons c d s p :
  Py.startswith (String d s) (String c p) = Ascii.eqb c d && Py.startswith s p.
Proof. simpl. by destruct (Ascii.eqb c d). Qed.

Lemma startswith_app s p : Py.startswith (p +:+ s) p = true.
Proof.
  induction p as [|c p IH]; [apply startswith_nil|].
  rewrite append_cons, startswith_cons, Ascii.eqb_refl. exact IH.
Qed.

Lemma startswith_spec s p : Py.startswith s p = true <-> exists t, s = p +:+ t.
Proof.
  split.
  - revert s. induction p as [|c p IH]; intros s H.
    + by exists s.
    + destruct s as [|d s]; [done|].
      rewrite startswith_cons in H. apply andb_true_iff in H as [Hc Hp].
      apply Ascii.eqb_eq in Hc as ->. destruct (IH _ Hp) as [t ->]. by exists t.
  - intros [t ->]. apply startswith_app.
Qed.

Lemma startswith_prefix s p q :
  Py.startswith s (p +:+ q) = true -> Py.startswith s p = true.
Proof.
  rewrite !startswith_spec. intros [t ->]. exists (q +:+ t). apply append_assoc.
Qed.

(** *** Characters *)

Lemma chars_cons c s : chars (String c s) = c :: chars s.
Proof. reflexivity. Qed.

Lemma chars_app s t : chars (s +:+ t) = chars s ++ chars t.
Proof. induction s as [|c s IH]; [done|]. by rewrite append_cons, !chars_cons, IH. Qed.

Lemma is_word_cons c s :
  is_word (String c s) <->
  Py.isspace c = false /\ Forall (fun c => Py.isspace c = false) (chars s).
Proof.
  unfold is_word. rewrite chars_cons, Forall_cons. split; [by intros [_ ?]|done].
Qed.

(** *** [find] and occurrences *)

Lemma index_of_cons sub c s :
  Py.index_of sub (String c s) =
  if Py.startswith (String c s) sub then Some O else S <$> Py.index_of sub s.
Proof. reflexivity. Qed.

Lemma index_of_pass old pre rest :
  no_start old rest pre ->
  Py.index_of old (pre +:+ rest) =
  (fun n => (String.length pre + n)%nat) <$> Py.index_of old rest.
Proof.
  induction pre as [|c pre IH].
  - intros _. rewrite append_nil_l. by destruct (Py.index_of old rest).
  - intros [Hc Hpre]. rewrite append_cons in *. rewrite index_of_cons, Hc, (IH Hpre).
    by destruct (Py.index_of old rest).
Qed.

Lemma index_of_Some sub s n :
  Py.index_of sub s = Some n ->
  exists pre post, s = pre +:+ sub +:+ post /\ String.length pre = n.
Proof.
  revert n. induction s as [|c s IH]; intros n.
  - destruct sub; [|done]. intros [= <-]. by exists "", "".
  - rewrite index_of_cons. destruct (Py.startswith (String c s) sub) eqn:E.
    + intros [= <-]. apply startswith_spec in E as [t E].
      exists "", t. split; [exact E | done].
    + destruct (Py.index_of sub s) as [m|]; [|done]. intros [= <-].
      destruct (IH m eq_refl) as (pre & post & -> & Hlen).
      exists (String c pre), post. by rewrite <- Hlen.
Qed.

Lemma index_of_None sub s pre post :
  Py.index_of sub s = None -> s = pre +:+ sub +:+ post -> False.
Proof.
  revert pre. induction s as [|c s IH]; intros pre.
  - destruct sub; [done|]. intros _. by destruct pre.
  - rewrite index_of_cons. destruct (Py.startswith (String c s) sub) eqn:E; [done|].
    destruct (Py.index_of sub s) eqn:En; [done|]. intros _.
    destruct pre as [|d pre].
    + rewrite append_nil_l. intros Hs. rewrite Hs in E. by rewrite startswith_app in E.
    + rewrite append_cons. intros [= <- ->]. by eapply IH.
Qed.

Lemma find_absent s sub : Py.find s sub = -1 <-> ~ contains s sub.
Proof.
  unfold Py.find, contains. destruct (Py.index_of sub s) as [n|] eqn:E.
  - split; [lia|]. intros H. exfalso. apply H.
    destruct (index_of_Some _ _ _ E) as (pre & post & -> & _). by exists pre, post.
  - split; [|done]. intros _ (pre & post & Hs). by eapply index_of_None.
Qed.

Lemma find_present s sub : 0 <= Py.find s sub <-> contains s sub.
Proof.
  unfold Py.find, contains. destruct (Py.index_of sub s) as [n|] eqn:E.
  - split; [|lia]. intros _.
    destruct (index_of_Some _ _ _ E) as (pre & post & -> & _). by exists pre, post.
  - split; [lia|]. intros (pre & post & Hs). exfalso. by eapply index_of_None.
Qed.

Lemma find_negative s sub : Py.find s sub < 0 <-> ~ contains s sub.
Proof.
  rewrite <- find_absent. unfold Py.find. destruct (Py.index_of sub s); lia.
Qed.

Lemma contains_app_l s t sub : contains s sub -> contains (s +:+ t) sub.
Proof.
  intros (pre & post & ->). exists pre, (post +:+ t). by rewrite !append_assoc.
Qed.

Lemma contains_app_r s t sub : contains t sub -> contains (s +:+ t) sub.
Proof.
  intros (pre & post & ->). exists (s +:+ pre), post. by rewrite !append_assoc.
Qed.

Lemma contains_refl s : contains s s.
Proof. exists "", "". by rewrite append_nil_l, append_nil_r. Qed.

Lemma contains_trans s t u : contains s t -> contains t u -> contains s u.
Proof. intros (pre & post & ->) H. by apply contains_app_r, contains_app_l. Qed.

Lemma slice_to_app s t k :
  Py.slice_to (String.length s + k) (s +:+ t) = s +:+ Py.slice_to k t.
Proof. induction s as [|c s IH]; [done|]. rewrite append_cons. simpl. by rewrite IH. Qed.

Lemma slice_from_app s t k :
  Py.slice_from (String.length s + k) (s +:+ t) = Py.slice_from k t.
Proof. induction s as [|c s IH]; [done|]. rewrite append_cons. simpl. by rewrite IH. Qed.

End StringFacts.

(** ** dCache paths *)

Section DCache.
Import larbatch_utilities.

Lemma dcache_path_not_pnfs path :
  Py.startswith path "/pnfs/" = false -> dcache_path path = None.
Proof. intros H. unfold dcache_path. by rewrite H. Qed.

Lemma dcache_path_server_side path :
  Py.startswith path "/pnfs/fnal.gov/usr/" = true -> dcache_path path = None.
Proof.
  intros H. unfold dcache_path. rewrite H.
  by destruct (Py.startswith path "/pnfs/").
Qed.

Lemma server_side_is_pnfs path :
  Py.startswith path "/pnfs/fnal.gov/usr/" = true -> Py.startswith path "/pnfs/" = true.
Proof. apply (startswith_prefix path "/pnfs/" "fnal.gov/usr/"). Qed.

End DCache.

(** C9.  [dcache_path] returns [None], not its argument, for every path
    that does not start with ['/pnfs/'] and for every path that already
    starts with ['/pnfs/fnal.gov/usr/']; for the latter paths [xrootd_uri]
    and [gridftp_uri] therefore raise [TypeError]. *)
Theorem dcache_path_None_uri_TypeError (path : string) :
  (Py.startswith path "/pnfs/" = false ->
     larbatch_utilities.dcache_path path = None) /\
  (Py.startswith path "/pnfs/fnal.gov/usr/" = true ->
     larbatch_utilities.dcache_path path = None /\
     larbatch_utilities.xrootd_uri path = Raise TypeError /\
     larbatch_utilities.gridftp_uri path = Raise TypeError).
Proof.
  split; [apply dcache_path_not_pnfs|].
  intros H. pose proof (dcache_path_server_side _ H) as Hnone.
  pose proof (server_side_is_pnfs _ H) as Hpnfs.
  unfold larbatch_utilities.xrootd_uri, larbatch_utilities.gridftp_uri.
  rewrite Hpnfs, Hnone. done.
Qed.

Lemma dcache_path_None_uri_TypeError_witness :
  larbatch_utilities.dcache_path "/scratch/data.root" = None /\
  larbatch_utilities.dcache_path "/pnfs/fnal.gov/usr/uboone/data.root" = None /\
  larbatch_utilities.xrootd_uri "/pnfs/fnal.gov/usr/uboone/data.root" = Raise TypeError /\
  larbatch_utilities.gridftp_uri "/pnfs/fnal.gov/usr/uboone/data.root" = Raise TypeError.
Proof.
  split.
  - apply (proj1 (dcache_path_None_uri_TypeError "/scratch/data.root")). reflexivity.
  - apply (proj2 (dcache_path_None_uri_TypeError "/pnfs/fnal.gov/usr/uboone/data.root")).
    reflexivity.
Defined.

(** ** parseInt *)

Section ParseInt.
Import project_utilities.
Implicit Types (s t d l r : string) (c : ascii).

Lemma blank_nil : blank "".
Proof. constructor. Qed.

Lemma blank_cons c s : blank (String c s) <-> Py.isspace c = true /\ blank s.
Proof. unfold blank. rewrite chars_cons, Forall_cons. done. Qed.

Lemma all_digits_Forall s :
  Py.all_digits s = true <-> Forall (fun c => Py.isdigit_char c = true) (chars s).
Proof.
  induction s as [|c s IH]; simpl.
  - split; [constructor | done].
  - rewrite chars_cons, Forall_cons, andb_true_iff, IH. done.
Qed.

Lemma isdigit_digits s : Py.isdigit s = true <-> digits s.
Proof.
  unfold digits. rewrite <- all_digits_Forall. destruct s as [|c s].
  - split; [done | by intros []].
  - split; [by intros H | by intros [_ H]].
Qed.

Lemma digit_not_space c : Py.isdigit_char c = true -> Py.isspace c = false.
Proof.
  unfold Py.isdigit_char, Py.isspace. intros H.
  apply andb_true_iff in H as [H1 H2]. apply N.leb_le in H1, H2.
  apply orb_false_iff. split; apply andb_false_iff; right; apply N.leb_gt; lia.
Qed.

(** *** [strip] against the padded form *)

Lemma lstrip_blank_app l s : blank l -> Py.lstrip (l +:+ s) = Py.lstrip s.
Proof.
  induction l as [|c l IH]; [done|]. rewrite blank_cons. intros [Hc Hl].
  rewrite append_cons. simpl. rewrite Hc. auto.
Qed.

Lemma lstrip_split s : exists l, blank l /\ s = l +:+ Py.lstrip s.
Proof.
  induction s as [|c s [l [Hl Hs]]]; [exists ""; split; [apply blank_nil | done]|].
  simpl. destruct (Py.isspace c) eqn:Hc.
  - exists (String c l). rewrite blank_cons, append_cons, <- Hs. done.
  - exists "". split; [apply blank_nil | done].
Qed.

Lemma rstrip_blank r : blank r -> Py.rstrip r = "".
Proof.
  induction r as [|c r IH]; [done|]. rewrite blank_cons. intros [Hc Hr].
  simpl. rewrite (IH Hr), Hc. done.
Qed.

Lemma rstrip_split s : exists r, blank r /\ s = Py.rstrip s +:+ r.
Proof.
  induction s as [|c s [r [Hr Hs]]]; [exists ""; split; [apply blank_nil | done]|].
  simpl.
  destruct (Py.rstrip s) as [|c' s'] eqn:E.
  - rewrite append_nil_l in Hs. subst r.
    destruct (Py.isspace c) eqn:Hc.
    + exists (String c s). rewrite blank_cons. done.
    + exists s. done.
  - exists r. rewrite append_cons, <- Hs. done.
Qed.

Lemma rstrip_digits_blank d r :
  Py.all_digits d = true -> blank r -> Py.rstrip (d +:+ r) = d.
Proof.
  intros Hd Hr. induction d as [|c d IH]; [by apply rstrip_blank|].
  simpl in Hd. apply andb_true_iff in Hd as [Hc Hd].
  rewrite append_cons. simpl. rewrite (IH Hd).
  destruct d; [|done]. by rewrite (digit_not_space _ Hc).
Qed.

Lemma strip_padded l d r : blank l -> digits d -> blank r -> Py.strip (l +:+ d +:+ r) = d.
Proof.
  intros Hl Hd Hr. unfold Py.strip. rewrite lstrip_blank_app by done.
  apply isdigit_digits in Hd. destruct d as [|c d]; [done|].
  simpl in Hd. pose proof Hd as Hd'. apply andb_true_iff in Hd as [Hc _].
  rewrite append_cons. simpl Py.lstrip. rewrite (digit_not_space _ Hc).
  rewrite <- append_cons. by apply rstrip_digits_blank.
Qed.

Lemma isdigit_strip_padded t : Py.isdigit (Py.strip t) = true <-> padded_digits t.
Proof.
  split.
  - intros H. destruct (lstrip_split t) as [l [Hl Ht]].
    destruct (rstrip_split (Py.lstrip t)) as [r [Hr Hu]].
    exists l, (Py.strip t), r. split; [|by rewrite <- isdigit_digits].
    unfold Py.strip. by rewrite <- Hu.
  - intros (l & d & r & -> & Hl & Hd & Hr). rewrite strip_padded by done.
    by apply isdigit_digits.
Qed.

(** *** [int] on a padded digit string *)

Lemma digit_value_nonneg c : Py.isdigit_char c = true -> 0 <= Py.digit_value c.
Proof.
  unfold Py.isdigit_char, Py.digit_value. intros H.
  apply andb_true_iff in H as [H1 _]. apply N.leb_le in H1. lia.
Qed.

Lemma int_digits_all_digits d acc b :
  Py.all_digits d = true -> 0 <= acc -> d <> "" \/ b = true ->
  exists n, Py.int_digits acc b d = Some n /\ 0 <= n.
Proof.
  revert acc b. induction d as [|c d IH]; intros acc b Hd Hacc Hne.
  - destruct Hne as [Hne | ->]; [done|]. by exists acc.
  - simpl in Hd. apply andb_true_iff in Hd as [Hc Hd]. simpl. rewrite Hc.
    apply IH; [done| |by right]. pose proof (digit_value_nonneg _ Hc). lia.
Qed.

Lemma int_digits_no_space s acc b n :
  Py.int_digits acc b s = Some n -> Forall (fun c => Py.isspace c = false) (chars s).
Proof.
  revert acc b. induction s as [|c s IH]; intros acc b; [constructor|].
  simpl. rewrite chars_cons. destruct (Py.isdigit_char c) eqn:Hc.
  - intros H. constructor; [by apply digit_not_space | by eapply IH].
  - destruct (Ascii.eqb_spec c "_") as [->|]; [|done]. destruct b; [|done].
    simpl. intros H. constructor; [done | by eapply IH].
Qed.

Lemma count_digits_all_digits d :
  Py.all_digits d = true -> Py.count_digits d = String.length d.
Proof.
  induction d as [|c d IH]; [done|]. simpl. intros [Hc Hd]%andb_true_iff.
  by rewrite Hc, IH.
Qed.

(** What [int] skips is a blank. *)
Lemma int_isspace_isspace c : Py.int_isspace c = true -> Py.isspace c = true.
Proof.
  unfold Py.int_isspace, Py.isspace. cbv zeta.
  rewrite !orb_true_iff, !andb_true_iff, !N.leb_le, N.eqb_eq. lia.
Qed.

Lemma int_blank_blank s : int_blank s -> blank s.
Proof. intros H. eapply Forall_impl; [exact H|]. apply int_isspace_isspace. Qed.

Lemma int_blank_cons c s :
  int_blank (String c s) <-> Py.int_isspace c = true /\ int_blank s.
Proof. unfold int_blank. rewrite chars_cons, Forall_cons. done. Qed.

Lemma int_lstrip_blank_app l s : int_blank l -> Py.int_lstrip (l +:+ s) = Py.int_lstrip s.
Proof.
  induction l as [|c l IH]; [done|]. rewrite int_blank_cons. intros [Hc Hl].
  rewrite append_cons. simpl. rewrite Hc. auto.
Qed.

Lemma int_lstrip_split s :
  exists l, int_blank l /\ s = l +:+ Py.int_lstrip s /\
    (Py.int_lstrip s = "" \/
     exists c x, Py.int_lstrip s = String c x /\ Py.int_isspace c = false).
Proof.
  induction s as [|c s (l & Hl & Hs & Hhead)].
  - exists "". split; [constructor|]. split; [done | by left].
  - simpl. destruct (Py.int_isspace c) eqn:Hc.
    + exists (String c l). rewrite int_blank_cons, append_cons, <- Hs. done.
    + exists "". split; [constructor|]. split; [done|]. right. by exists c, s.
Qed.

Lemma int_rstrip_app u s :
  Py.int_rstrip (u +:+ s) =
  match Py.int_rstrip s with
  | EmptyString => Py.int_rstrip u
  | x => u +:+ x
  end.
Proof.
  induction u as [|c u IH]; [rewrite append_nil_l; by destruct (Py.int_rstrip s)|].
  rewrite append_cons. cbn [Py.int_rstrip]. rewrite IH.
  destruct (Py.int_rstrip s) as [|d x]; [done|].
  rewrite append_cons. by destruct u.
Qed.

Lemma int_rstrip_blank r : int_blank r -> Py.int_rstrip r = "".
Proof.
  induction r as [|c r IH]; [done|]. rewrite int_blank_cons. intros [Hc Hr].
  simpl. by rewrite (IH Hr), Hc.
Qed.

Lemma int_rstrip_split s :
  exists r, int_blank r /\ s = Py.int_rstrip s +:+ r.
Proof.
  induction s as [|c s [r [Hr Hs]]]; [exists ""; split; [constructor | done]|].
  simpl. destruct (Py.int_rstrip s) as [|c' s'] eqn:E.
  - rewrite append_nil_l in Hs. subst r.
    destruct (Py.int_isspace c) eqn:Hc.
    + exists (String c s). by rewrite int_blank_cons.
    + by exists s.
  - exists r. rewrite append_cons, <- Hs. done.
Qed.

Lemma int_rstrip_head c s :
  Py.int_isspace c = false -> exists x, Py.int_rstrip (String c s) = String c x.
Proof.
  intros Hc. simpl. destruct (Py.int_rstrip s) as [|d x]; rewrite ?Hc; by eexists.
Qed.

Lemma int_rstrip_digits d :
  Py.all_digits d = true -> Py.int_rstrip d = d.
Proof.
  induction d as [|c d IH]; [done|]. simpl. intros [Hc Hd]%andb_true_iff.
  rewrite (IH Hd). destruct d; [|done].
  assert (Py.int_isspace c = false) as ->; [|done].
  destruct (Py.int_isspace c) eqn:E; [|done].
  apply int_isspace_isspace in E. by rewrite (digit_not_space _ Hc) in E.
Qed.

(** [int] on a text that starts, its blanks apart, with a character that
    is no sign. *)
Lemma int_unsigned s c x :
  Py.int_rstrip (Py.int_lstrip s) = String c x ->
  c <> "-"%char -> c <> "+"%char ->
  Py.int s =
  if (Py.max_str_digits <? Py.count_digits (String c x))%nat then Raise ValueError
  else match Py.int_digits 0 false (String c x) with
       | Some n => Ok n
       | None => Raise ValueError
       end.
Proof.
  intros H Hm Hp. unfold Py.int. rewrite H.
  destruct c as [[] [] [] [] [] [] [] []]; try done.
Qed.

Lemma int_raises s e : Py.int s = Raise e -> e = ValueError.
Proof.
  unfold Py.int. cbv zeta.
  destruct (match Py.int_rstrip (Py.int_lstrip s) with
            | EmptyString => _ | String _ _ => _ end) as [negative body].
  destruct (_ <? _)%nat; [by intros [= <-]|].
  destruct (Py.int_digits 0 false body); [done | by intros [= <-]].
Qed.

(** A text that starts, after the blanks that [int] skips, with a blank
    that [int] does not skip is refused. *)
Lemma int_refuses_space s c x :
  Py.int_rstrip (Py.int_lstrip s) = String c x -> Py.isspace c = true ->
  Py.int s = Raise ValueError.
Proof.
  intros H Hc. rewrite (int_unsigned s c x H) by (intros ->; done).
  destruct (_ <? _)%nat; [done|].
  destruct (Py.int_digits 0 false (String c x)) as [n|] eqn:E; [|done].
  apply int_digits_no_space in E. rewrite chars_cons in E.
  apply Forall_cons in E as [E _]. congruence.
Qed.

Lemma int_literal_value l d r :
  int_blank l -> digits d -> int_blank r ->
  (String.length d <= Py.max_str_digits)%nat ->
  exists n, Py.int (l +:+ d +:+ r) = Ok n /\ 0 <= n.
Proof.
  intros Hl Hd Hr Hlen. apply isdigit_digits in Hd.
  destruct d as [|c d]; [done|]. cbn [Py.isdigit] in Hd.
  assert (Py.int_rstrip (Py.int_lstrip (l +:+ String c d +:+ r)) = String c d) as Hs.
  { rewrite int_lstrip_blank_app by done.
    pose proof Hd as [Hc _]%andb_true_iff.
    assert (Py.int_isspace c = false) as Hnc.
    { destruct (Py.int_isspace c) eqn:E; [|done].
      apply int_isspace_isspace in E. by rewrite (digit_not_space _ Hc) in E. }
    rewrite append_cons. cbn [Py.int_lstrip]. rewrite Hnc, <- append_cons.
    rewrite int_rstrip_app, (int_rstrip_blank r Hr). by apply int_rstrip_digits. }
  pose proof Hd as [Hc _]%andb_true_iff.
  rewrite (int_unsigned _ c d Hs) by (intros ->; done).
  rewrite count_digits_all_digits by done.
  destruct (Nat.ltb_spec Py.max_str_digits (String.length (String c d))); [lia|].
  destruct (int_digits_all_digits (String c d) 0 false Hd) as [n [-> Hn]];
    [lia | by left |].
  by exists n.
Qed.

Lemma int_literal_int t : int_literal t -> exists n, Py.int t = Ok n /\ 0 <= n.
Proof. intros (l & d & r & -> & Hl & Hd & Hr & Hlen). by apply int_literal_value. Qed.

Lemma int_literal_padded t : int_literal t -> padded_digits t.
Proof.
  intros (l & d & r & -> & Hl & Hd & Hr & _). exists l, d, r.
  split; [done|]. split; [by apply int_blank_blank|]. split; [done|].
  by apply int_blank_blank.
Qed.

(** A padded digit string that [int] converts has only blanks around it
    that [int] skips, and no more digits than [int] takes. *)
Lemma int_padded_literal t n :
  padded_digits t -> Py.int t = Ok n -> int_literal t /\ 0 <= n.
Proof.
  intros (l & d & r & -> & Hl & Hd & Hr) Hint.
  pose proof Hd as Hd'. apply isdigit_digits in Hd'.
  destruct d as [|c d]; [done|]. cbn [Py.isdigit] in Hd'.
  pose proof Hd' as [Hc _]%andb_true_iff.
  assert (Py.int_isspace c = false) as Hnc.
  { destruct (Py.int_isspace c) eqn:E; [|done].
    apply int_isspace_isspace in E. by rewrite (digit_not_space _ Hc) in E. }
  destruct (int_lstrip_split l) as (l1 & Hl1 & El & Hhead).
  destruct Hhead as [Hnil|(a & x & Ea & Ha)].
  2:{ exfalso. rewrite Ea in El.
      assert (Py.isspace a = true) as Hsa.
      { unfold blank in Hl. rewrite El, chars_app, chars_cons in Hl.
        by apply Forall_app in Hl as [_ [? _]%Forall_cons]. }
      destruct (int_rstrip_head a (x +:+ String c d +:+ r) Ha) as [y Hy].
      rewrite (int_refuses_space _ a y) in Hint; [done| |done].
      rewrite El, !append_assoc, int_lstrip_blank_app by done.
      rewrite append_cons. cbn [Py.int_lstrip]. by rewrite Ha. }
  rewrite Hnil, append_nil_r in El. subst l1.
  assert (Py.int_lstrip (l +:+ String c d +:+ r) = String c d +:+ r) as Hls.
  { rewrite int_lstrip_blank_app by done. rewrite append_cons. cbn [Py.int_lstrip].
    by rewrite Hnc. }
  destruct (int_rstrip_split r) as (r1 & Hr1 & Er).
  destruct (Py.int_rstrip r) as [|a x] eqn:Ea.
  2:{ exfalso.
      assert (Py.int_rstrip (Py.int_lstrip (l +:+ String c d +:+ r))
              = String c (d +:+ String a x)) as Hs.
      { by rewrite Hls, int_rstrip_app, Ea, append_cons. }
      rewrite (int_unsigned _ _ _ Hs) in Hint by (intros ->; done).
      destruct (_ <? _)%nat; [done|].
      destruct (Py.int_digits 0 false _) as [m|] eqn:E; [|done].
      apply int_digits_no_space in E. rewrite <- append_cons, chars_app in E.
      apply Forall_app in E as [_ E]. rewrite chars_cons in E.
      apply Forall_cons in E as [E _].
      unfold blank in Hr. rewrite Er, chars_app, chars_cons in Hr.
      apply Forall_app in Hr as [[Hr _]%Forall_cons _]. congruence. }
  rewrite append_nil_l in Er. subst r1.
  assert (Py.int_rstrip (Py.int_lstrip (l +:+ String c d +:+ r)) = String c d) as Hs.
  { rewrite Hls, int_rstrip_app, Ea. by apply int_rstrip_digits. }
  rewrite (int_unsigned _ _ _ Hs) in Hint by (intros ->; done).
  rewrite count_digits_all_digits in Hint by done.
  destruct (Nat.ltb_spec Py.max_str_digits (String.length (String c d))); [done|].
  destruct (int_digits_all_digits (String c d) 0 false Hd') as [m [Hm Hpos]];
    [lia | by left |].
  rewrite Hm in Hint. injection Hint as <-. split; [|done].
  exists l, (String c d), r. done.
Qed.

(** [int] on a digit string: the number of its digits decides. *)
Lemma int_of_digits w :
  Py.isdigit w = true ->
  if (Py.max_str_digits <? String.length w)%nat then Py.int w = Raise ValueError
  else exists n, Py.int w = Ok n /\ 0 <= n.
Proof.
  intros H. destruct (Nat.ltb_spec Py.max_str_digits (String.length w)) as [Hlen|Hlen].
  - destruct w as [|c w]; [done|]. cbn [Py.isdigit] in H.
    pose proof H as [Hc _]%andb_true_iff.
    assert (Py.int_isspace c = false) as Hnc.
    { destruct (Py.int_isspace c) eqn:E; [|done].
      apply int_isspace_isspace in E. by rewrite (digit_not_space _ Hc) in E. }
    assert (Py.int_rstrip (Py.int_lstrip (String c w)) = String c w) as Hs.
    { cbn [Py.int_lstrip]. rewrite Hnc. by apply int_rstrip_digits. }
    rewrite (int_unsigned _ c w Hs) by (intros ->; done).
    rewrite count_digits_all_digits by done.
    by destruct (Nat.ltb_spec Py.max_str_digits (String.length (String c w))); [|lia].
  - destruct (int_literal_value "" w "") as (n & Hn & Hpos);
      [constructor | by apply isdigit_digits | constructor | done |].
    rewrite append_nil_l, append_nil_r in Hn. by exists n.
Qed.

(** *** Splitting at a separator *)

Lemma split_sep_nonempty s c : Py.split_sep s c <> [].
Proof.
  destruct s as [|d s]; [done|]. simpl.
  destruct (Ascii.eqb d c); [done|]. by destruct (Py.split_sep s c).
Qed.

Lemma split_sep_one s c t : Py.split_sep s c = [t] -> s = t.
Proof.
  revert t. induction s as [|d s IH]; intros t; simpl.
  - by intros [= <-].
  - destruct (Ascii.eqb d c).
    + intros [= <- H]. by apply split_sep_nonempty in H.
    + destruct (Py.split_sep s c) as [|w ws] eqn:E; [by apply split_sep_nonempty in E|].
      intros [= <- ->]. by rewrite (IH w).
Qed.

Lemma split_sep_two s c l0 l1 :
  Py.split_sep s c = [l0; l1] -> s = l0 +:+ String c l1.
Proof.
  revert l0. induction s as [|d s IH]; intros l0; simpl; [done|].
  destruct (Ascii.eqb d c) eqn:Hd.
  - apply Ascii.eqb_eq in Hd as ->. intros [= <- H].
    by rewrite (split_sep_one _ _ _ H).
  - destruct (Py.split_sep s c) as [|w ws] eqn:E; [done|].
    intros [= <- ->]. by rewrite (IH w).
Qed.

Lemma split_sep_free s c : c ∉ chars s -> Py.split_sep s c = [s].
Proof.
  induction s as [|d s IH]; [done|]. rewrite chars_cons, not_elem_of_cons.
  intros [Hd Hs]. simpl. rewrite (IH Hs).
  destruct (Ascii.eqb_spec d c); congruence.
Qed.

Lemma split_sep_app a b c :
  c ∉ chars a -> Py.split_sep (a +:+ String c b) c = a :: Py.split_sep b c.
Proof.
  induction a as [|d a IH].
  - intros _. rewrite append_nil_l. simpl. by rewrite Ascii.eqb_refl.
  - rewrite chars_cons, not_elem_of_cons. intros [Hd Ha].
    rewrite append_cons. simpl. rewrite (IH Ha).
    destruct (Ascii.eqb_spec d c); congruence.
Qed.

Lemma split_sep_hyphen a b :
  "-"%char ∉ chars a -> "-"%char ∉ chars b ->
  Py.split_sep (a +:+ "-" +:+ b) "-" = [a; b].
Proof.
  intros Ha Hb. change ("-" +:+ b) with (String "-" b).
  by rewrite split_sep_app, split_sep_free.
Qed.

Lemma padded_no_hyphen t : padded_digits t -> "-"%char ∉ chars t.
Proof.
  intros (l & d & r & -> & Hl & [_ Hd] & Hr). unfold blank in *.
  rewrite !chars_app, !not_elem_of_app.
  repeat split; intros Hin; eapply Forall_forall in Hin; eauto; done.
Qed.

(** *** The test the loop applies to one token *)

Lemma token_accepted_understood t : token_accepted t = true <-> understood t.
Proof.
  unfold token_accepted, understood. rewrite orb_true_iff, isdigit_strip_padded.
  split; (intros [H|H]; [by left | right]).
  - destruct (Py.split_sep t "-") as [|l0 [|l1 [|]]] eqn:E; try done.
    apply andb_true_iff in H as [H0 H1]. exists l0, l1.
    rewrite <- !isdigit_strip_padded. eauto using split_sep_two.
  - destruct H as (a & b & -> & Ha & Hb).
    rewrite split_sep_hyphen by by apply padded_no_hyphen.
    apply andb_true_iff. by rewrite !isdigit_strip_padded.
Qed.

Lemma range_token_not_padded a b : ~ padded_digits (a +:+ "-" +:+ b).
Proof.
  intros H%padded_no_hyphen. apply H. rewrite chars_app, elem_of_app. right. left.
Qed.

(** *** The loop over the tokens *)

Lemma range_nonneg lo hi x : 0 <= lo -> x ∈ range lo hi -> 0 <= x.
Proof. unfold range. rewrite elem_of_seqZ. lia. Qed.

Lemma accepted_understood t : accepted t -> understood t.
Proof.
  intros [H|(a & b & -> & Ha & Hb)]; [left; by apply int_literal_padded|].
  right. exists a, b. split; [done|]. split; by apply int_literal_padded.
Qed.

(** What the loop does with a token that it takes. *)
Lemma accepted_step t :
  accepted t ->
  (Py.isdigit (Py.strip t) = true /\ exists n, Py.int t = Ok n /\ 0 <= n) \/
  (Py.isdigit (Py.strip t) = false /\
   exists a b lo hi, Py.split_sep t "-" = [a; b] /\
     Py.isdigit (Py.strip a) = true /\ Py.isdigit (Py.strip b) = true /\
     Py.int a = Ok lo /\ Py.int b = Ok hi /\ 0 <= lo).
Proof.
  intros [H|(a & b & -> & Ha & Hb)].
  - left. split; [by apply isdigit_strip_padded, int_literal_padded|].
    by apply int_literal_int.
  - right. split.
    { destruct (Py.isdigit _) eqn:Hd; [|done].
      apply isdigit_strip_padded in Hd. by apply range_token_not_padded in Hd. }
    destruct (int_literal_int a Ha) as [lo [Hlo Hpos]].
    destruct (int_literal_int b Hb) as [hi [Hhi _]].
    apply int_literal_padded in Ha, Hb.
    exists a, b, lo, hi. rewrite split_sep_hyphen by by apply padded_no_hyphen.
    by rewrite !isdigit_strip_padded.
Qed.

Lemma parseInt_loop_spec tokens (acc : gset Z) :
  match parseInt_loop tokens acc with
  | Ok r => Forall accepted tokens /\ forall x, x ∈ r -> x ∈ acc \/ 0 <= x
  | Raise e => e = ValueError /\ Exists (fun t => ~ accepted t) tokens
  end.
Proof.
  revert acc. induction tokens as [|t tokens IH]; intros acc; simpl.
  - split; [constructor | auto].
  - pose proof (accepted_step t) as Hstep.
    destruct (Py.isdigit (Py.strip t)) eqn:Hd.
    + destruct (Py.int t) as [n|e] eqn:Hint; simpl.
      2:{ split; [by eapply int_raises|]. left. intros Ht.
          destruct (Hstep Ht) as [(_ & n & [=] & _)|[[=] _]]. }
      apply isdigit_strip_padded in Hd.
      destruct (int_padded_literal t n Hd Hint) as [Hlit Hn].
      specialize (IH (acc ∪ {[n]})).
      destruct (parseInt_loop tokens (acc ∪ {[n]})) as [r|e].
      * destruct IH as [Hall Hr]. split; [constructor; [by left | done]|].
        intros x Hx. destruct (Hr x Hx) as [Hin|]; [|by right].
        apply elem_of_union in Hin as [|Hin]; [by left | right].
        apply elem_of_singleton in Hin as ->. done.
      * destruct IH as [-> Hex]. split; [done | by right].
    + assert (accepted t ->
              exists a b lo hi, Py.split_sep t "-" = [a; b] /\
                Py.isdigit (Py.strip a) && Py.isdigit (Py.strip b) = true /\
                Py.int a = Ok lo /\ Py.int b = Ok hi) as Hcase.
      { intros Ht. destruct (Hstep Ht) as [[[=] _]|(_ & a & b & lo & hi & H)].
        destruct H as (? & Ha & Hb & ? & ? & _). exists a, b, lo, hi.
        by rewrite Ha, Hb. }
      destruct (Py.split_sep t "-") as [|l0 [|l1 [|]]] eqn:E;
        try (split; [done|]; left; by intros (? & ? & ? & ? & ? & _)%Hcase).
      destruct (Py.isdigit (Py.strip l0) && Py.isdigit (Py.strip l1)) eqn:Hl.
      2:{ split; [done|]. left. intros (a & b & ? & ? & [= <- <-] & Hab & _)%Hcase.
          congruence. }
      apply andb_true_iff in Hl as [H0 H1].
      destruct (Py.int l0) as [lo|e] eqn:Hlo; simpl.
      2:{ split; [by eapply int_raises|]. left.
          intros (a & b & ? & ? & [= <- <-] & _ & ? & _)%Hcase. congruence. }
      destruct (Py.int l1) as [hi|e] eqn:Hhi; simpl.
      2:{ split; [by eapply int_raises|]. left.
          intros (a & b & ? & ? & [= <- <-] & _ & _ & ?)%Hcase. congruence. }
      apply isdigit_strip_padded in H0, H1.
      destruct (int_padded_literal l0 lo H0 Hlo) as [Hlit0 Hpos].
      destruct (int_padded_literal l1 hi H1 Hhi) as [Hlit1 _].
      specialize (IH (acc ∪ list_to_set (range lo (hi + 1)))).
      destruct (parseInt_loop tokens _) as [r|e].
      * destruct IH as [Hall Hr]. split.
        { constructor; [|done]. right. exists l0, l1. split; [|done].
          by apply (split_sep_two t "-"). }
        intros x Hx. destruct (Hr x Hx) as [Hin|]; [|by right].
        apply elem_of_union in Hin as [|Hin]; [by left | right].
        apply elem_of_list_to_set in Hin. eapply range_nonneg; [exact Hpos | exact Hin].
      * destruct IH as [-> Hex]. split; [done | by right].
Qed.

Lemma parseInt_loop_reversed_range a b lo hi rest (acc : gset Z) :
  padded_digits a -> padded_digits b ->
  Py.int a = Ok lo -> Py.int b = Ok hi -> hi < lo ->
  parseInt_loop ((a +:+ "-" +:+ b) :: rest) acc = parseInt_loop rest acc.
Proof.
  intros Ha Hb Hlo Hhi Hlt. simpl.
  destruct (Py.isdigit (Py.strip (a +:+ "-" +:+ b))) eqn:Hd.
  { apply isdigit_strip_padded in Hd. by apply range_token_not_padded in Hd. }
  rewrite split_sep_hyphen by by apply padded_no_hyphen.
  apply isdigit_strip_padded in Ha, Hb. rewrite Ha, Hb, Hlo, Hhi. simpl.
  unfold range. rewrite seqZ_nil by lia. simpl. by rewrite union_empty_r_L.
Qed.

(** *** Sorting a set *)

Lemma sorted_increasing (s : gset Z) : increasing (sorted s).
Proof.
  unfold increasing, sorted.
  assert (NoDup (merge_sort Z.le (elements s))) as Hnd.
  { rewrite merge_sort_Permutation. apply NoDup_elements. }
  pose proof (StronglySorted_merge_sort Z.le (elements s)) as Hs.
  induction Hs as [|x l Hs IH Hx]; [constructor|].
  apply NoDup_cons in Hnd as [Hnot Hnd]. constructor; [by apply IH|].
  destruct l as [|y l]; constructor.
  apply Forall_cons in Hx as [Hxy _]. apply not_elem_of_cons in Hnot as [Hne _]. lia.
Qed.

Lemma elem_of_sorted (s : gset Z) x : x ∈ sorted s <-> x ∈ s.
Proof. unfold sorted. by rewrite merge_sort_Permutation, elem_of_elements. Qed.

End ParseInt.

(** C10, against the claim as stated.  A token that is a digit string up
    to blanks around it is not always taken: [int] does not skip the
    separators 0x1c to 0x1f that [strip] removes, and it refuses a digit
    string of more than 4300 digits.  In both cases every token between
    commas is of the form that the claim names, and [parseInt] raises
    [ValueError]. *)
Lemma parseInt_raises_on_understood_token :
  (Forall understood (Py.split_sep (String "031" (String "4" (String "028" ""))) ",") /\
   project_utilities.parseInt (String "031" (String "4" (String "028" "")))
   = Raise ValueError) /\
  (Forall understood (Py.split_sep (many_digits 4301) ",") /\
   project_utilities.parseInt (many_digits 4301) = Raise ValueError).
Proof.
  split; (split; [|by vm_compute]).
  - constructor; [|constructor]. apply token_accepted_understood. by vm_compute.
  - assert (Py.split_sep (many_digits 4301) "," = [many_digits 4301]) as ->
      by (by vm_compute).
    constructor; [|constructor]. apply token_accepted_understood. by vm_compute.
Qed.

(** C10, amended.  [parseInt] returns a strictly increasing list of
    non-negative integers or raises [ValueError]; it raises exactly when some
    token between commas is neither a digit string of at most 4300 digits
    with only blanks around it that [int] skips, nor two such digit strings
    joined by one hyphen; and a range token whose lower bound exceeds its
    upper bound adds nothing to the result and does not raise. *)
Theorem parseInt_sorted_or_ValueError (s : string) :
  ((exists l, project_utilities.parseInt s = Ok l /\ increasing l /\ Forall (fun x => 0 <= x) l)
   \/ project_utilities.parseInt s = Raise ValueError) /\
  (project_utilities.parseInt s = Raise ValueError <->
     exists t, t ∈ Py.split_sep s "," /\ ~ accepted t) /\
  (forall a b lo hi rest (acc : gset Z),
     padded_digits a -> padded_digits b ->
     Py.int a = Ok lo -> Py.int b = Ok hi -> hi < lo ->
     project_utilities.parseInt_loop ((a +:+ "-" +:+ b) :: rest) acc
     = project_utilities.parseInt_loop rest acc).
Proof.
  unfold project_utilities.parseInt.
  pose proof (parseInt_loop_spec (Py.split_sep s ",") ∅) as H.
  destruct (project_utilities.parseInt_loop (Py.split_sep s ",") ∅) as [r|e]; simpl.
  - destruct H as [Hall Hr]. split; [|split].
    + left. eexists. split; [done|]. split; [apply sorted_increasing|].
      apply Forall_forall. intros x Hx%elem_of_sorted.
      destruct (Hr x Hx) as [Hin|]; [set_solver | done].
    + split; [done|]. intros (t & Hin & Hbad).
      eapply Forall_forall in Hall; eauto. done.
    + apply parseInt_loop_reversed_range.
  - destruct H as [-> Hex]. split; [|split].
    + by right.
    + split; [|done]. intros _. apply Exists_exists in Hex. exact Hex.
    + apply parseInt_loop_reversed_range.
Qed.

Lemma parseInt_sorted_or_ValueError_witness :
  project_utilities.parseInt "4,x" = Raise ValueError /\
  project_utilities.parseInt_loop ["5-3"; "7"] ∅ = project_utilities.parseInt_loop ["7"] ∅.
Proof.
  destruct (parseInt_sorted_or_ValueError "4,x") as (_ & Hraise & Hskip). split.
  - apply Hraise. exists "x". split; [vm_compute; right; left|].
    intros Hu%accepted_understood%token_accepted_understood. vm_compute in Hu. discriminate.
  - apply (Hskip "5" "3" 5 3).
    + apply isdigit_strip_padded. reflexivity.
    + apply isdigit_strip_padded. reflexivity.
    + reflexivity.
    + reflexivity.
    + lia.
Defined.

(** ** The ifdh interfaces *)

Section Ifdh.
Import larbatch_utilities.
Variable sys : System.

Ltac proc_unfold :=
  unfold mbind, proc_mbind, mret, proc_ret, proc_get, proc_modify, proc_raise.

Lemma get_experiment_state st : (get_experiment sys st).2 = st.
Proof.
  unfold get_experiment. proc_unfold. simpl.
  repeat (case_match; simpl; try done).
Qed.

Lemma get_role_state st : (get_role sys st).2 = st.
Proof.
  unfold get_role. proc_unfold. simpl.
  pose proof (get_experiment_state st).
  destruct (environ st !! "ROLE"); [done|].
  destruct (get_experiment sys st) as [[e|e] st']; simpl in *; subst; [|done].
  by case_match.
Qed.

Lemma keeps_environ_ret {A} (a : A) : keeps_environ (mret a).
Proof. by intros st. Qed.

Lemma keeps_environ_raise {A} e : keeps_environ (@proc_raise A e).
Proof. by intros st. Qed.

Lemma keeps_environ_get : keeps_environ proc_get.
Proof. by intros st. Qed.

Lemma keeps_environ_token b : keeps_environ (proc_modify (set_token_ok b)).
Proof. by intros st. Qed.

Lemma keeps_environ_bind {A B} (m : proc A) (f : A -> proc B) :
  keeps_environ m -> (forall a, keeps_environ (f a)) -> keeps_environ (m ≫= f).
Proof.
  intros Hm Hf st. unfold mbind, proc_mbind. specialize (Hm st).
  destruct (m st) as [[a|e] st']; simpl in *; [|done].
  by rewrite Hf.
Qed.

Lemma keeps_environ_get_experiment : keeps_environ (get_experiment sys).
Proof. intros st. by rewrite get_experiment_state. Qed.

Lemma keeps_environ_get_role : keeps_environ (get_role sys).
Proof. intros st. by rewrite get_role_state. Qed.

Create HintDb environ.
Local Hint Resolve keeps_environ_ret keeps_environ_raise keeps_environ_get
  keeps_environ_token keeps_environ_get_experiment keeps_environ_get_role : environ.

Ltac solve_keeps_environ :=
  repeat first
    [ apply keeps_environ_bind; [|intros ?]
    | solve [auto with environ]
    | progress cbv zeta
    | case_match ].

Lemma keeps_environ_get_token : keeps_environ (get_token sys).
Proof. unfold get_token. solve_keeps_environ. Qed.

Lemma keeps_environ_test_token : keeps_environ (test_token sys).
Proof.
  pose proof keeps_environ_get_token. unfold test_token. solve_keeps_environ.
Qed.

(** *** Saving and restoring the two variables *)

Ltac by_x509_key :=
  apply map_eq; intros ?;
  match goal with
  | |- _ !! ?k = _ =>
      destruct (decide (k = "X509_USER_KEY")) as [?|?];
      destruct (decide (k = "X509_USER_CERT")) as [?|?]; subst; by simplify_map_eq
  end.

Lemma restore_unset_x509 (env : gmap string string) :
  restore_vars x509_vars (unset_vars x509_vars ∅ env).1 (scrub env) = env.
Proof.
  unfold scrub, x509_vars. simpl.
  destruct (env !! "X509_USER_CERT") as [a|] eqn:Ha;
    [rewrite lookup_delete_ne by done|];
    destruct (env !! "X509_USER_KEY") as [b|] eqn:Hb; simpl;
    simplify_map_eq; try done; by_x509_key.
Qed.

Lemma scrub_lookup env var : var ∈ x509_vars -> scrub env !! var = None.
Proof.
  unfold scrub, x509_vars. simpl. intros Hin.
  destruct (env !! "X509_USER_CERT") as [a|] eqn:Ha;
    [rewrite lookup_delete_ne by done|];
    destruct (env !! "X509_USER_KEY") as [b|] eqn:Hb; simpl;
    set_unfold; destruct Hin as [->|[->|[]]]; by simplify_map_eq.
Qed.

(** *** One call, step by step *)

Local Arguments unset_vars : simpl never.
Local Arguments restore_vars : simpl never.

Lemma run_call_cases c st :
  match test_token sys st with
  | (Raise e, st1) => run_call sys c st = (Raise e, st1)
  | (Ok _, st1) =>
      let child := set_environ (scrub (environ st1)) st1 in
      match sys_popen sys (call_cmd c) (scrub (environ st1)) with
      | None => run_call sys c st = (Raise OSError, child)
      | Some (rc, out, err) =>
          match sys_decode sys out, sys_decode sys err with
          | Some jobout, Some joberr =>
              if negb (rc =? 0) && negb (is_chmod c)
              then run_call sys c st = (Raise (IFDHError (call_cmd c) rc jobout joberr), st1)
              else run_call sys c st = (Ok (call_value c jobout), st1)
          | _, _ => run_call sys c st = (Raise UnicodeDecodeError, child)
          end
      end
  end.
Proof.
  pose proof (restore_unset_x509 (environ (test_token sys st).2)) as Hres.
  unfold scrub in *.
  destruct c; unfold run_call, ifdh_cp, ifdh_ls, ifdh_ll, ifdh_mkdir, ifdh_mkdir_p,
    ifdh_rmdir, ifdh_mv, ifdh_rm, ifdh_chmod, save_x509, run_subprocess,
    raise_if_failed, restore_x509, convert_str, call_cmd, is_chmod, call_value;
    proc_unfold;
    destruct (test_token sys st) as [[b|e] st1]; simpl in *; try done;
    destruct (unset_vars x509_vars ∅ (environ st1)) as [save env1]; simpl in *;
    (destruct (sys_popen sys _ env1) as [[[rc out] err]|]; simpl; [|done]);
    (destruct (sys_decode sys out) as [jobout|]; simpl; [|done]);
    (destruct (sys_decode sys err) as [joberr|]; simpl; [|done]);
    try (destruct (rc =? 0); simpl);
    rewrite ?Hres; try done; by destruct st1.
Qed.

Lemma run_call_environ c st r st' :
  run_call sys c st = (r, st') ->
  (is_ok r = true \/ exists cmd rc jobout joberr, r = Raise (IFDHError cmd rc jobout joberr)) ->
  environ st' = environ st.
Proof.
  intros Hrun Hr. pose proof (run_call_cases c st) as H.
  pose proof (keeps_environ_test_token st) as Henv.
  destruct (test_token sys st) as [[b|e] st1]; simpl in Henv.
  - destruct (sys_popen sys _ _) as [[[rc out] err]|].
    + destruct (sys_decode sys out) as [jobout|], (sys_decode sys err) as [joberr|];
        try destruct (negb _ && negb _); rewrite H in Hrun; simplify_eq;
        try done; by destruct Hr as [|(? & ? & ? & ? & ?)].
    + rewrite H in Hrun. simplify_eq. by destruct Hr as [|(? & ? & ? & ? & ?)].
  - rewrite H in Hrun. simplify_eq. done.
Qed.

End Ifdh.

(** C7.  Whichever of the nine interfaces is called and whatever the
    environment is, [X509_USER_CERT] and [X509_USER_KEY] are present or
    absent after the call as before it, with the same values, when the call
    returns normally and when it raises [IFDHError]. *)
Theorem ifdh_keeps_x509_variables (sys : System) (c : larbatch_utilities.ifdh_call)
    (st st' : proc_state) (r : res (option (list string))) :
  larbatch_utilities.run_call sys c st = (r, st') ->
  (is_ok r = true \/
   exists cmd rc jobout joberr, r = Raise (IFDHError cmd rc jobout joberr)) ->
  environ st' !! "X509_USER_CERT" = environ st !! "X509_USER_CERT" /\
  environ st' !! "X509_USER_KEY" = environ st !! "X509_USER_KEY".
Proof.
  intros Hrun Hr. by rewrite (run_call_environ sys c st r st' Hrun Hr).
Qed.

Lemma ifdh_keeps_x509_variables_witness :
  environ (larbatch_utilities.run_call failing_system
             (larbatch_utilities.Call_rm "/pnfs/uboone/scratch/a.root") sample_process).2
    !! "X509_USER_CERT" = Some "/tmp/x509up_u1000" /\
  environ (larbatch_utilities.run_call failing_system
             (larbatch_utilities.Call_rm "/pnfs/uboone/scratch/a.root") sample_process).2
    !! "X509_USER_KEY" = None.
Proof.
  apply (ifdh_keeps_x509_variables failing_system
           (larbatch_utilities.Call_rm "/pnfs/uboone/scratch/a.root") sample_process _
           (Raise (IFDHError ["ifdh"; "rm"; "/pnfs/uboone/scratch/a.root"] 1 "" ""))).
  - vm_compute. reflexivity.
  - right. by eexists _, _, _, _.
Defined.

(** C4, against the claim as stated: [ifdh_chmod] returns normally although
    its child ended with return code 1. *)
Lemma ifdh_chmod_returns_on_nonzero_rc :
  sys_popen failing_system
    (larbatch_utilities.call_cmd (larbatch_utilities.Call_chmod "/pnfs/uboone/a.root" 493))
    (scrub (environ sample_process)) = Some (1, [], []) /\
  (larbatch_utilities.ifdh_chmod failing_system "/pnfs/uboone/a.root" 493 sample_process).1
  = Ok ().
Proof. split; vm_compute; reflexivity. Qed.

(** C4, amended.  Once the child of a wrapper has finished with return code
    [rc] and its two streams have been decoded, every interface other than
    [ifdh_chmod] raises exactly when [rc] is not zero, and what it raises is
    [IFDHError]; on a zero return code every interface returns normally; and
    [ifdh_chmod] returns normally on every return code. *)
Theorem ifdh_raises_iff_nonzero_rc (sys : System) (c : larbatch_utilities.ifdh_call)
    (st st1 : proc_state) (b : bool) (rc : Z) (out err : bytes) (jobout joberr : string) :
  larbatch_utilities.test_token sys st = (Ok b, st1) ->
  sys_popen sys (larbatch_utilities.call_cmd c) (scrub (environ st1)) = Some (rc, out, err) ->
  sys_decode sys out = Some jobout ->
  sys_decode sys err = Some joberr ->
  let r := (larbatch_utilities.run_call sys c st).1 in
  (larbatch_utilities.is_chmod c = false ->
     (rc <> 0 <-> r = Raise (IFDHError (larbatch_utilities.call_cmd c) rc jobout joberr)) /\
     (rc = 0 <-> r = Ok (call_value c jobout))) /\
  (larbatch_utilities.is_chmod c = true -> r = Ok None).
Proof.
  intros Htok Hpopen Hout Herr. pose proof (run_call_cases sys c st) as H.
  rewrite Htok, Hpopen, Hout, Herr in H. simpl.
  destruct (Z.eqb_spec rc 0) as [->|Hrc]; simpl in H.
  - rewrite H. simpl. split; [|by destruct c]. intros _. split; split; done.
  - destruct (larbatch_utilities.is_chmod c) eqn:Hc; simpl in H; rewrite H; simpl.
    + split; [done|]. intros _. by destruct c.
    + split; [|done]. intros _. split; split; done.
Qed.

Lemma ifdh_raises_iff_nonzero_rc_witness :
  (1 <> 0 <->
   (larbatch_utilities.run_call failing_system
      (larbatch_utilities.Call_mkdir "/pnfs/uboone/scratch/out") sample_process).1
   = Raise (IFDHError ["ifdh"; "mkdir"; "/pnfs/uboone/scratch/out"] 1 "" "")).
Proof.
  apply (ifdh_raises_iff_nonzero_rc failing_system
           (larbatch_utilities.Call_mkdir "/pnfs/uboone/scratch/out")
           sample_process sample_process true 1 [] [] "" "");
    reflexivity.
Defined.

(** ** artroot_filter *)

Section ArtrootFilter.
Import artroot_filter.
Variable R : ROOT.

Lemma split_aux_word_prefix s : (Py.split_aux s).1 = word_prefix s.
Proof.
  induction s as [|c s IH]; [done|]. simpl.
  destruct (Py.split_aux s) as [w ws]. simpl in IH. subst w.
  by destruct (Py.isspace c).
Qed.

Lemma push_word_nil ws : Py.push_word "" ws = ws.
Proof. done. Qed.

Lemma split_cons c s :
  Py.split (String c s) =
  if Py.isspace c then Py.split s else String c (word_prefix s) :: (Py.split_aux s).2.
Proof.
  unfold Py.split. simpl. rewrite <- split_aux_word_prefix.
  destruct (Py.split_aux s) as [w ws]. by destruct (Py.isspace c).
Qed.

Lemma head_split line : head (Py.split line) = first_word line.
Proof.
  induction line as [|c s IH]; [done|]. rewrite split_cons. simpl.
  by destruct (Py.isspace c).
Qed.

Lemma scan_keys_flags root keys has_events has_db :
  scan_keys root keys has_events has_db =
  (has_events || existsb (String.eqb "Events") keys && InheritsFrom (Get root "Events") "TTree",
   has_db || existsb (String.eqb "RootFileDB") keys && InheritsFrom (Get root "RootFileDB") "TKey").
Proof.
  revert has_events has_db.
  induction keys as [|k keys IH]; intros he hd; cbn [scan_keys existsb].
  - by rewrite !orb_false_r.
  - rewrite IH, (String.eqb_sym "Events" k), (String.eqb_sym "RootFileDB" k).
    destruct (String.eqb_spec k "Events") as [He|_];
      destruct (String.eqb_spec k "RootFileDB") as [Hd|_];
      try (subst; discriminate); subst; cbn [andb orb];
      repeat (match goal with |- context [InheritsFrom ?o ?c] =>
                destruct (InheritsFrom o c) end);
      cbn [andb orb]; lazy beta iota;
      by rewrite ?andb_true_r, ?andb_false_r, ?orb_true_r, ?orb_false_r.
Qed.

Lemma main_loop_filter lines out :
  main_loop R lines out = out ++ List.filter (is_artroot R) (omap first_word lines).
Proof.
  revert out. induction lines as [|line lines IH]; intros out; cbn [main_loop].
  - apply eq_sym, app_nil_r.
  - change (omap first_word (line :: lines)) with
      (match first_word line with
       | Some f => f :: omap first_word lines
       | None => omap first_word lines
       end).
    rewrite <- head_split. destruct (Py.split line) as [|f ws]; cbn [head]; [apply IH|].
    cbn [List.filter]. unfold is_artroot, has_object.
    destruct (TFile_Open R f) as [root|]; [|apply IH].
    rewrite scan_keys_flags. cbn [orb].
    destruct (IsOpen root && negb (IsZombie root)); cbn [andb]; [|apply IH].
    destruct (existsb (String.eqb "Events") _ && _); cbn [andb]; [|apply IH].
    destruct (existsb (String.eqb "RootFileDB") _ && _); cbn [andb]; [|apply IH].
    by rewrite IH, <- app_assoc.
Qed.

End ArtrootFilter.

(** C8.  For every text on standard input, [main] prints, in the order of
    the input, exactly the first words of the non-blank lines that name a
    file which opens as a ROOT file (open and not a zombie) and holds both a
    key ['Events'] whose object inherits from [TTree] and a key
    ['RootFileDB'] whose object inherits from [TKey]; blank lines and the
    words after the first are ignored, and [main] returns 0. *)
Theorem artroot_filter_prints_valid_files (R : ROOT) (stdin : string) :
  artroot_filter.main R stdin = (artroot_files R stdin, 0).
Proof. unfold artroot_filter.main, artroot_files. by rewrite main_loop_filter. Qed.

(** ** Splitting into words *)

Section Words.
Implicit Types (s t w : string) (c : ascii) (ws : list string).

Lemma push_word_app w ws ws' : Py.push_word w (ws ++ ws') = Py.push_word w ws ++ ws'.
Proof. by destruct w. Qed.

Lemma split_aux_cons c s :
  Py.split_aux (String c s) =
  if Py.isspace c then ("", Py.split s)
  else (String c (Py.split_aux s).1, (Py.split_aux s).2).
Proof. unfold Py.split. simpl. by destruct (Py.split_aux s). Qed.

Lemma split_space c s : Py.isspace c = true -> Py.split (String c s) = Py.split s.
Proof. intros Hc. unfold Py.split at 1. by rewrite split_aux_cons, Hc. Qed.

(** A blank in the middle separates the words on its two sides. *)
Lemma split_aux_app_space s c t :
  Py.isspace c = true ->
  Py.split_aux (s +:+ String c t) = ((Py.split_aux s).1, (Py.split_aux s).2 ++ Py.split t).
Proof.
  intros Hc. induction s as [|d s IH].
  - by rewrite append_nil_l, split_aux_cons, Hc.
  - rewrite append_cons, !split_aux_cons. destruct (Py.isspace d).
    + unfold Py.split. rewrite IH. destruct (Py.split_aux s) as [w ws]. simpl.
      by rewrite push_word_app.
    + by rewrite IH.
Qed.

Lemma split_app_space s c t :
  Py.isspace c = true -> Py.split (s +:+ String c t) = Py.split s ++ Py.split t.
Proof.
  intros Hc. unfold Py.split at 1 2. rewrite split_aux_app_space by done.
  destruct (Py.split_aux s) as [w ws]. simpl. apply push_word_app.
Qed.

Lemma split_aux_word w : is_word w -> Py.split_aux w = (w, []).
Proof.
  intros [_ Hw]. induction w as [|c w IH]; [done|].
  rewrite chars_cons in Hw. apply Forall_cons in Hw as [Hc Hw].
  by rewrite split_aux_cons, Hc, IH.
Qed.

Lemma split_word w : is_word w -> Py.split w = [w].
Proof.
  intros Hw. unfold Py.split. rewrite split_aux_word by done.
  destruct Hw as [Hne _]. by destruct w.
Qed.

Lemma split_spaced ws : Forall is_word ws -> Py.split (spaced ws) = ws.
Proof.
  induction 1 as [|w ws Hw _ IH]; [done|]. simpl.
  change (" " +:+ w +:+ spaced ws) with (String " " (w +:+ spaced ws)).
  rewrite split_space by done. destruct ws as [|w' ws].
  - simpl. by rewrite append_nil_r, split_word.
  - simpl in *. change (" " +:+ w' +:+ spaced ws) with (String " " (w' +:+ spaced ws)) in *.
    rewrite split_app_space by done. rewrite split_word by done.
    rewrite split_space in IH by done. by rewrite IH.
Qed.

(** The words of a split are words. *)
Lemma split_aux_words s :
  Forall (fun c => Py.isspace c = false) (chars (Py.split_aux s).1) /\
  Forall is_word (Py.split_aux s).2.
Proof.
  induction s as [|c s [IHw IHws]]; [by split; constructor|].
  rewrite split_aux_cons. destruct (Py.isspace c) eqn:Hc; simpl.
  - split; [constructor|]. unfold Py.split.
    destruct (Py.split_aux s) as [w ws]. simpl in *.
    destruct w as [|d w]; [done|]. constructor; [|done]. by split.
  - split; [|done]. rewrite chars_cons. by constructor.
Qed.

Lemma split_words s : Forall is_word (Py.split s).
Proof.
  unfold Py.split. destruct (split_aux_words s) as [Hw Hws].
  destruct (Py.split_aux s) as [w ws]. simpl in *.
  destruct w as [|d w]; [done|]. constructor; [|done]. by split.
Qed.

Lemma spaced_app ws ws' : spaced (ws ++ ws') = spaced ws +:+ spaced ws'.
Proof.
  induction ws as [|w ws IH]; [done|]. simpl. by rewrite IH, !append_assoc.
Qed.

Lemma split_word_detached w s :
  is_word w -> detached s -> Py.split (w +:+ s) = w :: Py.split s.
Proof.
  intros Hw [->|[t ->]].
  - by rewrite append_nil_r, split_word.
  - by rewrite split_app_space, split_word, split_space.
Qed.

Lemma is_word_literal w :
  w <> "" -> forallb (fun c => negb (Py.isspace c)) (chars w) = true -> is_word w.
Proof.
  intros Hne H. split; [done|]. apply Forall_forall. intros c Hc.
  rewrite forallb_forall in H. apply list_elem_of_In in Hc.
  specialize (H c Hc). by destruct (Py.isspace c).
Qed.

End Words.

(** ** Replacing *)

Section Replace.
Implicit Types (s t old new pre rest : string) (c : ascii).

Lemma replace_go_nil old new k : Py.replace_go old new k "" = "".
Proof. done. Qed.

Lemma replace_go_skip old new x rest :
  Py.replace_go old new (String.length x) (x +:+ rest) = Py.replace_go old new O rest.
Proof. induction x as [|c x IH]; [done|]. by rewrite append_cons. Qed.

Lemma replace_go_match old new rest :
  old <> "" ->
  Py.replace_go old new O (old +:+ rest) = new +:+ Py.replace_go old new O rest.
Proof.
  destruct old as [|c old]; [done|]. intros _.
  rewrite append_cons. cbn [Py.replace_go].
  assert (Py.startswith (String c (old +:+ rest)) (String c old) = true) as ->
    by (rewrite <- append_cons; apply startswith_app).
  f_equal. replace (String.length (String c old) - 1)%nat with (String.length old)
    by (simpl; lia).
  apply replace_go_skip.
Qed.

Lemma replace_go_pass old new pre rest :
  no_start old rest pre ->
  Py.replace_go old new O (pre +:+ rest) = pre +:+ Py.replace_go old new O rest.
Proof.
  induction pre as [|c pre IH]; [done|]. intros [Hc Hpre].
  rewrite !append_cons in *. cbn [Py.replace_go]. rewrite Hc. by rewrite IH.
Qed.

Lemma replace_nonempty s old new :
  old <> "" -> Py.replace s old new = Py.replace_go old new O s.
Proof. by destruct old. Qed.

(** *** One character replaced by a text *)

Lemma replace_char_cons c d s new :
  Py.replace (String d s) (String c "") new =
  (if Ascii.eqb c d then new else String d "") +:+ Py.replace s (String c "") new.
Proof.
  unfold Py.replace. cbn [Py.replace_go]. rewrite startswith_cons, startswith_nil, andb_true_r.
  by destruct (Ascii.eqb c d).
Qed.

Lemma replace_char_app c s t new :
  Py.replace (s +:+ t) (String c "") new =
  Py.replace s (String c "") new +:+ Py.replace t (String c "") new.
Proof.
  induction s as [|d s IH]; [done|].
  by rewrite append_cons, !replace_char_cons, IH, append_assoc.
Qed.

Lemma replace_char_free c s new :
  c ∉ chars s -> Py.replace s (String c "") new = s.
Proof.
  induction s as [|d s IH]; [done|]. rewrite chars_cons, not_elem_of_cons.
  intros [Hd Hs]. rewrite replace_char_cons, (IH Hs).
  destruct (Ascii.eqb_spec c d); [done|]. done.
Qed.

(** *** A text without the keyword *)

(** [body] followed by a blank starts in [v] followed by a detached text
    only when [body] starts in [v]. *)
Lemma startswith_body v rest body :
  Forall (fun c => Py.isspace c = false) (chars body) -> detached rest ->
  Py.startswith (v +:+ rest) (body +:+ " ") = true -> Py.startswith v body = true.
Proof.
  intros Hbody Hrest. revert v. induction body as [|a body IH]; intros v.
  - intros _. apply startswith_nil.
  - rewrite chars_cons in Hbody. apply Forall_cons in Hbody as [Ha Hbody].
    destruct v as [|d v].
    + rewrite append_nil_l. destruct Hrest as [->|[t ->]]; [done|].
      rewrite append_cons, startswith_cons. intros [Hd _]%andb_true_iff.
      apply Ascii.eqb_eq in Hd as ->. done.
    + rewrite !append_cons, !startswith_cons. intros [Hd Hv]%andb_true_iff.
      rewrite Hd. by apply IH.
Qed.

Lemma contains_cons c s sub : contains s sub -> contains (String c s) sub.
Proof. intros (pre & post & ->). by exists (String c pre), post. Qed.

Lemma no_start_keyword body rest w :
  Forall (fun c => Py.isspace c = false) (chars body) -> detached rest ->
  ~ contains w body -> no_start (body +:+ " ") rest w.
Proof.
  intros Hbody Hrest. induction w as [|c w IH]; [done|]. intros Hno. split.
  - destruct (Py.startswith (String c w +:+ rest) (body +:+ " ")) eqn:E; [|done].
    apply startswith_body in E; [|done..]. apply startswith_spec in E as [t E].
    exfalso. apply Hno. exists "", t. by rewrite append_nil_l.
  - apply IH. intros H. by apply Hno, contains_cons.
Qed.

(** *** Bare words *)

Lemma bare_spec w :
  bare w = true ->
  is_word w /\ ("("%char ∉ chars w) /\ (")"%char ∉ chars w) /\
  ~ contains w "isparentof:" /\ ~ contains w "ischildof:".
Proof.
  unfold bare. rewrite !andb_true_iff, negb_true_iff, forallb_forall.
  intros [[[Hne Hall] Hp] Hc]. apply String.eqb_neq in Hne.
  apply Z.ltb_lt in Hp, Hc.
  assert (forall c, c ∈ chars w ->
            Py.isspace c = false /\ c <> "("%char /\ c <> ")"%char) as Hchars.
  { intros c Hin%list_elem_of_In. specialize (Hall c Hin).
    rewrite !andb_true_iff, !negb_true_iff in Hall. destruct Hall as [[Hs Ho] Hc'].
    apply Ascii.eqb_neq in Ho, Hc'. done. }
  repeat split.
  - done.
  - apply Forall_forall. intros c Hc'. by apply Hchars.
  - intros Hin. by destruct (Hchars _ Hin) as (_ & ? & _).
  - intros Hin. by destruct (Hchars _ Hin) as (_ & _ & ?).
  - by apply find_negative.
  - by apply find_negative.
Qed.

Lemma spaced_out_bare w : bare w = true -> spaced_out w = w.
Proof.
  intros (_ & Ho & Hc & _)%bare_spec. unfold spaced_out.
  rewrite (replace_char_free "(" w) by exact Ho.
  apply replace_char_free. exact Hc.
Qed.

Lemma known_word_cases t :
  known_word t = true ->
  bare t = true \/ t = "(" \/ t = ")" \/ t = "isparentof:(" \/ t = "ischildof:(".
Proof.
  unfold known_word. rewrite !orb_true_iff, !String.eqb_eq. tauto.
Qed.

Lemma bare_not_special t :
  bare t = true ->
  t <> "(" /\ t <> ")" /\ t <> "isparentof:(" /\ t <> "ischildof:(".
Proof. intros H. repeat split; intros ->; done. Qed.

(** *** The four replacements on a spaced list of words *)

Lemma spaced_by_detached f ts : detached (spaced_by f ts).
Proof. destruct ts; [by left | right; by eexists]. Qed.

Lemma spaced_spaced_by ts : spaced ts = spaced_by id ts.
Proof. induction ts as [|t ts IH]; [done|]. simpl. by rewrite IH. Qed.

Lemma replace_char_spaced_by c new f ts :
  c <> " "%char ->
  Py.replace (spaced_by f ts) (String c "") new =
  spaced_by (fun t => Py.replace (f t) (String c "") new) ts.
Proof.
  intros Hc. induction ts as [|t ts IH]; [done|]. cbn [spaced_by].
  rewrite !replace_char_app, IH. f_equal.
  rewrite replace_char_cons. by destruct (Ascii.eqb_spec c " ").
Qed.

Lemma replace_spaced_by old new f g ts :
  (forall t rest, t ∈ ts -> detached rest ->
     Py.replace_go old new O (" " +:+ f t +:+ rest) =
     " " +:+ g t +:+ Py.replace_go old new O rest) ->
  Py.replace_go old new O (spaced_by f ts) = spaced_by g ts.
Proof.
  induction ts as [|t ts IH]; intros H; [done|]. cbn [spaced_by].
  rewrite H; [|by left|apply spaced_by_detached].
  rewrite IH; [done|]. intros t' rest Hin. apply H. by right.
Qed.

Lemma close_up_parent_token t rest :
  known_word t = true -> detached rest ->
  Py.replace_go "isparentof: " "isparentof:" O (" " +:+ spaced_out t +:+ rest) =
  " " +:+ closed_up_parent t +:+ Py.replace_go "isparentof: " "isparentof:" O rest.
Proof.
  intros Ht Hrest. unfold closed_up_parent.
  destruct (known_word_cases t Ht) as [Hb|[->|[->|[->| ->]]]].
  - destruct (bare_not_special t Hb) as (_ & _ & Hp & _).
    rewrite (proj2 (String.eqb_neq _ _) Hp), (spaced_out_bare t Hb).
    change (" " +:+ t +:+ rest) with (" " +:+ (t +:+ rest)).
    rewrite (replace_go_pass _ _ " ") by (split; done).
    rewrite replace_go_pass; [done|].
    apply bare_spec in Hb as (Hw & _ & _ & Hno & _).
    apply (no_start_keyword "isparentof:"); [|done..].
    repeat constructor.
  - change (" " +:+ spaced_out "(" +:+ rest) with ("  ( " +:+ rest).
    rewrite replace_go_pass by (repeat split; reflexivity). done.
  - change (" " +:+ spaced_out ")" +:+ rest) with ("  ) " +:+ rest).
    rewrite replace_go_pass by (repeat split; reflexivity). done.
  - change (" " +:+ spaced_out "isparentof:(" +:+ rest)
      with (" " +:+ ("isparentof: " +:+ ("( " +:+ rest))).
    rewrite (replace_go_pass _ _ " ") by (split; done).
    rewrite replace_go_match by done.
    rewrite replace_go_pass by (repeat split; reflexivity). done.
  - change (" " +:+ spaced_out "ischildof:(" +:+ rest) with (" ischildof: ( " +:+ rest).
    rewrite replace_go_pass by (repeat split; reflexivity). done.
Qed.

Lemma close_up_child_token t rest :
  known_word t = true -> detached rest ->
  Py.replace_go "ischildof: " "ischildof:" O (" " +:+ closed_up_parent t +:+ rest) =
  " " +:+ closed_up t +:+ Py.replace_go "ischildof: " "ischildof:" O rest.
Proof.
  intros Ht Hrest. unfold closed_up, closed_up_parent.
  destruct (known_word_cases t Ht) as [Hb|[->|[->|[->| ->]]]].
  - destruct (bare_not_special t Hb) as (_ & _ & Hp & Hc).
    rewrite (proj2 (String.eqb_neq _ _) Hp), (proj2 (String.eqb_neq _ _) Hc).
    rewrite (spaced_out_bare t Hb).
    change (" " +:+ t +:+ rest) with (" " +:+ (t +:+ rest)).
    rewrite (replace_go_pass _ _ " ") by (split; done).
    rewrite replace_go_pass; [done|].
    apply bare_spec in Hb as (Hw & _ & _ & _ & Hno).
    apply (no_start_keyword "ischildof:"); [|done..].
    repeat constructor.
  - change (" " +:+ _ +:+ rest) with ("  ( " +:+ rest).
    rewrite replace_go_pass by (repeat split; reflexivity). done.
  - change (" " +:+ _ +:+ rest) with ("  ) " +:+ rest).
    rewrite replace_go_pass by (repeat split; reflexivity). done.
  - change (" " +:+ _ +:+ rest) with (" isparentof:( " +:+ rest).
    rewrite replace_go_pass by (repeat split; reflexivity). done.
  - change (" " +:+ _ +:+ rest)
      with (" " +:+ ("ischildof: " +:+ ("( " +:+ rest))).
    rewrite (replace_go_pass _ _ " ") by (split; done).
    rewrite replace_go_match by done.
    rewrite replace_go_pass by (repeat split; reflexivity). done.
Qed.

Lemma split_closed_up_token t rest :
  known_word t = true -> detached rest ->
  Py.split (" " +:+ closed_up t +:+ rest) = t :: Py.split rest.
Proof.
  intros Ht Hrest. unfold closed_up, closed_up_parent.
  destruct (known_word_cases t Ht) as [Hb|[->|[->|[->| ->]]]].
  - destruct (bare_not_special t Hb) as (_ & _ & Hp & Hc).
    rewrite (proj2 (String.eqb_neq _ _) Hp), (proj2 (String.eqb_neq _ _) Hc).
    rewrite (spaced_out_bare t Hb).
    change (" " +:+ t +:+ rest) with (String " " (t +:+ rest)).
    rewrite split_space by done. apply split_word_detached; [|done].
    by apply bare_spec in Hb as [? _].
  - change (" " +:+ _ +:+ rest) with (String " " (String " " ("(" +:+ String " " rest))).
    by rewrite !split_space, split_app_space.
  - change (" " +:+ _ +:+ rest) with (String " " (String " " (")" +:+ String " " rest))).
    by rewrite !split_space, split_app_space.
  - change (" " +:+ _ +:+ rest) with (String " " ("isparentof:(" +:+ String " " rest)).
    by rewrite !split_space, split_app_space.
  - change (" " +:+ _ +:+ rest) with (String " " ("ischildof:(" +:+ String " " rest)).
    by rewrite !split_space, split_app_space.
Qed.

(** The words that the loop of [tokenizeRPN] sees. *)
Lemma split_replaced ts :
  Forall (fun t => known_word t = true) ts ->
  Py.split
    (Py.replace
       (Py.replace (Py.replace (Py.replace (spaced ts) "(" " ( ") ")" " ) ")
          "isparentof: " "isparentof:")
       "ischildof: " "ischildof:") = ts.
Proof.
  intros Hts. rewrite spaced_spaced_by, !replace_char_spaced_by by done.
  rewrite !replace_nonempty by done.
  rewrite (replace_spaced_by _ _ _ closed_up_parent).
  2:{ intros t rest Hin. eapply Forall_forall in Hts; [|done].
      by apply close_up_parent_token. }
  rewrite (replace_spaced_by _ _ _ closed_up).
  2:{ intros t rest Hin. eapply Forall_forall in Hts; [|done].
      by apply close_up_child_token. }
  induction Hts as [|t ts Ht _ IH]; [done|]. cbn [spaced_by].
  rewrite split_closed_up_token; [|done|apply spaced_by_detached]. by rewrite IH.
Qed.

End Replace.

(** ** Macro expansion *)

Section Expand.
Import project_utilities.
Variable samweb : SAMWebClient.
Implicit Types (s t w d : string) (ws : list string) (ps : list piece) (b : bool).

(** *** The text of a round and its words *)

Lemma expandDefnames_loop_pieces ws b acc :
  expandDefnames_loop samweb ws b acc =
  ps ← pieces samweb ws b; Ok (acc +:+ pieces_text ps).
Proof.
  revert b acc. induction ws as [|w ws IH]; intros b acc; simpl.
  - by rewrite append_nil_r.
  - destruct b.
    + unfold expandable. destruct (sam_descDefinitionDict samweb w) as [d|e]; simpl; [|done].
      destruct ((Py.find d " or " <? 0) && (Py.find d " minus " <? 0)); simpl;
        rewrite IH; destruct (pieces samweb ws false); simpl; try done;
        by rewrite !append_assoc.
    + destruct (String.eqb w "defname:"); [apply IH|].
      rewrite IH. destruct (pieces samweb ws false); simpl; [|done].
      by rewrite !append_assoc.
Qed.

Lemma expandDefnames_pieces dim :
  expandDefnames samweb dim =
  ps ← pieces samweb (Py.split dim) false; Ok (pieces_text ps).
Proof. unfold expandDefnames. by rewrite expandDefnames_loop_pieces. Qed.

Lemma pieces_text_detached ps : detached (pieces_text ps).
Proof. destruct ps as [|[w|w|d] ps]; [by left|right..]; by eexists. Qed.

Lemma split_piece_text p s :
  piece_wf p -> detached s -> Py.split (piece_text p +:+ s) = piece_words p ++ Py.split s.
Proof.
  intros Hp Hs. destruct p as [w|w|d]; simpl in *.
  - change ((" " +:+ w) +:+ s) with (String " " (w +:+ s)).
    by rewrite split_space, split_word_detached.
  - change ((" defname: " +:+ w) +:+ s) with (String " " ("defname:" +:+ String " " (w +:+ s))).
    rewrite split_space, split_app_space by done.
    by rewrite split_word_detached.
  - rewrite !append_assoc.
    change (" ( " +:+ d +:+ " )" +:+ s)
      with (String " " ("(" +:+ String " " (d +:+ String " " (")" +:+ s)))).
    rewrite split_space, !split_app_space by done.
    rewrite split_word_detached by (done || by apply is_word_literal).
    by rewrite <- app_assoc.
Qed.

Lemma split_pieces_text ps :
  Forall piece_wf ps -> Py.split (pieces_text ps) = flat_map piece_words ps.
Proof.
  induction 1 as [|p ps Hp _ IH]; [done|]. simpl.
  rewrite split_piece_text by (done || apply pieces_text_detached). by rewrite IH.
Qed.

Lemma pieces_wf ws b ps :
  Forall is_word ws -> pieces samweb ws b = Ok ps -> Forall piece_wf ps.
Proof.
  intros Hws. revert b ps. induction Hws as [|w ws Hw _ IH]; intros b ps; simpl.
  - by intros [= <-].
  - destruct b.
    + destruct (sam_descDefinitionDict samweb w) as [d|]; simpl; [|done].
      destruct (pieces samweb ws false) as [ps'|] eqn:E; simpl; [|done].
      intros [= <-]. constructor; [by destruct (expandable samweb w) | by eapply IH].
    + destruct (String.eqb w "defname:"); [apply IH|].
      destruct (pieces samweb ws false) as [ps'|] eqn:E; simpl; [|done].
      intros [= <-]. constructor; [done | by eapply IH].
Qed.

(** The words of the next round. *)
Lemma expandDefnames_words dim newdim :
  expandDefnames samweb dim = Ok newdim ->
  exists ps, pieces samweb (Py.split dim) false = Ok ps /\
             newdim = pieces_text ps /\
             Py.split newdim = flat_map piece_words ps.
Proof.
  rewrite expandDefnames_pieces.
  destruct (pieces samweb (Py.split dim) false) as [ps|] eqn:E; simpl; [|done].
  intros [= <-]. exists ps. split; [done|]. split; [done|].
  apply split_pieces_text. eapply pieces_wf; [apply split_words | done].
Qed.

(** *** The names of the next round *)

Lemma defnames_snoc ws y rest b :
  y <> "defname:" ->
  defnames (ws ++ y :: rest) b = defnames (ws ++ [y]) b ++ defnames rest false.
Proof.
  intros Hy. revert b. induction ws as [|w ws IH]; intros b; simpl.
  - destruct b; [done|]. by rewrite (proj2 (String.eqb_neq y "defname:") Hy).
  - destruct b; [by rewrite IH|]. destruct (String.eqb w "defname:"); apply IH.
Qed.

Lemma defnames_piece_words p rest :
  match p with PWord w => w <> "defname:" | _ => True end ->
  defnames (piece_words p ++ rest) false = piece_defnames p ++ defnames rest false.
Proof.
  destruct p as [w|w|d]; simpl.
  - intros Hw. by rewrite (proj2 (String.eqb_neq w "defname:") Hw).
  - done.
  - intros _. unfold desc_defnames.
    change ("(" :: Py.split d ++ [")"]) with (("(" :: Py.split d) ++ [")"]).
    rewrite <- defnames_snoc by done. by rewrite <- app_assoc.
Qed.

Lemma piece_from_cons ws b w b' p :
  defnames (w :: ws) b' = defnames ws b \/ defnames (w :: ws) b' = w :: defnames ws b ->
  piece_from samweb ws b p -> piece_from samweb (w :: ws) b' p.
Proof.
  intros H. destruct p as [x|x|d]; [done| |].
  - intros (Hin & ? & ?). split; [|done]. destruct H as [->| ->]; [done | by right].
  - intros (y & Hin & ? & ?). exists y. split; [|done].
    destruct H as [->| ->]; [done | by right].
Qed.

Lemma pieces_from ws b ps :
  pieces samweb ws b = Ok ps -> Forall (piece_from samweb ws b) ps.
Proof.
  revert b ps. induction ws as [|w ws IH]; intros b ps; simpl.
  - intros [= <-]. constructor.
  - destruct b.
    + destruct (sam_descDefinitionDict samweb w) as [d|] eqn:Hd; simpl; [|done].
      destruct (pieces samweb ws false) as [ps'|] eqn:E; simpl; [|done].
      intros [= <-]. constructor.
      * destruct (expandable samweb w) eqn:Hx; simpl.
        -- exists w. split; [left | done].
        -- split; [left|]. by rewrite Hd.
      * eapply Forall_impl; [by apply IH|]. intros p.
        apply piece_from_cons. by right.
    + destruct (String.eqb w "defname:") eqn:Hw.
      * intros Hps. eapply Forall_impl; [by apply IH|]. intros p.
        apply piece_from_cons. left. simpl. by rewrite Hw.
      * destruct (pieces samweb ws false) as [ps'|] eqn:E; simpl; [|done].
        intros [= <-]. constructor; [by apply String.eqb_neq|].
        eapply Forall_impl; [by apply IH|]. intros p.
        apply piece_from_cons. left. simpl. by rewrite Hw.
Qed.

Lemma defnames_flat_map ws b ps :
  Forall (piece_from samweb ws b) ps ->
  defnames (flat_map piece_words ps) false = flat_map piece_defnames ps.
Proof.
  induction 1 as [|p ps Hp _ IH]; [done|]. simpl.
  rewrite defnames_piece_words, IH; [done|]. by destruct p.
Qed.

(** *** Ranked definitions: every round lowers the rank *)

Lemma rank_below_step rank n dim newdim :
  ranked samweb rank ->
  rank_below samweb rank (S n) (Py.split dim) ->
  expandDefnames samweb dim = Ok newdim ->
  rank_below samweb rank n (Py.split newdim).
Proof.
  intros Hrank Hbelow Hexp.
  destruct (expandDefnames_words _ _ Hexp) as (ps & Hps & _ & Hsplit).
  pose proof (pieces_from _ _ _ Hps) as Hfrom.
  intros w Hw Hx. rewrite Hsplit, (defnames_flat_map _ _ _ Hfrom) in Hw.
  apply list_elem_of_In, in_flat_map in Hw as (p & Hp & Hw).
  apply list_elem_of_In in Hp, Hw.
  eapply Forall_forall in Hfrom; [|exact Hp].
  destruct p as [x|x|d]; simpl in *.
  - by apply elem_of_nil in Hw.
  - apply list_elem_of_singleton in Hw as ->. destruct Hfrom as (_ & Hno & _). congruence.
  - destruct Hfrom as (y & Hy & Hyx & Hd).
    specialize (Hrank y d Hd Hyx w Hw). specialize (Hbelow y Hy Hyx). lia.
Qed.

Lemma pieces_settled ps :
  Forall (settled samweb) ps -> pieces samweb (flat_map piece_words ps) false = Ok ps.
Proof.
  induction 1 as [|p ps Hp _ IH]; [done|]. destruct p as [w|w|d]; simpl in *.
  - rewrite (proj2 (String.eqb_neq w "defname:") Hp), IH. done.
  - destruct Hp as [Hno Hok]. rewrite Hno.
    destruct (sam_descDefinitionDict samweb w); [|done]. simpl. by rewrite IH.
  - done.
Qed.

Lemma expandDefnames_settled rank dim newdim :
  rank_below samweb rank 0 (Py.split dim) ->
  expandDefnames samweb dim = Ok newdim ->
  expandDefnames samweb newdim = Ok newdim.
Proof.
  intros Hbelow Hexp.
  destruct (expandDefnames_words _ _ Hexp) as (ps & Hps & -> & Hsplit).
  rewrite expandDefnames_pieces, Hsplit, pieces_settled; [done|].
  eapply Forall_impl; [by apply pieces_from|]. intros [w|w|d]; simpl; [done| |].
  - by intros (_ & ? & ?).
  - intros (y & Hy & Hyx & _). specialize (Hbelow y Hy Hyx). lia.
Qed.

Lemma expand_until_fixed_ranked rank n dim :
  ranked samweb rank ->
  rank_below samweb rank n (Py.split dim) ->
  exists r, expand_until_fixed samweb (n + 2) dim = Some r.
Proof.
  intros Hrank. revert dim. induction n as [|n IH]; intros dim Hbelow; simpl.
  - destruct (expandDefnames samweb dim) as [newdim|e] eqn:E; [|by eexists].
    destruct (String.eqb newdim dim); [by eexists|].
    rewrite (expandDefnames_settled rank dim newdim Hbelow E), String.eqb_refl.
    by eexists.
  - destruct (expandDefnames samweb dim) as [newdim|e] eqn:E; [|by eexists].
    destruct (String.eqb newdim dim); [by eexists|].
    apply IH. by eapply rank_below_step.
Qed.

Lemma expand_until_fixed_more_fuel fuel fuel' dim r :
  expand_until_fixed samweb fuel dim = Some r -> (fuel <= fuel')%nat ->
  expand_until_fixed samweb fuel' dim = Some r.
Proof.
  revert fuel' dim. induction fuel as [|fuel IH]; intros fuel' dim; [done|].
  intros H Hle. destruct fuel' as [|fuel']; [lia|]. simpl in *.
  destruct (expandDefnames samweb dim) as [newdim|e]; [|done].
  destruct (String.eqb newdim dim); [done|]. apply IH; [done | lia].
Qed.

Lemma rank_below_max rank ws :
  rank_below samweb rank (S (max_list (rank <$> defnames ws false))) ws.
Proof.
  intros w Hw _. apply Nat.lt_succ_r, max_list_elem_of_le.
  by apply list_elem_of_fmap_2.
Qed.

End Expand.

(** *** A definition that mentions itself *)

Section Cyclic.
Import project_utilities.

Lemma cyclic_pieces ws b :
  exists ps, pieces cyclic_samweb ws b = Ok ps /\
    length (flat_map piece_defnames ps) = length (defnames ws b) /\
    (length ws + 4 * length (defnames ws b)
     <= length (flat_map piece_words ps) + (if b then 0 else 1))%nat.
Proof.
  revert b. induction ws as [|w ws IH]; intros b.
  - exists []. destruct b; simpl; repeat split; lia.
  - destruct b; simpl.
    + destruct (IH false) as (ps & -> & Hn & Hlen). eexists. split; [done|].
      change (expandable cyclic_samweb w) with true. cbn [flat_map piece_defnames].
      change (desc_defnames "defname: X or a") with ["X"].
      change (piece_words (PExp "defname: X or a"))
        with ["("; "defname:"; "X"; "or"; "a"; ")"].
      rewrite !length_app. simpl. lia.
    + destruct (String.eqb w "defname:").
      * destruct (IH true) as (ps & -> & Hn & Hlen). exists ps. repeat split; [done|lia].
      * destruct (IH false) as (ps & -> & Hn & Hlen). eexists. split; [done|].
        simpl. lia.
Qed.

Lemma cyclic_round dim :
  defnames (Py.split dim) false <> [] ->
  exists newdim, expandDefnames cyclic_samweb dim = Ok newdim /\ newdim <> dim /\
                 defnames (Py.split newdim) false <> [].
Proof.
  intros Hne. destruct (cyclic_pieces (Py.split dim) false) as (ps & Hps & Hn & Hlen).
  assert (expandDefnames cyclic_samweb dim = Ok (pieces_text ps)) as Hexp.
  { by rewrite expandDefnames_pieces, Hps. }
  destruct (expandDefnames_words _ _ _ Hexp) as (ps' & Hps' & _ & Hsplit).
  assert (ps' = ps) as -> by congruence.
  exists (pieces_text ps). split; [done|].
  assert (0 < length (defnames (Py.split dim) false))%nat as Hpos.
  { destruct (defnames (Py.split dim) false); [done | simpl; lia]. }
  split.
  - intros Heq. rewrite Heq in Hsplit. rewrite <- Hsplit in Hlen. lia.
  - rewrite Hsplit, (defnames_flat_map _ _ _ _ (pieces_from _ _ _ _ Hps)).
    intros Hnil. rewrite Hnil in Hn. simpl in Hn. lia.
Qed.

Lemma cyclic_never_fixed fuel dim :
  defnames (Py.split dim) false <> [] ->
  expand_until_fixed cyclic_samweb fuel dim = None.
Proof.
  revert dim. induction fuel as [|fuel IH]; intros dim Hne; [done|]. simpl.
  destruct (cyclic_round dim Hne) as (newdim & -> & Hneq & Hne').
  rewrite (proj2 (String.eqb_neq newdim dim) Hneq). by apply IH.
Qed.

End Cyclic.

(** C5, against the claim as stated: with a definition that mentions itself
    the loop never reaches a fixed point, whatever the number of rounds. *)
Lemma expansion_diverges_on_cyclic_definition :
  ~ exists fuel r,
      project_utilities.expand_until_fixed cyclic_samweb fuel "defname: X" = Some r.
Proof.
  intros (fuel & r & H). by rewrite cyclic_never_fixed in H.
Qed.

(** C5, amended.  When the definitions of the service are ranked, so that no
    expanded definition leads back to itself, the expansion loop at the
    start of [listFiles] terminates for every input: some number of rounds
    reaches a fixed point or an exception, and more rounds change nothing. *)
Theorem expansion_terminates_when_ranked (samweb : SAMWebClient)
    (rank : string -> nat) (dim : string) :
  ranked samweb rank ->
  exists fuel r, forall fuel', (fuel <= fuel')%nat ->
    project_utilities.expand_until_fixed samweb fuel' dim = Some r.
Proof.
  intros Hrank.
  destruct (expand_until_fixed_ranked samweb rank _ dim Hrank
              (rank_below_max samweb rank (Py.split dim))) as [r Hr].
  eexists _, r. intros fuel' Hle. by eapply expand_until_fixed_more_fuel.
Qed.

Lemma expansion_terminates_when_ranked_witness :
  exists fuel r, forall fuel', (fuel <= fuel')%nat ->
    project_utilities.expand_until_fixed flat_samweb fuel' "defname: AB minus defname: C"
    = Some r.
Proof.
  apply (expansion_terminates_when_ranked flat_samweb
           (fun w => if String.eqb w "AB" then 1%nat else 0%nat)).
  intros w d Hd _ w' Hw'. simpl in Hd.
  destruct (String.eqb w "AB"); [|discriminate].
  injection Hd as <-. vm_compute in Hw'. inversion Hw'.
Defined.

(** ** tokenizeRPN *)

Section Tokenize.
Import project_utilities.
Implicit Types (s t w : string) (ws ts base result rest : list string) (e : expr).

(** *** From the text to the words *)

Lemma tokenizeRPN_no_limit s :
  Py.find s "with limit" = -1 ->
  tokenizeRPN s =
  st ← tokenize_loop (Py.split (replaced s)) {| temp := []; rpn := []; exp := "" |};
  Ok (flush_exp (exp st) (rpn st) ++ temp st).
Proof.
  intros H. unfold tokenizeRPN, replaced. rewrite H. simpl.
  destruct (tokenize_loop _ _); simpl; [|done]. done.
Qed.

Lemma replace_go_space old new s :
  Py.startswith (String " " s) old = false ->
  Py.replace_go old new O (String " " s) = String " " (Py.replace_go old new O s).
Proof. intros H. cbn [Py.replace_go]. by rewrite H. Qed.

Lemma replaced_space s : replaced (String " " s) = String " " (replaced s).
Proof.
  unfold replaced. rewrite !replace_nonempty by done.
  by rewrite !replace_go_space.
Qed.

Lemma find_limit_space s :
  Py.find (String " " s) "with limit" = -1 <-> Py.find s "with limit" = -1.
Proof.
  unfold Py.find. rewrite index_of_cons.
  change (Py.startswith (String " " s) "with limit") with false.
  destruct (Py.index_of "with limit" s); simpl; [lia|done].
Qed.

Lemma spaced_join t ts : spaced (t :: ts) = String " " (Py.join " " (t :: ts)).
Proof.
  revert t. induction ts as [|t' ts IH]; intros t.
  - simpl. by rewrite append_nil_r.
  - change (spaced (t :: t' :: ts)) with (" " +:+ t +:+ spaced (t' :: ts)).
    rewrite IH. reflexivity.
Qed.

Lemma join_spaced t ts : Py.join " " (t :: ts) = t +:+ spaced ts.
Proof.
  destruct ts as [|t' ts]; [by rewrite append_nil_r|].
  rewrite spaced_join. reflexivity.
Qed.

(** *** Lists used as results *)

Lemma list_pop_snoc {A} (l : list A) x : list_pop (l ++ [x]) = Some (l, x).
Proof. unfold list_pop. rewrite rev_app_distr. simpl. by rewrite rev_involutive. Qed.

Lemma last_is_snoc result x s : last_is (result ++ [x]) s = String.eqb x s.
Proof. unfold last_is. by rewrite list_pop_snoc. Qed.

Lemma flush_exp_nonempty cur result : cur <> "" -> flush_exp cur result = result ++ [cur].
Proof. by destruct cur. Qed.

(** *** Words of atomic dimensions *)

Lemma plain_spec w :
  plain w = true -> bare w = true /\ w <> "or" /\ w <> "minus".
Proof.
  unfold plain. rewrite !andb_true_iff, !negb_true_iff, !String.eqb_neq. tauto.
Qed.

Lemma plain_nonempty w : plain w = true -> w <> "".
Proof. intros (Hb & _)%plain_spec. by apply bare_spec in Hb as ([Hne _] & _). Qed.

Lemma tokenize_word_plain st w :
  plain w = true ->
  tokenize_word st w =
  Ok {| temp := temp st; rpn := rpn st;
        exp := match exp st with "" => w | cur => cur +:+ " " +:+ w end |}.
Proof.
  intros (Hb & Hor & Hminus)%plain_spec.
  destruct (bare_not_special w Hb) as (Ho & Hc & Hp & Hch).
  unfold tokenize_word.
  by rewrite !(proj2 (String.eqb_neq _ _) Ho), !(proj2 (String.eqb_neq _ _) Hc),
    !(proj2 (String.eqb_neq _ _) Hp), !(proj2 (String.eqb_neq _ _) Hch),
    !(proj2 (String.eqb_neq _ _) Hor), !(proj2 (String.eqb_neq _ _) Hminus).
Qed.

Lemma tokenize_atom_rest ws rest base result cur :
  Forall (fun w => plain w = true) ws -> cur <> "" ->
  tokenize_loop (ws ++ rest) {| temp := base; rpn := result; exp := cur |} =
  tokenize_loop rest {| temp := base; rpn := result; exp := cur +:+ spaced ws |}.
Proof.
  intros Hws. revert cur. induction Hws as [|w ws Hw _ IH]; intros cur Hcur.
  - by rewrite append_nil_r.
  - cbn [app tokenize_loop]. rewrite tokenize_word_plain by done.
    cbn [mbind res_mbind res_bind exp temp rpn].
    destruct cur as [|c cur]; [done|]. rewrite IH by done.
    by rewrite !append_assoc.
Qed.

Lemma tokenize_atom ws rest base result :
  ws <> [] -> Forall (fun w => plain w = true) ws ->
  tokenize_loop (ws ++ rest) {| temp := base; rpn := result; exp := "" |} =
  tokenize_loop rest {| temp := base; rpn := result; exp := Py.join " " ws |}.
Proof.
  destruct ws as [|w ws]; [done|]. intros _ [Hw Hws]%Forall_cons.
  cbn [app tokenize_loop]. rewrite tokenize_word_plain by done.
  cbn [mbind res_mbind res_bind exp temp rpn].
  rewrite tokenize_atom_rest by (done || by apply plain_nonempty).
  by rewrite join_spaced.
Qed.

(** *** The text of an operand *)

Lemma well_formed_atom ws :
  well_formed (Atom ws) = true -> ws <> [] /\ Forall (fun w => plain w = true) ws.
Proof.
  simpl. rewrite andb_true_iff, negb_true_iff, Nat.eqb_neq, forallb_forall.
  intros [Hlen Hall]. split; [by destruct ws|].
  apply Forall_forall. intros w Hw%list_elem_of_In. by apply Hall.
Qed.

Lemma join_plain_not_operator ws s :
  ws <> [] -> Forall (fun w => plain w = true) ws -> s = "or" \/ s = "minus" ->
  Py.join " " ws <> s /\ Py.join " " ws <> "".
Proof.
  destruct ws as [|w ws]; [done|]. intros _ [Hw Hws]%Forall_cons Hs.
  pose proof (plain_nonempty w Hw) as Hne.
  apply plain_spec in Hw as (Hb & Hor & Hminus).
  apply bare_spec in Hb as ([_ Hchars] & _).
  rewrite join_spaced. split; [|by destruct w].
  destruct ws as [|w' ws]; [rewrite append_nil_r; by destruct Hs as [->| ->]|].
  intros Heq. assert (" "%char ∈ chars s) as Hin.
  { rewrite <- Heq, chars_app. apply elem_of_app. right. left. }
  destruct Hs as [->| ->]; vm_compute in Hin;
    repeat (apply elem_of_cons in Hin as [Hin|Hin]; [done|]); by apply elem_of_nil in Hin.
Qed.

Lemma operand_text_spec e :
  well_formed e = true -> is_operand e = true ->
  operand_text e <> "" /\ operand_text e <> "or" /\ operand_text e <> "minus".
Proof.
  destruct e as [ws|k body| |]; try done.
  - intros [Hne Hws]%well_formed_atom _. simpl.
    destruct (join_plain_not_operator ws "or" Hne Hws) as [? ?]; [by left|].
    destruct (join_plain_not_operator ws "minus" Hne Hws) as [? _]; [by right|]. done.
  - intros _ _. by destruct k.
Qed.

(** *** The loop over the words of a dimension *)

Lemma tokenize_word_open st t :
  t = "(" \/ t = "isparentof:(" \/ t = "ischildof:(" ->
  tokenize_word st t =
  Ok {| temp := t :: temp st; rpn := flush_exp (exp st) (rpn st); exp := "" |}.
Proof. by intros [->|[->| ->]]. Qed.

Lemma tokenize_word_operator st o :
  tokenize_word st (op_text o) =
  let '(temp', result') := pop_operators (temp st) (flush_exp (exp st) (rpn st)) in
  Ok {| temp := op_text o :: temp'; rpn := result'; exp := "" |}.
Proof. by destruct o. Qed.

Lemma tokenize_word_close st :
  tokenize_word st ")" =
  '(temp', result') ← close_paren (temp st) (flush_exp (exp st) (rpn st));
  Ok {| temp := temp'; rpn := result'; exp := "" |}.
Proof. done. Qed.

Lemma pop_operators_blocked base result :
  blocked base -> pop_operators base result = (base, result).
Proof. destruct base as [|x base]; [done|]. by intros ->. Qed.

Lemma pop_operators_pending e base result :
  blocked base -> pop_operators (pending e ++ base) result = (base, result ++ pending e).
Proof.
  intros Hb. destruct e as [| | |o l r]; simpl;
    rewrite ?app_nil_r; try by apply pop_operators_blocked.
  destruct o; simpl; by apply pop_operators_blocked.
Qed.

Lemma close_paren_pending e base result :
  close_paren (pending e ++ "(" :: base) result = Ok (base, result ++ pending e).
Proof.
  destruct e as [| | |o l r]; simpl; rewrite ?app_nil_r; try done. by destruct o.
Qed.

Lemma is_operand_term e : is_operand e = true -> is_term e = true.
Proof. by destruct e. Qed.

Lemma is_term_pending e : is_term e = true -> pending e = [].
Proof. by destruct e. Qed.

Lemma flush_carried e result :
  well_formed e = true ->
  flush_exp (current e) (result ++ carried e) ++ pending e = result ++ postfix e.
Proof.
  revert result. induction e as [ws|k body IH|e IH|o l IHl r IHr]; intros result Hwf.
  - destruct (operand_text_spec (Atom ws) Hwf eq_refl) as (Hne & _). simpl in *.
    by rewrite flush_exp_nonempty, !app_nil_r.
  - simpl. by rewrite app_nil_r.
  - simpl. by rewrite app_nil_r.
  - simpl in Hwf. apply andb_true_iff in Hwf as [[Hl Hr]%andb_true_iff Ht].
    cbn [current carried pending postfix].
    specialize (IHr (result ++ postfix l) Hr).
    rewrite (is_term_pending r Ht), app_nil_r in IHr.
    by rewrite app_assoc, IHr, <- !app_assoc.
Qed.

Lemma wrap_group_operand k body result :
  well_formed body = true -> is_operand body = true ->
  wrap_group (kw_text k) (result ++ [operand_text body]) =
  Ok (result ++ [operand_text (Group k body)]).
Proof.
  intros Hwf Hop. destruct (operand_text_spec body Hwf Hop) as (_ & Hor & Hminus).
  unfold wrap_group. rewrite !last_is_snoc, list_pop_snoc, length_app.
  rewrite (proj2 (String.eqb_neq _ _) Hor), (proj2 (String.eqb_neq _ _) Hminus).
  simpl. by rewrite Nat.add_1_r.
Qed.

Lemma close_paren_group k base result :
  close_paren ((kw_text k +:+ "(") :: base) result =
  result' ← wrap_group (kw_text k) result; Ok (base, result').
Proof. by destruct k. Qed.

Lemma tokenize_expr e :
  well_formed e = true ->
  forall base result rest,
    is_term e = true \/ blocked base ->
    tokenize_loop (tokens e ++ rest) {| temp := base; rpn := result; exp := "" |} =
    tokenize_loop rest
      {| temp := pending e ++ base; rpn := result ++ carried e; exp := current e |}.
Proof.
  induction e as [ws|k body IH|e IH|o l IHl r IHr]; intros Hwf base result rest Hbase.
  - apply well_formed_atom in Hwf as [Hne Hws].
    cbn [tokens pending carried current app]. rewrite app_nil_r.
    by apply tokenize_atom.
  - simpl in Hwf. apply andb_true_iff in Hwf as [Hop Hwf].
    cbn [tokens app tokenize_loop]. rewrite tokenize_word_open by (destruct k; auto).
    cbn [mbind res_mbind res_bind temp rpn exp flush_exp].
    rewrite <- app_assoc, (IH Hwf) by (left; by apply is_operand_term).
    cbn [app tokenize_loop]. rewrite tokenize_word_close.
    cbn [temp rpn exp]. rewrite (is_term_pending body) by by apply is_operand_term.
    cbn [app]. rewrite close_paren_group.
    pose proof (flush_carried body result Hwf) as Hflush.
    rewrite (is_term_pending body), app_nil_r in Hflush by by apply is_operand_term.
    rewrite Hflush. destruct body as [ws|k' body'| |]; try done;
      cbn [postfix]; by rewrite wrap_group_operand.
  - simpl in Hwf. cbn [tokens app tokenize_loop].
    rewrite tokenize_word_open by auto.
    cbn [mbind res_mbind res_bind temp rpn exp flush_exp].
    rewrite <- app_assoc, (IH Hwf) by (right; done).
    cbn [app tokenize_loop]. rewrite tokenize_word_close.
    cbn [temp rpn exp]. rewrite close_paren_pending.
    cbn [mbind res_mbind res_bind pending carried current app].
    by rewrite flush_carried.
  - simpl in Hwf. apply andb_true_iff in Hwf as [[Hl Hr]%andb_true_iff Ht].
    destruct Hbase as [|Hbase]; [done|].
    cbn [tokens]. rewrite <- app_assoc, (IHl Hl) by (right; done).
    cbn [app tokenize_loop]. rewrite tokenize_word_operator.
    cbn [temp rpn exp]. rewrite pop_operators_pending by done.
    cbn [mbind res_mbind res_bind]. rewrite (IHr Hr) by (left; done).
    rewrite (is_term_pending r Ht), flush_carried by done.
    cbn [pending carried current app]. by rewrite <- app_assoc.
Qed.

Lemma tokenize_loop_postfix e :
  well_formed e = true ->
  (st ← tokenize_loop (tokens e) {| temp := []; rpn := []; exp := "" |};
   Ok (flush_exp (exp st) (rpn st) ++ temp st)) = Ok (postfix e).
Proof.
  intros Hwf. rewrite <- (app_nil_r (tokens e)), (tokenize_expr e Hwf) by (right; done).
  cbn [tokenize_loop mbind res_mbind res_bind temp rpn exp].
  rewrite app_nil_r. change (Ok (flush_exp (current e) ([] ++ carried e) ++ pending e) = Ok ([] ++ postfix e)).
  by rewrite flush_carried.
Qed.

(** *** From the text to the result *)

Lemma plain_known_word w : plain w = true -> known_word w = true.
Proof. intros (Hb & _)%plain_spec. unfold known_word. by rewrite Hb. Qed.

Lemma well_formed_tokens e :
  well_formed e = true -> Forall (fun t => known_word t = true) (tokens e).
Proof.
  induction e as [ws|k body IH|e IH|o l IHl r IHr]; intros Hwf.
  - apply well_formed_atom in Hwf as [_ Hws].
    eapply Forall_impl; [done|]. apply plain_known_word.
  - simpl in Hwf. apply andb_true_iff in Hwf as [_ Hwf]. cbn [tokens].
    constructor; [by destruct k|]. apply Forall_app. split; [by apply IH|].
    by constructor.
  - simpl in Hwf. cbn [tokens]. constructor; [done|].
    apply Forall_app. split; [by apply IH|]. by constructor.
  - simpl in Hwf. apply andb_true_iff in Hwf as [[Hl Hr]%andb_true_iff _].
    cbn [tokens]. apply Forall_app. split; [by apply IHl|].
    constructor; [by destruct o | by apply IHr].
Qed.

Lemma tokens_nonempty e : well_formed e = true -> tokens e <> [].
Proof.
  induction e as [ws|k body IH|e IH|o l IHl r IHr]; intros Hwf; try done.
  - by apply well_formed_atom in Hwf as [? _].
  - cbn [tokens]. by destruct (tokens l).
Qed.

Lemma spaced_render e : well_formed e = true -> spaced (tokens e) = String " " (render e).
Proof.
  intros Hne%tokens_nonempty. unfold render.
  destruct (tokens e) as [|t ts]; [done|]. apply spaced_join.
Qed.

Lemma tokenizeRPN_spaced e :
  well_formed e = true -> Py.find (render e) "with limit" = -1 ->
  tokenizeRPN (spaced (tokens e)) = Ok (postfix e).
Proof.
  intros Hwf Hfind. rewrite tokenizeRPN_no_limit.
  - unfold replaced. rewrite split_replaced by by apply well_formed_tokens.
    by apply tokenize_loop_postfix.
  - rewrite spaced_render by done. by apply find_limit_space.
Qed.

Lemma tokenizeRPN_render e :
  well_formed e = true -> Py.find (render e) "with limit" = -1 ->
  tokenizeRPN (render e) = Ok (postfix e).
Proof.
  intros Hwf Hfind. rewrite tokenizeRPN_no_limit by done.
  rewrite <- (split_space " " (replaced (render e))) by done.
  rewrite <- replaced_space, <- spaced_render by done.
  unfold replaced. rewrite split_replaced by by apply well_formed_tokens.
  by apply tokenize_loop_postfix.
Qed.

End Tokenize.

(** ** tokenizeRPN on a text with groups *)

Section Written.
Import project_utilities.
Implicit Types (s t g v w rest body old new tail : string) (c : ascii).
Implicit Types (ts : list string) (b : bool) (e : expr).

(** *** Blanks of any kind *)

Lemma blank_gapped g : blank g -> gapped g.
Proof.
  destruct g as [|c g]; [by left|]. intros [Hc _]%blank_cons. right. by exists c, g.
Qed.

Lemma split_blank_app g s : blank g -> Py.split (g +:+ s) = Py.split s.
Proof.
  induction g as [|c g IH]; [done|]. intros [Hc Hg]%blank_cons.
  rewrite append_cons, split_space by done. auto.
Qed.

Lemma split_blank g : blank g -> Py.split g = [].
Proof. intros Hg. rewrite <- (append_nil_r g). by rewrite split_blank_app. Qed.

Lemma split_word_gapped w s :
  is_word w -> gapped s -> Py.split (w +:+ s) = w :: Py.split s.
Proof.
  intros Hw [->|(c & t & -> & Hc)].
  - by rewrite append_nil_r, split_word.
  - by rewrite split_app_space, split_word, split_space.
Qed.

Lemma no_start_blank old rest g c old' :
  old = String c old' -> Py.isspace c = false -> blank g -> no_start old rest g.
Proof.
  intros -> Hc. induction g as [|d g IH]; [done|]. intros [Hd Hg]%blank_cons.
  split; [|by apply IH]. rewrite append_cons, startswith_cons.
  destruct (Ascii.eqb_spec c d) as [->|]; [congruence|done].
Qed.

Lemma replace_go_blank old new g rest c old' :
  old = String c old' -> Py.isspace c = false -> blank g ->
  Py.replace_go old new O (g +:+ rest) = g +:+ Py.replace_go old new O rest.
Proof. intros. apply replace_go_pass. by eapply no_start_blank. Qed.

Lemma spaced_out_app s t : spaced_out (s +:+ t) = spaced_out s +:+ spaced_out t.
Proof. unfold spaced_out. by rewrite !replace_char_app. Qed.

Lemma spaced_out_blank g : blank g -> spaced_out g = g.
Proof.
  intros Hg. unfold spaced_out.
  assert (forall c, Py.isspace c = false -> c ∉ chars g) as Hfree.
  { intros c Hc Hin. eapply Forall_forall in Hin; [|exact Hg]. simpl in Hin. congruence. }
  rewrite (replace_char_free "(" g) by by apply Hfree.
  apply replace_char_free. by apply Hfree.
Qed.

(** *** A keyword and the text after a word *)

Lemma startswith_body_gapped v rest body :
  Forall (fun c => Py.isspace c = false) (chars body) -> gapped rest ->
  Py.startswith (v +:+ rest) (body +:+ " ") = true -> Py.startswith v body = true.
Proof.
  intros Hbody Hrest. revert v. induction body as [|a body IH]; intros v.
  - intros _. apply startswith_nil.
  - rewrite chars_cons in Hbody. apply Forall_cons in Hbody as [Ha Hbody].
    destruct v as [|d v].
    + rewrite append_nil_l. destruct Hrest as [->|(c & t & -> & Hc)]; [done|].
      rewrite append_cons, startswith_cons. intros [Hd _]%andb_true_iff.
      apply Ascii.eqb_eq in Hd as ->. congruence.
    + rewrite !append_cons, !startswith_cons. intros [Hd Hv]%andb_true_iff.
      rewrite Hd. by apply IH.
Qed.

Lemma no_start_keyword_gapped body rest w :
  Forall (fun c => Py.isspace c = false) (chars body) -> gapped rest ->
  ~ contains w body -> no_start (body +:+ " ") rest w.
Proof.
  intros Hbody Hrest. induction w as [|c w IH]; [done|]. intros Hno. split.
  - destruct (Py.startswith (String c w +:+ rest) (body +:+ " ")) eqn:E; [|done].
    apply startswith_body_gapped in E; [|done..]. apply startswith_spec in E as [t E].
    exfalso. apply Hno. exists "", t. by rewrite append_nil_l.
  - apply IH. intros H. by apply Hno, contains_cons.
Qed.

(** *** One token through the replacements *)

Lemma bare_closed t :
  bare t = true ->
  ends_open t = false /\ spaced_out t = t /\ closed_up_parent t = t /\ closed_up t = t.
Proof.
  intros Hb. destruct (bare_not_special t Hb) as (Ho & Hc & Hp & Hch).
  unfold ends_open, is_paren_token, closed_up, closed_up_parent.
  by rewrite (proj2 (String.eqb_neq _ _) Ho), (proj2 (String.eqb_neq _ _) Hc),
    (proj2 (String.eqb_neq _ _) Hp), (proj2 (String.eqb_neq _ _) Hch),
    (spaced_out_bare t Hb).
Qed.

Lemma paren_image t :
  is_paren_token t = true ->
  (exists x, spaced_out t = String " " x) /\
  (exists x, closed_up_parent t = String " " x) /\
  (exists x, closed_up t = String " " x).
Proof.
  unfold is_paren_token.
  intros [->%String.eqb_eq| ->%String.eqb_eq]%orb_true_iff; repeat split; by eexists.
Qed.

Lemma close_up_parent_written t rest :
  known_word t = true -> (ends_open t = false -> gapped rest) ->
  Py.replace_go "isparentof: " "isparentof:" O (spaced_out t +:+ rest) =
  closed_up_parent t +:+ Py.replace_go "isparentof: " "isparentof:" O rest.
Proof.
  intros Ht Hrest.
  destruct (known_word_cases t Ht) as [Hb|[->|[->|[->| ->]]]].
  - destruct (bare_closed t Hb) as (He & -> & -> & _).
    apply replace_go_pass.
    apply bare_spec in Hb as (_ & _ & _ & Hno & _).
    apply (no_start_keyword_gapped "isparentof:"); [repeat constructor|by apply Hrest|done].
  - change (spaced_out "(" +:+ rest) with (" ( " +:+ rest).
    rewrite replace_go_pass by (repeat split; reflexivity). done.
  - change (spaced_out ")" +:+ rest) with (" ) " +:+ rest).
    rewrite replace_go_pass by (repeat split; reflexivity). done.
  - change (spaced_out "isparentof:(" +:+ rest) with ("isparentof: " +:+ ("( " +:+ rest)).
    rewrite replace_go_match by done.
    rewrite replace_go_pass by (repeat split; reflexivity). done.
  - change (spaced_out "ischildof:(" +:+ rest) with ("ischildof: ( " +:+ rest).
    rewrite replace_go_pass by (repeat split; reflexivity). done.
Qed.

Lemma close_up_child_written t rest :
  known_word t = true -> (ends_open t = false -> gapped rest) ->
  Py.replace_go "ischildof: " "ischildof:" O (closed_up_parent t +:+ rest) =
  closed_up t +:+ Py.replace_go "ischildof: " "ischildof:" O rest.
Proof.
  intros Ht Hrest.
  destruct (known_word_cases t Ht) as [Hb|[->|[->|[->| ->]]]].
  - destruct (bare_closed t Hb) as (He & _ & -> & ->).
    apply replace_go_pass.
    apply bare_spec in Hb as (_ & _ & _ & _ & Hno).
    apply (no_start_keyword_gapped "ischildof:"); [repeat constructor|by apply Hrest|done].
  - change (closed_up_parent "(" +:+ rest) with (" ( " +:+ rest).
    rewrite replace_go_pass by (repeat split; reflexivity). done.
  - change (closed_up_parent ")" +:+ rest) with (" ) " +:+ rest).
    rewrite replace_go_pass by (repeat split; reflexivity). done.
  - change (closed_up_parent "isparentof:(" +:+ rest) with ("isparentof:( " +:+ rest).
    rewrite replace_go_pass by (repeat split; reflexivity). done.
  - change (closed_up_parent "ischildof:(" +:+ rest) with ("ischildof: " +:+ ("( " +:+ rest)).
    rewrite replace_go_match by done.
    rewrite replace_go_pass by (repeat split; reflexivity). done.
Qed.

Lemma split_closed_up t rest :
  known_word t = true -> (ends_open t = false -> gapped rest) ->
  Py.split (closed_up t +:+ rest) = t :: Py.split rest.
Proof.
  intros Ht Hrest.
  destruct (known_word_cases t Ht) as [Hb|[->|[->|[->| ->]]]].
  - destruct (bare_closed t Hb) as (He & _ & _ & ->).
    apply split_word_gapped; [by apply bare_spec in Hb as [? _] | by apply Hrest].
  - change (closed_up "(" +:+ rest) with (String " " ("(" +:+ String " " rest)).
    by rewrite split_space, split_app_space.
  - change (closed_up ")" +:+ rest) with (String " " (")" +:+ String " " rest)).
    by rewrite split_space, split_app_space.
  - change (closed_up "isparentof:(" +:+ rest) with ("isparentof:(" +:+ String " " rest).
    by rewrite split_app_space.
  - change (closed_up "ischildof:(" +:+ rest) with ("ischildof:(" +:+ String " " rest).
    by rewrite split_app_space.
Qed.

(** *** The text through the replacements *)

Lemma written_gapped (f : string -> string) ts s :
  (forall t, is_paren_token t = true -> exists x, f t = String " " x) ->
  written f false ts s -> gapped s.
Proof.
  intros Hf H. inversion H as [b g Hg|b g t ts' s' Hg Hb Hrest]; subst.
  - by apply blank_gapped.
  - destruct g as [|c g].
    + destruct (Hb eq_refl) as [|Hp]; [done|]. destruct (Hf t Hp) as [x ->].
      right. exists " "%char, (x +:+ s'). by rewrite append_nil_l, append_cons.
    + apply blank_cons in Hg as [Hc _]. right. exists c, (g +:+ f t +:+ s').
      by rewrite append_cons.
Qed.

Lemma written_spaced_out b ts s :
  written id b ts s -> written spaced_out b ts (spaced_out s).
Proof.
  induction 1 as [b g Hg|b g t ts s Hg Hb Hw IH].
  - rewrite spaced_out_blank by done. by constructor.
  - rewrite !spaced_out_app, (spaced_out_blank g) by done. by constructor.
Qed.

Lemma written_replace old new c old' (f h : string -> string) b ts s :
  old = String c old' -> Py.isspace c = false ->
  (forall t, is_paren_token t = true -> exists x, f t = String " " x) ->
  Forall (fun t => forall rest, (ends_open t = false -> gapped rest) ->
            Py.replace_go old new O (f t +:+ rest)
            = h t +:+ Py.replace_go old new O rest) ts ->
  written f b ts s -> written h b ts (Py.replace_go old new O s).
Proof.
  intros Hold Hc Hf Hts Hw. induction Hw as [b g Hg|b g t ts s Hg Hb Hw IH].
  - rewrite <- (append_nil_r g).
    rewrite (replace_go_blank old new g "" c old') by done.
    rewrite replace_go_nil, append_nil_r. by constructor.
  - apply Forall_cons in Hts as [Ht Hts].
    rewrite (replace_go_blank old new g _ c old') by done.
    rewrite Ht.
    + constructor; [done|done|by apply IH].
    + intros He. rewrite He in Hw. by eapply written_gapped.
Qed.

Lemma split_written b ts s :
  Forall (fun t => known_word t = true) ts -> written closed_up b ts s -> Py.split s = ts.
Proof.
  intros Hts Hw. induction Hw as [b g Hg|b g t ts s Hg Hb Hw IH].
  - by apply split_blank.
  - apply Forall_cons in Hts as [Ht Hts]. rewrite split_blank_app by done.
    rewrite split_closed_up; [by rewrite IH|done|].
    intros He. rewrite He in Hw. eapply written_gapped; [|exact Hw].
    intros t' Ht'. by apply paren_image in Ht' as (_ & _ & ?).
Qed.

(** The words that the loop of [tokenizeRPN] sees are the tokens that the
    text writes. *)
Lemma split_replaced_written ts s :
  Forall (fun t => known_word t = true) ts -> writes ts s -> Py.split (replaced s) = ts.
Proof.
  intros Hts Hw. unfold replaced. fold (spaced_out s). rewrite !replace_nonempty by done.
  apply (split_written true); [done|].
  apply (written_replace _ _ "i" "schildof: " closed_up_parent); [done|done| | |].
  { intros t Ht. by apply paren_image in Ht as (_ & ? & _). }
  { eapply Forall_impl; [exact Hts|]. intros t Ht rest. by apply close_up_child_written. }
  apply (written_replace _ _ "i" "sparentof: " spaced_out); [done|done| | |].
  { intros t Ht. by apply paren_image in Ht as (? & _ & _). }
  { eapply Forall_impl; [exact Hts|]. intros t Ht rest. by apply close_up_parent_written. }
  by apply written_spaced_out.
Qed.

(** *** The text before the limit clause *)

Lemma tokenizeRPN_tail s tail :
  Py.find (s +:+ tail) "with limit" = Z.of_nat (String.length s) ->
  tokenizeRPN (s +:+ tail) =
  st ← tokenize_loop (Py.split (replaced s)) {| temp := []; rpn := []; exp := "" |};
  Ok ((flush_exp (exp st) (rpn st) ++ temp st) ++ [tail]).
Proof.
  intros H. assert (tail <> "") as Htail.
  { intros ->. unfold Py.find in H.
    destruct (Py.index_of "with limit" (s +:+ "")) as [n|] eqn:E; [|lia].
    apply index_of_Some in E as (pre & post & E & Hlen).
    apply (f_equal String.length) in E. rewrite !length_append in E. simpl in E. lia. }
  unfold tokenizeRPN. rewrite H.
  destruct (Z.leb_spec 0 (Z.of_nat (String.length s))) as [_|]; [|lia].
  rewrite Nat2Z.id.
  replace (String.length s) with (String.length s + 0)%nat by lia.
  rewrite slice_to_app, slice_from_app. cbn [Py.slice_to Py.slice_from].
  rewrite append_nil_r. fold (replaced s).
  destruct (tokenize_loop _ _) as [st|err]; [|done]. simpl.
  by destruct tail.
Qed.

End Written.

(** C2, against the claim as stated: its own example raises, and so does
    the same group under [isparentof:]. *)
Lemma tokenizeRPN_group_with_operator_raises :
  project_utilities.tokenizeRPN "ischildof:( A or B )" = Raise IndexError /\
  project_utilities.tokenizeRPN "isparentof:( A or B )"
  = Raise (RuntimeError "isparentof: parse error").
Proof. split; vm_compute; reflexivity. Qed.

(** C2, amended.  Take a well-formed dimension in which every
    [isparentof:(] or [ischildof:(] group encloses one operand (an atomic
    dimension or another such group), and a text that writes its tokens in
    their order, with blanks of any kind and number between them, where the
    blanks may be missing next to a parenthesis and after a group opener.
    When ['with limit'] does not occur in the text, [tokenizeRPN] returns,
    without raising, the dimension in reverse Polish notation, and in it
    every group is the single operand ['isparentof:( ... )'] or
    ['ischildof:( ... )'].  When the text is followed by a tail at which
    the first ['with limit'] starts, [tokenizeRPN] returns the same list
    with the tail as its last token. *)
Theorem tokenizeRPN_groups_are_operands (e : expr) (s : string) :
  well_formed e = true ->
  writes (tokens e) s ->
  (Py.find s "with limit" = -1 ->
   project_utilities.tokenizeRPN s = Ok (postfix e)) /\
  (forall tail,
     Py.find (s +:+ tail) "with limit" = Z.of_nat (String.length s) ->
     project_utilities.tokenizeRPN (s +:+ tail) = Ok (postfix e ++ [tail])).
Proof.
  intros Hwf Hw.
  pose proof (split_replaced_written (tokens e) s (well_formed_tokens e Hwf) Hw) as Hsplit.
  pose proof (tokenize_loop_postfix e Hwf) as Hloop.
  split.
  - intros Hfind. by rewrite tokenizeRPN_no_limit, Hsplit.
  - intros tail Hfind. rewrite tokenizeRPN_tail, Hsplit by done.
    destruct (project_utilities.tokenize_loop _ _) as [st|err]; [|done].
    simpl in *. by injection Hloop as ->.
Qed.

Lemma tokenizeRPN_groups_are_operands_witness :
  project_utilities.tokenizeRPN "run 5 or ischildof:(isparentof:( file_name a.root))"
  = Ok ["run 5"; "ischildof:( isparentof:( file_name a.root ) )"; "or"] /\
  project_utilities.tokenizeRPN "isparentof:( A ) with limit 3"
  = Ok ["isparentof:( A )"; "with limit 3"].
Proof.
  split.
  - apply (tokenizeRPN_groups_are_operands
             (Bin OpOr (Atom ["run"; "5"])
                (Group IsChildOf (Group IsParentOf (Atom ["file_name"; "a.root"]))))
             "run 5 or ischildof:(isparentof:( file_name a.root))");
      [reflexivity| |reflexivity].
    apply (written_cons id true "" "run"); [constructor|by left|].
    apply (written_cons id false " " "5"); [by repeat constructor|done|].
    apply (written_cons id false " " "or"); [by repeat constructor|done|].
    apply (written_cons id false " " "ischildof:("); [by repeat constructor|done|].
    apply (written_cons id true "" "isparentof:("); [constructor|by left|].
    apply (written_cons id true " " "file_name"); [by repeat constructor|done|].
    apply (written_cons id false " " "a.root"); [by repeat constructor|done|].
    apply (written_cons id false "" ")"); [constructor|by right|].
    apply (written_cons id true "" ")"); [constructor|by left|].
    apply written_nil. constructor.
  - apply (proj2 (tokenizeRPN_groups_are_operands
                    (Group IsParentOf (Atom ["A"])) "isparentof:( A ) " eq_refl
                    ltac:(apply (written_cons id true "" "isparentof:(");
                            [constructor|by left|];
                          apply (written_cons id true " " "A");
                            [by repeat constructor|done|];
                          apply (written_cons id false " " ")");
                            [by repeat constructor|done|];
                          apply written_nil; by repeat constructor))
             "with limit 3").
    reflexivity.
Defined.

(** ** listFiles on dimensions without clauses *)

Section Eval.
Import project_utilities.
Variable samweb : SAMWebClient.
Variable rt : SetRuntime.
Implicit Types (s t item : string) (ws ts stack rest : list string) (e : expr) (w : world).

(** *** One operand *)

Lemma cache_ok_empty : cache_ok samweb empty_world.
Proof. intros k l H. simpl in H. by rewrite lookup_empty in H. Qed.

Lemma cache_ok_alloc w files :
  cache_ok samweb w -> cache_ok samweb (alloc files w).2.
Proof.
  intros Hok k l Hk. destruct (Hok k l Hk) as (L & HL & Hl).
  exists L. split; [done|]. simpl. by apply lookup_app_l_Some.
Qed.

Lemma eval_item_operand item (stack : list nat) w :
  item <> "or" -> item <> "minus" -> Py.startswith item "with limit" = false ->
  cache_ok samweb w ->
  match sam_listFiles samweb item with
  | Ok files =>
      exists l w', eval_item samweb rt item stack w = (Ok (l :: stack), w') /\
                   heap w' !! l = Some (list_to_set files) /\
                   cache_ok samweb w' /\ heap w `prefix_of` heap w'
  | Raise err => eval_item samweb rt item stack w = (Raise err, w)
  end.
Proof.
  intros Hor Hminus Hlimit Hok. unfold eval_item.
  rewrite (proj2 (String.eqb_neq _ _) Hor), (proj2 (String.eqb_neq _ _) Hminus), Hlimit.
  destruct (samcache w !! item) as [l|] eqn:Hc.
  - destruct (Hok item l Hc) as (L & -> & Hl). exists l, w. done.
  - destruct (sam_listFiles samweb item) as [L|err] eqn:HL; [|done].
    eexists _, _. split; [done|]. simpl. split; [|split].
    + by rewrite lookup_app_r, Nat.sub_diag.
    + intros k l. simpl. rewrite lookup_insert. case_decide as Hk.
      * intros [= <-]. subst k. exists L. split; [done|].
        by rewrite lookup_app_r, Nat.sub_diag.
      * intros Hl. destruct (Hok k l Hl) as (L' & HL' & Hl').
        exists L'. split; [done|]. by apply lookup_app_l_Some.
    + by apply prefix_app_r.
Qed.

Lemma set_at_lookup w l files : heap w !! l = Some files -> set_at w l = files.
Proof. unfold set_at. by intros ->. Qed.

Lemma eval_item_operator o (set1 set2 : nat) (stack : list nat) w a b :
  heap w !! set2 = Some a -> heap w !! set1 = Some b ->
  exists l w', eval_item samweb rt (op_text o) (set1 :: set2 :: stack) w
               = (Ok (l :: stack), w') /\
               heap w' !! l = Some (match o with OpOr => a ∪ b | OpMinus => a ∖ b end) /\
               samcache w' = samcache w /\ heap w `prefix_of` heap w'.
Proof.
  intros Ha Hb. destruct o; unfold eval_item; simpl;
    rewrite (set_at_lookup _ _ _ Ha), (set_at_lookup _ _ _ Hb);
    eexists _, _; (split; [done|]); simpl; (split; [|split; [done | by apply prefix_app_r]]);
    rewrite lookup_app_r, Nat.sub_diag by done; simpl; f_equal.
  apply leibniz_equiv, union_comm.
Qed.

Lemma cache_ok_extend w w' :
  cache_ok samweb w -> samcache w' = samcache w -> heap w `prefix_of` heap w' ->
  cache_ok samweb w'.
Proof.
  intros Hok Hc Hh k l Hk. rewrite Hc in Hk. destruct (Hok k l Hk) as (L & HL & Hl).
  exists L. split; [done|]. by eapply prefix_lookup_Some.
Qed.

(** *** A whole dimension *)

Lemma eval_rpn_cons item rest (stack : list nat) w :
  eval_rpn samweb rt (item :: rest) stack w =
  match eval_item samweb rt item stack w with
  | (Ok stack', w') => eval_rpn samweb rt rest stack' w'
  | (Raise e, w') => (Raise e, w')
  end.
Proof. done. Qed.

Lemma operand_not_limit e :
  is_operand e = true -> limit_ok e = true ->
  Py.startswith (operand_text e) "with limit" = false.
Proof.
  destruct e as [ws|k body| |]; try done.
  - intros _. simpl. by intros ->%negb_true_iff.
  - intros _ _. by destruct k.
Qed.

Lemma eval_operand e rest (stack : list nat) w :
  well_formed e = true -> is_operand e = true -> limit_ok e = true ->
  cache_ok samweb w ->
  match sam_listFiles samweb (operand_text e) with
  | Ok files =>
      exists l w', eval_rpn samweb rt (operand_text e :: rest) stack w
                   = eval_rpn samweb rt rest (l :: stack) w' /\
                   heap w' !! l = Some (list_to_set files) /\
                   cache_ok samweb w' /\ heap w `prefix_of` heap w'
  | Raise err =>
      exists w', eval_rpn samweb rt (operand_text e :: rest) stack w = (Raise err, w')
  end.
Proof.
  intros Hwf Hop Hlim Hok.
  destruct (operand_text_spec e Hwf Hop) as (_ & Hor & Hminus).
  pose proof (eval_item_operand (operand_text e) stack w Hor Hminus
                (operand_not_limit e Hop Hlim) Hok) as H.
  rewrite eval_rpn_cons.
  destruct (sam_listFiles samweb (operand_text e)) as [files|err].
  - destruct H as (l & w' & -> & ?). by exists l, w'.
  - rewrite H. by exists w.
Qed.

Lemma eval_postfix e :
  well_formed e = true -> limit_ok e = true ->
  forall rest (stack : list nat) w, cache_ok samweb w ->
  match denote samweb e with
  | Ok files =>
      exists l w', eval_rpn samweb rt (postfix e ++ rest) stack w
                   = eval_rpn samweb rt rest (l :: stack) w' /\
                   heap w' !! l = Some files /\
                   cache_ok samweb w' /\ heap w `prefix_of` heap w'
  | Raise err =>
      exists w', eval_rpn samweb rt (postfix e ++ rest) stack w = (Raise err, w')
  end.
Proof.
  induction e as [ws|k body _|e IH|o l IHl r IHr]; intros Hwf Hlim rest stack w Hok.
  - pose proof (eval_operand (Atom ws) rest stack w Hwf eq_refl Hlim Hok) as H.
    cbn [denote postfix app]. destruct (sam_listFiles samweb _); exact H.
  - pose proof (eval_operand (Group k body) rest stack w Hwf eq_refl Hlim Hok) as H.
    cbn [denote postfix app]. destruct (sam_listFiles samweb _); exact H.
  - by apply IH.
  - simpl in Hwf, Hlim. apply andb_true_iff in Hwf as [[Hwl Hwr]%andb_true_iff _].
    apply andb_true_iff in Hlim as [Hll Hlr].
    cbn [denote postfix]. rewrite <- !app_assoc.
    specialize (IHl Hwl Hll (postfix r ++ [op_text o] ++ rest) stack w Hok).
    destruct (denote samweb l) as [a|err]; [|exact IHl].
    destruct IHl as (set2 & w1 & -> & Ha & Hok1 & Hpre1).
    specialize (IHr Hwr Hlr ([op_text o] ++ rest) (set2 :: stack) w1 Hok1).
    destruct (denote samweb r) as [b|err]; [|exact IHr].
    destruct IHr as (set1 & w2 & -> & Hb & Hok2 & Hpre2).
    pose proof (prefix_lookup_Some _ _ _ _ Ha Hpre2) as Ha2.
    destruct (eval_item_operator o set1 set2 stack w2 a b Ha2 Hb)
      as (l' & w3 & Hop & Hl' & Hc3 & Hpre3).
    cbn [app]. rewrite eval_rpn_cons, Hop. exists l', w3. split; [done|].
    split; [done|]. split; [exact (cache_ok_extend w2 w3 Hok2 Hc3 Hpre3)|].
    etrans; [exact Hpre1|]. etrans; [exact Hpre2|]. exact Hpre3.
Qed.

(** *** Expansion without definitions *)

Lemma pieces_no_defname ws :
  "defname:" ∉ ws -> pieces samweb ws false = Ok (PWord <$> ws).
Proof.
  induction ws as [|x ws IH]; [done|]. rewrite not_elem_of_cons. intros [Hx Hws].
  simpl. rewrite (proj2 (String.eqb_neq x "defname:")) by done. by rewrite IH.
Qed.

Lemma pieces_text_words ws : pieces_text (PWord <$> ws) = spaced ws.
Proof.
  induction ws as [|x ws IH]; [done|]. rewrite fmap_cons.
  cbn [pieces_text piece_text spaced]. by rewrite IH, append_assoc.
Qed.

Lemma expandDefnames_no_defname s :
  "defname:" ∉ Py.split s -> expandDefnames samweb s = Ok (spaced (Py.split s)).
Proof.
  intros H. rewrite expandDefnames_pieces, pieces_no_defname by done.
  simpl. by rewrite pieces_text_words.
Qed.

Lemma expand_until_fixed_no_defname fuel s :
  "defname:" ∉ Py.split s -> (2 <= fuel)%nat ->
  expand_until_fixed samweb fuel s = Some (Ok (spaced (Py.split s))).
Proof.
  intros H Hfuel. destruct fuel as [|[|fuel]]; [lia..|].
  cbn [expand_until_fixed]. rewrite expandDefnames_no_defname by done.
  destruct (String.eqb_spec (spaced (Py.split s)) s) as [Heq|_]; [by rewrite Heq|].
  rewrite expandDefnames_no_defname; rewrite split_spaced by apply split_words; [|done].
  by rewrite String.eqb_refl.
Qed.

(** *** No atomic dimension starts with the limit clause *)

Lemma join_app a b :
  a <> [] -> b <> [] -> Py.join " " (a ++ b) = Py.join " " a +:+ " " +:+ Py.join " " b.
Proof.
  intros Ha Hb. induction a as [|x a IH]; [done|]. destruct a as [|y a].
  - destruct b as [|z b]; [done|]. reflexivity.
  - change (Py.join " " ((x :: y :: a) ++ b))
      with (x +:+ " " +:+ Py.join " " ((y :: a) ++ b)).
    rewrite IH by done. change (Py.join " " (x :: y :: a)) with (x +:+ " " +:+ Py.join " " (y :: a)).
    by rewrite !append_assoc.
Qed.

Lemma contains_join_l a b x :
  contains (Py.join " " a) x -> a <> [] -> contains (Py.join " " (a ++ b)) x.
Proof.
  intros H Ha. destruct b as [|z b]; [by rewrite app_nil_r|].
  rewrite join_app by done. by apply contains_app_l.
Qed.

Lemma contains_join_r a b x :
  contains (Py.join " " b) x -> b <> [] -> contains (Py.join " " (a ++ b)) x.
Proof.
  intros H Hb. destruct a as [|z a]; [done|].
  rewrite join_app by done. by apply contains_app_r, contains_app_r.
Qed.

Lemma limit_ok_render e :
  well_formed e = true -> ~ contains (render e) "with limit" -> limit_ok e = true.
Proof.
  unfold render.
  induction e as [ws|k body _|e IH|o l IHl r IHr]; intros Hwf Hno; cbn [limit_ok].
  - apply negb_true_iff. destruct (Py.startswith _ _) eqn:E; [|done].
    exfalso. apply Hno. apply startswith_spec in E as [t E]. simpl. rewrite E.
    exists "", t. by rewrite append_nil_l.
  - done.
  - simpl in Hwf. apply IH; [done|]. intros H. apply Hno. cbn [tokens].
    change ("(" :: tokens e ++ [")"]) with (["("] ++ tokens e ++ [")"]).
    apply contains_join_r; [|by destruct (tokens e)].
    apply contains_join_l; [done|]. by apply tokens_nonempty.
  - simpl in Hwf. apply andb_true_iff in Hwf as [[Hwl Hwr]%andb_true_iff _].
    apply andb_true_iff. split.
    + apply IHl; [done|]. intros H. apply Hno. cbn [tokens].
      apply contains_join_l; [done|]. by apply tokens_nonempty.
    + apply IHr; [done|]. intros H. apply Hno. cbn [tokens].
      apply contains_join_r; [|done].
      change (op_text o :: tokens r) with ([op_text o] ++ tokens r).
      apply contains_join_r; [done|]. by apply tokens_nonempty.
Qed.

End Eval.

(** ** Parentheses written next to words *)

Section Lex.
Import project_utilities.
Implicit Types (s t w u v body rest : string) (c : ascii) (ws ts : list string) (e : expr).

Lemma lex_aux_cons c w :
  lex_aux (String c w) =
  if is_paren c then ("", String c "" :: lex w)
  else (String c (lex_aux w).1, (lex_aux w).2).
Proof. unfold lex. simpl. by destruct (lex_aux w). Qed.

Lemma spaced_out_cons c w : spaced_out (String c w) = spaced_paren c +:+ spaced_out w.
Proof.
  unfold spaced_out, spaced_paren. rewrite replace_char_cons, replace_char_app. f_equal.
  destruct (Ascii.eqb_spec "(" c) as [<-|Ho]; [reflexivity|].
  rewrite replace_char_cons. destruct (Ascii.eqb_spec ")" c); [reflexivity|].
  reflexivity.
Qed.

(** *** The words of a word with its parentheses spaced out *)

Lemma split_aux_detached rest :
  detached rest -> Py.split_aux rest = ("", Py.split rest).
Proof.
  intros [->|[t ->]]; [done|]. by rewrite split_aux_cons, split_space.
Qed.

Lemma split_push_word s : Py.split s = Py.push_word (Py.split_aux s).1 (Py.split_aux s).2.
Proof. unfold Py.split. by destruct (Py.split_aux s). Qed.

Lemma lex_push_word w : lex w = Py.push_word (lex_aux w).1 (lex_aux w).2.
Proof. unfold lex. by destruct (lex_aux w). Qed.

Lemma split_aux_spaced_out w rest :
  Forall (fun c => Py.isspace c = false) (chars w) -> detached rest ->
  Py.split_aux (spaced_out w +:+ rest) = ((lex_aux w).1, (lex_aux w).2 ++ Py.split rest).
Proof.
  intros Hw Hrest. induction w as [|c w IH].
  - change (spaced_out "") with "". rewrite append_nil_l. by apply split_aux_detached.
  - rewrite chars_cons in Hw. apply Forall_cons in Hw as [Hc Hw]. specialize (IH Hw).
    assert (Py.split (spaced_out w +:+ rest) = lex w ++ Py.split rest) as Hsplit.
    { rewrite split_push_word, IH, lex_push_word. simpl. apply push_word_app. }
    rewrite spaced_out_cons, lex_aux_cons, append_assoc. unfold spaced_paren, is_paren.
    destruct (Ascii.eqb_spec "(" c) as [<-|Ho].
    + change (" ( " +:+ spaced_out w +:+ rest)
        with (String " " ("(" +:+ String " " (spaced_out w +:+ rest))).
      rewrite split_aux_cons. simpl. by rewrite split_app_space, Hsplit.
    + destruct (Ascii.eqb_spec ")" c) as [<-|Hcl].
      * change (" ) " +:+ spaced_out w +:+ rest)
          with (String " " (")" +:+ String " " (spaced_out w +:+ rest))).
        rewrite split_aux_cons. simpl. by rewrite split_app_space, Hsplit.
      * simpl orb. cbv iota. rewrite append_cons, append_nil_l, split_aux_cons, Hc, IH. done.
Qed.

Lemma split_spaced_out w rest :
  is_word w -> detached rest ->
  Py.split (" " +:+ spaced_out w +:+ rest) = lex w ++ Py.split rest.
Proof.
  intros [_ Hw] Hrest.
  change (" " +:+ spaced_out w +:+ rest) with (String " " (spaced_out w +:+ rest)).
  rewrite split_space by done.
  rewrite split_push_word, split_aux_spaced_out, lex_push_word by done.
  simpl. apply push_word_app.
Qed.

Lemma split_spaced_by_spaced_out ws :
  Forall is_word ws -> Py.split (spaced_by spaced_out ws) = flat_map lex ws.
Proof.
  induction 1 as [|w ws Hw _ IH]; [done|]. cbn [spaced_by flat_map].
  rewrite split_spaced_out; [|done|apply spaced_by_detached]. by rewrite IH.
Qed.

(** *** Keywords in a word and in its tokens *)

Lemma no_start_app old rest p q :
  no_start old (q +:+ rest) p -> no_start old rest q -> no_start old rest (p +:+ q).
Proof.
  induction p as [|c p IH]; [by rewrite append_nil_l|].
  intros [Hc Hp] Hq. rewrite append_cons. split.
  - by rewrite <- append_cons, append_assoc.
  - by apply IH.
Qed.

Lemma no_start_suffixes old rest pre :
  (forall u v, pre = u +:+ v -> v <> "" -> Py.startswith (v +:+ rest) old = false) ->
  no_start old rest pre.
Proof.
  induction pre as [|c pre IH]; [done|]. intros H. split.
  - by apply (H ""); [rewrite append_nil_l|].
  - apply IH. intros u v -> Hv. by apply (H (String c u)); [rewrite append_cons|].
Qed.

Lemma no_start_not_contains old pre rest :
  no_start old rest pre -> ~ contains rest old -> ~ contains (pre +:+ rest) old.
Proof.
  intros Hpre Hrest. apply find_absent. apply find_absent in Hrest.
  unfold Py.find in *. rewrite index_of_pass by done.
  destruct (Py.index_of old rest); simpl; [lia|done].
Qed.

(** A text without blanks and parentheses starts where it starts in the
    word before the parentheses were spaced out. *)
Lemma startswith_spaced_out v rest body :
  Forall (fun c => Py.isspace c = false /\ is_paren c = false) (chars body) ->
  detached rest ->
  Py.startswith (spaced_out v +:+ rest) (body +:+ " ") = true -> Py.startswith v body = true.
Proof.
  intros Hbody Hrest. revert v. induction body as [|a body IH]; intros v.
  - intros _. apply startswith_nil.
  - rewrite chars_cons in Hbody. apply Forall_cons in Hbody as [[Ha Hp] Hbody].
    destruct v as [|d v].
    + change (spaced_out "") with "". rewrite append_nil_l.
      destruct Hrest as [->|[t ->]]; [done|].
      rewrite append_cons, startswith_cons. intros [Hd _]%andb_true_iff.
      apply Ascii.eqb_eq in Hd as ->. done.
    + rewrite spaced_out_cons, append_assoc, append_cons. unfold spaced_paren.
      unfold is_paren in Hp. apply orb_false_iff in Hp as [Ho Hcl].
      destruct (Ascii.eqb_spec "(" d) as [<-|Hd1].
      { change (" ( " +:+ spaced_out v +:+ rest)
          with (String " " ("( " +:+ spaced_out v +:+ rest)).
        rewrite startswith_cons. intros [Hd _]%andb_true_iff.
        apply Ascii.eqb_eq in Hd as ->. done. }
      destruct (Ascii.eqb_spec ")" d) as [<-|Hd2].
      { change (" ) " +:+ spaced_out v +:+ rest)
          with (String " " (") " +:+ spaced_out v +:+ rest)).
        rewrite startswith_cons. intros [Hd _]%andb_true_iff.
        apply Ascii.eqb_eq in Hd as ->. done. }
      rewrite append_cons, append_nil_l, !startswith_cons.
      intros [Hd Hv]%andb_true_iff. rewrite Hd. by apply IH.
Qed.

Lemma no_start_spaced_out kw rest w :
  kw <> "" ->
  Forall (fun c => Py.isspace c = false /\ is_paren c = false) (chars kw) ->
  detached rest -> ~ contains w kw -> no_start (kw +:+ " ") rest (spaced_out w).
Proof.
  intros Hne Hkw Hrest. induction w as [|c w IH]; [done|]. intros Hno.
  assert (~ contains w kw) as Hno' by (intros H; by apply Hno, contains_cons).
  specialize (IH Hno'). rewrite spaced_out_cons. apply no_start_app; [|done].
  destruct kw as [|a kw]; [done|]. pose proof Hkw as Hkw'.
  rewrite chars_cons in Hkw'. apply Forall_cons in Hkw' as [[Ha Hp] _].
  unfold is_paren in Hp. apply orb_false_iff in Hp as [Ho Hcl].
  assert (Ascii.eqb a " " = false) as Hsp by (apply Ascii.eqb_neq; by intros ->).
  unfold spaced_paren.
  destruct (Ascii.eqb_spec "(" c) as [<-|Hd1].
  { repeat split; rewrite !append_cons, startswith_cons.
    - by rewrite Hsp.
    - by rewrite Ascii.eqb_sym, Ho.
    - by rewrite Hsp. }
  destruct (Ascii.eqb_spec ")" c) as [<-|Hd2].
  { repeat split; rewrite !append_cons, startswith_cons.
    - by rewrite Hsp.
    - by rewrite Ascii.eqb_sym, Hcl.
    - by rewrite Hsp. }
  split; [|done].
  destruct (Py.startswith _ _) eqn:E; [|done]. exfalso. apply Hno.
  assert (Py.startswith (String c w) (String a kw) = true) as Hs.
  { apply (startswith_spaced_out _ (rest)); [done..|].
    rewrite spaced_out_cons, append_assoc. unfold spaced_paren.
    rewrite (proj2 (Ascii.eqb_neq _ _) Hd1), (proj2 (Ascii.eqb_neq _ _) Hd2). exact E. }
  apply startswith_spec in Hs as [x ->]. exists "", x. by rewrite append_nil_l.
Qed.

Lemma lex_aux_startswith kw w :
  Forall (fun c => is_paren c = false) (chars kw) ->
  Py.startswith w kw = true -> Py.startswith (lex_aux w).1 kw = true.
Proof.
  intros Hkw. revert w. induction kw as [|a kw IH]; intros w.
  - intros _. apply startswith_nil.
  - rewrite chars_cons in Hkw. apply Forall_cons in Hkw as [Ha Hkw].
    destruct w as [|d w]; [done|]. rewrite startswith_cons.
    intros [Hd Hw]%andb_true_iff. apply Ascii.eqb_eq in Hd as <-.
    rewrite lex_aux_cons, Ha. cbn [fst]. rewrite startswith_cons, Ascii.eqb_refl. by apply IH.
Qed.

Lemma elem_of_push_word t w ts : t ∈ ts -> t ∈ Py.push_word w ts.
Proof. destruct w; [done|]. by right. Qed.

Lemma elem_of_push_word_head w ts : w <> "" -> w ∈ Py.push_word w ts.
Proof. destruct w; [done|]. by left. Qed.

Lemma contains_nonempty s sub : sub <> "" -> contains s sub -> s <> "".
Proof. intros Hne (pre & post & ->) H. destruct pre; [by destruct sub|done]. Qed.

(** A text without parentheses that occurs in a word occurs in one of its
    tokens. *)
Lemma lex_aux_contains kw w :
  kw <> "" -> Forall (fun c => is_paren c = false) (chars kw) -> contains w kw ->
  contains (lex_aux w).1 kw \/ exists t, t ∈ (lex_aux w).2 /\ contains t kw.
Proof.
  intros Hne Hkw. induction w as [|c w IH].
  - intros H. by apply contains_nonempty in H.
  - intros (pre & post & E). destruct pre as [|c' pre].
    + left. rewrite append_nil_l in E.
      assert (Py.startswith (String c w) kw = true) as Hs
        by (apply startswith_spec; by exists post).
      apply lex_aux_startswith in Hs; [|done].
      apply startswith_spec in Hs as [x ->]. exists "", x. by rewrite append_nil_l.
    + rewrite append_cons in E. injection E as <- E.
      assert (contains w kw) as Hw by by exists pre, post.
      specialize (IH Hw). rewrite lex_aux_cons, lex_push_word.
      destruct (is_paren c); simpl.
      * right. destruct IH as [H|(t & Ht & H)].
        -- exists (lex_aux w).1. split; [|done]. right.
           apply elem_of_push_word_head. by eapply contains_nonempty.
        -- exists t. split; [|done]. right. by apply elem_of_push_word.
      * destruct IH as [H|H]; [left; by apply contains_cons|by right].
Qed.

Lemma lex_contains kw w :
  kw <> "" -> Forall (fun c => is_paren c = false) (chars kw) -> contains w kw ->
  exists t, t ∈ lex w /\ contains t kw.
Proof.
  intros Hne Hkw Hw. rewrite lex_push_word.
  destruct (lex_aux_contains kw w Hne Hkw Hw) as [H|(t & Ht & H)].
  - exists (lex_aux w).1. split; [|done]. apply elem_of_push_word_head.
    by eapply contains_nonempty.
  - exists t. split; [|done]. by apply elem_of_push_word.
Qed.

(** A word whose tokens are bare words and parentheses holds no group
    keyword. *)
Lemma lex_bare_keyword_free w :
  Forall (fun t => bare t = true \/ t = "(" \/ t = ")") (lex w) ->
  ~ contains w "isparentof:" /\ ~ contains w "ischildof:".
Proof.
  intros Hts. split; intros H; apply lex_contains in H as (t & Ht & H);
    try done; try (repeat constructor);
    (eapply Forall_forall in Hts; [|done]);
    destruct Hts as [Hb|[-> | ->]];
    try (apply bare_spec in Hb as (_ & _ & _ & Hp & Hc); done);
    by apply find_negative in H.
Qed.

(** The words that the loop of [tokenizeRPN] sees when the parentheses of
    the text are written next to its words. *)
Lemma split_replaced_lexed ws :
  Forall is_word ws ->
  Forall (fun t => bare t = true \/ t = "(" \/ t = ")") (flat_map lex ws) ->
  Py.split (replaced (spaced ws)) = flat_map lex ws.
Proof.
  intros Hws Hts. unfold replaced.
  rewrite spaced_spaced_by, !replace_char_spaced_by by done.
  change (spaced_by _ ws) with (spaced_by spaced_out ws).
  assert (forall kw, kw = "isparentof:" \/ kw = "ischildof:" ->
          Py.replace (spaced_by spaced_out ws) (kw +:+ " ") kw = spaced_by spaced_out ws) as Hid.
  { intros kw Hkw. rewrite replace_nonempty by (by destruct Hkw as [-> | ->]).
    apply replace_spaced_by. intros w rest Hin Hrest.
    change (" " +:+ spaced_out w +:+ rest) with (String " " (spaced_out w +:+ rest)).
    rewrite replace_go_space by (by destruct Hkw as [-> | ->]).
    rewrite replace_go_pass; [done|].
    assert (~ contains w kw) as Hno.
    { assert (Forall (fun t => bare t = true \/ t = "(" \/ t = ")") (lex w)) as Hw.
      { apply Forall_forall. intros t Ht. eapply Forall_forall in Hts; [done|].
        apply list_elem_of_In, in_flat_map. exists w. by rewrite <- !list_elem_of_In. }
      apply lex_bare_keyword_free in Hw as [? ?]. by destruct Hkw as [-> | ->]. }
    apply no_start_spaced_out; [by destruct Hkw as [-> | ->]| |done..].
    destruct Hkw as [-> | ->]; repeat constructor. }
  pose proof (Hid "isparentof:" (or_introl eq_refl)) as Hp.
  pose proof (Hid "ischildof:" (or_intror eq_refl)) as Hc.
  change ("isparentof:" +:+ " ") with "isparentof: " in Hp.
  change ("ischildof:" +:+ " ") with "ischildof: " in Hc.
  rewrite Hp, Hc. by apply split_spaced_by_spaced_out.
Qed.

(** *** The limit clause in a text and in its tokens *)

Lemma startswith_word v rest body :
  Forall (fun c => Py.isspace c = false) (chars body) -> detached rest ->
  Py.startswith (v +:+ rest) body = true -> Py.startswith v body = true.
Proof.
  intros Hbody Hrest. revert v. induction body as [|a body IH]; intros v.
  - intros _. apply startswith_nil.
  - rewrite chars_cons in Hbody. apply Forall_cons in Hbody as [Ha Hbody].
    destruct v as [|d v].
    + rewrite append_nil_l. destruct Hrest as [->|[t ->]]; [done|].
      rewrite startswith_cons. intros [Hd _]%andb_true_iff.
      apply Ascii.eqb_eq in Hd as ->. done.
    + rewrite append_cons, !startswith_cons. intros [Hd Hv]%andb_true_iff.
      rewrite Hd. by apply IH.
Qed.

(** Two words with one blank between them start in the end of a word only
    where the first of them is the end of that word. *)
Lemma startswith_clause v rest a b :
  Forall (fun c => Py.isspace c = false) (chars a) ->
  Forall (fun c => Py.isspace c = false) (chars v) -> detached rest ->
  Py.startswith (v +:+ rest) (a +:+ " " +:+ b) = true ->
  v = a /\ Py.startswith rest (" " +:+ b) = true.
Proof.
  intros Ha. revert v. induction a as [|x a IH]; intros v Hv Hrest.
  - rewrite append_nil_l. destruct v as [|d v]; [by rewrite append_nil_l|].
    rewrite chars_cons in Hv. apply Forall_cons in Hv as [Hd _].
    rewrite !append_cons, startswith_cons. intros [E _]%andb_true_iff.
    apply Ascii.eqb_eq in E as <-. done.
  - rewrite chars_cons in Ha. apply Forall_cons in Ha as [Hx Ha].
    destruct v as [|d v].
    + rewrite append_nil_l. destruct Hrest as [->|[t ->]]; [done|].
      rewrite append_cons, startswith_cons. intros [E _]%andb_true_iff.
      apply Ascii.eqb_eq in E as ->. done.
    + rewrite chars_cons in Hv. apply Forall_cons in Hv as [Hd Hv].
      rewrite !append_cons, startswith_cons. intros [E H]%andb_true_iff.
      apply Ascii.eqb_eq in E as <-. destruct (IH Ha v Hv Hrest H) as [-> ?]. done.
Qed.

Lemma lex_first w b :
  b <> "" -> Forall (fun c => is_paren c = false) (chars b) ->
  Py.startswith w b = true -> exists x ts, lex w = (b +:+ x) :: ts.
Proof.
  intros Hne Hb Hw. apply lex_aux_startswith in Hw; [|done].
  apply startswith_spec in Hw as [x Hx]. exists x, (lex_aux w).2.
  rewrite lex_push_word, Hx. destruct b; [done|]. by rewrite append_cons.
Qed.

Lemma lex_paren_free a :
  a <> "" -> Forall (fun c => is_paren c = false) (chars a) -> lex_aux a = (a, []).
Proof.
  intros _ Ha. induction a as [|c a IH]; [done|].
  rewrite chars_cons in Ha. apply Forall_cons in Ha as [Hc Ha].
  rewrite lex_aux_cons, Hc. destruct a as [|d a]; [done|]. by rewrite IH.
Qed.

Lemma lex_last u a :
  a <> "" -> Forall (fun c => is_paren c = false) (chars a) ->
  exists ts t, lex (u +:+ a) = ts ++ [t +:+ a].
Proof.
  intros Hne Ha. induction u as [|c u IH].
  - exists [], "". rewrite !append_nil_l, lex_push_word, lex_paren_free by done.
    by destruct a.
  - destruct IH as (ts & t & IH). rewrite append_cons, lex_push_word, lex_aux_cons.
    destruct (is_paren c).
    + exists (String c "" :: ts), t. simpl. by rewrite IH.
    + simpl. rewrite lex_push_word in IH.
      destruct (lex_aux (u +:+ a)) as [seg tl]. simpl in *.
      destruct seg as [|d seg]; simpl in IH.
      * exists (String c "" :: ts), t. by rewrite IH.
      * destruct ts as [|t0 ts]; simpl in IH.
        -- injection IH as E ->. exists [], (String c t). by rewrite append_cons, <- E.
        -- injection IH as <- ->. by exists (String c (String d seg) :: ts), t.
Qed.

Lemma contains_limit_clause ts t x ts' :
  contains (spaced ((ts ++ [t +:+ "with"]) ++ ("limit" +:+ x) :: ts')) "with limit".
Proof.
  rewrite !spaced_app. cbn [spaced].
  exists (spaced ts +:+ " " +:+ t), (x +:+ spaced ts').
  change "with limit" with ("with" +:+ " " +:+ "limit").
  by rewrite !append_assoc, append_nil_l.
Qed.

(** A text in which [with limit] occurs has it among its tokens. *)
Lemma limit_clause_lexed ws :
  Forall is_word ws ->
  ~ contains (spaced (flat_map lex ws)) "with limit" ->
  ~ contains (spaced ws) "with limit".
Proof.
  induction 1 as [|w ws Hw Hws IH]; [done|]. cbn [flat_map spaced]. intros Hno.
  assert (~ contains (spaced ws) "with limit") as Hrest.
  { apply IH. intros H. apply Hno. rewrite spaced_app. by apply contains_app_r. }
  change (" " +:+ w +:+ spaced ws) with (String " " (w +:+ spaced ws)).
  apply find_absent, find_limit_space, find_absent.
  apply no_start_not_contains; [|done].
  apply no_start_suffixes. intros u v -> Hv.
  destruct (Py.startswith _ _) eqn:E; [|done]. exfalso. apply Hno.
  change "with limit" with ("with" +:+ " " +:+ "limit") in E.
  destruct Hw as [_ Hw]. rewrite chars_app in Hw. apply Forall_app in Hw as [_ Hv'].
  apply startswith_clause in E as [-> E];
    [|repeat constructor|done|destruct ws; [by left|right; by eexists]].
  destruct ws as [|w2 ws]; [done|]. cbn [spaced] in E.
  change (" " +:+ w2 +:+ spaced ws) with (String " " (w2 +:+ spaced ws)) in E.
  change (" " +:+ "limit") with (String " " "limit") in E.
  rewrite startswith_cons in E. apply andb_true_iff in E as [_ E].
  apply startswith_word in E;
    [|repeat constructor|destruct ws; [by left|right; by eexists]].
  destruct (lex_last u "with") as (ts & t & ->); [done|repeat constructor|].
  destruct (lex_first w2 "limit") as (x & ts' & Hx); [done|repeat constructor|done|].
  cbn [flat_map]. rewrite Hx. rewrite <- app_comm_cons. apply contains_limit_clause.
Qed.

(** *** Dimensions without groups *)

Lemma group_free_tokens e :
  well_formed e = true -> group_free e = true ->
  Forall (fun t => bare t = true \/ t = "(" \/ t = ")") (tokens e).
Proof.
  induction e as [ws|k body _|e IH|o l IHl r IHr]; intros Hwf Hgf; cbn [tokens].
  - apply well_formed_atom in Hwf as [_ Hws].
    eapply Forall_impl; [done|]. intros w (Hb & _)%plain_spec. by left.
  - done.
  - simpl in Hwf, Hgf. constructor; [by right; left|].
    apply Forall_app. split; [by apply IH|]. constructor; [by right; right|done].
  - simpl in Hwf, Hgf. apply andb_true_iff in Hwf as [[Hl Hr]%andb_true_iff _].
    apply andb_true_iff in Hgf as [Hgl Hgr].
    apply Forall_app. split; [by apply IHl|].
    constructor; [left; by destruct o | by apply IHr].
Qed.

Lemma lexed_defname s : "defname:" ∈ Py.split s -> "defname:" ∈ lexed s.
Proof.
  intros H. apply list_elem_of_In, in_flat_map. exists "defname:".
  split; [by apply list_elem_of_In|]. by left.
Qed.

(** The words of the text that [listFiles] hands to [tokenizeRPN] give the
    dimension in reverse Polish notation. *)
Lemma tokenizeRPN_lexed e ws :
  well_formed e = true -> group_free e = true ->
  Py.find (render e) "with limit" = -1 ->
  Forall is_word ws -> flat_map lex ws = tokens e ->
  tokenizeRPN (spaced ws) = Ok (postfix e).
Proof.
  intros Hwf Hgf Hfind Hws Hlex. rewrite tokenizeRPN_no_limit.
  - rewrite split_replaced_lexed, Hlex; [|done|].
    + by apply tokenize_loop_postfix.
    + rewrite Hlex. by apply group_free_tokens.
  - apply find_absent, limit_clause_lexed; [done|]. rewrite Hlex.
    apply find_absent. rewrite spaced_render by done. by apply find_limit_space.
Qed.

End Lex.

(** C3.  For every well-formed dimension built from atomic dimensions, the
    operators [or] and [minus] (of equal precedence, associating to the
    left) and balanced plain parentheses, without any [defname:],
    [isparentof:], [ischildof:] or [with limit] clause, and for every text
    that writes it (its tokens in their order, the parentheses next to
    words or set off by blanks, any blanks between words), [listFiles] with
    an empty cache returns exactly the set of the reference semantics: an
    atomic dimension denotes the set of the files that the service lists for
    it, [or] denotes union and [minus] denotes difference.  When the service
    raises for an atomic dimension, [listFiles] raises the same
    exception. *)
Theorem listFiles_refines_set_algebra (samweb : SAMWebClient) (rt : SetRuntime)
    (e : expr) (s : string) (fuel : nat) :
  well_formed e = true ->
  clause_free e ->
  lexed s = tokens e ->
  (2 <= fuel)%nat ->
  match denote samweb e with
  | Ok files =>
      exists l w, project_utilities.listFiles samweb rt fuel s empty_world = Some (Ok l, w) /\
                  set_at w l = files
  | Raise err =>
      exists w, project_utilities.listFiles samweb rt fuel s empty_world = Some (Raise err, w)
  end.
Proof.
  intros Hwf (Hgf & Hdef & Hlimit) Hlex Hfuel.
  unfold project_utilities.listFiles. simpl samcache. rewrite lookup_empty.
  rewrite expand_until_fixed_no_defname; [|intros H; apply Hdef; rewrite <- Hlex; by apply lexed_defname|done].
  rewrite (tokenizeRPN_lexed e) by (done || apply split_words).
  assert (limit_ok e = true) as Hlim.
  { apply limit_ok_render; [done|]. by apply find_absent. }
  pose proof (eval_postfix samweb rt e Hwf Hlim [] [] empty_world (cache_ok_empty samweb)) as H.
  rewrite app_nil_r in H. destruct (denote samweb e) as [files|err].
  - destruct H as (l & w' & -> & Hl & _). simpl. eexists _, _. split; [done|].
    by apply set_at_lookup.
  - destruct H as (w' & ->). by eexists.
Qed.

Lemma listFiles_refines_set_algebra_witness :
  exists l w,
    project_utilities.listFiles flat_samweb first_pop 2 "A minus  (B or C )" empty_world
    = Some (Ok l, w) /\
    set_at w l = list_to_set ["f1"; "f2"; "f3"] ∖ (list_to_set ["f3"; "f4"] ∪ list_to_set []).
Proof.
  apply (listFiles_refines_set_algebra flat_samweb first_pop
           (Bin OpMinus (Atom ["A"]) (Paren (Bin OpOr (Atom ["B"]) (Atom ["C"]))))
           "A minus  (B or C )" 2).
  - reflexivity.
  - split; [reflexivity|]. split; [|reflexivity].
    intros H. vm_compute in H.
    repeat (apply elem_of_cons in H as [H|H]; [discriminate|]). by apply elem_of_nil in H.
  - reflexivity.
  - lia.
Defined.

(** ** listFiles with a limit clause *)

Section Truncate.
Import project_utilities.
Variable rt : SetRuntime.

Lemma truncate_spec fuel n (s : gset string) :
  fuel = size s -> 0 <= n ->
  exists s', truncate rt fuel n s = (Ok (), s') /\ s' ⊆ s /\
             Z.of_nat (size s') = Z.min (Z.of_nat (size s)) n.
Proof.
  revert s. induction fuel as [|fuel IH]; intros s Hfuel Hn.
  - exists s. cbn [truncate].
    destruct (Z.leb_spec (Z.of_nat (size s)) n); [|lia].
    split; [done|]. split; [done|]. lia.
  - cbn [truncate]. destruct (Z.leb_spec (Z.of_nat (size s)) n).
    + exists s. split; [done|]. split; [done|]. lia.
    + assert (s <> ∅) as Hne.
      { intros ->. rewrite size_empty in Hfuel. lia. }
      pose proof (set_pop_elem rt s Hne) as Hin.
      assert (size (s ∖ {[set_pop rt s]}) = fuel) as Hsize.
      { pose proof (size_difference s {[set_pop rt s]}) as Hd.
        rewrite size_singleton in Hd. rewrite Hd; [lia|].
        by apply singleton_subseteq_l. }
      destruct (IH (s ∖ {[set_pop rt s]}) (eq_sym Hsize) Hn) as (s' & -> & Hsub & Hs').
      exists s'. split; [done|]. split; [|lia].
      etrans; [exact Hsub|]. by apply subseteq_difference_l.
Qed.

End Truncate.

Section LimitClause.
Import project_utilities.
Variable samweb : SAMWebClient.
Implicit Types (s t w D N : string) (ws : list string) (ps : list piece) (b : bool).

(** *** The clause passes through the expansion *)

Lemma isdigit_word N : Py.isdigit N = true -> is_word N /\ N <> "defname:".
Proof.
  intros H. pose proof H as [Hne Hall]%isdigit_digits. split; [split; [done|]|].
  - eapply Forall_impl; [exact Hall|]. intros c. apply digit_not_space.
  - intros ->. done.
Qed.

Lemma split_limit_clause D N :
  Py.isdigit N = true ->
  Py.split (D +:+ limit_clause N) = Py.split D ++ ["with"; "limit"; N].
Proof.
  intros [HN _]%isdigit_word. unfold limit_clause.
  change (" with limit " +:+ N) with (String " " ("with" +:+ String " " ("limit" +:+ String " " N))).
  rewrite !split_app_space by done. by rewrite (split_word N).
Qed.

Lemma pieces_app ws ws' b :
  dangling ws b = false ->
  pieces samweb (ws ++ ws') b =
  ps ← pieces samweb ws b; ps' ← pieces samweb ws' false; Ok (ps ++ ps').
Proof.
  revert b. induction ws as [|x ws IH]; intros b Hd.
  - simpl in *. subst b. by destruct (pieces samweb ws' false).
  - cbn [app pieces dangling] in *. destruct b.
    + destruct (sam_descDefinitionDict samweb x); [|done]. simpl.
      rewrite IH by done. destruct (pieces samweb ws false); [|done]. simpl.
      by destruct (pieces samweb ws' false).
    + destruct (String.eqb x "defname:"); [by apply IH|].
      rewrite IH by done. destruct (pieces samweb ws false); [|done]. simpl.
      by destruct (pieces samweb ws' false).
Qed.

Lemma pieces_text_app ps ps' : pieces_text (ps ++ ps') = pieces_text ps +:+ pieces_text ps'.
Proof. induction ps as [|p ps IH]; [done|]. simpl. by rewrite IH, append_assoc. Qed.

Lemma expandDefnames_limit_clause D N :
  Py.isdigit N = true -> dangling (Py.split D) false = false ->
  expandDefnames samweb (D +:+ limit_clause N) =
  newdim ← expandDefnames samweb D; Ok (newdim +:+ limit_clause N).
Proof.
  intros HN Hd. rewrite !expandDefnames_pieces, split_limit_clause, pieces_app by done.
  destruct (pieces samweb (Py.split D) false) as [ps|]; [|done]. simpl.
  destruct (isdigit_word N HN) as [_ Hne].
  rewrite (proj2 (String.eqb_neq N "defname:") Hne). simpl.
  rewrite pieces_text_app. simpl. by rewrite append_nil_r.
Qed.

(** What a round produces never ends with a ['defname:'] without a name. *)
Lemma dangling_snoc ws y rest b :
  y <> "defname:" -> dangling (ws ++ y :: rest) b = dangling rest false.
Proof.
  intros Hy. revert b. induction ws as [|x ws IH]; intros b; simpl.
  - destruct b; [done|]. by rewrite (proj2 (String.eqb_neq y "defname:") Hy).
  - destruct b; [apply IH|]. destruct (String.eqb x "defname:"); apply IH.
Qed.

Lemma dangling_piece_words p rest :
  match p with PWord x => x <> "defname:" | _ => True end ->
  dangling (piece_words p ++ rest) false = dangling rest false.
Proof.
  destruct p as [x|x|d].
  - simpl. intros Hx. by rewrite (proj2 (String.eqb_neq x "defname:") Hx).
  - done.
  - intros _. cbn [piece_words].
    change (("(" :: Py.split d ++ [")"]) ++ rest)
      with ("(" :: ((Py.split d ++ [")"]) ++ rest)).
    rewrite <- app_assoc.
    change ("(" :: Py.split d ++ [")"] ++ rest) with (("(" :: Py.split d) ++ ")" :: rest).
    by rewrite dangling_snoc.
Qed.

Lemma expandDefnames_not_dangling D newdim :
  expandDefnames samweb D = Ok newdim -> dangling (Py.split newdim) false = false.
Proof.
  intros H. destruct (expandDefnames_words _ _ _ H) as (ps & Hps & _ & ->).
  pose proof (pieces_from _ _ _ _ Hps) as Hfrom. clear Hps H.
  induction Hfrom as [|p ps Hp _ IH]; [done|]. cbn [flat_map].
  rewrite dangling_piece_words; [done|]. by destruct p.
Qed.

Lemma append_cancel_r s t u : s +:+ u = t +:+ u -> s = t.
Proof.
  revert t. induction s as [|c s IH]; intros [|d t]; try done.
  - rewrite append_nil_l. intros H. apply (f_equal String.length) in H.
    rewrite length_append in H. simpl in H. lia.
  - rewrite append_nil_l. intros H. apply (f_equal String.length) in H.
    rewrite length_append in H. simpl in H. lia.
  - rewrite !append_cons. intros [= -> H]. by rewrite (IH t H).
Qed.

Lemma expand_until_fixed_limit_clause fuel D N :
  Py.isdigit N = true -> dangling (Py.split D) false = false ->
  expand_until_fixed samweb fuel (D +:+ limit_clause N) =
  match expand_until_fixed samweb fuel D with
  | Some (Ok Dn) => Some (Ok (Dn +:+ limit_clause N))
  | r => r
  end.
Proof.
  intros HN. revert D. induction fuel as [|fuel IH]; intros D Hd; [done|].
  cbn [expand_until_fixed]. rewrite expandDefnames_limit_clause by done.
  destruct (expandDefnames samweb D) as [newdim|e] eqn:E; [|done]. simpl.
  destruct (String.eqb_spec newdim D) as [->|Hne].
  - by rewrite String.eqb_refl.
  - destruct (String.eqb_spec (newdim +:+ limit_clause N) (D +:+ limit_clause N))
      as [Heq%append_cancel_r|_]; [done|].
    apply IH. by eapply expandDefnames_not_dangling.
Qed.

End LimitClause.

Section LimitTokens.
Import project_utilities.
Implicit Types (s t v x rest body more old new D N : string) (c : ascii).

(** *** Finding the clause *)

Lemma startswith_within v rest body more :
  Forall (fun c => Py.isspace c = false) (chars body) -> detached rest ->
  Py.startswith (v +:+ rest) (body +:+ more) = true ->
  exists t, v = body +:+ t /\ Py.startswith (t +:+ rest) more = true.
Proof.
  intros Hbody Hrest. revert v. induction body as [|a body IH]; intros v.
  - intros H. by exists v.
  - rewrite chars_cons in Hbody. apply Forall_cons in Hbody as [Ha Hbody].
    destruct v as [|d v].
    + rewrite append_nil_l. destruct Hrest as [->|[t ->]]; [done|].
      rewrite append_cons, startswith_cons. intros [Hd _]%andb_true_iff.
      apply Ascii.eqb_eq in Hd as ->. done.
    + rewrite !append_cons, !startswith_cons. intros [Hd Hv]%andb_true_iff.
      apply Ascii.eqb_eq in Hd as ->. destruct (IH Hbody v Hv) as (t & -> & Ht).
      by exists t.
Qed.

Lemma limit_clause_detached N : detached (limit_clause N).
Proof. right. by eexists. Qed.

Lemma no_start_limit D N :
  ~ contains D "with limit" -> no_start "with limit" (limit_clause N) D.
Proof.
  induction D as [|c D IH]; [done|]. intros Hno. split.
  - destruct (Py.startswith (String c D +:+ limit_clause N) "with limit") eqn:E; [|done].
    exfalso. apply Hno.
    apply (startswith_within _ _ "with" " limit") in E as (t & Hv & Ht);
      [|repeat constructor|apply limit_clause_detached].
    destruct t as [|c' t]; [done|].
    rewrite append_cons in Ht. change " limit" with (String " " "limit") in Ht.
    rewrite startswith_cons in Ht. apply andb_true_iff in Ht as [Hc Ht].
    apply Ascii.eqb_eq in Hc as <-.
    apply (startswith_within _ _ "limit" "") in Ht as (t' & -> & _);
      [|repeat constructor|apply limit_clause_detached].
    rewrite Hv. exists "", t'. reflexivity.
  - apply IH. intros H. by apply Hno, contains_cons.
Qed.

Lemma find_limit_clause D N :
  ~ contains D "with limit" ->
  Py.find (D +:+ limit_clause N) "with limit" = Z.of_nat (String.length D + 1).
Proof.
  intros Hno. unfold Py.find. rewrite index_of_pass by by apply no_start_limit.
  reflexivity.
Qed.

(** *** A blank at the end of the head *)

Lemma startswith_length s old :
  Py.startswith s old = true -> (String.length old <= String.length s)%nat.
Proof. intros [t ->]%startswith_spec. rewrite length_append. lia. Qed.

Lemma replace_go_short old new v :
  (String.length v < String.length old)%nat -> Py.replace_go old new O v = v.
Proof.
  induction v as [|c v IH]; [done|]. intros Hlen. cbn [Py.replace_go].
  destruct (Py.startswith (String c v) old) eqn:E.
  - apply startswith_length in E. lia.
  - rewrite IH; [done|]. simpl in Hlen. lia.
Qed.

Lemma replace_go_trailing body k x :
  body <> "" -> Forall (fun c => Py.isspace c = false) (chars body) ->
  Py.replace_go (body +:+ " ") body k (x +:+ " ") = Py.replace_go (body +:+ " ") body k x +:+ " "
  \/ Py.replace_go (body +:+ " ") body k (x +:+ " ") = Py.replace_go (body +:+ " ") body k x.
Proof.
  intros Hne Hbody. revert k. induction x as [|c x IH]; intros k.
  - rewrite append_nil_l. destruct k as [|k]; [|by right].
    left. cbn [Py.replace_go]. destruct body as [|a body]; [done|].
    rewrite chars_cons in Hbody. apply Forall_cons in Hbody as [Ha _].
    rewrite append_cons, startswith_cons.
    destruct (Ascii.eqb_spec a " ") as [->|_]; [done|]. done.
  - rewrite append_cons. destruct k as [|k]; [|apply IH]. cbn [Py.replace_go].
    destruct (Py.startswith (String c x) (body +:+ " ")) eqn:E2.
    + assert (Py.startswith (String c (x +:+ " ")) (body +:+ " ") = true) as ->.
      { apply startswith_spec in E2 as [t E2]. rewrite <- append_cons, E2.
        rewrite append_assoc. apply startswith_app. }
      destruct (IH (String.length (body +:+ " ") - 1)%nat) as [-> | ->];
        [left; by rewrite append_assoc | by right].
    + destruct (Py.startswith (String c (x +:+ " ")) (body +:+ " ")) eqn:E1.
      * right. rewrite <- append_cons in E1.
        apply (startswith_within _ " " body " ") in E1 as (t & Hv & Ht);
          [|done|right; by eexists].
        destruct t as [|c' t].
        -- rewrite append_nil_r in Hv.
           assert (String.length (x +:+ " ") = String.length (body +:+ " ") - 1)%nat as Hlen.
           { apply (f_equal String.length) in Hv. rewrite !length_append.
             simpl in *. lia. }
           assert (Py.replace_go (body +:+ " ") body
                     (String.length (body +:+ " ") - 1) (x +:+ " ") = "") as ->.
           { rewrite <- Hlen. rewrite <- (append_nil_r (x +:+ " ")) at 2.
             apply replace_go_skip. }
           rewrite append_nil_r.
           assert (Py.replace_go (body +:+ " ") body O (String c x)
                   = String c (Py.replace_go (body +:+ " ") body O x)) as <-
             by (cbn [Py.replace_go]; by rewrite E2).
           rewrite replace_go_short; [done|].
           rewrite Hv, length_append. simpl. lia.
        -- rewrite append_cons in Ht. change " " with (String " " "") in Ht.
           rewrite startswith_cons in Ht. apply andb_true_iff in Ht as [Hc _].
           apply Ascii.eqb_eq in Hc as <-. rewrite Hv in E2.
           change (body +:+ String " " t) with (body +:+ (" " +:+ t)) in E2.
           by rewrite <- append_assoc, startswith_app in E2.
      * destruct (IH O) as [-> | ->]; [by left | by right].
Qed.

Lemma split_trailing_space s : Py.split (s +:+ " ") = Py.split s.
Proof.
  change (s +:+ " ") with (s +:+ String " " ""). rewrite split_app_space by done.
  apply app_nil_r.
Qed.

Lemma split_replaced_trailing x : Py.split (replaced (x +:+ " ")) = Py.split (replaced x).
Proof.
  unfold replaced. rewrite !replace_char_app.
  change (Py.replace " " "(" " ( ") with " ". change (Py.replace " " ")" " ) ") with " ".
  set (y := Py.replace (Py.replace x "(" " ( ") ")" " ) ").
  rewrite !replace_nonempty by done.
  assert (forall body z, body = "isparentof:" \/ body = "ischildof:" ->
            Py.replace_go (body +:+ " ") body O (z +:+ " ")
            = Py.replace_go (body +:+ " ") body O z +:+ " "
            \/ Py.replace_go (body +:+ " ") body O (z +:+ " ")
               = Py.replace_go (body +:+ " ") body O z) as Htrail.
  { intros body z [->| ->]; apply replace_go_trailing; first [done | repeat constructor]. }
  pose proof (Htrail "isparentof:" y (or_introl eq_refl)) as Hp.
  change ("isparentof:" +:+ " ") with "isparentof: " in Hp.
  destruct Hp as [-> | ->]; [|done].
  pose proof (Htrail "ischildof:"
                (Py.replace_go "isparentof: " "isparentof:" O y) (or_intror eq_refl)) as Hc.
  change ("ischildof:" +:+ " ") with "ischildof: " in Hc.
  destruct Hc as [-> | ->]; by rewrite ?split_trailing_space.
Qed.

Lemma tokenizeRPN_limit_clause D N :
  ~ contains D "with limit" ->
  tokenizeRPN (D +:+ limit_clause N) =
  items ← tokenizeRPN D; Ok (items ++ ["with limit " +:+ N]).
Proof.
  intros Hno. rewrite (tokenizeRPN_no_limit D) by by apply find_absent.
  unfold tokenizeRPN. rewrite find_limit_clause by done.
  destruct (Z.leb_spec 0 (Z.of_nat (String.length D + 1))) as [_|]; [|lia].
  assert (D +:+ limit_clause N = (D +:+ " ") +:+ ("with limit " +:+ N)) as ->
    by (unfold limit_clause; by rewrite append_assoc).
  rewrite Nat2Z.id.
  replace (String.length D + 1)%nat with (String.length (D +:+ " ") + 0)%nat
    by (rewrite length_append; simpl; lia).
  rewrite slice_to_app, slice_from_app. cbn [Py.slice_to Py.slice_from].
  rewrite append_nil_r. fold (replaced (D +:+ " ")). rewrite split_replaced_trailing.
  destruct (tokenize_loop _ _) as [st|e]; [|done]. reflexivity.
Qed.

End LimitTokens.

Section LimitEval.
Import project_utilities.
Variable samweb : SAMWebClient.
Variable rt : SetRuntime.

Lemma eval_rpn_app items items' (stack : list nat) w :
  eval_rpn samweb rt (items ++ items') stack w =
  match eval_rpn samweb rt items stack w with
  | (Ok stack', w') => eval_rpn samweb rt items' stack' w'
  | (Raise e, w') => (Raise e, w')
  end.
Proof.
  revert stack w. induction items as [|item items IH]; intros stack w.
  - done.
  - cbn [app eval_rpn]. destruct (eval_item samweb rt item stack w) as [[stack'|e] w'];
      [apply IH | done].
Qed.

Lemma set_at_store w l (s : gset string) :
  set_at (store l s w) l = if decide (l < length (heap w))%nat then s else ∅.
Proof.
  unfold set_at, store. simpl. case_decide as Hl.
  - by rewrite list_lookup_insert_eq.
  - rewrite list_insert_ge by lia. by rewrite lookup_ge_None_2 by lia.
Qed.

Lemma eval_item_limit N n (top : nat) (stack : list nat) w :
  Py.int N = Ok n -> 0 <= n ->
  exists s', eval_item samweb rt ("with limit " +:+ N) (top :: stack) w
             = (Ok (top :: stack), store top s' w) /\
             s' ⊆ set_at w top /\
             Z.of_nat (size s') = Z.min n (Z.of_nat (size (set_at w top))).
Proof.
  intros Hint Hn. unfold eval_item.
  change (String.eqb ("with limit " +:+ N) "or") with false.
  change (String.eqb ("with limit " +:+ N) "minus") with false.
  change (Py.startswith ("with limit " +:+ N) "with limit") with true.
  change (Py.slice_from 10 ("with limit " +:+ N)) with (String " " N).
  change (Py.int (String " " N)) with (Py.int N). rewrite Hint.
  destruct (truncate_spec rt (size (set_at w top)) n (set_at w top) eq_refl Hn)
    as (s' & -> & Hsub & Hsize).
  exists s'. split; [done|]. split; [done|]. lia.
Qed.

End LimitEval.

(** C6, against the claim as stated: the words [with] and [limit] of [D]
    are two blanks apart, so ['with limit'] does not occur in [D] and [D]
    alone denotes three files, and yet [listFiles] raises on
    ['D with limit 5']. *)
Lemma listFiles_with_limit_after_two_blanks :
  Py.find "A with  limit 3" "with limit" = -1 /\
  (exists l w,
     project_utilities.listFiles flat_samweb first_pop 3 "A with  limit 3" empty_world
     = Some (Ok l, w) /\ size (set_at w l) = 3%nat) /\
  (exists w,
     project_utilities.listFiles flat_samweb first_pop 3
       ("A with  limit 3" +:+ " with limit " +:+ "5") empty_world
     = Some (Raise ValueError, w)).
Proof.
  split; [reflexivity|]. split.
  - eexists _, _. split; [vm_compute; reflexivity|]. vm_compute. reflexivity.
  - eexists. vm_compute. reflexivity.
Qed.

(** C6, amended.  Let [N] be a string of at most 4300 digits and let [D]
    be a dimension that does not end with a ['defname:'] without a name,
    whose expansion [Dn] (its definitions expanded and its words one blank
    apart) does not contain ['with limit'], and for which [listFiles] with
    an empty cache returns a set.  Then [int] converts [N] to a number [n]
    that is not negative, and [listFiles] with an empty cache returns for
    ['D with limit N'] a subset of that set, and the number of its files is
    the smaller of [n] and the number of files of that set. *)
Theorem listFiles_with_limit (samweb : SAMWebClient) (rt : SetRuntime)
    (D N Dn : string) (fuel : nat) (l : nat) (w : world) :
  Py.isdigit N = true ->
  (String.length N <= Py.max_str_digits)%nat ->
  dangling (Py.split D) false = false ->
  project_utilities.expand_until_fixed samweb fuel D = Some (Ok Dn) ->
  Py.find Dn "with limit" = -1 ->
  project_utilities.listFiles samweb rt fuel D empty_world = Some (Ok l, w) ->
  exists n l' w',
    Py.int N = Ok n /\ 0 <= n /\
    project_utilities.listFiles samweb rt fuel (D +:+ " with limit " +:+ N) empty_world
    = Some (Ok l', w') /\
    set_at w' l' ⊆ set_at w l /\
    Z.of_nat (size (set_at w' l')) = Z.min n (Z.of_nat (size (set_at w l))).
Proof.
  intros HN Hlen Hd Hexp Hfind Hrun.
  assert (exists n, Py.int N = Ok n /\ 0 <= n) as (n & Hint & Hn).
  { destruct (int_literal_value "" N "") as (n & Hn & Hpos);
      [constructor | by apply isdigit_digits | constructor | done |].
    rewrite append_nil_l, append_nil_r in Hn. by exists n. }
  exists n.
  fold (limit_clause N). unfold project_utilities.listFiles in *.
  simpl samcache in *. rewrite lookup_empty in *.
  rewrite expand_until_fixed_limit_clause, Hexp by done. rewrite Hexp in Hrun.
  rewrite tokenizeRPN_limit_clause by by apply find_absent.
  destruct (project_utilities.tokenizeRPN Dn) as [items|e]; [|done]. simpl.
  rewrite eval_rpn_app.
  destruct (project_utilities.eval_rpn samweb rt items [] empty_world)
    as [[[|top stack]|e] w1]; try done.
  injection Hrun as <- <-. cbn [project_utilities.eval_rpn].
  destruct (eval_item_limit samweb rt N n top stack w1 Hint Hn) as (s' & -> & Hsub & Hsize).
  eexists _, _. split; [done|]. split; [done|]. split; [done|].
  change (set_at (cache_put ?k ?l ?w) ?x) with (set_at w x).
  rewrite set_at_store. case_decide as Hl; [done|].
  assert (set_at w1 top = ∅) as Hempty.
  { unfold set_at. by rewrite lookup_ge_None_2 by lia. }
  rewrite Hempty in *. split; [done|].
  rewrite size_empty in *. lia.
Qed.

Lemma listFiles_with_limit_witness :
  exists l' w',
    project_utilities.listFiles flat_samweb first_pop 3
      ("A or B" +:+ " with limit " +:+ "2") empty_world = Some (Ok l', w') /\
    Z.of_nat (size (set_at w' l')) = 2.
Proof.
  edestruct (listFiles_with_limit flat_samweb first_pop "A or B" "2" " A or B" 3)
    as (n & l' & w' & Hint & _ & Hrun & _ & Hsize);
    [reflexivity | vm_compute; lia | reflexivity | reflexivity | reflexivity
    | vm_compute; reflexivity |].
  injection Hint as <-.
  exists l', w'. split; [exact Hrun|]. rewrite Hsize. vm_compute. reflexivity.
Defined.

(** ** The cache of listFiles *)

(** C1, at a failing input.  The service lists three files for ["A"].  After
    [listFiles("A with limit 1")] the call [listFiles("A")] returns one
    file, whatever element [set.pop] removes, although the same call with an
    empty cache returns the three files: the limit clause pops from the set
    object that the cache holds for ["A"]. *)
Theorem listFiles_limit_truncates_cached_set (rt : SetRuntime) :
  exists w1 w3,
    project_utilities.listFiles flat_samweb rt 3 "A with limit 1" empty_world
    = Some (Ok 0%nat, w1) /\
    project_utilities.listFiles flat_samweb rt 3 "A" w1 = Some (Ok 0%nat, w1) /\
    size (set_at w1 0) = 1%nat /\
    project_utilities.listFiles flat_samweb rt 3 "A" empty_world = Some (Ok 0%nat, w3) /\
    set_at w3 0 = {[ "f1"; "f2"; "f3" ]}.
Proof.
  set (files := list_to_set ["f1"; "f2"; "f3"] : gset string).
  set (w0 := cache_put "A" 0%nat (alloc files empty_world).2).
  destruct (eval_item_limit flat_samweb rt "1" 1 0%nat [] w0 eq_refl ltac:(lia))
    as (s' & Hitem & _ & Hsize).
  change ("with limit " +:+ "1") with "with limit 1" in Hitem.
  exists (cache_put " A with limit 1" 0%nat (store 0%nat s' w0)), (cache_put " A" 0%nat w0).
  split; [|split; [|split; [|split]]].
  - unfold project_utilities.listFiles.
    change (samcache empty_world !! "A with limit 1") with (@None nat).
    change (project_utilities.expand_until_fixed flat_samweb 3 "A with limit 1")
      with (Some (Ok " A with limit 1")).
    cbv beta iota.
    change (project_utilities.tokenizeRPN " A with limit 1") with (Ok ["A"; "with limit 1"]).
    cbv beta iota. cbn [project_utilities.eval_rpn].
    change (project_utilities.eval_item flat_samweb rt "A" [] empty_world)
      with (Ok [0%nat], w0).
    cbv beta iota. rewrite Hitem. reflexivity.
  - unfold project_utilities.listFiles. reflexivity.
  - change (set_at (cache_put " A with limit 1" 0 (store 0 s' w0)) 0)
      with (set_at (store 0 s' w0) 0).
    rewrite set_at_store.
    destruct (decide _) as [_|Hlen]; [|exfalso; apply Hlen; simpl; lia].
    change (set_at w0 0) with files in Hsize.
    change (size files) with 3%nat in Hsize.
    apply Nat2Z.inj. rewrite Hsize. reflexivity.
  - vm_compute. reflexivity.
  - vm_compute. reflexivity.
Qed.

(** * Further properties *)

(** ** parse_mode *)

Section ParseMode.
Import larbatch_utilities_ext.

Lemma let_eq {A B} (v : A) (f : A -> B) (r : B) :
  (forall x, x = v -> f x = r) -> (let x := v in f x) = r.
Proof. intros H. by apply H. Qed.

Ltac let_step :=
  lazymatch goal with
  | |- (let x := ?v in @?f x) = ?r => apply (let_eq v f r)
  end.

Lemma parse_mode_ten c0 c1 c2 c3 c4 c5 c6 c7 c8 c9 rest :
  parse_mode
    (String c0 (String c1 (String c2 (String c3 (String c4 (String c5 (String c6
       (String c7 (String c8 (String c9 rest))))))))))
  = Ok (mode_value c0 c1 c2 c3 c4 c5 c6 c7 c8 c9).
Proof.
  cbv beta iota delta [parse_mode PyStr.getitem String.get mbind res_mbind res_bind].
  let_step; intros m0 ->.
  let_step; intros m1 H1.
  assert (m1 = type_bits c0) as -> by (subst m1; unfold type_bits; repeat case_match; lia).
  clear H1.
  let_step; intros m2 H2.
  assert (m2 = type_bits c0 + bit_if c1 "r" stat.S_IRUSR) as ->
    by (subst m2; unfold bit_if; repeat case_match; lia).
  clear H2.
  let_step; intros m3 H3.
  assert (m3 = type_bits c0 + bit_if c1 "r" stat.S_IRUSR + bit_if c2 "w" stat.S_IWUSR) as ->
    by (subst m3; unfold bit_if; repeat case_match; lia).
  clear H3.
  let_step; intros m4 H4.
  assert (m4 = type_bits c0
               + triad_bits c1 c2 c3 "s" "S" stat.S_IRUSR stat.S_IWUSR stat.S_IXUSR stat.S_ISUID)
    as -> by (subst m4; unfold triad_bits, exec_bits; repeat case_match; lia).
  clear H4. set (u := triad_bits c1 c2 c3 _ _ _ _ _ _).
  let_step; intros m5 H5.
  assert (m5 = type_bits c0 + u + bit_if c4 "r" stat.S_IRGRP) as ->
    by (subst m5; unfold bit_if; repeat case_match; lia).
  clear H5.
  let_step; intros m6 H6.
  assert (m6 = type_bits c0 + u + bit_if c4 "r" stat.S_IRGRP + bit_if c5 "w" stat.S_IWGRP) as ->
    by (subst m6; unfold bit_if; repeat case_match; lia).
  clear H6.
  let_step; intros m7 H7.
  assert (m7 = type_bits c0 + u
               + triad_bits c4 c5 c6 "s" "S" stat.S_IRGRP stat.S_IWGRP stat.S_IXGRP stat.S_ISGID)
    as -> by (subst m7; unfold triad_bits, exec_bits; repeat case_match; lia).
  clear H7. set (g := triad_bits c4 c5 c6 _ _ _ _ _ _).
  let_step; intros m8 H8.
  assert (m8 = type_bits c0 + u + g + bit_if c7 "r" stat.S_IROTH) as ->
    by (subst m8; unfold bit_if; repeat case_match; lia).
  clear H8.
  let_step; intros m9 H9.
  assert (m9 = type_bits c0 + u + g + bit_if c7 "r" stat.S_IROTH + bit_if c8 "w" stat.S_IWOTH)
    as -> by (subst m9; unfold bit_if; repeat case_match; lia).
  clear H9.
  let_step; intros m10 H10.
  assert (m10 = type_bits c0 + u + g
                + triad_bits c7 c8 c9 "t" "T" stat.S_IROTH stat.S_IWOTH stat.S_IXOTH stat.S_ISVTX)
    as -> by (subst m10; unfold triad_bits, exec_bits; repeat case_match; lia).
  reflexivity.
Qed.

Lemma at_least_ten s :
  (10 <= String.length s)%nat ->
  exists c0 c1 c2 c3 c4 c5 c6 c7 c8 c9 rest,
    s = String c0 (String c1 (String c2 (String c3 (String c4 (String c5 (String c6
          (String c7 (String c8 (String c9 rest))))))))).
Proof.
  intros H.
  do 10 (destruct s as [|? s]; [simpl in H; lia|]; simpl in H; apply le_S_n in H).
  by repeat eexists.
Qed.

Lemma parse_mode_short s :
  (String.length s < 10)%nat -> parse_mode s = Raise IndexError.
Proof.
  intros H.
  do 10 (destruct s as [|? s]; [reflexivity|]; simpl in H; apply Nat.succ_lt_mono in H).
  lia.
Qed.

(** *** The bits of the sum *)

Lemma within_testbit mask x n :
  within mask x -> Z.testbit mask n = false -> Z.testbit x n = false.
Proof.
  unfold within. intros <- H. by rewrite Z.land_spec, H, andb_false_r.
Qed.

Lemma within_disjoint m1 m2 x y :
  within m1 x -> within m2 y -> Z.land m1 m2 = 0 -> Z.land x y = 0.
Proof.
  unfold within. intros Hx Hy H0. apply Z.bits_inj'. intros n _.
  rewrite Z.bits_0, <- Hx, <- Hy, !Z.land_spec.
  apply (f_equal (fun z => Z.testbit z n)) in H0. rewrite Z.land_spec, Z.bits_0 in H0.
  destruct (Z.testbit m1 n), (Z.testbit m2 n); try done; by rewrite ?andb_false_r.
Qed.

Lemma within_add m1 m2 x y :
  within m1 x -> within m2 y -> Z.land m1 m2 = 0 ->
  x + y = Z.lor x y /\ within (Z.lor m1 m2) (x + y).
Proof.
  intros Hx Hy H0. pose proof (within_disjoint _ _ _ _ Hx Hy H0) as Hxy.
  pose proof (Z.add_lor_land x y) as Hadd. rewrite Hxy, Z.add_0_r in Hadd.
  split; [done|]. rewrite <- Hadd. unfold within in *. apply Z.bits_inj'. intros n _.
  rewrite !Z.land_spec, !Z.lor_spec, <- Hx, <- Hy, !Z.land_spec.
  by destruct (Z.testbit x n), (Z.testbit y n), (Z.testbit m1 n), (Z.testbit m2 n).
Qed.

Lemma type_bits_within c : within type_mask (type_bits c).
Proof. unfold type_bits. by repeat case_match. Qed.

Lemma triad_bits_within cr cw cx lower upper r w x sp mask :
  within mask r -> within mask w -> within mask x -> within mask sp ->
  within mask (r + w) -> within mask (r + x) -> within mask (w + x) ->
  within mask (r + w + x) -> within mask (sp + x) -> within mask (r + (sp + x)) ->
  within mask (w + (sp + x)) -> within mask (r + w + (sp + x)) ->
  within mask (r + sp) -> within mask (w + sp) -> within mask (r + w + sp) ->
  within mask (triad_bits cr cw cx lower upper r w x sp).
Proof.
  intros. unfold triad_bits, bit_if, exec_bits.
  repeat case_match; rewrite ?Z.add_0_l, ?Z.add_0_r; done.
Qed.

Lemma user_within c1 c2 c3 :
  within user_mask
    (triad_bits c1 c2 c3 "s" "S" stat.S_IRUSR stat.S_IWUSR stat.S_IXUSR stat.S_ISUID).
Proof. by apply triad_bits_within. Qed.

Lemma group_within c4 c5 c6 :
  within group_mask
    (triad_bits c4 c5 c6 "s" "S" stat.S_IRGRP stat.S_IWGRP stat.S_IXGRP stat.S_ISGID).
Proof. by apply triad_bits_within. Qed.

Lemma other_within c7 c8 c9 :
  within other_mask
    (triad_bits c7 c8 c9 "t" "T" stat.S_IROTH stat.S_IWOTH stat.S_IXOTH stat.S_ISVTX).
Proof. by apply triad_bits_within. Qed.

(** A file type and three triads do not carry into each other. *)
Lemma mode_sum t u g o :
  within type_mask t -> within user_mask u -> within group_mask g -> within other_mask o ->
  let m := t + u + g + o in
  0 <= m < 65536 /\
  Z.land m type_mask = t /\
  (forall n, Z.testbit user_mask n = true -> Z.testbit m n = Z.testbit u n) /\
  (forall n, Z.testbit group_mask n = true -> Z.testbit m n = Z.testbit g n) /\
  (forall n, Z.testbit other_mask n = true -> Z.testbit m n = Z.testbit o n).
Proof.
  intros Ht Hu Hg Ho m.
  destruct (within_add _ _ g o Hg Ho eq_refl) as [Hgo Wgo].
  destruct (within_add _ _ u (g + o) Hu Wgo eq_refl) as [Hugo Wugo].
  destruct (within_add _ _ t (u + (g + o)) Ht Wugo eq_refl) as [Hm Wm].
  assert (m = t + (u + (g + o))) as Em by (unfold m; lia).
  assert (forall n, Z.testbit m n
            = Z.testbit t n || Z.testbit u n || Z.testbit g n || Z.testbit o n) as Hbits.
  { intros n. rewrite Em, Hm, Hugo, Hgo, !Z.lor_spec. by rewrite !orb_assoc. }
  split; [|split; [|split; [|split]]].
  - rewrite Em. unfold within in Wm. rewrite <- Wm.
    change (Z.lor type_mask (Z.lor user_mask (Z.lor group_mask other_mask)))
      with (Z.ones 16).
    rewrite Z.land_ones by done. apply Z.mod_pos_bound. done.
  - apply Z.bits_inj'. intros n _. rewrite Z.land_spec, Hbits.
    unfold within in Ht, Hu, Hg, Ho. rewrite <- Ht, <- Hu, <- Hg, <- Ho, !Z.land_spec.
    pose proof (f_equal (fun z => Z.testbit z n)
                  (eq_refl : Z.land user_mask type_mask = 0)) as H1.
    pose proof (f_equal (fun z => Z.testbit z n)
                  (eq_refl : Z.land group_mask type_mask = 0)) as H2.
    pose proof (f_equal (fun z => Z.testbit z n)
                  (eq_refl : Z.land other_mask type_mask = 0)) as H3.
    cbv beta in H1, H2, H3. rewrite Z.land_spec, Z.bits_0 in H1, H2, H3.
    destruct (Z.testbit type_mask n), (Z.testbit user_mask n), (Z.testbit group_mask n),
      (Z.testbit other_mask n); try done;
      by destruct (Z.testbit t n), (Z.testbit u n), (Z.testbit g n), (Z.testbit o n).
  - intros n Hn. rewrite Hbits.
    pose proof (f_equal (fun z => Z.testbit z n)
                  (eq_refl : Z.land user_mask type_mask = 0)) as H1.
    pose proof (f_equal (fun z => Z.testbit z n)
                  (eq_refl : Z.land user_mask group_mask = 0)) as H2.
    pose proof (f_equal (fun z => Z.testbit z n)
                  (eq_refl : Z.land user_mask other_mask = 0)) as H3.
    cbv beta in H1, H2, H3. rewrite Z.land_spec, Z.bits_0, Hn in H1, H2, H3.
    rewrite (within_testbit _ t n Ht H1), (within_testbit _ g n Hg H2),
      (within_testbit _ o n Ho H3). by rewrite !orb_false_r.
  - intros n Hn. rewrite Hbits.
    pose proof (f_equal (fun z => Z.testbit z n)
                  (eq_refl : Z.land group_mask type_mask = 0)) as H1.
    pose proof (f_equal (fun z => Z.testbit z n)
                  (eq_refl : Z.land group_mask user_mask = 0)) as H2.
    pose proof (f_equal (fun z => Z.testbit z n)
                  (eq_refl : Z.land group_mask other_mask = 0)) as H3.
    cbv beta in H1, H2, H3. rewrite Z.land_spec, Z.bits_0, Hn in H1, H2, H3.
    rewrite (within_testbit _ t n Ht H1), (within_testbit _ u n Hu H2),
      (within_testbit _ o n Ho H3). by rewrite !orb_false_r.
  - intros n Hn. rewrite Hbits.
    pose proof (f_equal (fun z => Z.testbit z n)
                  (eq_refl : Z.land other_mask type_mask = 0)) as H1.
    pose proof (f_equal (fun z => Z.testbit z n)
                  (eq_refl : Z.land other_mask user_mask = 0)) as H2.
    pose proof (f_equal (fun z => Z.testbit z n)
                  (eq_refl : Z.land other_mask group_mask = 0)) as H3.
    cbv beta in H1, H2, H3. rewrite Z.land_spec, Z.bits_0, Hn in H1, H2, H3.
    by rewrite (within_testbit _ t n Ht H1), (within_testbit _ u n Hu H2),
      (within_testbit _ g n Hg H3).
Qed.

(** The bits of one triad, read off its three characters. *)
Ltac triad_cases cr cw cx lower upper :=
  unfold triad_bits, bit_if, exec_bits;
  destruct (Ascii.eqb_spec cr "r"), (Ascii.eqb_spec cw "w");
  (destruct (Ascii.eqb_spec cx "x") as [->|?];
   [|destruct (Ascii.eqb_spec cx lower) as [->|?];
     [|destruct (Ascii.eqb_spec cx upper) as [->|?]]]);
  repeat split; reflexivity.

Lemma user_triad c1 c2 c3 :
  let u := triad_bits c1 c2 c3 "s" "S" stat.S_IRUSR stat.S_IWUSR stat.S_IXUSR stat.S_ISUID in
  Z.testbit u 8 = Ascii.eqb c1 "r" /\
  Z.testbit u 7 = Ascii.eqb c2 "w" /\
  Z.testbit u 6 = (Ascii.eqb c3 "x" || Ascii.eqb c3 "s") /\
  Z.testbit u 11 = (Ascii.eqb c3 "s" || Ascii.eqb c3 "S").
Proof. triad_cases c1 c2 c3 "s"%char "S"%char. Qed.

Lemma group_triad c4 c5 c6 :
  let g := triad_bits c4 c5 c6 "s" "S" stat.S_IRGRP stat.S_IWGRP stat.S_IXGRP stat.S_ISGID in
  Z.testbit g 5 = Ascii.eqb c4 "r" /\
  Z.testbit g 4 = Ascii.eqb c5 "w" /\
  Z.testbit g 3 = (Ascii.eqb c6 "x" || Ascii.eqb c6 "s") /\
  Z.testbit g 10 = (Ascii.eqb c6 "s" || Ascii.eqb c6 "S").
Proof. triad_cases c4 c5 c6 "s"%char "S"%char. Qed.

Lemma other_triad c7 c8 c9 :
  let o := triad_bits c7 c8 c9 "t" "T" stat.S_IROTH stat.S_IWOTH stat.S_IXOTH stat.S_ISVTX in
  Z.testbit o 2 = Ascii.eqb c7 "r" /\
  Z.testbit o 1 = Ascii.eqb c8 "w" /\
  Z.testbit o 0 = (Ascii.eqb c9 "x" || Ascii.eqb c9 "t") /\
  Z.testbit o 9 = (Ascii.eqb c9 "t" || Ascii.eqb c9 "T").
Proof. triad_cases c7 c8 c9 "t"%char "T"%char. Qed.

(** *** Rendering and parsing *)

Lemma land_pow2 x k : 0 <= k -> Z.land x (2 ^ k) = if Z.testbit x k then 2 ^ k else 0.
Proof.
  intros Hk. apply Z.bits_inj'. intros n Hn. rewrite Z.land_spec, Z.pow2_bits_eqb by done.
  destruct (Z.eqb_spec k n) as [->|Hne].
  - rewrite andb_true_r. destruct (Z.testbit x n) eqn:E.
    + by rewrite Z.pow2_bits_true.
    + by rewrite Z.bits_0.
  - rewrite andb_false_r. destruct (Z.testbit x k).
    + by rewrite Z.pow2_bits_false.
    + by rewrite Z.bits_0.
Qed.

(** A number within a mask of four bits is made of its four bits. *)
Lemma within_four_bits a b c d x :
  0 <= a -> 0 <= b -> 0 <= c -> 0 <= d ->
  within (Z.lor (2 ^ a) (Z.lor (2 ^ b) (Z.lor (2 ^ c) (2 ^ d)))) x ->
  x = Z.lor (if Z.testbit x a then 2 ^ a else 0)
        (Z.lor (if Z.testbit x b then 2 ^ b else 0)
           (Z.lor (if Z.testbit x c then 2 ^ c else 0)
              (if Z.testbit x d then 2 ^ d else 0))).
Proof.
  intros Ha Hb Hc Hd Hx. unfold within in Hx.
  rewrite !Z.land_lor_distr_r, !land_pow2 in Hx by done. by rewrite Hx at 1.
Qed.

Lemma land_within x mask : within mask (Z.land x mask).
Proof. unfold within. by rewrite <- Z.land_assoc, Z.land_diag. Qed.

Lemma permission_bits p :
  0 <= p < 4096 ->
  p = Z.land p user_mask + Z.land p group_mask + Z.land p other_mask.
Proof.
  intros Hp.
  destruct (within_add _ _ _ _ (land_within p group_mask) (land_within p other_mask) eq_refl)
    as [Hgo Wgo].
  destruct (within_add _ _ _ _ (land_within p user_mask) Wgo eq_refl) as [Hugo _].
  rewrite <- Z.add_assoc, Hugo, Hgo, <- !Z.land_lor_distr_r.
  change (Z.lor user_mask (Z.lor group_mask other_mask)) with (Z.ones 12).
  rewrite Z.land_ones by done. symmetry. apply Z.mod_small. lia.
Qed.

Lemma type_char_bits t : t ∈ file_types -> type_bits (type_char t) = t /\ within type_mask t.
Proof.
  unfold file_types. intros H.
  repeat (apply elem_of_cons in H as [->|H]; [by split|]). by apply elem_of_nil in H.
Qed.

Lemma user_chars u :
  within user_mask u ->
  triad_bits (perm_char u 8 "r") (perm_char u 7 "w") (exec_char u 6 11 "s" "S") "s" "S"
    stat.S_IRUSR stat.S_IWUSR stat.S_IXUSR stat.S_ISUID = u.
Proof.
  intros Hu. rewrite (within_four_bits 8 7 6 11 u) at 4 by done.
  unfold perm_char, exec_char.
  by destruct (Z.testbit u 8), (Z.testbit u 7), (Z.testbit u 6), (Z.testbit u 11).
Qed.

Lemma group_chars g :
  within group_mask g ->
  triad_bits (perm_char g 5 "r") (perm_char g 4 "w") (exec_char g 3 10 "s" "S") "s" "S"
    stat.S_IRGRP stat.S_IWGRP stat.S_IXGRP stat.S_ISGID = g.
Proof.
  intros Hg. rewrite (within_four_bits 5 4 3 10 g) at 4 by done.
  unfold perm_char, exec_char.
  by destruct (Z.testbit g 5), (Z.testbit g 4), (Z.testbit g 3), (Z.testbit g 10).
Qed.

Lemma other_chars o :
  within other_mask o ->
  triad_bits (perm_char o 2 "r") (perm_char o 1 "w") (exec_char o 0 9 "t" "T") "t" "T"
    stat.S_IROTH stat.S_IWOTH stat.S_IXOTH stat.S_ISVTX = o.
Proof.
  intros Ho. rewrite (within_four_bits 2 1 0 9 o) at 4 by done.
  unfold perm_char, exec_char.
  by destruct (Z.testbit o 2), (Z.testbit o 1), (Z.testbit o 0), (Z.testbit o 9).
Qed.

Lemma mode_string_value t u g o :
  t ∈ file_types -> within user_mask u -> within group_mask g -> within other_mask o ->
  parse_mode (mode_string (t + u + g + o)) = Ok (t + u + g + o).
Proof.
  intros Ht Hu Hg Ho. destruct (type_char_bits t Ht) as [Htc Wt].
  destruct (mode_sum t u g o Wt Hu Hg Ho) as (_ & Htype & Bu & Bg & Bo).
  set (m := t + u + g + o) in *. unfold mode_string. rewrite parse_mode_ten. f_equal.
  unfold mode_value.
  assert (type_char m = type_char t) as ->.
  { unfold type_char. fold type_mask. rewrite Htype. unfold within in Wt. by rewrite Wt. }
  assert (forall c, perm_char m 8 c = perm_char u 8 c) as ->
    by (intros; unfold perm_char; by rewrite Bu).
  assert (forall c, perm_char m 7 c = perm_char u 7 c) as ->
    by (intros; unfold perm_char; by rewrite Bu).
  assert (forall a b, exec_char m 6 11 a b = exec_char u 6 11 a b) as ->
    by (intros; unfold exec_char; by rewrite !Bu).
  assert (forall c, perm_char m 5 c = perm_char g 5 c) as ->
    by (intros; unfold perm_char; by rewrite Bg).
  assert (forall c, perm_char m 4 c = perm_char g 4 c) as ->
    by (intros; unfold perm_char; by rewrite Bg).
  assert (forall a b, exec_char m 3 10 a b = exec_char g 3 10 a b) as ->
    by (intros; unfold exec_char; by rewrite !Bg).
  assert (forall c, perm_char m 2 c = perm_char o 2 c) as ->
    by (intros; unfold perm_char; by rewrite Bo).
  assert (forall c, perm_char m 1 c = perm_char o 1 c) as ->
    by (intros; unfold perm_char; by rewrite Bo).
  assert (forall a b, exec_char m 0 9 a b = exec_char o 0 9 a b) as ->
    by (intros; unfold exec_char; by rewrite !Bo).
  by rewrite Htc, user_chars, group_chars, other_chars.
Qed.

End ParseMode.

(** X1.  [parse_mode] raises [IndexError] exactly on a string of fewer
    than ten characters; on a longer string it returns, and what it returns
    depends on the first ten characters only. *)
Theorem parse_mode_reads_ten_characters (s : string) :
  larbatch_utilities_ext.parse_mode s =
  (if (String.length s <? 10)%nat then Raise IndexError
   else larbatch_utilities_ext.parse_mode (Py.slice_to 10 s)) /\
  is_ok (larbatch_utilities_ext.parse_mode s) = negb (String.length s <? 10)%nat.
Proof.
  destruct (Nat.ltb_spec (String.length s) 10) as [Hlt|Hge].
  - by rewrite parse_mode_short.
  - destruct (at_least_ten s Hge)
      as (c0 & c1 & c2 & c3 & c4 & c5 & c6 & c7 & c8 & c9 & rest & ->).
    change (Py.slice_to 10 _)
      with (String c0 (String c1 (String c2 (String c3 (String c4 (String c5 (String c6
             (String c7 (String c8 (String c9 "")))))))))).
    by rewrite !parse_mode_ten.
Qed.

(** X2.  The number that [parse_mode] returns is a bit mask of sixteen
    bits: its file type field is the type that the first character names
    (none for an unknown character), and each of the twelve permission bits
    is set exactly when the character of its place says so; [s] and [S]
    set the set-id bit and [t] and [T] the sticky bit, the lower-case
    letters with the execute bit. *)
Theorem parse_mode_bits (s : string) (m : Z) :
  larbatch_utilities_ext.parse_mode s = Ok m ->
  0 <= m < 65536 /\
  Z.land m 61440 = file_type s /\
  Z.testbit m 8 = char_is s 1 "r" /\
  Z.testbit m 7 = char_is s 2 "w" /\
  Z.testbit m 6 = (char_is s 3 "x" || char_is s 3 "s") /\
  Z.testbit m 11 = (char_is s 3 "s" || char_is s 3 "S") /\
  Z.testbit m 5 = char_is s 4 "r" /\
  Z.testbit m 4 = char_is s 5 "w" /\
  Z.testbit m 3 = (char_is s 6 "x" || char_is s 6 "s") /\
  Z.testbit m 10 = (char_is s 6 "s" || char_is s 6 "S") /\
  Z.testbit m 2 = char_is s 7 "r" /\
  Z.testbit m 1 = char_is s 8 "w" /\
  Z.testbit m 0 = (char_is s 9 "x" || char_is s 9 "t") /\
  Z.testbit m 9 = (char_is s 9 "t" || char_is s 9 "T").
Proof.
  intros H. destruct (Nat.ltb_spec (String.length s) 10) as [Hlt|Hge].
  { by rewrite parse_mode_short in H. }
  destruct (at_least_ten s Hge)
    as (c0 & c1 & c2 & c3 & c4 & c5 & c6 & c7 & c8 & c9 & rest & ->).
  rewrite parse_mode_ten in H. injection H as <-.
  unfold file_type, char_is. cbn [String.get].
  pose proof (user_triad c1 c2 c3) as (U8 & U7 & U6 & U11).
  pose proof (group_triad c4 c5 c6) as (G5 & G4 & G3 & G10).
  pose proof (other_triad c7 c8 c9) as (O2 & O1 & O0 & O9).
  destruct (mode_sum _ _ _ _ (type_bits_within c0) (user_within c1 c2 c3)
              (group_within c4 c5 c6) (other_within c7 c8 c9))
    as (Hrange & Htype & Hu & Hg & Ho).
  fold (mode_value c0 c1 c2 c3 c4 c5 c6 c7 c8 c9) in Hrange, Htype, Hu, Hg, Ho.
  split; [done|]. split; [exact Htype|].
  rewrite (Hu 8), (Hu 7), (Hu 6), (Hu 11), (Hg 5), (Hg 4), (Hg 3), (Hg 10),
    (Ho 2), (Ho 1), (Ho 0), (Ho 9) by reflexivity.
  tauto.
Qed.

Lemma parse_mode_bits_witness :
  Z.testbit 18412 10 = true /\ Z.testbit 18412 3 = true /\ Z.testbit 18412 9 = true
  /\ Z.testbit 18412 0 = false.
Proof.
  pose proof (parse_mode_bits "drwxr-sr-T" 18412 eq_refl) as H.
  repeat split; apply H.
Defined.

(** X3.  [parse_mode] reads back what [ls -l] shows: for every mode made
    of one of the seven file types and twelve permission bits, parsing the
    ten characters of the mode gives the mode. *)
Theorem parse_mode_of_mode_string (m : Z) :
  known_mode m -> larbatch_utilities_ext.parse_mode (mode_string m) = Ok m.
Proof.
  intros (t & p & Ht & Hp & ->). rewrite (permission_bits p Hp) at 1 2.
  rewrite !Z.add_assoc. apply mode_string_value; [done|apply land_within..].
Qed.

Lemma parse_mode_of_mode_string_witness :
  larbatch_utilities_ext.parse_mode "-rwsr-xr-x" = Ok 35309.
Proof.
  apply (parse_mode_of_mode_string 35309).
  exists stat.S_IFREG, 2541. split; [|split; [lia|reflexivity]].
  unfold file_types. repeat first [apply list_elem_of_here | apply list_elem_of_further].
Defined.

(** ** dollar_escape *)

Section DollarEscape.
Import project_utilities_ext.
Implicit Types (s t pre post result : string) (c : ascii) (prev : option ascii).

Lemma last_char_snoc result c :
  PyStr.last_char (result +:+ String c "") = Some c.
Proof.
  induction result as [|d result IH]; [done|].
  rewrite append_cons. simpl. rewrite IH.
  by destruct (result +:+ String c "") eqn:E; [destruct result|].
Qed.

Lemma dollar_escape_loop_spec s result :
  dollar_escape_loop s result = result +:+ escape_after (PyStr.last_char result) s.
Proof.
  revert result. induction s as [|c s IH]; intros result.
  - by rewrite append_nil_r.
  - cbn [dollar_escape_loop escape_after]. rewrite IH, last_char_snoc.
    destruct (_ && _).
    + rewrite !append_assoc. by rewrite !append_cons, !append_nil_l.
    + rewrite !append_assoc. by rewrite !append_cons, !append_nil_l.
Qed.

Lemma dollar_escape_spec s : dollar_escape s = escape_after None s.
Proof. unfold dollar_escape. by rewrite dollar_escape_loop_spec. Qed.

Lemma escape_after_escaped prev s : escaped_after prev (escape_after prev s).
Proof.
  revert prev. induction s as [|c s IH]; intros prev; [done|].
  cbn [escape_after]. destruct (Ascii.eqb_spec c "$") as [->|Hc]; simpl andb.
  - destruct prev as [d|].
    + destruct (Ascii.eqb_spec d PyStr.backslash) as [->|Hd]; simpl.
      * split; [done|apply IH].
      * split; [done|]. split; [done|apply IH].
    + simpl. split; [done|]. split; [done|apply IH].
  - simpl. split; [done|apply IH].
Qed.

Lemma escape_after_fixed prev s : escaped_after prev s -> escape_after prev s = s.
Proof.
  revert prev. induction s as [|c s IH]; intros prev; [done|].
  intros [Hc Hs]. cbn [escape_after]. rewrite (IH _ Hs).
  destruct (Ascii.eqb_spec c "$") as [->|]; [|done].
  rewrite (Hc eq_refl). reflexivity.
Qed.

Lemma escape_after_keeps prev s :
  without_backslashes (escape_after prev s) = without_backslashes s.
Proof.
  revert prev. induction s as [|c s IH]; intros prev; [done|].
  cbn [escape_after]. destruct (_ && _); cbn [without_backslashes];
    rewrite ?Ascii.eqb_refl; cbn [without_backslashes]; by rewrite IH.
Qed.

(** The two ways of saying that the dollar signs are escaped. *)
Lemma escaped_after_occurrence prev s pre post :
  escaped_after prev s -> s = pre +:+ String "$" post ->
  (pre = "" /\ prev = Some PyStr.backslash) \/
  exists pre', pre = pre' +:+ String PyStr.backslash "".
Proof.
  revert prev pre. induction s as [|c s IH]; intros prev pre.
  - intros _ H. by destruct pre.
  - intros [Hc Hs] H. destruct pre as [|d pre].
    + rewrite append_nil_l in H. injection H as -> _. left. split; [done|by apply Hc].
    + rewrite append_cons in H. injection H as <- H. right.
      destruct (IH _ _ Hs H) as [[-> Hd]|[pre' ->]].
      * injection Hd as ->. by exists "".
      * by exists (String c pre').
Qed.

Lemma occurrence_escaped_after prev s :
  (forall pre post, s = pre +:+ String "$" post ->
     (pre = "" /\ prev = Some PyStr.backslash) \/
     exists pre', pre = pre' +:+ String PyStr.backslash "") ->
  escaped_after prev s.
Proof.
  revert prev. induction s as [|c s IH]; intros prev H; [done|]. split.
  - intros ->. destruct (H "" s) as [[_ ?]|[pre' Hp]]; [by rewrite append_nil_l|done|].
    by destruct pre'.
  - apply IH. intros pre post ->.
    destruct (H (String c pre) post) as [[? _]|[pre' Hp]]; [by rewrite append_cons|done|].
    destruct pre' as [|d pre'].
    + rewrite append_nil_l in Hp. injection Hp as -> ->. by left.
    + rewrite append_cons in Hp. injection Hp as _ ->. right. by exists pre'.
Qed.

Lemma escaped_escaped_after s : escaped s <-> escaped_after None s.
Proof.
  split.
  - intros H. apply occurrence_escaped_after. intros pre post E. right. by eapply H.
  - intros H pre post E.
    by destruct (escaped_after_occurrence _ _ _ _ H E) as [[_ ?]|?].
Qed.

End DollarEscape.

(** X4.  In the result of [dollar_escape] every dollar sign has a
    backslash just before it, and nothing but backslashes has been put in:
    without its backslashes the result is the argument without its
    backslashes. *)
Theorem dollar_escape_escapes (s : string) :
  escaped (project_utilities_ext.dollar_escape s) /\
  without_backslashes (project_utilities_ext.dollar_escape s) = without_backslashes s.
Proof.
  rewrite dollar_escape_spec. split.
  - apply escaped_escaped_after, escape_after_escaped.
  - apply escape_after_keeps.
Qed.

(** X5.  [dollar_escape] leaves a string as it is exactly when every
    dollar sign of the string already has a backslash before it; escaping
    twice is therefore escaping once. *)
Theorem dollar_escape_idempotent (s : string) :
  (project_utilities_ext.dollar_escape s = s <-> escaped s) /\
  project_utilities_ext.dollar_escape (project_utilities_ext.dollar_escape s)
  = project_utilities_ext.dollar_escape s.
Proof.
  assert (forall t, project_utilities_ext.dollar_escape t = t <-> escaped t) as Hfix.
  { intros t. rewrite dollar_escape_spec, escaped_escaped_after. split.
    - intros <-. apply escape_after_escaped.
    - apply escape_after_fixed. }
  split; [apply Hfix|]. apply Hfix. rewrite dollar_escape_spec.
  apply escaped_escaped_after, escape_after_escaped.
Qed.

(** ** Experiment, user and token *)

Section Users.
Import larbatch_utilities larbatch_utilities_ext.
Variable sys : System.

Ltac proc_unfold :=
  unfold mbind, proc_mbind, mret, proc_ret, proc_get, proc_modify, proc_raise.

Lemma slice_to_nonempty n s : (0 < n)%nat -> s <> "" -> Py.slice_to n s <> "".
Proof. intros Hn Hs. destruct n; [lia|]. by destruct s. Qed.

Lemma find_positive_nonempty s sub : 0 < Py.find s sub -> s <> "".
Proof.
  intros H ->. unfold Py.find, Py.index_of in H.
  destruct (Py.startswith "" sub); simpl in H; lia.
Qed.

Lemma get_experiment_result st :
  match (get_experiment sys st).1 with
  | Ok e => e <> ""
  | Raise x => x = RuntimeError "Unable to determine experiment."
  end.
Proof.
  unfold get_experiment. proc_unfold. simpl.
  set (exp := match environ st !! "EXPERIMENT" with
              | Some v => v
              | None => match environ st !! "SAM_EXPERIMENT" with
                        | Some v => v
                        | None => ""
                        end
              end).
  destruct exp as [|c exp']; [|done].
  destruct (Z.ltb_spec 0 (Py.find (sys_gethostname sys) "gpvm")) as [Hn|Hn]; [|done].
  pose proof (find_positive_nonempty _ _ Hn) as Hne.
  pose proof (slice_to_nonempty (Z.to_nat (Py.find (sys_gethostname sys) "gpvm")) _
                ltac:(lia) Hne) as Hs.
  by destruct (Py.slice_to _ _).
Qed.

Lemma get_experiment_pure st : get_experiment sys st = ((get_experiment sys st).1, st).
Proof.
  pose proof (get_experiment_state sys st). by destruct (get_experiment sys st); simpl in *; subst.
Qed.

Lemma get_user_login st :
  environ st !! "ROLE" = None ->
  (get_user sys st).1 =
  match (get_experiment sys st).1 with
  | Ok _ => Ok (sys_getuser sys)
  | Raise e => Raise e
  end.
Proof.
  intros Hrole. unfold get_user, get_role, get_prouser. proc_unfold. simpl. rewrite Hrole.
  rewrite (get_experiment_pure st).
  destruct (get_experiment sys st).1 as [e|x] eqn:E; simpl; [|done].
  destruct (String.eqb_spec (sys_getuser sys) (e +:+ "pro")) as [Hu|Hu]; simpl.
  - rewrite (get_experiment_pure st), E. simpl. by rewrite Hu.
  - done.
Qed.

Lemma test_token_value st b st' :
  test_token sys st = (Ok b, st') -> token_ok st' = b.
Proof.
  unfold test_token. proc_unfold. simpl.
  destruct (token_ok st) eqn:Htok; simpl.
  - intros [= <- <-]. done.
  - destruct (sys_check_call sys ["httokendecode"] (environ st)); simpl.
    + by intros [= <- <-].
    + destruct (get_token sys _) as [[ok|e] st2]; simpl; [|done]. by intros [= <- <-].
Qed.

Lemma test_token_again (sys' : System) st :
  token_ok st = true -> test_token sys' st = (Ok true, st).
Proof.
  intros H. unfold test_token. proc_unfold. simpl.
  destruct st as [env tok]. simpl in *. by subst tok.
Qed.


End Users.

(** X6.  [get_experiment] never returns the empty string: it returns a
    non-empty name or raises the [RuntimeError] that no experiment could
    be determined, and it leaves the process as it found it. *)
Theorem get_experiment_nonempty (sys : System) (st : proc_state) :
  (larbatch_utilities.get_experiment sys st).2 = st /\
  match (larbatch_utilities.get_experiment sys st).1 with
  | Ok e => e <> ""
  | Raise x => x = RuntimeError "Unable to determine experiment."
  end.
Proof. split; [apply get_experiment_state | apply get_experiment_result]. Qed.

(** X7.  When [EXPERIMENT] is in the environment, [SAM_EXPERIMENT] is
    never looked at, also when [EXPERIMENT] is empty. *)
Theorem get_experiment_ignores_SAM_EXPERIMENT (sys : System) (st : proc_state)
    (v : string) :
  is_Some (environ st !! "EXPERIMENT") ->
  (larbatch_utilities.get_experiment sys (setenv "SAM_EXPERIMENT" v st)).1
  = (larbatch_utilities.get_experiment sys st).1.
Proof.
  intros [e He]. unfold larbatch_utilities.get_experiment, setenv.
  unfold mbind, proc_mbind, mret, proc_ret, proc_get, proc_raise.
  cbn [environ set_environ fst].
  rewrite !lookup_insert_ne by discriminate. rewrite He.
  by destruct (match e with EmptyString => _ | _ => _ end).
Qed.

Lemma get_experiment_ignores_SAM_EXPERIMENT_witness :
  (larbatch_utilities.get_experiment quiet_system
     (setenv "SAM_EXPERIMENT" "sbnd"
        {| environ := {[ "EXPERIMENT" := "" ]}; token_ok := false |})).1
  = Ok "uboone".
Proof.
  rewrite (get_experiment_ignores_SAM_EXPERIMENT quiet_system
             {| environ := {[ "EXPERIMENT" := "" ]}; token_ok := false |} "sbnd").
  - reflexivity.
  - simpl. rewrite lookup_singleton. by eexists.
Defined.

(** X8.  When [ROLE] is not in the environment, [get_user] returns the
    login name, whatever the experiment is, or raises what
    [get_experiment] raises. *)
Theorem get_user_is_login_without_ROLE (sys : System) (st : proc_state) :
  environ st !! "ROLE" = None ->
  (larbatch_utilities_ext.get_user sys st).1 =
  match (larbatch_utilities.get_experiment sys st).1 with
  | Ok _ => Ok (sys_getuser sys)
  | Raise e => Raise e
  end.
Proof. apply get_user_login. Qed.

Lemma get_user_is_login_without_ROLE_witness :
  (larbatch_utilities_ext.get_user quiet_system sample_process).1 = Ok "uboonepro".
Proof.
  rewrite (get_user_is_login_without_ROLE quiet_system sample_process).
  - reflexivity.
  - reflexivity.
Defined.

(** X9.  [test_token] returns the flag [token_ok] as it leaves it and does
    not touch the environment; once it has returned [True], every later
    call returns [True] without running anything, whatever the state of
    the system has become. *)
Theorem test_token_is_cached (sys sys' : System) (st st' : proc_state) (b : bool) :
  larbatch_utilities.test_token sys st = (Ok b, st') ->
  token_ok st' = b /\ environ st' = environ st /\
  (b = true -> larbatch_utilities.test_token sys' st' = (Ok true, st')).
Proof.
  intros H. pose proof (test_token_value sys st b st' H) as Hb.
  pose proof (keeps_environ_test_token sys st) as Henv. rewrite H in Henv.
  split; [done|]. split; [done|]. intros ->. by apply test_token_again.
Qed.

Lemma test_token_is_cached_witness :
  exists st',
    larbatch_utilities.test_token quiet_system x509_process = (Ok true, st') /\
    larbatch_utilities.test_token broken_system st' = (Ok true, st').
Proof.
  eexists. split; [reflexivity|].
  eapply (test_token_is_cached quiet_system broken_system x509_process); reflexivity.
Defined.



(** X11.  The child of a wrapper never sees [X509_USER_CERT] or
    [X509_USER_KEY]: a call does the same on two systems that run
    children alike in every environment without the two variables. *)
Theorem ifdh_child_runs_without_x509 (sys : System)
    (popen : list string -> gmap string string -> option (Z * bytes * bytes))
    (c : larbatch_utilities.ifdh_call) (st : proc_state) :
  (forall cmd env, without_x509 env -> popen cmd env = sys_popen sys cmd env) ->
  larbatch_utilities.run_call (with_popen sys popen) c st
  = larbatch_utilities.run_call sys c st.
Proof.
  intros Hagree. pose proof (run_call_cases sys c st) as H.
  pose proof (run_call_cases (with_popen sys popen) c st) as H'.
  change (larbatch_utilities.test_token (with_popen sys popen) st)
    with (larbatch_utilities.test_token sys st) in H'.
  destruct (larbatch_utilities.test_token sys st) as [[b|e] st1]; [|congruence].
  cbv zeta in H, H'. simpl in H'.
  rewrite Hagree in H'
    by (split; apply scrub_lookup; unfold larbatch_utilities.x509_vars; set_solver).
  destruct (sys_popen sys _ _) as [[[rc out] err]|]; [|congruence].
  destruct (sys_decode sys out), (sys_decode sys err); try congruence.
  destruct (negb (rc =? 0) && negb (larbatch_utilities.is_chmod c)); congruence.
Qed.

Lemma ifdh_child_runs_without_x509_witness :
  larbatch_utilities.run_call
    (with_popen failing_system
       (fun cmd env => if bool_decide (is_Some (env !! "X509_USER_CERT"))
                       then Some (0, [], []) else Some (1, [], [])))
    (larbatch_utilities.Call_rm "/pnfs/uboone/a.root") sample_process
  = larbatch_utilities.run_call failing_system
      (larbatch_utilities.Call_rm "/pnfs/uboone/a.root") sample_process.
Proof.
  apply ifdh_child_runs_without_x509. intros cmd env [Hc _].
  rewrite Hc. reflexivity.
Defined.

(** ** Running processes *)

Section Running.
Import larbatch_utilities_ext.
Implicit Types (s t w a b : string) (ws : list string) (f : cmd_flags).

(** *** Suffixes *)

Lemma slice_split n s : Py.slice_to n s +:+ Py.slice_from n s = s.
Proof.
  revert s. induction n as [|n IH]; intros [|c s]; try done.
  simpl. rewrite append_cons. by rewrite IH.
Qed.

Lemma endswith_spec s suffix : PyStr.endswith s suffix = true <-> has_suffix s suffix.
Proof.
  unfold PyStr.endswith, has_suffix. rewrite andb_true_iff, Nat.leb_le, String.eqb_eq. split.
  - intros [_ H]. set (n := (String.length s - String.length suffix)%nat) in *.
    exists (Py.slice_to n s). clearbody n. subst suffix. by rewrite slice_split.
  - intros [pre ->]. rewrite length_append. split; [lia|].
    replace (String.length pre + String.length suffix - String.length suffix)%nat
      with (String.length pre + 0)%nat by lia.
    by rewrite slice_from_app.
Qed.

(** *** The flags, word by word *)

Lemma last_is_nil s : last_is [] s = false.
Proof. done. Qed.

Lemma last_is_cons x y ws s : last_is (x :: y :: ws) s = last_is (y :: ws) s.
Proof.
  destruct (exists_last (l := y :: ws)) as (l & z & E); [done|].
  rewrite E, app_comm_cons. by rewrite !last_is_snoc.
Qed.

Lemma adjacentb_snoc a b ws w :
  adjacentb a b (ws ++ [w]) = adjacentb a b ws || (last_is ws a && String.eqb w b).
Proof.
  induction ws as [|x ws IH]; [done|]. destruct ws as [|y ws].
  - simpl. unfold last_is. simpl. by rewrite !orb_false_r.
  - change ((x :: y :: ws) ++ [w]) with (x :: y :: (ws ++ [w])).
    change (adjacentb a b (x :: y :: (ws ++ [w])))
      with (String.eqb x a && String.eqb y b || adjacentb a b ((y :: ws) ++ [w])).
    rewrite IH, last_is_cons.
    change (adjacentb a b (x :: y :: ws))
      with (String.eqb x a && String.eqb y b || adjacentb a b (y :: ws)).
    by rewrite orb_assoc.
Qed.

Lemma adjacentb_spec a b ws : adjacentb a b ws = true <-> adjacent a b ws.
Proof.
  unfold adjacent. induction ws as [|x ws IH].
  - split; [done|]. intros (pre & post & H). by destruct pre.
  - destruct ws as [|y ws].
    + split; [done|]. intros (pre & post & H). by destruct pre as [|? [|? ?]].
    + change (adjacentb a b (x :: y :: ws))
        with (String.eqb x a && String.eqb y b || adjacentb a b (y :: ws)).
      rewrite orb_true_iff, andb_true_iff, !String.eqb_eq, IH. split.
      * intros [[-> ->]|(pre & post & ->)]; [by exists [], ws|by exists (x :: pre), post].
      * intros (pre & post & H). destruct pre as [|z pre].
        -- injection H as -> -> _. by left.
        -- injection H as -> H. right. by exists pre, post.
Qed.

Lemma existsb_snoc {A} (p : A -> bool) l x : existsb p (l ++ [x]) = existsb p l || p x.
Proof. rewrite existsb_app. simpl. by rewrite orb_false_r. Qed.

Lemma cmd_flags_eq f g :
  project f = project g -> xml f = xml g -> stage f = stage g ->
  xmlmatch f = xmlmatch g -> stagematch f = stagematch g ->
  submit f = submit g -> makeup f = makeup g -> f = g.
Proof. destruct f, g. simpl. by intros -> -> -> -> -> -> ->. Qed.

Ltac flags_cbn :=
  cbn [project xml stage xmlmatch stagematch submit makeup set_project set_xml
       set_stage set_xmlmatch set_stagematch set_submit set_makeup andb orb negb Z.b2z].

Ltac check_word_cases :=
  unfold check_word;
  destruct (PyStr.endswith _ "project.py"); flags_cbn;
  repeat match goal with
         | |- context [Z.eqb ?a ?b] => destruct (Z.eqb a b)
         end;
  repeat match goal with
         | |- context [String.eqb ?a ?b] => destruct (String.eqb a b); flags_cbn
         end;
  reflexivity.

Lemma check_word_project x s f w :
  project (check_word x s f w) = if PyStr.endswith w "project.py" then 1 else project f.
Proof. destruct f. check_word_cases. Qed.

Lemma check_word_xml x s f w :
  xml (check_word x s f w) = Z.b2z (String.eqb w "--xml").
Proof. destruct f. check_word_cases. Qed.

Lemma check_word_stage x s f w :
  stage (check_word x s f w) = Z.b2z (negb (String.eqb w "--xml") && String.eqb w "--stage").
Proof. destruct f. check_word_cases. Qed.

Lemma check_word_xmlmatch x s f w :
  xmlmatch (check_word x s f w)
  = if (xml f =? 1) && String.eqb w x then 1 else xmlmatch f.
Proof. destruct f. check_word_cases. Qed.

Lemma check_word_stagematch x s f w :
  stagematch (check_word x s f w)
  = if (xml f =? 1) && String.eqb w x then stagematch f
    else if (stage f =? 1) && String.eqb w s then 1 else stagematch f.
Proof. destruct f. check_word_cases. Qed.

Lemma check_word_submit x s f w :
  submit (check_word x s f w)
  = if String.eqb w "--xml" || String.eqb w "--stage" then submit f
    else if String.eqb w "--submit" then 1 else submit f.
Proof. destruct f. check_word_cases. Qed.

Lemma check_word_makeup x s f w :
  makeup (check_word x s f w)
  = if String.eqb w "--xml" || String.eqb w "--stage" || String.eqb w "--submit"
    then makeup f
    else if String.eqb w "--makeup" then 1 else makeup f.
Proof. destruct f. check_word_cases. Qed.

Lemma last_is_exclusive ws a b : a <> b -> last_is ws a && last_is ws b = false.
Proof.
  intros Hab. unfold last_is. destruct (list_pop ws) as [[? x]|]; [|done].
  destruct (String.eqb_spec x a) as [->|]; [|done].
  by destruct (String.eqb_spec a b).
Qed.

Lemma b2z_is_one (v : bool) : (Z.b2z v =? 1) = v.
Proof. by destruct v. Qed.

Lemma check_word_flags xmlname stagename ws w :
  check_word xmlname stagename (flags_of xmlname stagename ws) w
  = flags_of xmlname stagename (ws ++ [w]).
Proof.
  apply cmd_flags_eq;
    rewrite ?check_word_project, ?check_word_xml, ?check_word_stage, ?check_word_xmlmatch,
      ?check_word_stagematch, ?check_word_submit, ?check_word_makeup;
    unfold flags_of; cbn [project xml stage xmlmatch stagematch submit makeup];
    rewrite ?existsb_snoc, ?adjacentb_snoc, ?last_is_snoc, ?b2z_is_one.
  - by destruct (PyStr.endswith w _), (existsb _ ws).
  - done.
  - destruct (String.eqb_spec w "--xml") as [->|]; [done|]. done.
  - by destruct (last_is ws "--xml"), (String.eqb w xmlname), (adjacentb _ _ ws).
  - pose proof (last_is_exclusive ws "--xml" "--stage" ltac:(done)) as Hex.
    destruct (last_is ws "--xml"), (last_is ws "--stage"); try done;
      destruct (String.eqb w xmlname), (String.eqb w stagename), (adjacentb _ _ ws); try done.
  - destruct (String.eqb_spec w "--xml") as [->|]; [by destruct (existsb _ ws)|].
    destruct (String.eqb_spec w "--stage") as [->|]; [by destruct (existsb _ ws)|].
    simpl. destruct (String.eqb w "--submit"), (existsb _ ws); done.
  - destruct (String.eqb_spec w "--xml") as [->|]; [by destruct (existsb _ ws)|].
    destruct (String.eqb_spec w "--stage") as [->|]; [by destruct (existsb _ ws)|].
    destruct (String.eqb_spec w "--submit") as [->|]; [by destruct (existsb _ ws)|].
    simpl. destruct (String.eqb w "--makeup"), (existsb _ ws); done.
Qed.

Lemma check_words_flags xmlname stagename ws :
  check_words xmlname stagename ws = flags_of xmlname stagename ws.
Proof.
  unfold check_words. induction ws as [|w ws IH] using rev_ind; [done|].
  by rewrite fold_left_app, IH; simpl; rewrite check_word_flags.
Qed.

Lemma existsb_elem_of {A} (p : A -> bool) l :
  existsb p l = true <-> exists x, x ∈ l /\ p x = true.
Proof.
  rewrite existsb_exists. split; intros (x & H & ?); exists x; split; try done;
    by apply list_elem_of_In.
Qed.

Lemma existsb_eqb ws a : existsb (fun w => String.eqb w a) ws = true <-> a ∈ ws.
Proof.
  rewrite existsb_elem_of. split.
  - by intros (x & H & ->%String.eqb_eq).
  - intros H. exists a. by rewrite String.eqb_refl.
Qed.

Lemma flags_match_submits xmlname stagename ws :
  flags_match (check_words xmlname stagename ws) = true <-> submits xmlname stagename ws.
Proof.
  rewrite check_words_flags. unfold flags_match, flags_of, submits.
  cbn [project xml stage xmlmatch stagematch submit makeup].
  rewrite <- !adjacentb_spec, <- !existsb_eqb.
  assert ((exists w, w ∈ ws /\ has_suffix w "project.py")
          <-> existsb (fun w => PyStr.endswith w "project.py") ws = true) as ->.
  { rewrite existsb_elem_of. by setoid_rewrite endswith_spec. }
  destruct (existsb _ ws), (existsb _ ws), (existsb _ ws),
    (adjacentb _ _ ws), (adjacentb _ _ ws); simpl; intuition congruence.
Qed.

(** *** The entries of /proc *)

Lemma last_char_app s t : t <> "" -> PyStr.last_char (s +:+ t) = PyStr.last_char t.
Proof.
  intros Ht. induction s as [|c s IH]; [done|]. rewrite append_cons. simpl. rewrite IH.
  destruct (s +:+ t) eqn:E; [|done]. by destruct s, t.
Qed.

Lemma last_char_digits w :
  Py.isdigit w = true -> exists d, PyStr.last_char w = Some d /\ Py.isdigit_char d = true.
Proof.
  destruct w as [|c w]; [done|]. simpl. revert c.
  induction w as [|c' w IH]; intros c H.
  - exists c. by rewrite andb_true_r in H.
  - apply andb_true_iff in H as [_ H]. destruct (IH c' H) as (d & Hd & ?).
    exists d. split; [|done]. exact Hd.
Qed.

Lemma proc_paths pid :
  Py.isdigit pid = true ->
  PyStr.os_path_join "/proc" pid = "/proc/" +:+ pid /\
  PyStr.os_path_join (PyStr.os_path_join "/proc" pid) "cmdline"
  = "/proc/" +:+ pid +:+ "/cmdline".
Proof.
  intros H. assert (PyStr.os_path_join "/proc" pid = "/proc/" +:+ pid) as ->.
  { unfold PyStr.os_path_join. destruct pid as [|c pid]; [done|].
    simpl in H. apply andb_true_iff in H as [Hc _].
    rewrite startswith_cons, startswith_nil, andb_true_r.
    destruct (Ascii.eqb_spec "/" c) as [<-|]; [done|]. reflexivity. }
  split; [done|]. unfold PyStr.os_path_join.
  change (Py.startswith "cmdline" "/") with false. cbv iota.
  assert (PyStr.endswith ("/proc/" +:+ pid) "/" = false) as ->.
  { destruct (PyStr.endswith _ _) eqn:E; [|done]. exfalso.
    apply endswith_spec in E as [pre E]. apply (f_equal PyStr.last_char) in E.
    rewrite last_char_snoc, last_char_app in E by (by destruct pid).
    destruct (last_char_digits pid H) as (d & Hd & Hdig). rewrite Hd in E.
    injection E as ->. done. }
  destruct (String.eqb_spec ("/proc/" +:+ pid) ""); [done|].
  simpl orb. cbv iota. by rewrite append_assoc.
Qed.

Lemma check_process_spec fs xmlname stagename pid :
  Py.isdigit pid = true ->
  check_process fs xmlname stagename pid = true
  <-> submitting_process fs xmlname stagename pid.
Proof.
  intros [Hp Hc]%proc_paths. unfold check_process, submitting_process.
  rewrite Hp in *. rewrite Hc. destruct (os_stat_uid fs _) as [uid|]; [|by split; [|intros []]].
  destruct (Z.eqb_spec uid (os_getuid fs)) as [->|Hne].
  - destruct (fs_read fs _) as [cmd|].
    + rewrite flags_match_submits. split.
      * intros H. split; [done|]. by exists cmd.
      * by intros [_ (? & [= <-] & ?)].
    + split; [done|]. by intros [_ (? & ? & _)].
  - split; [done|]. intros [[= ?] _]. done.
Qed.

Lemma check_pids_spec fs xmlname stagename (ignore_pids : gset Z) pids :
  (exists r, check_pids fs xmlname stagename ignore_pids pids = Ok r /\
     (r = 0 \/ r = 1) /\
     (r = 1 <-> exists pid n, pid ∈ pids /\ Py.isdigit pid = true /\ Py.int pid = Ok n /\
                              (n ∉ ignore_pids) /\
                              submitting_process fs xmlname stagename pid)) \/
  (check_pids fs xmlname stagename ignore_pids pids = Raise ValueError /\
   exists pid, pid ∈ pids /\ Py.isdigit pid = true /\
               (Py.max_str_digits < String.length pid)%nat).
Proof.
  induction pids as [|pid pids IH].
  - left. exists 0. split; [done|]. split; [by left|]. split; [done|].
    intros (pid & n & Hin & _). by apply elem_of_nil in Hin.
  - assert (check_pids fs xmlname stagename ignore_pids (pid :: pids)
            = check_pids fs xmlname stagename ignore_pids pids ->
            (forall n, Py.isdigit pid = true -> Py.int pid = Ok n -> n ∉ ignore_pids ->
                       submitting_process fs xmlname stagename pid -> False) ->
            (exists r, check_pids fs xmlname stagename ignore_pids (pid :: pids) = Ok r /\
               (r = 0 \/ r = 1) /\
               (r = 1 <-> exists p n, p ∈ pid :: pids /\ Py.isdigit p = true /\
                                      Py.int p = Ok n /\ (n ∉ ignore_pids) /\
                                      submitting_process fs xmlname stagename p)) \/
            (check_pids fs xmlname stagename ignore_pids (pid :: pids) = Raise ValueError /\
             exists p, p ∈ pid :: pids /\ Py.isdigit p = true /\
                       (Py.max_str_digits < String.length p)%nat)) as Hskip.
    { intros -> Hmiss. destruct IH as [(r & IH & Hr & Hiff)|(IH & p & Hin & Hp)].
      - left. exists r. split; [done|]. split; [done|]. rewrite Hiff. split.
        + intros (p & m & ? & ?). exists p, m. split; [by right|done].
        + intros (p & m & [->|?]%elem_of_cons & Hp & Hm & Hm' & Hs).
          * by destruct (Hmiss m).
          * by exists p, m.
      - right. split; [done|]. exists p. split; [by right|done]. }
    cbn [check_pids] in *. destruct (Py.isdigit pid) eqn:Hd; [|apply Hskip; done].
    pose proof (int_of_digits pid Hd) as Hint.
    destruct (Nat.ltb_spec Py.max_str_digits (String.length pid)) as [Hlen|Hlen].
    { rewrite Hint. right. split; [done|]. exists pid. split; [by left|done]. }
    destruct Hint as (n & Hn & _). rewrite Hn in *. simpl in *.
    destruct (bool_decide_reflect (n ∈ ignore_pids)) as [Hin|Hin].
    { apply Hskip; [done|]. by intros ? _ [= <-]. }
    destruct (check_process fs xmlname stagename pid) eqn:Hc.
    + left. exists 1. split; [done|]. split; [by right|]. split; [|done]. intros _.
      exists pid, n. split; [by left|]. by rewrite <- check_process_spec.
    + apply Hskip; [done|]. intros ? _ _ _ Hs.
      apply check_process_spec in Hs; [|done]. congruence.
Qed.

Lemma ancestor_pids_grows fs fuel pid (acc ignore_pids : gset Z) :
  ancestor_pids fs fuel pid acc = Some (Ok ignore_pids) ->
  acc ⊆ ignore_pids /\ (1 < pid -> pid ∈ ignore_pids).
Proof.
  revert pid acc. induction fuel as [|fuel IH]; intros pid acc; simpl.
  - destruct (Z.ltb_spec 1 pid); [done|]. intros [= <-]. split; [done|lia].
  - destruct (Z.ltb_spec 1 pid); [|intros [= <-]; split; [done|lia]].
    destruct (get_ppid fs pid) as [ppid|]; [|done]. intros [Hsub _]%IH.
    split.
    + intros x Hx. apply Hsub, elem_of_union. by left.
    + intros _. apply Hsub, elem_of_union. right. by apply elem_of_singleton.
Qed.

(** *** The status file *)

Lemma get_ppid_loop_spec lines result :
  0 <= result ->
  if existsb long_ppid lines then get_ppid_loop lines result = Raise ValueError
  else exists n, get_ppid_loop lines result = Ok n /\ 0 <= n /\
         (Forall (fun line => Py.startswith line "PPid:" = false) lines -> n = result).
Proof.
  revert result. induction lines as [|line lines IH]; intros result Hr.
  - exists result. by repeat split.
  - cbn [get_ppid_loop existsb]. unfold long_ppid at 1.
    destruct (Py.startswith line "PPid:") eqn:E.
    + assert (forall r', 0 <= r' ->
                if existsb long_ppid lines then get_ppid_loop lines r' = Raise ValueError
                else exists n, get_ppid_loop lines r' = Ok n /\ 0 <= n /\
                  (Forall (fun line => Py.startswith line "PPid:" = false) (line :: lines)
                   -> n = result)) as Hany.
      { intros r' Hr'. specialize (IH r' Hr'). destruct (existsb long_ppid lines); [done|].
        destruct IH as (n & Hn & Hpos & _).
        exists n. split; [done|]. split; [done|].
        intros H. apply Forall_cons in H as [H _]. congruence. }
      destruct (Py.split line) as [|w0 [|w1 ws]]; try by apply Hany.
      destruct (Py.isdigit w1) eqn:Hd; [|by apply Hany].
      pose proof (int_of_digits w1 Hd) as Hint.
      destruct (Py.max_str_digits <? String.length w1)%nat; [by rewrite Hint|].
      destruct Hint as (m & -> & Hm). simpl. by apply Hany.
    + simpl. specialize (IH result Hr). destruct (existsb long_ppid lines); [done|].
      destruct IH as (n & Hn & Hpos & Hall). exists n.
      split; [done|]. split; [done|]. intros H. apply Forall_cons in H as [_ H]. auto.
Qed.

End Running.

(** X12.  [get_ppid] raises [OSError] when the status file of the process
    cannot be read, and [ValueError] when the file has a line that starts
    with [PPid:] and whose second word is a string of more than 4300
    digits; otherwise it returns a number that is not negative, and 0 when
    no line of the file starts with [PPid:]. *)
Theorem get_ppid_result (fs : ProcFS) (pid : Z) :
  match fs_read fs ("/proc/" +:+ Py.format_d pid +:+ "/status") with
  | None => larbatch_utilities_ext.get_ppid fs pid = Raise OSError
  | Some text =>
      if existsb long_ppid (Py.readlines text)
      then larbatch_utilities_ext.get_ppid fs pid = Raise ValueError
      else
        exists n, larbatch_utilities_ext.get_ppid fs pid = Ok n /\ 0 <= n /\
          (Forall (fun line => Py.startswith line "PPid:" = false) (Py.readlines text)
           -> n = 0)
  end.
Proof.
  unfold larbatch_utilities_ext.get_ppid.
  destruct (fs_read fs _) as [text|]; [|done]. by apply get_ppid_loop_spec.
Qed.

Lemma get_ppid_result_witness :
  larbatch_utilities_ext.get_ppid orphan_procfs 1 = Ok 0.
Proof.
  pose proof (get_ppid_result orphan_procfs 1) as H.
  change (fs_read orphan_procfs _) with (Some ("Name: init" +:+ String "010" "")) in H.
  cbv iota in H.
  change (existsb long_ppid _) with false in H. cbv iota in H.
  destruct H as (n & Hrun & _ & Hzero).
  rewrite Hrun. f_equal. apply Hzero. vm_compute. repeat constructor.
Defined.

(** X13.  Once the ancestors of the calling process have been collected,
    [check_running] returns 1 or 0, and 1 exactly when [/proc] lists a
    process that is not among them (the calling process is), that belongs
    to the user of the calling process and whose command line has a word
    ending in [project.py], the word [--xml] with [xmlname] next after it,
    the word [--stage] with [stagename] next after it, and [--submit] or
    [--makeup]; or else it raises [ValueError], and then [/proc] lists a
    name of more than 4300 digits. *)
Theorem check_running_finds_submission (fs : ProcFS) (fuel : nat)
    (xmlname stagename : string) (ignore_pids : gset Z) :
  larbatch_utilities_ext.ancestor_pids fs fuel (os_getpid fs) ∅ = Some (Ok ignore_pids) ->
  (1 < os_getpid fs -> os_getpid fs ∈ ignore_pids) /\
  ((exists r,
      larbatch_utilities_ext.check_running fs fuel xmlname stagename = Some (Ok r) /\
      (r = 0 \/ r = 1) /\
      (r = 1 <-> exists pid n,
           pid ∈ os_listdir_proc fs /\ Py.isdigit pid = true /\ Py.int pid = Ok n /\
           (n ∉ ignore_pids) /\ submitting_process fs xmlname stagename pid)) \/
   (larbatch_utilities_ext.check_running fs fuel xmlname stagename
    = Some (Raise ValueError) /\
    exists pid, pid ∈ os_listdir_proc fs /\ Py.isdigit pid = true /\
                (Py.max_str_digits < String.length pid)%nat)).
Proof.
  intros Hanc. split; [by apply ancestor_pids_grows in Hanc as [_ ?]|].
  unfold larbatch_utilities_ext.check_running. rewrite Hanc.
  destruct (check_pids_spec fs xmlname stagename ignore_pids (os_listdir_proc fs))
    as [(r & -> & ?)|[-> ?]]; [left; by exists r | by right].
Qed.

Lemma check_running_finds_submission_witness :
  larbatch_utilities_ext.check_running sample_procfs 2 "a.xml" "reco" = Some (Ok 1).
Proof.
  destruct (check_running_finds_submission sample_procfs 2 "a.xml" "reco" {[ 4242 ]})
    as [_ [(r & Hr & _ & Hiff)|[_ (pid & Hin & _ & Hlen)]]]; [vm_compute; reflexivity| |].
  2:{ exfalso. cbn [os_listdir_proc sample_procfs] in Hin.
      repeat (apply elem_of_cons in Hin as [->|Hin]; [vm_compute in Hlen; lia|]).
      by apply elem_of_nil in Hin. }
  rewrite Hr. f_equal. f_equal. apply Hiff. exists "88", 88.
  cbn [os_listdir_proc sample_procfs].
  split; [repeat first [apply list_elem_of_here | apply list_elem_of_further]|].
  split; [reflexivity|]. split; [reflexivity|].
  split; [intros H; apply elem_of_singleton in H; discriminate|].
  split; [reflexivity|]. eexists. split; [reflexivity|].
  change (Py.split_sep _ _)
    with ["python"; "/bin/project.py"; "--xml"; "a.xml"; "--stage"; "reco"; "--submit"].
  split; [|split; [|split]].
  - exists "/bin/project.py". split; [|by exists "/bin/"].
    repeat first [apply list_elem_of_here | apply list_elem_of_further].
  - left. repeat first [apply list_elem_of_here | apply list_elem_of_further].
  - by exists ["python"; "/bin/project.py"], ["--stage"; "reco"; "--submit"].
  - by exists ["python"; "/bin/project.py"; "--xml"; "a.xml"], ["--submit"].
Defined.

(** ** dCache paths and their URIs *)

Section DCacheURI.
Import larbatch_utilities.
Implicit Types (path t u : string).

Lemma slice_from_prefix p t : Py.slice_from (String.length p) (p +:+ t) = t.
Proof. induction p as [|c p IH]; [by destruct t | exact IH]. Qed.

Lemma startswith_app_both p s t :
  Py.startswith (p +:+ s) (p +:+ t) = Py.startswith s t.
Proof.
  induction p as [|c p IH]; [done|].
  by rewrite !append_cons, startswith_cons, Ascii.eqb_refl.
Qed.

Lemma dcache_path_local t :
  Py.startswith t "fnal.gov/usr/" = false ->
  dcache_path ("/pnfs/" +:+ t) = Some ("/pnfs/fnal.gov/usr/" +:+ t).
Proof.
  intros Ht. unfold dcache_path.
  rewrite (startswith_app t "/pnfs/").
  change "/pnfs/fnal.gov/usr/" with ("/pnfs/" +:+ "fnal.gov/usr/") at 1.
  rewrite startswith_app_both, Ht. cbn [andb negb].
  exact (f_equal (fun x => Some ("/pnfs/fnal.gov/usr/" +:+ x)) (slice_from_prefix "/pnfs/" t)).
Qed.

Lemma uri_not_pnfs (scheme rest : string) c :
  c <> "/"%char -> Py.startswith (String c scheme +:+ rest) "/pnfs/" = false.
Proof.
  intros Hc. rewrite append_cons, startswith_cons.
  by rewrite (proj2 (Ascii.eqb_neq _ _)).
Qed.

End DCacheURI.

(** X14.  For a path ['/pnfs/' + t] whose rest [t] does not start with
    ['fnal.gov/usr/'], [dcache_path] gives ['/pnfs/fnal.gov/usr/' + t],
    [xrootd_uri] gives ['root://fndcadoor.fnal.gov:1094/pnfs/fnal.gov/usr/' + t]
    and [gridftp_uri] gives ['gsiftp://fndcadoor.fnal.gov/pnfs/fnal.gov/usr/' + t];
    [dcache_path] of its own result is [None]. *)
Theorem dcache_uri_of_local_path (t : string) :
  Py.startswith t "fnal.gov/usr/" = false ->
  larbatch_utilities.dcache_path ("/pnfs/" +:+ t) = Some ("/pnfs/fnal.gov/usr/" +:+ t) /\
  larbatch_utilities.xrootd_uri ("/pnfs/" +:+ t) =
    Ok ("root://fndcadoor.fnal.gov:1094/pnfs/fnal.gov/usr/" +:+ t) /\
  larbatch_utilities.gridftp_uri ("/pnfs/" +:+ t) =
    Ok ("gsiftp://fndcadoor.fnal.gov/pnfs/fnal.gov/usr/" +:+ t) /\
  larbatch_utilities.dcache_path ("/pnfs/fnal.gov/usr/" +:+ t) = None.
Proof.
  intros Ht. pose proof (dcache_path_local t Ht) as Hd.
  split; [exact Hd|].
  unfold larbatch_utilities.xrootd_uri, larbatch_utilities.gridftp_uri.
  rewrite (startswith_app t "/pnfs/"), Hd.
  repeat split.
  apply dcache_path_server_side, startswith_app.
Qed.

Lemma dcache_uri_of_local_path_witness :
  larbatch_utilities.dcache_path "/pnfs/uboone/scratch/a.root"
    = Some "/pnfs/fnal.gov/usr/uboone/scratch/a.root" /\
  larbatch_utilities.xrootd_uri "/pnfs/uboone/scratch/a.root"
    = Ok "root://fndcadoor.fnal.gov:1094/pnfs/fnal.gov/usr/uboone/scratch/a.root" /\
  larbatch_utilities.gridftp_uri "/pnfs/uboone/scratch/a.root"
    = Ok "gsiftp://fndcadoor.fnal.gov/pnfs/fnal.gov/usr/uboone/scratch/a.root" /\
  larbatch_utilities.dcache_path "/pnfs/fnal.gov/usr/uboone/scratch/a.root" = None.
Proof. apply (dcache_uri_of_local_path "uboone/scratch/a.root"). reflexivity. Defined.

(** X15.  A URI that [xrootd_uri] or [gridftp_uri] returns is left
    unchanged by either function: converting twice, or converting for one
    protocol what was converted for the other, changes nothing. *)
Theorem uri_conversion_is_stable (path u : string) :
  larbatch_utilities.xrootd_uri path = Ok u \/
  larbatch_utilities.gridftp_uri path = Ok u ->
  larbatch_utilities.xrootd_uri u = Ok u /\ larbatch_utilities.gridftp_uri u = Ok u.
Proof.
  unfold larbatch_utilities.xrootd_uri at 1, larbatch_utilities.gridftp_uri at 1.
  destruct (Py.startswith path "/pnfs/") eqn:Hp.
  - destruct (larbatch_utilities.dcache_path path) as [q|]; simpl;
      [|by intros [|]].
    intros H.
    assert (Py.startswith u "/pnfs/" = false) as Hu.
    { destruct H as [[= <-]|[= <-]]; by apply uri_not_pnfs. }
    unfold larbatch_utilities.xrootd_uri, larbatch_utilities.gridftp_uri.
    by rewrite Hu.
  - intros Hu. assert (u = path) as -> by (by destruct Hu as [[= ->]|[= ->]]).
    unfold larbatch_utilities.xrootd_uri, larbatch_utilities.gridftp_uri.
    by rewrite Hp.
Qed.

Lemma uri_conversion_is_stable_witness :
  larbatch_utilities.xrootd_uri
    "root://fndcadoor.fnal.gov:1094/pnfs/fnal.gov/usr/uboone/a.root"
    = Ok "root://fndcadoor.fnal.gov:1094/pnfs/fnal.gov/usr/uboone/a.root" /\
  larbatch_utilities.gridftp_uri
    "root://fndcadoor.fnal.gov:1094/pnfs/fnal.gov/usr/uboone/a.root"
    = Ok "root://fndcadoor.fnal.gov:1094/pnfs/fnal.gov/usr/uboone/a.root".
Proof.
  apply (uri_conversion_is_stable "/pnfs/uboone/a.root"). left. reflexivity.
Defined.

(** ** parseInt: the numbers of the result *)

Section ParseIntMembers.
Import project_utilities.
Implicit Types (s t : string) (x : Z).

Lemma token_names_number t n :
  Py.isdigit (Py.strip t) = true -> Py.int t = Ok n ->
  forall x, token_names t x <-> x = n.
Proof.
  intros Hd Hn x. apply isdigit_strip_padded in Hd. split.
  - intros [[_ Hx]|(a & b & lo & hi & -> & _)]; [congruence|].
    by apply range_token_not_padded in Hd.
  - intros ->. by left.
Qed.

Lemma token_names_range t l0 l1 lo hi :
  Py.isdigit (Py.strip t) = false -> Py.split_sep t "-" = [l0; l1] ->
  Py.isdigit (Py.strip l0) = true -> Py.isdigit (Py.strip l1) = true ->
  Py.int l0 = Ok lo -> Py.int l1 = Ok hi ->
  forall x, token_names t x <-> lo <= x <= hi.
Proof.
  intros Hd E H0 H1 Hlo Hhi x.
  apply isdigit_strip_padded in H0, H1. split.
  - intros [[Hp _]|(a & b & lo' & hi' & -> & Ha & Hb & Hlo' & Hhi' & Hx)].
    + apply isdigit_strip_padded in Hp. congruence.
    + rewrite split_sep_hyphen in E by by apply padded_no_hyphen.
      injection E as -> ->. congruence.
  - intros Hx. right. exists l0, l1, lo, hi.
    split; [exact (split_sep_two _ _ _ _ E) | done].
Qed.

Lemma parseInt_loop_members tokens (acc r : gset Z) :
  parseInt_loop tokens acc = Ok r ->
  forall x, x ∈ r <-> x ∈ acc \/ exists t, t ∈ tokens /\ token_names t x.
Proof.
  revert acc. induction tokens as [|t tokens IH]; intros acc; simpl.
  - intros [= <-] x. split; [by left|]. intros [|(t & Ht & _)]; [done|].
    by apply elem_of_nil in Ht.
  - destruct (Py.isdigit (Py.strip t)) eqn:Hd.
    + destruct (Py.int t) as [n|e] eqn:Hn; simpl; [|done].
      intros Hr x. rewrite (IH _ Hr x), elem_of_union, elem_of_singleton.
      pose proof (token_names_number t n Hd Hn x) as Ht.
      split.
      * intros [[|Hx]|(t' & Hin & Hx)]; [by left| |].
        -- right. exists t. split; [left | by apply Ht].
        -- right. exists t'. split; [by right | done].
      * intros [|(t' & Hin & Hx)]; [by left; left|].
        apply elem_of_cons in Hin as [->|Hin].
        -- left. right. by apply Ht.
        -- right. by exists t'.
    + destruct (Py.split_sep t "-") as [|l0 [|l1 [|]]] eqn:E; try done.
      destruct (Py.isdigit (Py.strip l0)) eqn:H0; [|done].
      destruct (Py.isdigit (Py.strip l1)) eqn:H1; [|done]. simpl.
      destruct (Py.int l0) as [lo|e] eqn:Hlo; simpl; [|done].
      destruct (Py.int l1) as [hi|e] eqn:Hhi; simpl; [|done].
      intros Hr x. rewrite (IH _ Hr x), elem_of_union, elem_of_list_to_set.
      pose proof (token_names_range t l0 l1 lo hi Hd E H0 H1 Hlo Hhi x) as Ht.
      assert (x ∈ range lo (hi + 1) <-> lo <= x <= hi) as Hrange.
      { unfold range. rewrite elem_of_seqZ. lia. }
      split.
      * intros [[|Hx]|(t' & Hin & Hx)]; [by left| |].
        -- right. exists t. split; [left | by apply Ht, Hrange].
        -- right. exists t'. split; [by right | done].
      * intros [|(t' & Hin & Hx)]; [by left; left|].
        apply elem_of_cons in Hin as [->|Hin].
        -- left. right. by apply Hrange, Ht.
        -- right. by exists t'.
Qed.

End ParseIntMembers.

(** X16.  When [parseInt] returns a list, a number is in the list exactly
    if one of the tokens between commas names it: a digit string of that
    value, or a range [lo-hi] with the number between [lo] and [hi]
    inclusive. *)
Theorem parseInt_members (s : string) (l : list Z) :
  project_utilities.parseInt s = Ok l ->
  forall x, x ∈ l <-> exists t, t ∈ Py.split_sep s "," /\ token_names t x.
Proof.
  unfold project_utilities.parseInt.
  destruct (project_utilities.parseInt_loop (Py.split_sep s ",") ∅) as [r|e] eqn:Hr;
    simpl; [|done].
  intros [= <-] x. rewrite elem_of_sorted, (parseInt_loop_members _ _ _ Hr x).
  split; [intros [Hx|]; [by apply elem_of_empty in Hx | done] | by right].
Qed.

Lemma parseInt_members_witness :
  exists t, t ∈ Py.split_sep "3-5, 1 ,4" "," /\ token_names t 5.
Proof.
  refine (proj1 (parseInt_members "3-5, 1 ,4" [1; 3; 4; 5] _ 5) _).
  - vm_compute. reflexivity.
  - repeat constructor.
Defined.

(** ** expandDefnames: requests and their failures *)

Section ExpandRequests.
Import project_utilities.
Variable samweb : SAMWebClient.
Implicit Types (s w : string) (ws : list string) (b : bool).

Lemma pieces_requests ws b :
  match pieces samweb ws b with
  | Ok _ =>
      Forall (fun w => is_ok (sam_descDefinitionDict samweb w) = true) (defnames ws b)
  | Raise e =>
      exists pre w post, defnames ws b = pre ++ w :: post /\
        Forall (fun w => is_ok (sam_descDefinitionDict samweb w) = true) pre /\
        sam_descDefinitionDict samweb w = Raise e
  end.
Proof.
  revert b. induction ws as [|x ws IH]; intros b; simpl; [done|].
  destruct b.
  - destruct (sam_descDefinitionDict samweb x) as [d|e] eqn:Hx; simpl.
    + specialize (IH false). destruct (pieces samweb ws false) as [ps|e]; simpl.
      * constructor; [by rewrite Hx | done].
      * destruct IH as (pre & w & post & -> & Hpre & Hw).
        exists (x :: pre), w, post. split; [done|]. split; [|done].
        constructor; [by rewrite Hx | done].
    + exists [], x, (defnames ws false). done.
  - destruct (String.eqb x "defname:"); [apply IH|].
    specialize (IH false). by destruct (pieces samweb ws false).
Qed.

Lemma split_trailing_defname s :
  Py.split (s +:+ " defname:") = Py.split s ++ ["defname:"].
Proof.
  change (" defname:") with (String " " "defname:").
  by rewrite split_app_space.
Qed.

Lemma dangling_no_defname ws : "defname:" ∉ ws -> dangling ws false = false.
Proof.
  induction ws as [|x ws IH]; [done|]. rewrite not_elem_of_cons. intros [Hx Hws].
  simpl. rewrite (proj2 (String.eqb_neq x "defname:")) by done. by apply IH.
Qed.

Lemma expandDefnames_trailing_defname s :
  dangling (Py.split s) false = false ->
  expandDefnames samweb (s +:+ " defname:") = expandDefnames samweb s.
Proof.
  intros Hd. rewrite !expandDefnames_pieces, split_trailing_defname, pieces_app by done.
  destruct (pieces samweb (Py.split s) false) as [ps|]; [|done]. simpl.
  by rewrite app_nil_r.
Qed.

End ExpandRequests.

(** X17.  [expandDefnames] asks the service for the description of every
    word that follows a [defname:], in order.  It returns when every one of
    them is described; otherwise it raises the error of the first one that
    is not. *)
Theorem expandDefnames_raises_first_failure (samweb : SAMWebClient) (dim : string) :
  match project_utilities.expandDefnames samweb dim with
  | Ok _ =>
      Forall (fun w => is_ok (sam_descDefinitionDict samweb w) = true)
        (defnames (Py.split dim) false)
  | Raise e =>
      exists pre w post, defnames (Py.split dim) false = pre ++ w :: post /\
        Forall (fun w => is_ok (sam_descDefinitionDict samweb w) = true) pre /\
        sam_descDefinitionDict samweb w = Raise e
  end.
Proof.
  rewrite expandDefnames_pieces.
  pose proof (pieces_requests samweb (Py.split dim) false) as H.
  by destruct (pieces samweb (Py.split dim) false).
Qed.

(** X18.  On a dimension without the word [defname:], [expandDefnames]
    returns the words of the dimension, each with one blank before it,
    whatever the service answers; and a [defname:] that ends a dimension,
    with no name after it, is dropped without an error and without a
    request. *)
Theorem expandDefnames_without_names (samweb : SAMWebClient) (s : string) :
  "defname:" ∉ Py.split s ->
  project_utilities.expandDefnames samweb s = Ok (spaced (Py.split s)) /\
  project_utilities.expandDefnames samweb (s +:+ " defname:") = Ok (spaced (Py.split s)).
Proof.
  intros H. pose proof (expandDefnames_no_defname samweb s H) as Hs.
  split; [exact Hs|].
  rewrite expandDefnames_trailing_defname; [exact Hs|].
  by apply dangling_no_defname.
Qed.

Lemma expandDefnames_without_names_witness :
  project_utilities.expandDefnames cyclic_samweb "  run_number 5   and ( data_tier raw)"
    = Ok (spaced (Py.split "  run_number 5   and ( data_tier raw)")) /\
  project_utilities.expandDefnames cyclic_samweb
    ("  run_number 5   and ( data_tier raw)" +:+ " defname:")
    = Ok (spaced (Py.split "  run_number 5   and ( data_tier raw)")).
Proof.
  apply (expandDefnames_without_names cyclic_samweb "  run_number 5   and ( data_tier raw)").
  vm_compute. intros H. by repeat (apply elem_of_cons in H as [H|H]; [discriminate|]);
    apply elem_of_nil in H.
Defined.

(** ** tokenizeRPN: where it can fail *)

Section TokenizeErrors.
Import project_utilities.
Implicit Types (s t old new : string) (c : ascii) (ws : list string) (st : tok_state).

(** *** The characters of the words *)

Lemma chars_slice_to n s c : c ∈ chars (Py.slice_to n s) -> c ∈ chars s.
Proof.
  revert n. induction s as [|d s IH]; intros [|n]; simpl; try done.
  - intros H. by apply elem_of_nil in H.
  - rewrite !chars_cons, !elem_of_cons. intros [->|H]; [by left|right]. by eapply IH.
Qed.

Lemma chars_replace_go old new k s c :
  c ∈ chars (Py.replace_go old new k s) -> c ∈ chars s \/ c ∈ chars new.
Proof.
  revert k. induction s as [|d s IH]; intros k; [by left|].
  cbn [Py.replace_go]. rewrite chars_cons, elem_of_cons. destruct k as [|k].
  - destruct (Py.startswith (String d s) old).
    + rewrite chars_app, elem_of_app. intros [H|H]; [by right|].
      destruct (IH _ H) as [|]; auto.
    + rewrite chars_cons, elem_of_cons. intros [->|H]; [by left; left|].
      destruct (IH _ H) as [|]; auto.
  - intros H. destruct (IH _ H) as [|]; auto.
Qed.

Lemma chars_replace s old new c :
  old <> "" -> c ∈ chars (Py.replace s old new) -> c ∈ chars s \/ c ∈ chars new.
Proof. intros Hold. rewrite replace_nonempty by done. apply chars_replace_go. Qed.

Lemma chars_push_word w ws x :
  x ∈ Py.push_word w ws -> x = w /\ w <> "" \/ x ∈ ws.
Proof.
  destruct w as [|d w]; simpl; [by right|].
  rewrite elem_of_cons. intros [->|]; [by left | by right].
Qed.

Lemma chars_split_aux s :
  (forall c, c ∈ chars (Py.split_aux s).1 -> c ∈ chars s) /\
  (forall x c, x ∈ (Py.split_aux s).2 -> c ∈ chars x -> c ∈ chars s).
Proof.
  induction s as [|d s [IHw IHws]]; [split; [done|]; intros x c H; by apply elem_of_nil in H|].
  rewrite split_aux_cons. unfold Py.split.
  destruct (Py.split_aux s) as [w ws]. simpl in *.
  destruct (Py.isspace d); simpl.
  - split; [intros c H; by apply elem_of_nil in H|].
    intros x c Hx Hc. rewrite chars_cons. right.
    apply chars_push_word in Hx as [[-> _]|Hx]; [by apply IHw | by eapply IHws].
  - split.
    + intros c. rewrite !chars_cons, !elem_of_cons. intros [->|H]; [by left|right; auto].
    + intros x c Hx Hc. rewrite chars_cons. right. by eapply IHws.
Qed.

Lemma chars_split s x c : x ∈ Py.split s -> c ∈ chars x -> c ∈ chars s.
Proof.
  unfold Py.split. destruct (chars_split_aux s) as [Hw Hws].
  destruct (Py.split_aux s) as [w ws]. simpl in *.
  intros [[-> _]|Hx]%chars_push_word Hc; [by apply Hw | by eapply Hws].
Qed.

Lemma replaced_keeps_free s :
  ")"%char ∉ chars s -> ")"%char ∉ chars (replaced s).
Proof.
  intros Hs. unfold replaced.
  assert (")"%char ∉ chars (Py.replace s "(" " ( ")) as H1.
  { intros [H|H]%chars_replace; [done| |done].
    by repeat (apply elem_of_cons in H as [H|H]; [discriminate|]); apply elem_of_nil in H. }
  rewrite (replace_char_free ")" _ " ) " H1).
  assert (")"%char ∉ chars (Py.replace (Py.replace s "(" " ( ") "isparentof: " "isparentof:"))
    as H2.
  { intros [H|H]%chars_replace; [done| |done].
    by repeat (apply elem_of_cons in H as [H|H]; [discriminate|]); apply elem_of_nil in H. }
  intros [H|H]%chars_replace; [done| |done].
  by repeat (apply elem_of_cons in H as [H|H]; [discriminate|]); apply elem_of_nil in H.
Qed.

(** *** The loop over the words *)

Lemma wrap_group_raises kw result e :
  kw = "isparentof:" \/ kw = "ischildof:" ->
  wrap_group kw result = Raise e -> tokenize_error e.
Proof.
  intros Hkw. unfold wrap_group, tokenize_error.
  destruct ((length result =? 0)%nat || last_is result "or" || last_is result "minus").
  - intros [= <-]. destruct Hkw as [->| ->]; auto.
  - destruct (list_pop result) as [[? ?]|]; [done|]. intros [= <-]. auto.
Qed.

Lemma close_paren_raises base result e :
  close_paren base result = Raise e -> tokenize_error e.
Proof.
  revert result. induction base as [|last base IH]; intros result; simpl.
  - intros [= <-]. by left.
  - destruct (String.eqb last "("); [done|].
    destruct (String.eqb last "isparentof:(").
    { destruct (wrap_group "isparentof:" result) eqn:E; simpl; [done|].
      intros [= <-]. eapply wrap_group_raises; [|exact E]. by left. }
    destruct (String.eqb last "ischildof:(").
    { destruct (wrap_group "ischildof:" result) eqn:E; simpl; [done|].
      intros [= <-]. eapply wrap_group_raises; [|exact E]. by right. }
    apply IH.
Qed.

Lemma tokenize_word_raises st w e :
  tokenize_word st w = Raise e -> w = ")" /\ tokenize_error e.
Proof.
  unfold tokenize_word.
  destruct (String.eqb w "(" || String.eqb w "isparentof:(" || String.eqb w "ischildof:(");
    [done|].
  destruct (String.eqb w "or" || String.eqb w "minus").
  { by destruct (pop_operators _ _). }
  destruct (String.eqb_spec w ")") as [->|]; [|done].
  destruct (close_paren _ _) as [[? ?]|e'] eqn:E; simpl; [done|].
  intros [= <-]. split; [done|]. by eapply close_paren_raises.
Qed.

Lemma tokenize_loop_raises ws st e :
  tokenize_loop ws st = Raise e -> ")" ∈ ws /\ tokenize_error e.
Proof.
  revert st. induction ws as [|w ws IH]; intros st; simpl; [done|].
  destruct (tokenize_word st w) as [st'|e'] eqn:E; simpl.
  - intros [Hin He]%IH. split; [by right | done].
  - intros [= <-]. apply tokenize_word_raises in E as [-> He]. split; [left | done].
Qed.

Lemma tokenizeRPN_raises dim e :
  tokenizeRPN dim = Raise e ->
  tokenize_error e /\
  exists head, ")" ∈ Py.split (replaced head) /\
    (head = dim \/ exists n, head = Py.slice_to n dim).
Proof.
  unfold tokenizeRPN. cbv zeta.
  set (head := if 0 <=? Py.find dim "with limit" then _ else dim).
  fold (replaced head).
  destruct (tokenize_loop (Py.split (replaced head)) _) as [st|e'] eqn:E; simpl; [done|].
  intros [= <-]. apply tokenize_loop_raises in E as [Hin He]. split; [done|].
  exists head. split; [done|]. subst head.
  destruct (0 <=? Py.find dim "with limit"); [right; by eexists | by left].
Qed.

End TokenizeErrors.

(** X19.  [tokenizeRPN] fails only at a closing parenthesis: on a dimension
    without the character [')'] it returns a list, and an error it raises
    is the [IndexError] of an unmatched [')'] or the [RuntimeError] of one
    of the two group parse errors. *)
Theorem tokenizeRPN_fails_only_at_closing_parenthesis (dim : string) :
  (")"%char ∉ chars dim -> is_ok (project_utilities.tokenizeRPN dim) = true) /\
  (forall e, project_utilities.tokenizeRPN dim = Raise e -> tokenize_error e).
Proof.
  split.
  - intros Hfree. destruct (project_utilities.tokenizeRPN dim) as [r|e] eqn:E; [done|].
    exfalso. apply tokenizeRPN_raises in E as (_ & head & Hin & Hhead).
    assert (")"%char ∉ chars head) as Hh.
    { destruct Hhead as [->|[n ->]]; [done|]. intros H. by apply chars_slice_to in H. }
    apply (replaced_keeps_free head Hh).
    apply (chars_split _ ")" _ Hin). left.
  - intros e He. by apply tokenizeRPN_raises in He as [He _].
Qed.

Lemma tokenizeRPN_fails_only_at_closing_parenthesis_witness :
  is_ok (project_utilities.tokenizeRPN "isparentof:( ( a or b minus") = true /\
  tokenize_error IndexError.
Proof.
  split.
  - apply (proj1 (tokenizeRPN_fails_only_at_closing_parenthesis
                    "isparentof:( ( a or b minus")).
    vm_compute. intros H.
    by repeat (apply elem_of_cons in H as [H|H]; [discriminate|]); apply elem_of_nil in H.
  - apply (proj2 (tokenizeRPN_fails_only_at_closing_parenthesis "a or b )") IndexError).
    reflexivity.
Defined.

(** ** listFiles: what the cache keeps *)

Section CacheValid.
Import project_utilities.
Variables (samweb : SAMWebClient) (rt : SetRuntime).
Implicit Types (w : world) (stack : list nat) (items : list string).

Lemma world_grows_refl w : world_grows w w.
Proof. by split. Qed.

Lemma world_grows_trans w1 w2 w3 :
  world_grows w1 w2 -> world_grows w2 w3 -> world_grows w1 w3.
Proof. intros [H1 H1'] [H2 H2']. split; [lia | set_solver]. Qed.

Lemma alloc_valid (s : gset string) w stack :
  cache_valid w -> stack_valid w stack ->
  cache_valid (alloc s w).2 /\ world_grows w (alloc s w).2 /\
  stack_valid (alloc s w).2 ((alloc s w).1 :: stack).
Proof.
  intros Hc Hs. unfold cache_valid, world_grows, stack_valid, alloc. simpl.
  rewrite length_app. simpl. split; [|split; [split; [lia|done]|]].
  - intros k l Hk. specialize (Hc k l Hk). lia.
  - constructor; [lia|]. eapply Forall_impl; [exact Hs|]. simpl. intros; lia.
Qed.

Lemma eval_item_valid item stack w r w' :
  cache_valid w -> stack_valid w stack ->
  eval_item samweb rt item stack w = (r, w') ->
  cache_valid w' /\ world_grows w w' /\
  forall stack', r = Ok stack' -> stack_valid w' stack'.
Proof.
  intros Hc Hs. unfold eval_item.
  destruct (String.eqb item "or").
  { destruct stack as [|set1 [|set2 stack']];
      try (intros [= <- <-]; split; [done|]; split; [apply world_grows_refl | done]).
    apply Forall_cons in Hs as [_ [_ Hs]%Forall_cons].
    destruct (alloc_valid (set_at w set1 ∪ set_at w set2) w stack' Hc Hs) as (H1 & H2 & H3).
    destruct (alloc _ w) as [l w1]. intros [= <- <-].
    split; [done|]. split; [done|]. by intros ? [= <-]. }
  destruct (String.eqb item "minus").
  { destruct stack as [|set1 [|set2 stack']];
      try (intros [= <- <-]; split; [done|]; split; [apply world_grows_refl | done]).
    apply Forall_cons in Hs as [_ [_ Hs]%Forall_cons].
    destruct (alloc_valid (set_at w set2 ∖ set_at w set1) w stack' Hc Hs) as (H1 & H2 & H3).
    destruct (alloc _ w) as [l w1]. intros [= <- <-].
    split; [done|]. split; [done|]. by intros ? [= <-]. }
  destruct (Py.startswith item "with limit").
  { destruct (Py.int _) as [n|e];
      [|intros [= <- <-]; split; [done|]; split; [apply world_grows_refl | done]].
    destruct stack as [|top stack'];
      [intros [= <- <-]; split; [done|]; split; [apply world_grows_refl | done]|].
    destruct (truncate rt _ n _) as [r0 s']. intros [= <- <-].
    unfold cache_valid, world_grows, stack_valid, store in *. simpl.
    rewrite length_insert. split; [done|]. split; [done|].
    destruct r0; simpl; [by intros ? [= <-] | done]. }
  destruct (samcache w !! item) as [files|] eqn:Hitem.
  { intros [= <- <-]. split; [done|]. split; [apply world_grows_refl|].
    intros ? [= <-]. constructor; [by eapply Hc | done]. }
  destruct (sam_listFiles samweb item) as [l|e];
    [|intros [= <- <-]; split; [done|]; split; [apply world_grows_refl | done]].
  destruct (alloc_valid (list_to_set l) w stack Hc Hs) as (H1 & H2 & H3).
  destruct (alloc _ w) as [files w1] eqn:Ha. intros [= <- <-].
  unfold cache_valid, world_grows, stack_valid, cache_put in *. simpl in *.
  split; [|split; [split; [lia|]|by intros ? [= <-]]].
  - intros k l'. rewrite lookup_insert_Some. intros [[_ <-]|[_ Hk]]; [|by eapply H1].
    by apply Forall_cons in H3 as [H3 _].
  - rewrite dom_insert. destruct H2 as [_ H2]. set_solver.
Qed.

Lemma eval_rpn_valid items stack w r w' :
  cache_valid w -> stack_valid w stack ->
  eval_rpn samweb rt items stack w = (r, w') ->
  cache_valid w' /\ world_grows w w' /\
  forall stack', r = Ok stack' -> stack_valid w' stack'.
Proof.
  revert stack w. induction items as [|item items IH]; intros stack w Hc Hs; simpl.
  - intros [= <- <-]. split; [done|]. split; [apply world_grows_refl|]. by intros ? [= <-].
  - destruct (eval_item samweb rt item stack w) as [[stack1|e] w1] eqn:E;
      destruct (eval_item_valid _ _ _ _ _ Hc Hs E) as (Hc1 & Hg1 & Hs1).
    + intros Hrest. destruct (IH _ _ Hc1 (Hs1 _ eq_refl) Hrest) as (Hc2 & Hg2 & Hs2).
      split; [done|]. split; [by eapply world_grows_trans | done].
    + intros [= <- <-]. done.
Qed.

Lemma listFiles_valid fuel dim w r w' :
  cache_valid w ->
  listFiles samweb rt fuel dim w = Some (r, w') ->
  cache_valid w' /\ world_grows w w' /\
  forall l, r = Ok l -> exists key, samcache w' !! key = Some l.
Proof.
  intros Hc. unfold listFiles.
  destruct (samcache w !! dim) as [l|] eqn:Hdim.
  { intros [= <- <-]. split; [done|]. split; [apply world_grows_refl|].
    intros ? [= <-]. by exists dim. }
  destruct (expand_until_fixed samweb fuel dim) as [[dim'|e]|]; [| |done];
    [|intros [= <- <-]; split; [done|]; split; [apply world_grows_refl | done]].
  destruct (tokenizeRPN dim') as [items|e];
    [|intros [= <- <-]; split; [done|]; split; [apply world_grows_refl | done]].
  destruct (eval_rpn samweb rt items [] w) as [[[|top stack]|e] w1] eqn:E;
    destruct (eval_rpn_valid _ _ _ _ _ Hc (Forall_nil_2 _) E) as (Hc1 & Hg1 & Hs1);
    try (intros [= <- <-]; done).
  intros [= <- <-]. specialize (Hs1 _ eq_refl).
  apply Forall_cons in Hs1 as [Htop _].
  unfold cache_valid, world_grows, cache_put in *. simpl.
  split; [|split; [split; [lia|]|]].
  - intros k l. rewrite lookup_insert_Some. intros [[_ <-]|[_ Hk]]; [done | by eapply Hc1].
  - rewrite dom_insert. destruct Hg1 as [_ Hg1]. set_solver.
  - intros ? [= <-]. exists dim'. apply lookup_insert_Some. by left.
Qed.

End CacheValid.

(** X20.  A call of [listFiles], whether it returns or raises, keeps the
    cache whole: every entry still refers to a set object, no key and no
    set object is dropped, and the set it returns is an object that the
    cache holds under some key. *)
Theorem listFiles_keeps_cache_valid (samweb : SAMWebClient) (rt : SetRuntime)
    (fuel : nat) (dim : string) (w w' : world) (r : res nat) :
  cache_valid w ->
  project_utilities.listFiles samweb rt fuel dim w = Some (r, w') ->
  cache_valid w' /\ world_grows w w' /\
  forall l, r = Ok l ->
    (l < length (heap w'))%nat /\ exists key, samcache w' !! key = Some l.
Proof.
  intros Hc H. destruct (listFiles_valid samweb rt fuel dim w r w' Hc H) as (Hc' & Hg & Hr).
  split; [done|]. split; [done|]. intros l Hl.
  destruct (Hr l Hl) as [key Hkey]. split; [by eapply Hc' | by exists key].
Qed.

Lemma listFiles_keeps_cache_valid_witness :
  exists r w',
    project_utilities.listFiles flat_samweb first_pop 3 "A or B" empty_world = Some (r, w') /\
    cache_valid w' /\ world_grows empty_world w'.
Proof.
  assert (exists r w', project_utilities.listFiles flat_samweb first_pop 3 "A or B" empty_world
                       = Some (r, w')) as (r & w' & H)
    by (eexists _, _; vm_compute; reflexivity).
  exists r, w'. split; [exact H|].
  destruct (listFiles_keeps_cache_valid flat_samweb first_pop 3 "A or B" empty_world w' r)
    as (Hc & Hg & _); [|exact H|done].
  intros k l Hk. simpl in Hk. by rewrite lookup_empty in Hk.
Defined.

(** ** Directories and the token file *)

Section Directories.
Import larbatch_utilities larbatch_utilities_ext project_utilities_ext.
Variables (sys : System) (px : Posix).
Implicit Types (s p path suf : string) (st : proc_state).

Ltac proc_unfold :=
  unfold mbind, proc_mbind, mret, proc_ret, proc_get, proc_modify, proc_raise.

(** *** fast_isdir *)

Lemma slice_last_endswith n s suf :
  String.length suf = n -> String.eqb (PyStr.slice_last n s) suf = PyStr.endswith s suf.
Proof.
  intros <-. unfold PyStr.slice_last, PyStr.endswith.
  destruct (Nat.leb_spec (String.length suf) (String.length s)) as [Hle|Hlt]; [done|].
  replace (String.length s - String.length suf)%nat with O by lia. simpl.
  apply String.eqb_neq. intros ->. lia.
Qed.

Lemma fast_isdir_endswith path :
  fast_isdir px path =
  negb (existsb (PyStr.endswith path) file_suffixes) && posix_isdir px path.
Proof.
  unfold fast_isdir, file_suffixes. rewrite !slice_last_endswith by done. simpl.
  rewrite orb_false_r, !negb_orb, !andb_assoc.
  by destruct (_ && posix_isdir px path).
Qed.

(** *** get_scratch_dir *)

Lemma stateless_bind {A B} (m : proc A) (f : A -> proc B) :
  stateless m -> (forall a, stateless (f a)) -> stateless (m ≫= f).
Proof.
  intros Hm Hf st. proc_unfold. specialize (Hm st).
  destruct (m st) as [[a|e] st']; simpl in *; subst; [apply Hf | done].
Qed.

Lemma stateless_ret {A} (a : A) : stateless (mret a : proc A).
Proof. done. Qed.

Lemma stateless_raise {A} e : stateless (@proc_raise A e).
Proof. done. Qed.

Lemma stateless_get_experiment : stateless (get_experiment sys).
Proof. intros st. apply get_experiment_state. Qed.

Lemma stateless_get_user : stateless (get_user sys).
Proof.
  unfold get_user. apply stateless_bind; [intros st; apply get_role_state|].
  intros role. destruct (String.eqb role "Production"); [|apply stateless_ret].
  unfold get_prouser. apply stateless_bind; [apply stateless_get_experiment|].
  intros ?. apply stateless_ret.
Qed.

Lemma stateless_get_scratch_dir : stateless (get_scratch_dir sys px).
Proof.
  unfold get_scratch_dir. apply stateless_bind; [done|]. intros st0.
  apply stateless_bind.
  - destruct (environ st0 !! "TMPDIR"); [apply stateless_ret|].
    destruct (environ st0 !! "SCRATCH"); [apply stateless_ret|].
    apply stateless_bind; [apply stateless_get_experiment|]. intros experiment.
    apply stateless_bind; [apply stateless_get_user|]. intros user.
    destruct (unusable px _); [|apply stateless_ret].
    apply stateless_bind; [apply stateless_get_experiment|]. intros experiment'.
    apply stateless_bind; [apply stateless_get_user|]. intros user'.
    apply stateless_ret.
  - intros scratch. destruct (String.eqb scratch ""); [apply stateless_raise|].
    destruct (unusable px scratch); [apply stateless_raise | apply stateless_ret].
Qed.

Lemma get_scratch_dir_checked st d :
  (get_scratch_dir sys px st).1 = Ok d -> d <> "" /\ unusable px d = false.
Proof.
  unfold get_scratch_dir.
  unfold mbind at 1 2, proc_mbind at 1 2, proc_get. cbn beta iota.
  destruct (_ st) as [[scratch|e] st1]; [|done].
  destruct (String.eqb_spec scratch "") as [|Hne]; [done|].
  destruct (unusable px scratch) eqn:Hu; [done|].
  proc_unfold. simpl. by intros [= <-].
Qed.

Lemma get_scratch_dir_TMPDIR st v :
  environ st !! "TMPDIR" = Some v ->
  (get_scratch_dir sys px st).1 =
  if String.eqb v "" then Raise (RuntimeError "No scratch directory specified.")
  else if unusable px v
       then Raise (RuntimeError ("Scratch directory " +:+ v
                                 +:+ " does not exist or is not writeable."))
       else Ok v.
Proof.
  intros Hv. unfold get_scratch_dir. proc_unfold. cbn beta iota. rewrite Hv.
  by destruct (String.eqb v ""), (unusable px v).
Qed.

(** *** use_token_auth *)

Lemma use_token_auth_run (fs : ProcFS) st :
  use_token_auth fs st =
  (Ok (), set_environ
     (<["BEARER_TOKEN_FILE" :=
          PyStr.os_path_join (default "/tmp" (environ st !! "TMPDIR")) (token_file_name fs)]>
        (delete "BEARER_TOKEN" (environ st))) st).
Proof.
  unfold use_token_auth, token_file_name. proc_unfold. cbn beta iota zeta.
  destruct (environ st !! "BEARER_TOKEN") eqn:Hb.
  - by rewrite lookup_delete_ne.
  - by rewrite (delete_id (environ st) "BEARER_TOKEN").
Qed.

(** *** mountpoint *)

Lemma rstrip_char_prefix c s : exists t, s = PyStr.rstrip_char c s +:+ t.
Proof.
  induction s as [|d s [t IH]]; [by exists ""|]. simpl.
  destruct (PyStr.rstrip_char c s) as [|e r] eqn:E.
  - destruct (Ascii.eqb d c); [by exists (String d s) | by exists s].
  - exists t. rewrite append_cons. f_equal. exact IH.
Qed.

Lemma dirname_prefix p : exists t, p = PyStr.os_path_dirname p +:+ t.
Proof.
  unfold PyStr.os_path_dirname. cbv zeta.
  set (head := Py.slice_to _ p).
  assert (exists t, p = head +:+ t) as [t Ht].
  { eexists. subst head. symmetry. apply slice_split. }
  destruct (_ && _); [|by exists t].
  destruct (rstrip_char_prefix "/" head) as [t' Ht'].
  exists (t' +:+ t). by rewrite <- append_assoc, <- Ht'.
Qed.

Lemma dirname_length p :
  (String.length (PyStr.os_path_dirname p) <= String.length p)%nat.
Proof.
  destruct (dirname_prefix p) as [t Ht]. rewrite Ht at 2. rewrite length_append. lia.
Qed.

Lemma dirname_fixed p :
  (String.length p <= String.length (PyStr.os_path_dirname p))%nat ->
  PyStr.os_path_dirname p = p.
Proof.
  destruct (dirname_prefix p) as [t Ht]. intros Hlen.
  rewrite Ht in Hlen at 1. rewrite length_append in Hlen.
  destruct t; [|simpl in Hlen; lia]. by rewrite append_nil_r in Ht.
Qed.

Lemma mountpoint_loop_spec fuel p :
  (String.length p <= fuel)%nat ->
  exists n, mountpoint_loop px fuel p = Some (ancestor n p) /\
    (os_path_ismount px (ancestor n p) = true \/
     PyStr.os_path_dirname (ancestor n p) = ancestor n p) /\
    forall m, (m < n)%nat -> os_path_ismount px (ancestor m p) = false.
Proof.
  revert p. induction fuel as [|fuel IH]; intros p Hlen.
  - exists O. simpl. destruct (os_path_ismount px p) eqn:Hm.
    + split; [done|]. split; [by left | intros; lia].
    + assert (p = "") as -> by (destruct p; [done | simpl in Hlen; lia]).
      split; [done|]. split; [by right | intros; lia].
  - cbn [mountpoint_loop]. destruct (os_path_ismount px p) eqn:Hm.
    { exists O. split; [done|]. split; [by left | intros; lia]. }
    destruct (Nat.leb_spec (String.length p) (String.length (PyStr.os_path_dirname p)))
      as [Hge|Hlt].
    { exists O. simpl. rewrite (dirname_fixed p Hge).
      split; [done|]. split; [by right | intros; lia]. }
    destruct (IH (PyStr.os_path_dirname p) ltac:(lia)) as (n & Hrun & Hend & Hbelow).
    exists (S n). cbn [ancestor]. split; [done|]. split; [done|].
    intros [|m] Hm'; [done|]. apply Hbelow. lia.
Qed.

End Directories.

(** X21.  [fast_isdir] says yes exactly for the directories whose path has
    none of the eight file endings: a directory named like a file is
    reported as no directory, and a path that is no directory never as
    one. *)
Theorem fast_isdir_skips_file_endings (px : Posix) (path : string) :
  project_utilities_ext.fast_isdir px path = true <->
  posix_isdir px path = true /\ forall suf, suf ∈ file_suffixes -> ~ has_suffix path suf.
Proof.
  rewrite fast_isdir_endswith, andb_true_iff, negb_true_iff.
  rewrite <- not_true_iff_false, existsb_elem_of.
  setoid_rewrite endswith_spec. split.
  - intros [Hno Hdir]. split; [done|]. intros suf Hin Hsuf. apply Hno. by exists suf.
  - intros [Hdir Hno]. split; [|done]. intros (suf & Hin & Hsuf). by eapply Hno.
Qed.

Lemma fast_isdir_skips_file_endings_witness :
  posix_isdir sample_posix "/tmp" = true /\
  forall suf, suf ∈ file_suffixes -> ~ has_suffix "/tmp" suf.
Proof. apply (proj1 (fast_isdir_skips_file_endings sample_posix "/tmp")). reflexivity. Defined.

(** X22.  [get_scratch_dir] leaves the process as it found it.  A path it
    returns is not empty and names a directory that can be written to.
    When [TMPDIR] is set, the result is its value or a [RuntimeError]:
    neither [SCRATCH] nor the two default paths are tried. *)
Theorem get_scratch_dir_usable (sys : System) (px : Posix) (st : proc_state) :
  (project_utilities_ext.get_scratch_dir sys px st).2 = st /\
  (forall d, (project_utilities_ext.get_scratch_dir sys px st).1 = Ok d ->
     d <> "" /\ posix_isdir px d = true /\
     posix_access px d project_utilities_ext.W_OK = true) /\
  (forall v, environ st !! "TMPDIR" = Some v ->
     (project_utilities_ext.get_scratch_dir sys px st).1 = Ok v \/
     exists msg, (project_utilities_ext.get_scratch_dir sys px st).1
                 = Raise (RuntimeError msg)).
Proof.
  split; [apply stateless_get_scratch_dir|]. split.
  - intros d Hd. apply get_scratch_dir_checked in Hd as [Hne Hu]. split; [done|].
    unfold project_utilities_ext.unusable in Hu.
    apply orb_false_iff in Hu as [H1 H2]. by apply negb_false_iff in H1, H2.
  - intros v Hv. rewrite (get_scratch_dir_TMPDIR sys px st v Hv).
    destruct (String.eqb v ""); [right; by eexists|].
    destruct (project_utilities_ext.unusable px v); [right; by eexists | by left].
Qed.

Lemma get_scratch_dir_usable_witness :
  ("/tmp" <> "" /\ posix_isdir sample_posix "/tmp" = true /\
   posix_access sample_posix "/tmp" project_utilities_ext.W_OK = true) /\
  ((project_utilities_ext.get_scratch_dir quiet_system sample_posix
      (setenv "SCRATCH" "/tmp" (setenv "TMPDIR" "/exp" sample_process))).1 = Ok "/exp" \/
   exists msg,
     (project_utilities_ext.get_scratch_dir quiet_system sample_posix
        (setenv "SCRATCH" "/tmp" (setenv "TMPDIR" "/exp" sample_process))).1
     = Raise (RuntimeError msg)).
Proof.
  split.
  - apply (proj1 (proj2 (get_scratch_dir_usable quiet_system sample_posix
                           (setenv "TMPDIR" "/tmp" sample_process)))).
    reflexivity.
  - apply (proj2 (proj2 (get_scratch_dir_usable quiet_system sample_posix
                           (setenv "SCRATCH" "/tmp" (setenv "TMPDIR" "/exp" sample_process))))).
    reflexivity.
Defined.

(** X23.  [use_token_auth] always returns.  Afterwards [BEARER_TOKEN] is
    not set, [BEARER_TOKEN_FILE] is the file [bt_project_py_<uid>_<pid>]
    in [TMPDIR], or in [/tmp] when [TMPDIR] is not set, every other
    variable and the token flag are as before, and a second call changes
    nothing. *)
Theorem use_token_auth_sets_token_file (fs : ProcFS) (st : proc_state) :
  let st' := (project_utilities_ext.use_token_auth fs st).2 in
  (project_utilities_ext.use_token_auth fs st).1 = Ok () /\
  token_ok st' = token_ok st /\
  environ st' !! "BEARER_TOKEN" = None /\
  environ st' !! "BEARER_TOKEN_FILE" =
    Some (PyStr.os_path_join (default "/tmp" (environ st !! "TMPDIR")) (token_file_name fs)) /\
  (forall var, var <> "BEARER_TOKEN" -> var <> "BEARER_TOKEN_FILE" ->
     environ st' !! var = environ st !! var) /\
  project_utilities_ext.use_token_auth fs st' = (Ok (), st').
Proof.
  rewrite use_token_auth_run. cbn [fst snd]. cbv zeta.
  set (path := PyStr.os_path_join _ _).
  split; [done|]. split; [done|]. cbn [set_environ environ token_ok].
  split; [by simplify_map_eq|]. split; [by simplify_map_eq|].
  split; [intros; by simplify_map_eq|].
  rewrite use_token_auth_run. cbn [set_environ environ token_ok].
  f_equal. unfold set_environ. f_equal.
  assert ((<["BEARER_TOKEN_FILE" := path]> (delete "BEARER_TOKEN" (environ st)))
            !! "TMPDIR" = environ st !! "TMPDIR") as -> by by simplify_map_eq.
  fold path. apply map_eq. intros var.
  destruct (decide (var = "BEARER_TOKEN_FILE")) as [->|]; [by simplify_map_eq|].
  destruct (decide (var = "BEARER_TOKEN")) as [->|]; by simplify_map_eq.
Qed.

Lemma use_token_auth_sets_token_file_witness :
  environ (project_utilities_ext.use_token_auth sample_procfs x509_process).2 !! "HOME"
  = environ x509_process !! "HOME".
Proof.
  apply (use_token_auth_sets_token_file sample_procfs x509_process); discriminate.
Defined.

(** X24.  [mountpoint] ends: as many rounds as the real path has
    characters are enough.  Of the real path and the directories above
    it, by [os.path.dirname], it returns the nearest one that is a mount
    point or that is its own parent; none below it is a mount point. *)
Theorem mountpoint_is_nearest (px : Posix) (path : string) (fuel : nat) :
  (String.length (os_path_realpath px path) <= fuel)%nat ->
  exists n,
    project_utilities_ext.mountpoint px fuel path
    = Some (ancestor n (os_path_realpath px path)) /\
    (os_path_ismount px (ancestor n (os_path_realpath px path)) = true \/
     PyStr.os_path_dirname (ancestor n (os_path_realpath px path))
     = ancestor n (os_path_realpath px path)) /\
    forall m, (m < n)%nat ->
      os_path_ismount px (ancestor m (os_path_realpath px path)) = false.
Proof. intros Hfuel. by apply mountpoint_loop_spec. Qed.

Lemma mountpoint_is_nearest_witness :
  exists n,
    project_utilities_ext.mountpoint sample_posix 20 "/exp/uboone/data"
    = Some (ancestor n "/exp/uboone/data") /\
    (os_path_ismount sample_posix (ancestor n "/exp/uboone/data") = true \/
     PyStr.os_path_dirname (ancestor n "/exp/uboone/data") = ancestor n "/exp/uboone/data") /\
    forall m, (m < n)%nat ->
      os_path_ismount sample_posix (ancestor m "/exp/uboone/data") = false.
Proof. apply (mountpoint_is_nearest sample_posix "/exp/uboone/data" 20). simpl. lia. Defined.

(** ** Checksums *)

Section Checksum.
Import zlib root_metadata.
Implicit Types (data : list Byte.byte) (x y k v : Z).

(** *** Two halves of sixteen bits *)

Lemma halves_add x y : 0 <= x < 65536 -> Z.lor (Z.shiftl y 16) x = y * 65536 + x.
Proof.
  intros Hx. rewrite Z.shiftl_mul_pow2 by lia. change (2 ^ 16) with 65536.
  pose proof (Z.add_lor_land (y * 65536) x) as Hadd.
  assert (Z.land (y * 65536) x = 0) as Hland; [|lia].
  apply Z.bits_inj'. intros i Hi. rewrite Z.land_spec, Z.bits_0.
  destruct (Z.lt_ge_cases i 16) as [Hlt|Hge].
  - change 65536 with (2 ^ 16). by rewrite Z.mul_pow2_bits_low.
  - rewrite (Z.bits_above_log2 x i); [apply andb_false_r | lia |].
    destruct (Z.eq_dec x 0) as [->|]; [simpl; lia|].
    apply Z.log2_lt_pow2; [lia|]. change (2 ^ i) with (2 ^ i).
    assert (2 ^ 16 <= 2 ^ i) by (apply Z.pow_le_mono_r; lia). lia.
Qed.

Lemma low_half v : Z.land v 65535 = v mod 65536.
Proof. change 65535 with (Z.ones 16). by rewrite Z.land_ones. Qed.

Lemma high_half v : Z.land (Z.shiftr v 16) 65535 = (v / 65536) mod 65536.
Proof. by rewrite low_half, Z.shiftr_div_pow2. Qed.

Lemma halves_decode x y :
  0 <= x < 65536 -> 0 <= y < 65536 ->
  Z.land (Z.lor (Z.shiftl y 16) x) 65535 = x /\
  Z.land (Z.shiftr (Z.lor (Z.shiftl y 16) x) 16) 65535 = y.
Proof.
  intros Hx Hy. rewrite halves_add, low_half, high_half by done.
  assert ((y * 65536 + x) / 65536 = y) as Hdiv.
  { rewrite Z.add_comm, Z.div_add by lia. rewrite Z.div_small by lia. lia. }
  rewrite Hdiv. split.
  - rewrite Z.add_comm, Z.mod_add by lia. by apply Z.mod_small.
  - by apply Z.mod_small.
Qed.

(** *** The two sums *)

Lemma adler32_sums_range data (s1 s2 : Z) :
  0 <= s1 < 65536 -> 0 <= s2 < 65536 ->
  0 <= (adler32_sums data s1 s2).1 < 65536 /\ 0 <= (adler32_sums data s1 s2).2 < 65536.
Proof.
  revert s1 s2. induction data as [|b data IH]; intros s1 s2 H1 H2; [done|].
  cbn [adler32_sums]. cbv zeta. apply IH.
  - pose proof (Z.mod_pos_bound (s1 + Z.of_N (Byte.to_N b)) BASE eq_refl).
    unfold BASE in *. lia.
  - pose proof (Z.mod_pos_bound (s2 + (s1 + Z.of_N (Byte.to_N b)) mod BASE) BASE eq_refl).
    unfold BASE in *. lia.
Qed.

Lemma adler32_sums_app data data' (s1 s2 : Z) :
  adler32_sums (data ++ data') s1 s2 =
  adler32_sums data' (adler32_sums data s1 s2).1 (adler32_sums data s1 s2).2.
Proof.
  revert s1 s2. induction data as [|b data IH]; intros s1 s2; [done|].
  cbn [app adler32_sums]. cbv zeta. apply IH.
Qed.

Lemma adler32_sums_shift data (s1 s2 : Z) k :
  adler32_sums data ((s1 - 1) mod BASE) ((s2 - k) mod BASE) =
  (((adler32_sums data s1 s2).1 - 1) mod BASE,
   ((adler32_sums data s1 s2).2 - k - Z.of_nat (length data)) mod BASE).
Proof.
  revert s1 s2 k. induction data as [|b data IH]; intros s1 s2 k.
  - simpl. by rewrite Z.sub_0_r.
  - cbn [adler32_sums length]. cbv zeta.
    set (v := Z.of_N (Byte.to_N b)).
    assert (((s1 - 1) mod BASE + v) mod BASE = ((s1 + v) mod BASE - 1) mod BASE) as ->.
    { rewrite Zplus_mod_idemp_l, Zminus_mod_idemp_l. f_equal. lia. }
    assert (((s2 - k) mod BASE + ((s1 + v) mod BASE - 1) mod BASE) mod BASE
            = ((s2 + (s1 + v) mod BASE) mod BASE - (k + 1)) mod BASE) as ->.
    { rewrite Zplus_mod_idemp_l, Zplus_mod_idemp_r, Zminus_mod_idemp_l. f_equal. lia. }
    rewrite IH. f_equal. f_equal. lia.
Qed.

Lemma adler32_halves data v :
  zlib.adler32 data v =
  Z.lor (Z.shiftl (adler32_sums data (v mod 65536) ((v / 65536) mod 65536)).2 16)
        (adler32_sums data (v mod 65536) ((v / 65536) mod 65536)).1.
Proof.
  unfold zlib.adler32. rewrite low_half, high_half.
  by destruct (adler32_sums data _ _).
Qed.

Lemma adler32_range data v : 0 <= zlib.adler32 data v < 4294967296.
Proof.
  rewrite adler32_halves.
  destruct (adler32_sums_range data (v mod 65536) ((v / 65536) mod 65536)) as [H1 H2].
  { apply Z.mod_pos_bound. lia. }
  { apply Z.mod_pos_bound. lia. }
  rewrite halves_add by done. lia.
Qed.

Lemma adler32_nil v : 0 <= v < 4294967296 -> zlib.adler32 [] v = v.
Proof.
  intros Hv. rewrite adler32_halves. cbn [adler32_sums fst snd].
  rewrite halves_add by (apply Z.mod_pos_bound; lia).
  rewrite (Z.mod_small (v / 65536)).
  - pose proof (Z.div_mod v 65536 ltac:(lia)). lia.
  - split; [apply Z.div_pos; lia|]. apply Z.div_lt_upper_bound; lia.
Qed.

Lemma adler32_app data data' v :
  zlib.adler32 (data ++ data') v = zlib.adler32 data' (zlib.adler32 data v).
Proof.
  rewrite (adler32_halves (data ++ data')), (adler32_halves data'), adler32_sums_app.
  destruct (adler32_sums_range data (v mod 65536) ((v / 65536) mod 65536)) as [H1 H2].
  { apply Z.mod_pos_bound. lia. }
  { apply Z.mod_pos_bound. lia. }
  rewrite (adler32_halves data v).
  destruct (halves_decode _ _ H1 H2) as [Hlow Hhigh].
  rewrite low_half in Hlow. rewrite high_half in Hhigh. by rewrite Hlow, Hhigh.
Qed.

Lemma enstoreChecksum_loop_data blocks crc :
  0 <= crc < 4294967296 ->
  enstoreChecksum_loop blocks crc = zlib.adler32 (read_data blocks) crc.
Proof.
  revert crc. induction blocks as [|s blocks IH]; intros crc Hcrc.
  - simpl. by rewrite adler32_nil.
  - destruct s as [|b s]; [simpl; by rewrite adler32_nil|].
    cbn [enstoreChecksum_loop read_data]. rewrite adler32_app.
    apply IH, adler32_range.
Qed.

End Checksum.

(** X25.  The checksum stored in dCache, computed from the start value 1,
    is converted to the checksum computed from the start value 0:
    [convert_1_adler32_to_0_adler32] applied to the Adler-32 value of some
    bytes from 1 and to their number gives their Adler-32 value from 0. *)
Theorem convert_1_adler32_to_0_adler32_correct (data : list Byte.byte) :
  root_metadata.convert_1_adler32_to_0_adler32
    (zlib.adler32 data 1) (Z.of_nat (length data))
  = zlib.adler32 data 0.
Proof.
  unfold root_metadata.convert_1_adler32_to_0_adler32. cbv zeta.
  rewrite (adler32_halves data 1), (adler32_halves data 0).
  change (1 mod 65536) with 1. change (1 / 65536 mod 65536) with 0.
  change (0 mod 65536) with 0. change (0 / 65536 mod 65536) with 0.
  pose proof (adler32_sums_shift data 1 0 0) as Hshift.
  change ((1 - 1) mod zlib.BASE) with 0 in Hshift.
  change ((0 - 0) mod zlib.BASE) with 0 in Hshift.
  rewrite Hshift. cbn [fst snd].
  destruct (adler32_sums_range data 1 0) as [H1 H2]; [lia..|].
  destruct (halves_decode _ _ H1 H2) as [-> ->].
  set (x := (zlib.adler32_sums data 1 0).1) in *.
  set (y := (zlib.adler32_sums data 1 0).2) in *.
  unfold zlib.BASE.
  assert ((x + 65521 - 1) mod 65521 = (x - 1) mod 65521) as ->.
  { replace (x + 65521 - 1) with (x - 1 + 1 * 65521) by lia. apply Z.mod_add. lia. }
  assert ((y + 65521 - Z.of_nat (length data) mod 65521) mod 65521
          = (y - 0 - Z.of_nat (length data)) mod 65521) as ->.
  { rewrite Zminus_mod_idemp_r.
    replace (y + 65521 - Z.of_nat (length data))
      with (y - 0 - Z.of_nat (length data) + 1 * 65521) by lia.
    apply Z.mod_add. lia. }
  rewrite halves_add; [by rewrite Z.shiftl_mul_pow2 by lia|].
  pose proof (Z.mod_pos_bound (x - 1) 65521 eq_refl). lia.
Qed.

(** X26.  [enstoreChecksum] returns, in decimal, the Adler-32 value from 0
    of the bytes it has read up to the first empty read, however the reads
    cut them into blocks. *)
Theorem enstoreChecksum_of_read_data (blocks : list (list Byte.byte)) :
  root_metadata.enstoreChecksum blocks = Py.format_d (zlib.adler32 (read_data blocks) 0) /\
  forall blocks', read_data blocks' = read_data blocks ->
    root_metadata.enstoreChecksum blocks' = root_metadata.enstoreChecksum blocks.
Proof.
  assert (forall bs, root_metadata.enstoreChecksum bs
                     = Py.format_d (zlib.adler32 (read_data bs) 0)) as H.
  { intros bs. unfold root_metadata.enstoreChecksum. cbv zeta.
    rewrite enstoreChecksum_loop_data by lia.
    pose proof (adler32_range (read_data bs) 0) as Hr.
    destruct (Z.ltb_spec (zlib.adler32 (read_data bs) 0) 0); [lia | done]. }
  split; [apply H|]. intros blocks' Heq. by rewrite !H, Heq.
Qed.

Lemma enstoreChecksum_of_read_data_witness :
  root_metadata.enstoreChecksum [[Byte.x61; Byte.x62]; [Byte.x63]; []; [Byte.x64]]
  = root_metadata.enstoreChecksum [[Byte.x61]; [Byte.x62; Byte.x63]].
Proof.
  apply (proj2 (enstoreChecksum_of_read_data [[Byte.x61]; [Byte.x62; Byte.x63]])). reflexivity.
Defined.

(** ** Container images *)

Section Images.
Import project_utilities_ext.

Lemma lower_char_lower c : Py.lower_char (Py.lower_char c) = Py.lower_char c.
Proof. by destruct c as [[] [] [] [] [] [] [] []]. Qed.

Lemma lower_lower s : Py.lower (Py.lower s) = Py.lower s.
Proof. induction s as [|c s IH]; [done|]. simpl. by rewrite lower_char_lower, IH. Qed.

End Images.

(** X27.  [get_singularity] returns the empty string or a path that
    exists.  When the name is no existing path, neither as given nor in
    lower case, the image is looked up by the name in lower case: the
    alias is found whatever the case of its letters. *)
Theorem get_singularity_exists (exists_ : string -> bool) (abspath : string -> string)
    (name : string) :
  (project_utilities_ext.get_singularity exists_ abspath name = "" \/
   exists_ (project_utilities_ext.get_singularity exists_ abspath name) = true) /\
  (exists_ (abspath name) = false -> exists_ (abspath (Py.lower name)) = false ->
   project_utilities_ext.get_singularity exists_ abspath (Py.lower name)
   = project_utilities_ext.get_singularity exists_ abspath name).
Proof.
  unfold project_utilities_ext.get_singularity. cbv zeta. split.
  - repeat (match goal with
            | |- context [if exists_ ?p then _ else _] =>
                let E := fresh "E" in destruct (exists_ p) eqn:E
            end; [by right|]).
    by left.
  - intros -> ->. by rewrite lower_lower.
Qed.

Lemma get_singularity_exists_witness :
  project_utilities_ext.get_singularity
    (String.eqb "/cvmfs/singularity.opensciencegrid.org/fermilab/fnal-wn-sl7:latest")
    (fun p => "/home/alice/" +:+ p) (Py.lower "SL7")
  = project_utilities_ext.get_singularity
      (String.eqb "/cvmfs/singularity.opensciencegrid.org/fermilab/fnal-wn-sl7:latest")
      (fun p => "/home/alice/" +:+ p) "SL7".
Proof.
  apply (proj2 (get_singularity_exists
                  (String.eqb "/cvmfs/singularity.opensciencegrid.org/fermilab/fnal-wn-sl7:latest")
                  (fun p => "/home/alice/" +:+ p) "SL7")); reflexivity.
Defined.

(** ** tokenizeRPN: the limit clause and what follows it *)

Section LimitTail.
Import project_utilities.
Implicit Types (s sub dim : string) (n : nat).

Lemma startswith_slice_to n s sub :
  Py.startswith (Py.slice_to n s) sub = true -> Py.startswith s sub = true.
Proof.
  rewrite !startswith_spec. intros [t Ht]. exists (t +:+ Py.slice_from n s).
  by rewrite <- append_assoc, <- Ht, slice_split.
Qed.

Lemma index_of_first sub s n :
  sub <> "" -> Py.index_of sub s = Some n -> Py.index_of sub (Py.slice_to n s) = None.
Proof.
  intros Hsub. revert n. induction s as [|c s IH]; intros n.
  - by destruct sub.
  - rewrite index_of_cons. destruct (Py.startswith (String c s) sub) eqn:E.
    + intros [= <-]. by destruct sub.
    + destruct (Py.index_of sub s) as [m|] eqn:Em; [|done]. intros [= <-].
      cbn [Py.slice_to]. rewrite index_of_cons, (IH m eq_refl).
      destruct (Py.startswith (String c (Py.slice_to m s)) sub) eqn:E'; [|done].
      apply (startswith_slice_to (S m) (String c s)) in E'. congruence.
Qed.

Lemma index_of_tail sub s n :
  Py.index_of sub s = Some n -> exists post, Py.slice_from n s = sub +:+ post.
Proof.
  intros (pre & post & -> & <-)%index_of_Some. exists post.
  replace (String.length pre) with (String.length pre + 0)%nat by lia.
  by rewrite slice_from_app.
Qed.

End LimitTail.

(** X28.  [tokenizeRPN] cuts the dimension at the first ['with limit']:
    what comes before it is tokenized as a dimension of its own, and
    everything from it on, whatever follows the number, is the last token
    as it stands. *)
Theorem tokenizeRPN_cuts_at_first_limit (dim : string) (n : nat) :
  Py.find dim "with limit" = Z.of_nat n ->
  project_utilities.tokenizeRPN dim =
  r ← project_utilities.tokenizeRPN (Py.slice_to n dim); Ok (r ++ [Py.slice_from n dim]).
Proof.
  unfold Py.find. destruct (Py.index_of "with limit" dim) as [m|] eqn:Hm; [|lia].
  intros ->%Nat2Z.inj.
  pose proof (index_of_first "with limit" dim n ltac:(done) Hm) as Hhead.
  destruct (index_of_tail _ _ _ Hm) as [post Htail].
  unfold project_utilities.tokenizeRPN, Py.find. rewrite Hm, Hhead. cbv zeta.
  replace (0 <=? Z.of_nat n) with true by (symmetry; apply Z.leb_le; lia).
  rewrite Nat2Z.id. change (0 <=? -1) with false. cbv iota.
  destruct (project_utilities.tokenize_loop _ _) as [st|e]; simpl; [|done].
  rewrite Htail. done.
Qed.

Lemma tokenizeRPN_cuts_at_first_limit_witness :
  project_utilities.tokenizeRPN "a or b with limit 2 or ( c )" =
  r ← project_utilities.tokenizeRPN (Py.slice_to 7 "a or b with limit 2 or ( c )");
  Ok (r ++ [Py.slice_from 7 "a or b with limit 2 or ( c )"]).
Proof. apply (tokenizeRPN_cuts_at_first_limit "a or b with limit 2 or ( c )" 7). reflexivity. Defined.
